(* ===== verification/_CoqProject ===== *)
-Q . S2P
Prelude.v
Uint256.v
Params.v
GoMath.v
VmStack.v
Analysis.v
Rlp.v
RlpProofs.v
RlpProps.v
StateDB.v
StateInv.v
StateSpec.v
StateUndo.v
StateProps.v
VmCore.v
VmGas.v
Instructions.v
JumpTable.v
Interpreter.v
VmInv.v
GasProofs.v
ExecProofs.v
RunProofs.v
Fuel.v
VmProps.v
InstrProps.v
JumpProps.v
OvmProps.v
Transition.v
TransProps.v
Consensus.v
ConsensusProps.v
