(* ===== verification/Prelude.v ===== *)
(** * Octopus blockchain: the verification library

    Octopus is a blockchain node written in Go.  This library models its
    execution layer, from the encoding of values to the application of a message
    to the state, and its header rules, and proves what makes them correct.

    ** The program

    A transaction reaches the state as a message ([src/transition]): the sender
    buys gas from the block's gas pool, and the message becomes a call or a
    contract creation of the virtual machine, the OVM ([src/vm]).  The OVM
    interprets byte code with a stack, a byte memory and a gas counter; the cost
    and the effect of every instruction come from one of ten instruction sets
    that the chain rules ([src/entity]) select.  Instructions read and write
    accounts through the state database ([src/operationdb]): objects cached over
    a trie, a journal of reversible changes, a refund counter, logs and an
    access list.  Addresses of new contracts are hashes of RLP-encoded data
    ([src/rlp]).  Blocks are linked by headers whose fields the consensus rules
    ([src/consensus], [src/blockchain/octopus_validator.go]) prescribe.

    ** How the code is modelled

    Pure functions are Gallina functions.  Stateful code is a function of the
    state in the monad [M S A = S -> outcome (A * S)]: an [outcome] is a value, a
    Go panic with its cause, or [NoFuel] for a loop cut off by its fuel.  Go
    errors are values.  A [uint64] is a [Z] with every wrap-around written out
    ([+64], [-64], [*64], [wrap64], [int64_of]); a byte string is a list of [Z];
    a [*big.Int] is a [Z], or an [option Z] where the code can meet nil; an
    address or a hash is the number its bytes spell.  Maps are [gmap]s.  Slices
    are indexed with the bounds checks of Go.  [wp] is the weakest precondition
    used to reason about monadic programs.

    The 256-bit integers, the hash functions, the curve operation and a byte
    copy are packages the repository imports; they are the classes [Uint256],
    [Crypto] and [ByteUtils] of Uint256.v with their documented laws, and an
    instance shows that the laws can hold and makes every model executable.

    ** Files

    - Prelude.v: widths, outcomes and the monad, [wp], byte strings, slices,
      tactics and hints.
    - Uint256.v: the imported arithmetic and hashes, as classes with laws.
    - Params.v: [entity/octopus_entity_params.go] and the fork schedule.
    - GoMath.v: checked arithmetic of [entity/math/integer.go], padding.
    - VmStack.v: stack, memory, memory sizes and [getData] of [src/vm].
    - Analysis.v: [vm/octopus_analysis.go], the bit vector of PUSH operands.
    - Rlp.v, RlpProofs.v, RlpProps.v: [src/rlp] without reflection and streams.
    - StateDB.v: every operation of [operationdb], its journal and access list;
      StateInv.v its invariant; StateSpec.v the abstract accounts it refines;
      StateUndo.v the journal as an undo log; StateProps.v the properties.
    - VmCore.v, VmGas.v, Instructions.v, JumpTable.v, Interpreter.v: the OVM:
      state and opcodes, gas functions, instructions, instruction sets, the main
      loop with the entry points [Call], [CallCode], [DelegateCall],
      [StaticCall], [Create], [Create2] and the precompiled contracts.
    - VmInv.v, GasProofs.v, ExecProofs.v, RunProofs.v, Fuel.v: the machine
      invariant and the contracts of gas functions, instructions, the loop and
      the entry points; VmProps.v, InstrProps.v, JumpProps.v, OvmProps.v: the
      properties of the virtual machine.
    - Transition.v, TransProps.v: gas pool, intrinsic gas and [ApplyMessage].
    - Consensus.v, ConsensusProps.v: difficulty, base fee, gas limit and header
      verification.

    ** What the theorems show

    - Runs: every run ends within its gas, never reads or writes out of range,
      keeps the state well formed and returns no more gas than it received; the
      only panics left are the ones the source raises itself (a negative refund
      counter, an unimplemented method, a cached bit vector too short for the code).
      One iteration preserves the machine invariant and consumes gas.
    - Instructions: arithmetic, comparison, bitwise, shift, push, stack, memory
      and jump instructions compute what their reference definitions say.
    - Prices: memory expansion, call gas, storage writes, the code deposit.
    - State: each operation refines an operation on abstract accounts, readers
      see through the caches, the journal undoes any sequence of operations,
      finalisation commits, transfers conserve the total up to what new accounts
      are given.
    - RLP: the buffered encoder equals the recursive definition; splitting
      inverts it, accepts canonical input only and is total.
    - Messages: the verdict on a message and its gas accounting on every branch.
    - Headers: acceptance is exactly the rules; chains of accepted headers keep
      the invariant; headers built by the rules are accepted.

    ** Fuel

    The loop of the interpreter is cut off by a fuel that also bounds the depth
    of nested calls.  Every instruction that does not end the run costs at least
    one unit of gas (checked on all ten instruction sets), so gas + 1 iterations
    suffice; the termination theorems state this, and a larger fuel gives the
    same result.  The loops of [codeBitmap] and [CountValues] have fuels proved
    to suffice.  No other definition has fuel.

    ** Left out

    Tracing hooks, printing, metrics and the pools of reusable buffers have no
    effect on results.  The trie under the state database is seen only through
    account, storage and code lookups; committing, hashing and copying the state
    are not modelled.  Of RLP the reflective part and the stream decoder are not
    modelled, of the proof of work nothing but the difficulty.  A jump table is a
    value, so the sharing of entries between copies is not visible.  Networking,
    storage engines, the transaction pool, mining, accounts, RPC and commands are
    outside the library.

    ** Next

    The stream decoder and big integers of RLP, the trie with its node encoding
    and proofs, the pool of pending transactions and its price ordering, fork
    choice and fork identifiers, block rewards, receipts and the block
    processor. *)

From stdpp Require Export base list numbers gmap option strings.
From Stdlib Require Export ZArith Lia ZifyNat.
#[export] Set Default Goal Selector "!".
#[global] Open Scope Z_scope.

(** ** Machine widths

    A Go [uint64] is a [Z] in [[0, two64)]; every operation of the code that
    can leave that range is written with an explicit wrap. *)
Abbreviation two63 := 9223372036854775808 (only parsing).
Abbreviation two64 := 18446744073709551616 (only parsing).
Abbreviation two160 := 1461501637330902918203684832716283019655932542976 (only parsing).
Abbreviation two255 :=
  57896044618658097711785492504343953926634992332820282019728792003956564819968 (only parsing).
Abbreviation two256 :=
  115792089237316195423570985008687907853269984665640564039457584007913129639936 (only parsing).

Declare Scope go_scope.
Delimit Scope go_scope with go.
#[global] Open Scope go_scope.

(** Wrap-around of [uint64] arithmetic. *)
Definition wrap64 (z : Z) : Z := z mod two64.
Notation "x +64 y" := (wrap64 (x + y)) (at level 50, left associativity) : go_scope.
Notation "x -64 y" := (wrap64 (x - y)) (at level 50, left associativity) : go_scope.
Notation "x *64 y" := (wrap64 (x * y)) (at level 40, left associativity) : go_scope.

(** The conversion [int64(x)] of a [uint64] (two's complement). *)
Definition int64_of (z : Z) : Z :=
  let w := wrap64 z in if w <? two63 then w else w - two64.

Definition is_u64 (z : Z) : Prop := 0 <= z < two64.
Definition is_u256 (z : Z) : Prop := 0 <= z < two256.
Definition is_byte (z : Z) : Prop := 0 <= z < 256.

(** Length of a Go slice. *)
Definition zlen {A} (l : list A) : Z := Z.of_nat (length l).

(** ** Go control flow: results, panics, and fuel

    [Panic] is a Go run-time panic, classified by its cause; [NoFuel] only
    arises in definitions that bound a loop of the source with fuel. *)
Inductive panic : Set :=
| PIndex            (* index or slice bounds out of range *)
| PBitvec           (* index out of range of a jump-destination bit vector *)
| PNil              (* nil pointer dereference *)
| PRefund           (* "Refund counter below zero" *)
| PNotImplemented   (* panic("implement me") *)
| PTable            (* an invalid jump table *)
| PGasPool          (* "gas pool pushed above uint64" *)
| PDivZero.         (* division by zero *)

#[export] Instance panic_eq_dec : EqDecision panic.
Proof. solve_decision. Defined.

Inductive outcome (A : Type) : Type :=
| Ret (a : A)
| Panic (p : panic)
| NoFuel.
Arguments Ret {A} a.
Arguments Panic {A} p.
Arguments NoFuel {A}.

(** Stateful code: a function from the state to a result and a new state. *)
Definition M (S A : Type) : Type := S -> outcome (A * S).

Definition ret {S A} (a : A) : M S A := fun s => Ret (a, s).
Definition bind {S A B} (m : M S A) (k : A -> M S B) : M S B :=
  fun s => match m s with
           | Ret (a, s') => k a s'
           | Panic p => Panic p
           | NoFuel => NoFuel
           end.
Definition get {S} : M S S := fun s => Ret (s, s).
Definition put {S} (s : S) : M S unit := fun _ => Ret (tt, s).
Definition modify {S} (f : S -> S) : M S unit := fun s => Ret (tt, f s).
Definition gets {S A} (f : S -> A) : M S A := fun s => Ret (f s, s).
Definition panicM {S A} (p : panic) : M S A := fun _ => Panic p.
(** A computation of a part of the state, or a partial pure function. *)
Definition liftO {S A} (o : outcome A) : M S A :=
  fun s => match o with Ret a => Ret (a, s) | Panic p => Panic p | NoFuel => NoFuel end.

Notation "x <- m ;; k" := (bind m (fun x => k))
  (at level 95, m at next level, right associativity) : go_scope.
Notation "'let!' pat := m ;; k" := (bind m (fun x => match x with pat => k end))
  (at level 95, pat pattern, m at next level, right associativity) : go_scope.
Notation "m ;;; k" := (bind m (fun _ => k))
  (at level 95, right associativity) : go_scope.

(** Partial pure code. *)
Definition obind {A B} (m : outcome A) (k : A -> outcome B) : outcome B :=
  match m with Ret a => k a | Panic p => Panic p | NoFuel => NoFuel end.
Notation "x <-o m ;; k" := (obind m (fun x => k))
  (at level 95, m at next level, right associativity) : go_scope.
Notation "'let!o' pat := m ;; k" := (obind m (fun x => match x with pat => k end))
  (at level 95, pat pattern, m at next level, right associativity) : go_scope.

(** Weakest preconditions: [wp E m s Q] holds when [m] started in [s] ends in
    a result satisfying [Q] or in a panic allowed by [E]; it never runs out of
    fuel. *)
Definition wp {S A} (E : panic -> Prop) (m : M S A) (s : S) (Q : A -> S -> Prop) : Prop :=
  match m s with
  | Ret (a, s') => Q a s'
  | Panic p => E p
  | NoFuel => False
  end.

Section wp.
Context {S : Type} {E : panic -> Prop}.

Lemma wp_ret {A} (a : A) (s : S) (Q : A -> S -> Prop) : Q a s -> wp E (ret a) s Q.
Proof. done. Qed.

Lemma wp_bind {A B} (m : M S A) (k : A -> M S B) (s : S) (Q : B -> S -> Prop) :
  wp E m s (fun a s' => wp E (k a) s' Q) -> wp E (bind m k) s Q.
Proof. unfold wp, bind. by destruct (m s) as [[a s']|p|]. Qed.

Lemma wp_mono {A} (m : M S A) (s : S) (Q Q' : A -> S -> Prop) :
  wp E m s Q -> (forall a s', Q a s' -> Q' a s') -> wp E m s Q'.
Proof. unfold wp. destruct (m s) as [[a s']|p|]; auto. Qed.

Lemma wp_get (s : S) (Q : S -> S -> Prop) : Q s s -> wp E get s Q.
Proof. done. Qed.

Lemma wp_put (s s0 : S) (Q : unit -> S -> Prop) : Q tt s0 -> wp E (put s0) s Q.
Proof. done. Qed.

Lemma wp_modify (f : S -> S) (s : S) (Q : unit -> S -> Prop) :
  Q tt (f s) -> wp E (modify f) s Q.
Proof. done. Qed.

Lemma wp_gets {A} (f : S -> A) (s : S) (Q : A -> S -> Prop) :
  Q (f s) s -> wp E (gets f) s Q.
Proof. done. Qed.

Lemma wp_liftO {A} (o : outcome A) (s : S) (Q : A -> S -> Prop) a :
  o = Ret a -> Q a s -> wp E (liftO o) s Q.
Proof. unfold wp, liftO. by intros ->. Qed.

Lemma wp_panic {A} p (s : S) (Q : A -> S -> Prop) : E p -> wp E (panicM p) s Q.
Proof. done. Qed.

Lemma wp_if {A} (b : bool) (m1 m2 : M S A) (s : S) (Q : A -> S -> Prop) :
  (b = true -> wp E m1 s Q) -> (b = false -> wp E m2 s Q) ->
  wp E (if b then m1 else m2) s Q.
Proof. destruct b; auto. Qed.

Lemma wp_run {A} (m : M S A) (s : S) (Q : A -> S -> Prop) :
  wp E m s Q ->
  (exists a s', m s = Ret (a, s') /\ Q a s') \/ (exists p, m s = Panic p /\ E p).
Proof. unfold wp. destruct (m s) as [[a s']|p|]; naive_solver. Qed.
End wp.

Create HintDb go discriminated.
#[export] Hint Resolve wp_ret wp_get wp_put wp_modify wp_gets wp_panic : go.

(** ** Integer lemmas shared by the components *)
Lemma wrap64_range z : is_u64 (wrap64 z).
Proof. unfold is_u64, wrap64. apply Z.mod_pos_bound. lia. Qed.

Lemma wrap64_small z : is_u64 z -> wrap64 z = z.
Proof. unfold is_u64, wrap64. intros. by apply Z.mod_small. Qed.

Lemma int64_of_small z : 0 <= z < two63 -> int64_of z = z.
Proof.
  intros H. unfold int64_of. rewrite wrap64_small by (unfold is_u64; lia).
  destruct (Z.ltb_spec z two63); lia.
Qed.

Lemma zlen_nonneg {A} (l : list A) : 0 <= zlen l.
Proof. unfold zlen. lia. Qed.

Lemma zlen_app {A} (l k : list A) : zlen (l ++ k) = zlen l + zlen k.
Proof. unfold zlen. rewrite length_app. lia. Qed.

Lemma zlen_snoc {A} (l : list A) (x : A) : zlen (l ++ [x]) = zlen l + 1.
Proof. by rewrite zlen_app. Qed.

#[export] Hint Resolve wrap64_range zlen_nonneg : go.

(** ** Byte strings

    A byte is a [Z] in [[0,256)].  A Go array [[20]byte] or [[32]byte] used as
    an address or a hash is represented by its big-endian value. *)
Fixpoint be_value (bs : list Z) (acc : Z) : Z :=
  match bs with
  | [] => acc
  | b :: r => be_value r (acc * 256 + b)
  end.

(** The [n] low bytes of [v], big-endian. *)
Fixpoint be_bytes (n : nat) (v : Z) : list Z :=
  match n with
  | O => []
  | S k => be_bytes k (v / 256) ++ [v mod 256]
  end.

Lemma length_be_bytes n v : length (be_bytes n v) = n.
Proof.
  revert v; induction n as [|n IH]; intros v; simpl; [done|].
  rewrite length_app, IH. simpl. lia.
Qed.

Lemma be_bytes_byte n v : Forall is_byte (be_bytes n v).
Proof.
  revert v; induction n as [|n IH]; intros v; simpl; [constructor|].
  apply Forall_app; split; [apply IH|].
  constructor; [|constructor]. unfold is_byte. apply Z.mod_pos_bound. lia.
Qed.

Lemma be_value_app bs cs acc : be_value (bs ++ cs) acc = be_value cs (be_value bs acc).
Proof. revert acc; induction bs as [|b bs IH]; intros acc; simpl; auto. Qed.

Lemma be_value_acc bs acc : be_value bs acc = acc * 256 ^ zlen bs + be_value bs 0.
Proof.
  revert acc. induction bs as [|b bs IH]; intros acc.
  - unfold zlen; simpl. lia.
  - cbn [be_value]. rewrite Z.mul_0_l, Z.add_0_l, IH, (IH b).
    replace (zlen (b :: bs)) with (Z.succ (zlen bs)) by (unfold zlen; simpl; lia).
    rewrite Z.pow_succ_r by apply zlen_nonneg. lia.
Qed.

Lemma be_value_bound bs : Forall is_byte bs -> 0 <= be_value bs 0 < 256 ^ zlen bs.
Proof.
  induction 1 as [|b bs Hb _ IH]; [unfold zlen; simpl; lia|].
  cbn [be_value]. rewrite Z.mul_0_l, Z.add_0_l, be_value_acc.
  replace (zlen (b :: bs)) with (Z.succ (zlen bs)) by (unfold zlen; simpl; lia).
  rewrite Z.pow_succ_r by apply zlen_nonneg. unfold is_byte in Hb. nia.
Qed.

Lemma be_value_bytes n v : be_value (be_bytes n v) 0 = v mod 256 ^ Z.of_nat n.
Proof.
  revert v; induction n as [|n IH]; intros v.
  - simpl. by rewrite Z.mod_1_r.
  - simpl be_bytes. rewrite be_value_app. cbn [be_value]. rewrite IH.
    replace (Z.of_nat (S n)) with (Z.succ (Z.of_nat n)) by lia.
    rewrite Z.pow_succ_r by lia.
    rewrite (Z.rem_mul_r v 256 (256 ^ Z.of_nat n)) by lia. lia.
Qed.

Lemma be_bytes_value bs : Forall is_byte bs -> be_bytes (length bs) (be_value bs 0) = bs.
Proof.
  induction bs as [|b bs IH] using rev_ind; intros Hb; [done|].
  apply Forall_app in Hb as [Hbs Hb]. apply Forall_inv in Hb. unfold is_byte in Hb.
  rewrite length_app, Nat.add_comm. simpl be_bytes.
  rewrite be_value_app. cbn [be_value].
  rewrite Z.div_add_l, Z.div_small, Z.add_0_r by lia.
  rewrite IH by done. f_equal. f_equal.
  rewrite Z.add_comm, Z.mod_add by lia. by apply Z.mod_small.
Qed.

(** [n] zero bytes. *)
Definition zeros (n : Z) : list Z := replicate (Z.to_nat n) 0.

Lemma zeros_byte n : Forall is_byte (zeros n).
Proof. unfold zeros. apply Forall_replicate. unfold is_byte. lia. Qed.

Lemma zlen_zeros n : 0 <= n -> zlen (zeros n) = n.
Proof. intros. unfold zlen, zeros. rewrite length_replicate. lia. Qed.

(** [s[lo:hi]] of a Go slice: panics unless [0 <= lo <= hi <= len(s)] (the
    slices of the code are never extended into their capacity). *)
Definition slice {A} (l : list A) (lo hi : Z) : outcome (list A) :=
  if (0 <=? lo) && (lo <=? hi) && (hi <=? zlen l)
  then Ret (take (Z.to_nat (hi - lo)) (drop (Z.to_nat lo) l))
  else Panic PIndex.

(** [s[i]] *)
Definition index {A} (l : list A) (i : Z) : outcome A :=
  if 0 <=? i then match l !! Z.to_nat i with Some a => Ret a | None => Panic PIndex end
  else Panic PIndex.

Lemma slice_ok {A} (l : list A) lo hi :
  0 <= lo -> lo <= hi -> hi <= zlen l ->
  slice l lo hi = Ret (take (Z.to_nat (hi - lo)) (drop (Z.to_nat lo) l)).
Proof.
  intros. unfold slice.
  destruct (Z.leb_spec 0 lo), (Z.leb_spec lo hi), (Z.leb_spec hi (zlen l)); simpl; done || lia.
Qed.

Lemma index_ok {A} (l : list A) i : 0 <= i < zlen l -> exists a, index l i = Ret a /\ a ∈ l.
Proof.
  intros [H1 H2]. unfold index. destruct (Z.leb_spec 0 i); [|lia].
  destruct (l !! Z.to_nat i) as [a|] eqn:Ha.
  - exists a. split; [done|]. by eapply list_elem_of_lookup_2.
  - apply lookup_ge_None in Ha. unfold zlen in H2. lia.
Qed.

(** [lia] with division and modulo by constants. *)
Ltac dlia := zify; Z.to_euclidean_division_equations; lia.

(** Decide the comparisons of a goal and close the arithmetic cases. *)
Ltac zcase :=
  repeat match goal with
  | |- context [?a <? ?b] => destruct (Z.ltb_spec a b)
  | |- context [?a <=? ?b] => destruct (Z.leb_spec a b)
  | |- context [?a =? ?b] => destruct (Z.eqb_spec a b)
  end; try lia.

(** One symbolic step of a monadic program. *)
Ltac wp_step :=
  match goal with
  | |- wp _ (bind _ _) _ _ => apply wp_bind
  | |- wp _ (ret _) _ _ => apply wp_ret
  | |- wp _ get _ _ => apply wp_get
  | |- wp _ (gets _) _ _ => apply wp_gets
  | |- wp _ (put _) _ _ => apply wp_put
  | |- wp _ (modify _) _ _ => apply wp_modify
  end; cbn beta.
