(* ===== verification/Uint256.v ===== *)
(** * The 256-bit integer library and the hash functions the code imports

    [github.com/holiman/uint256], [golang.org/x/crypto] and the secp256k1 C
    library are not part of the repository: they are parameters of the model.
    [Uint256] is the record of the operations the virtual machine calls, with an
    [uint256.Int] represented by its value in [[0, 2^256)]; [Uint256Laws]
    states their documented behaviour.  The virtual machine is proved against
    the laws; [uint256_model] is one implementation, which shows that the laws
    can hold and lets the model be run. *)
From S2P Require Import Prelude.

(** Two's complement reading of a 256-bit value. *)
Definition signed256 (x : Z) : Z := if x <? two255 then x else x - two256.
Definition wrap256 (z : Z) : Z := z mod two256.

Class Uint256 := {
  u_Add : Z -> Z -> Z; u_Sub : Z -> Z -> Z; u_Mul : Z -> Z -> Z;
  u_Div : Z -> Z -> Z; u_SDiv : Z -> Z -> Z; u_Mod : Z -> Z -> Z; u_SMod : Z -> Z -> Z;
  u_Exp : Z -> Z -> Z; u_ExtendSign : Z -> Z -> Z; u_Not : Z -> Z;
  u_And : Z -> Z -> Z; u_Or : Z -> Z -> Z; u_Xor : Z -> Z -> Z;
  u_Byte : Z -> Z -> Z; u_AddMod : Z -> Z -> Z -> Z; u_MulMod : Z -> Z -> Z -> Z;
  u_Lsh : Z -> Z -> Z; u_Rsh : Z -> Z -> Z; u_SRsh : Z -> Z -> Z;
  u_Lt : Z -> Z -> bool; u_Gt : Z -> Z -> bool;
  u_Slt : Z -> Z -> bool; u_Sgt : Z -> Z -> bool; u_Eq : Z -> Z -> bool;
  u_LtUint64 : Z -> Z -> bool; u_GtUint64 : Z -> Z -> bool;
  u_IsZero : Z -> bool; u_Sign : Z -> Z; u_BitLen : Z -> Z;
  u_IsUint64 : Z -> bool; u_Uint64 : Z -> Z;
  u_Bytes20 : Z -> Z; u_Bytes32 : Z -> list Z; u_SetBytes : list Z -> Z;
  u_FromBig : Z -> Z }.

Class Uint256Laws (U : Uint256) : Prop := {
  Add_law x y : is_u256 x -> is_u256 y -> u_Add x y = wrap256 (x + y);
  Sub_law x y : is_u256 x -> is_u256 y -> u_Sub x y = wrap256 (x - y);
  Mul_law x y : is_u256 x -> is_u256 y -> u_Mul x y = wrap256 (x * y);
  Div_law x y : is_u256 x -> is_u256 y -> u_Div x y = x / y;
  SDiv_law x y : is_u256 x -> is_u256 y ->
    u_SDiv x y = wrap256 (Z.quot (signed256 x) (signed256 y));
  Mod_law x y : is_u256 x -> is_u256 y -> u_Mod x y = if y =? 0 then 0 else x mod y;
  SMod_law x y : is_u256 x -> is_u256 y ->
    u_SMod x y = if y =? 0 then 0 else wrap256 (Z.rem (signed256 x) (signed256 y));
  Exp_law x y : is_u256 x -> is_u256 y -> u_Exp x y = wrap256 (x ^ y);
  ExtendSign_law x b : is_u256 x -> is_u256 b ->
    u_ExtendSign x b =
      if 30 <? b then x
      else if Z.testbit x (8 * b + 7) then wrap256 (x mod 2 ^ (8 * b + 8) - 2 ^ (8 * b + 8))
      else x mod 2 ^ (8 * b + 8);
  Not_law x : is_u256 x -> u_Not x = two256 - 1 - x;
  And_law x y : is_u256 x -> is_u256 y -> u_And x y = Z.land x y;
  Or_law x y : is_u256 x -> is_u256 y -> u_Or x y = Z.lor x y;
  Xor_law x y : is_u256 x -> is_u256 y -> u_Xor x y = Z.lxor x y;
  Byte_law x n : is_u256 x -> is_u256 n ->
    u_Byte x n = if n <? 32 then (x / 256 ^ (31 - n)) mod 256 else 0;
  AddMod_law x y m : is_u256 x -> is_u256 y -> is_u256 m ->
    u_AddMod x y m = if m =? 0 then 0 else (x + y) mod m;
  MulMod_law x y m : is_u256 x -> is_u256 y -> is_u256 m ->
    u_MulMod x y m = if m =? 0 then 0 else (x * y) mod m;
  Lsh_law x n : is_u256 x -> 0 <= n -> u_Lsh x n = wrap256 (Z.shiftl x n);
  Rsh_law x n : is_u256 x -> 0 <= n -> u_Rsh x n = Z.shiftr x n;
  SRsh_law x n : is_u256 x -> 0 <= n -> u_SRsh x n = wrap256 (Z.shiftr (signed256 x) n);
  Lt_law x y : is_u256 x -> is_u256 y -> u_Lt x y = (x <? y);
  Gt_law x y : is_u256 x -> is_u256 y -> u_Gt x y = (y <? x);
  Slt_law x y : is_u256 x -> is_u256 y -> u_Slt x y = (signed256 x <? signed256 y);
  Sgt_law x y : is_u256 x -> is_u256 y -> u_Sgt x y = (signed256 y <? signed256 x);
  Eq_law x y : is_u256 x -> is_u256 y -> u_Eq x y = (x =? y);
  LtUint64_law x n : is_u256 x -> is_u64 n -> u_LtUint64 x n = (x <? n);
  GtUint64_law x n : is_u256 x -> is_u64 n -> u_GtUint64 x n = (n <? x);
  IsZero_law x : is_u256 x -> u_IsZero x = (x =? 0);
  Sign_law x : is_u256 x -> u_Sign x = Z.sgn (signed256 x);
  BitLen_law x : is_u256 x -> u_BitLen x = if x =? 0 then 0 else Z.log2 x + 1;
  IsUint64_law x : is_u256 x -> u_IsUint64 x = (x <? two64);
  Uint64_law x : is_u256 x -> u_Uint64 x = x mod two64;
  Bytes20_law x : is_u256 x -> u_Bytes20 x = x mod two160;
  Bytes32_law x : is_u256 x -> u_Bytes32 x = be_bytes 32 x;
  SetBytes_law bs : Forall is_byte bs -> u_SetBytes bs = wrap256 (be_value bs 0);
  FromBig_law z : u_FromBig z = wrap256 z }.

(** The hash functions and the curve operation the precompiled contracts and
    the address derivation call, with the lengths their documentation gives. *)
Class Crypto := {
  keccak256 : list Z -> list Z;
  sha256 : list Z -> list Z;
  ripemd160 : list Z -> list Z;
  ecrecover_pub : list Z -> list Z -> option (list Z) }.

Class CryptoLaws (C : Crypto) : Prop := {
  keccak256_length bs : length (keccak256 bs) = 32%nat;
  keccak256_byte bs : Forall is_byte (keccak256 bs);
  sha256_length bs : length (sha256 bs) = 32%nat;
  sha256_byte bs : Forall is_byte (sha256 bs);
  ripemd160_length bs : length (ripemd160 bs) = 20%nat;
  ripemd160_byte bs : Forall is_byte (ripemd160 bs);
  ecrecover_length h s p : ecrecover_pub h s = Some p -> length p = 65%nat }.

(** [utils.CopyBytes] of [github.com/radiation-octopus/octopus]: a copy of a byte
    slice. *)
Class ByteUtils := { CopyBytes : list Z -> list Z }.
Class ByteUtilsLaws (B : ByteUtils) : Prop := { CopyBytes_law bs : CopyBytes bs = bs }.

(** [crypto.Keccak256Hash]: the digest as a 32-byte hash. *)
Definition Keccak256Hash `{Crypto} (data : list Z) : Z := be_value (keccak256 data) 0.

Lemma wrap256_range z : is_u256 (wrap256 z).
Proof. unfold is_u256, wrap256. apply Z.mod_pos_bound. lia. Qed.

Lemma wrap256_small z : is_u256 z -> wrap256 z = z.
Proof. intros. by apply Z.mod_small. Qed.

Lemma is_u256_0 : is_u256 0.
Proof. unfold is_u256. lia. Qed.

Lemma is_u256_1 : is_u256 1.
Proof. unfold is_u256. lia. Qed.

Lemma is_u64_u256 z : is_u64 z -> is_u256 z.
Proof. unfold is_u64, is_u256. lia. Qed.

#[export] Hint Resolve wrap256_range is_u256_0 is_u256_1 is_u64_u256 : go.

(** Every operation of a lawful library returns a 256-bit value. *)
Section ranges.
Context {U : Uint256} {L : Uint256Laws U}.

Lemma testbit_range_land x y :
  is_u256 x -> is_u256 y -> is_u256 (Z.land x y) /\ is_u256 (Z.lor x y) /\ is_u256 (Z.lxor x y).
Proof.
  intros [Hx0 Hx] [Hy0 Hy]. unfold is_u256.
  change two256 with (2 ^ 256) in *.
  assert (Hb : forall z, 0 <= z -> (forall i, 256 <= i -> Z.testbit z i = false) ->
               0 <= z < 2 ^ 256).
  { intros z Hz Hbit. split; [done|].
    destruct (Z.eq_dec z 0) as [->|Hnz]; [lia|].
    apply Z.log2_lt_pow2; [lia|].
    destruct (Z.lt_ge_cases (Z.log2 z) 256) as [|Hge]; [done|].
    specialize (Hbit _ Hge).
    rewrite Z.bit_log2 in Hbit by lia. done. }
  assert (Hhi : forall z, 0 <= z < 2 ^ 256 -> forall i, 256 <= i -> Z.testbit z i = false).
  { intros z [Hz0 Hz] i Hi. destruct (Z.eq_dec z 0) as [->|]; [apply Z.bits_0|].
    apply Z.bits_above_log2; [lia|]. apply Z.log2_lt_pow2 in Hz; lia. }
  split; [|split]; (apply Hb; [|intros i Hi; rewrite ?Z.land_spec, ?Z.lor_spec, ?Z.lxor_spec;
    rewrite (Hhi x), (Hhi y) by lia; done]).
  - apply Z.land_nonneg; auto.
  - apply Z.lor_nonneg; auto.
  - apply Z.lxor_nonneg; split; auto.
Qed.

Lemma mod_range x m : 0 < m -> m <= two256 -> is_u256 (x mod m).
Proof. intros. pose proof (Z.mod_pos_bound x m). unfold is_u256. lia. Qed.

Lemma binop_range x y :
  is_u256 x -> is_u256 y ->
  is_u256 (u_Add x y) /\ is_u256 (u_Sub x y) /\ is_u256 (u_Mul x y) /\ is_u256 (u_Div x y) /\
  is_u256 (u_SDiv x y) /\ is_u256 (u_Mod x y) /\ is_u256 (u_SMod x y) /\ is_u256 (u_Exp x y).
Proof.
  intros Hx Hy.
  rewrite Add_law, Sub_law, Mul_law, Div_law, SDiv_law, Mod_law, SMod_law, Exp_law by done.
  unfold is_u256 in Hx, Hy.
  split_and!; auto with go; zcase; auto with go.
  - unfold is_u256. destruct (Z.eq_dec y 0) as [->|]; [rewrite Z.div_0_r; lia|].
    split; [apply Z.div_pos; lia|]. apply Z.div_lt_upper_bound; nia.
  - apply mod_range; lia.
Qed.

Lemma bitop_range x y :
  is_u256 x -> is_u256 y ->
  is_u256 (u_And x y) /\ is_u256 (u_Or x y) /\ is_u256 (u_Xor x y) /\ is_u256 (u_Not x) /\
  is_u256 (u_Byte x y) /\ is_u256 (u_ExtendSign x y).
Proof.
  intros Hx Hy.
  rewrite And_law, Or_law, Xor_law, Not_law, Byte_law, ExtendSign_law by done.
  destruct (testbit_range_land x y Hx Hy) as (?&?&?).
  split_and!; auto; unfold is_u256 in Hx, Hy.
  - unfold is_u256. lia.
  - zcase; auto with go. apply mod_range; lia.
  - zcase; [unfold is_u256; lia|]. destruct (Z.testbit _ _); auto with go.
    assert (0 < 2 ^ (8 * y + 8)) by (apply Z.pow_pos_nonneg; lia).
    apply mod_range; [done|]. change two256 with (2 ^ 256).
    apply Z.pow_le_mono_r; lia.
Qed.

Lemma shift_range x n :
  is_u256 x -> 0 <= n ->
  is_u256 (u_Lsh x n) /\ is_u256 (u_Rsh x n) /\ is_u256 (u_SRsh x n).
Proof.
  intros Hx Hn. rewrite Lsh_law, Rsh_law, SRsh_law by done.
  split_and!; auto with go. unfold is_u256 in *. rewrite Z.shiftr_div_pow2 by done.
  assert (0 < 2 ^ n) by (apply Z.pow_pos_nonneg; lia).
  split; [apply Z.div_pos; lia|]. apply Z.div_lt_upper_bound; nia.
Qed.

Lemma modop_range x y m :
  is_u256 x -> is_u256 y -> is_u256 m ->
  is_u256 (u_AddMod x y m) /\ is_u256 (u_MulMod x y m).
Proof.
  intros Hx Hy Hm. rewrite AddMod_law, MulMod_law by done. unfold is_u256 in Hm.
  split; zcase; auto with go; apply mod_range; lia.
Qed.

Lemma SetBytes_range bs : Forall is_byte bs -> is_u256 (u_SetBytes bs).
Proof. intros. rewrite SetBytes_law by done. auto with go. Qed.

Lemma FromBig_range z : is_u256 (u_FromBig z).
Proof. rewrite FromBig_law. auto with go. Qed.

Lemma Uint64_range x : is_u256 x -> is_u64 (u_Uint64 x).
Proof. intros. rewrite Uint64_law by done. apply wrap64_range. Qed.

Lemma Uint64_small x : is_u256 x -> u_IsUint64 x = true -> u_Uint64 x = x.
Proof.
  intros Hx. rewrite IsUint64_law, Uint64_law by done. unfold is_u256 in Hx.
  destruct (Z.ltb_spec x two64); [|done]. intros _. apply Z.mod_small. lia.
Qed.
End ranges.

#[export] Hint Resolve SetBytes_range FromBig_range Uint64_range : go.

(** ** An implementation of the library *)

(** Square and multiply modulo [2^256]. *)
Fixpoint powmod256 (b : Z) (p : positive) : Z :=
  match p with
  | xH => wrap256 b
  | xO q => let r := powmod256 b q in wrap256 (r * r)
  | xI q => let r := powmod256 b q in wrap256 (wrap256 (r * r) * b)
  end.

Lemma powmod256_spec b p : powmod256 b p = wrap256 (b ^ Zpos p).
Proof.
  unfold wrap256. induction p as [p IH|p IH|]; cbn [powmod256]; unfold wrap256; rewrite ?IH.
  - rewrite <- Z.mul_mod, Z.mul_mod_idemp_l by lia. f_equal.
    rewrite Pos2Z.inj_xI, Z.pow_add_r, Z.pow_1_r, Z.pow_twice_r by lia. done.
  - rewrite <- Z.mul_mod by lia. f_equal. rewrite Pos2Z.inj_xO, Z.pow_twice_r. done.
  - by rewrite Z.pow_1_r.
Qed.

Definition exp256 (x y : Z) : Z :=
  match y with
  | Z0 => 1
  | Zpos p => powmod256 x p
  | Zneg _ => 0
  end.

#[export] Instance uint256_model : Uint256 := {|
  u_Add x y := wrap256 (x + y); u_Sub x y := wrap256 (x - y); u_Mul x y := wrap256 (x * y);
  u_Div x y := x / y; u_SDiv x y := wrap256 (Z.quot (signed256 x) (signed256 y));
  u_Mod x y := if y =? 0 then 0 else x mod y;
  u_SMod x y := if y =? 0 then 0 else wrap256 (Z.rem (signed256 x) (signed256 y));
  u_Exp x y := exp256 x y;
  u_ExtendSign x b :=
    if 30 <? b then x
    else if Z.testbit x (8 * b + 7) then wrap256 (x mod 2 ^ (8 * b + 8) - 2 ^ (8 * b + 8))
    else x mod 2 ^ (8 * b + 8);
  u_Not x := two256 - 1 - x;
  u_And := Z.land; u_Or := Z.lor; u_Xor := Z.lxor;
  u_Byte x n := if n <? 32 then (x / 256 ^ (31 - n)) mod 256 else 0;
  u_AddMod x y m := if m =? 0 then 0 else (x + y) mod m;
  u_MulMod x y m := if m =? 0 then 0 else (x * y) mod m;
  u_Lsh x n := wrap256 (Z.shiftl x n); u_Rsh := Z.shiftr;
  u_SRsh x n := wrap256 (Z.shiftr (signed256 x) n);
  u_Lt x y := x <? y; u_Gt x y := y <? x;
  u_Slt x y := signed256 x <? signed256 y; u_Sgt x y := signed256 y <? signed256 x;
  u_LtUint64 x n := x <? n; u_GtUint64 x n := n <? x;
  u_Eq x y := x =? y; u_IsZero x := x =? 0; u_Sign x := Z.sgn (signed256 x);
  u_BitLen x := if x =? 0 then 0 else Z.log2 x + 1;
  u_IsUint64 x := x <? two64; u_Uint64 x := x mod two64;
  u_Bytes20 x := x mod two160; u_Bytes32 x := be_bytes 32 x;
  u_SetBytes bs := wrap256 (be_value bs 0);
  u_FromBig z := wrap256 z |}.

#[export] Instance uint256_model_laws : Uint256Laws uint256_model.
Proof.
  constructor; try (intros; reflexivity).
  intros x y Hx [Hy _]. simpl. unfold exp256. destruct y as [|p|p]; [|apply powmod256_spec|lia].
  rewrite Z.pow_0_r. by rewrite wrap256_small by auto with go.
Qed.

(** A length-correct stand-in for the hash functions, for closed examples. *)
#[export] Instance crypto_model : Crypto := {|
  keccak256 bs := be_bytes 32 (be_value bs (zlen bs + 1));
  sha256 bs := be_bytes 32 (be_value bs (zlen bs + 2));
  ripemd160 bs := be_bytes 20 (be_value bs (zlen bs + 3));
  ecrecover_pub _ _ := None |}.

#[export] Instance crypto_model_laws : CryptoLaws crypto_model.
Proof.
  constructor; intros; cbn [keccak256 sha256 ripemd160 ecrecover_pub crypto_model] in *;
    first [apply length_be_bytes | apply be_bytes_byte | done].
Qed.

#[export] Instance byteutils_model : ByteUtils := {| CopyBytes bs := bs |}.
#[export] Instance byteutils_model_laws : ByteUtilsLaws byteutils_model.
Proof. by constructor. Qed.
