(* ===== verification/Params.v ===== *)
(** * Protocol parameters and chain rules

    The constants of [entity/octopus_entity_params.go], and the fork schedule
    of [entity/octopus_entity_config.go]: [ChainConfig], [isForked] and
    [Rules]. *)
From S2P Require Import Prelude.

Create HintDb params.

Definition GasLimitBoundDivisor : Z := 1024.
Definition MinGasLimit : Z := 5000.
Definition MaxGasLimit : Z := 9223372036854775807.
Definition GenesisGasLimit : Z := 4712388.
Definition MaximumExtraDataSize : Z := 32.
Definition ExpByteGas : Z := 10.
Definition SloadGas : Z := 50.
Definition CallValueTransferGas : Z := 9000.
Definition CallNewAccountGas : Z := 25000.
Definition TxGas : Z := 21000.
Definition TxGasContractCreation : Z := 53000.
Definition TxDataZeroGas : Z := 4.
Definition QuadCoeffDiv : Z := 512.
Definition LogDataGas : Z := 8.
Definition CallStipend : Z := 2300.
Definition Keccak256Gas : Z := 30.
Definition Keccak256WordGas : Z := 6.
Definition SstoreSetGas : Z := 20000.
Definition SstoreResetGas : Z := 5000.
Definition SstoreClearGas : Z := 5000.
Definition SstoreRefundGas : Z := 15000.
Definition NetSstoreNoopGas : Z := 200.
Definition NetSstoreInitGas : Z := 20000.
Definition NetSstoreCleanGas : Z := 5000.
Definition NetSstoreDirtyGas : Z := 200.
Definition NetSstoreClearRefund : Z := 15000.
Definition NetSstoreResetRefund : Z := 4800.
Definition NetSstoreResetClearRefund : Z := 19800.
Definition SstoreSentryGasEIP2200 : Z := 2300.
Definition SstoreSetGasEIP2200 : Z := 20000.
Definition SstoreResetGasEIP2200 : Z := 5000.
Definition SstoreClearsScheduleRefundEIP2200 : Z := 15000.
Definition ColdAccountAccessCostEIP2929 : Z := 2600.
Definition ColdSloadCostEIP2929 : Z := 2100.
Definition WarmStorageReadCostEIP2929 : Z := 100.
Definition JumpdestGas : Z := 1.
Definition EpochDuration : Z := 30000.
Definition CreateDataGas : Z := 200.
Definition CallCreateDepth : Z := 1024.
Definition ExpGas : Z := 10.
Definition LogGas : Z := 375.
Definition CopyGas : Z := 3.
Definition StackLimit : Z := 1024.
Definition TierStepGas : Z := 0.
Definition LogTopicGas : Z := 375.
Definition CreateGas : Z := 32000.
Definition Create2Gas : Z := 32000.
Definition SelfdestructRefundGas : Z := 24000.
Definition MemoryGas : Z := 3.
Definition TxDataNonZeroGasFrontier : Z := 68.
Definition TxDataNonZeroGasEIP2028 : Z := 16.
Definition TxAccessListAddressGas : Z := 2400.
Definition TxAccessListStorageKeyGas : Z := 1900.
Definition SstoreClearsScheduleRefundEIP3529 : Z := SstoreResetGasEIP2200 - ColdSloadCostEIP2929 + TxAccessListStorageKeyGas.
Definition CallGasFrontier : Z := 40.
Definition CallGasEIP150 : Z := 700.
Definition BalanceGasFrontier : Z := 20.
Definition BalanceGasEIP150 : Z := 400.
Definition BalanceGasEIP1884 : Z := 700.
Definition ExtcodeSizeGasFrontier : Z := 20.
Definition ExtcodeSizeGasEIP150 : Z := 700.
Definition SloadGasFrontier : Z := 50.
Definition SloadGasEIP150 : Z := 200.
Definition SloadGasEIP1884 : Z := 800.
Definition SloadGasEIP2200 : Z := 800.
Definition ExtcodeHashGasConstantinople : Z := 400.
Definition ExtcodeHashGasEIP1884 : Z := 700.
Definition SelfdestructGasEIP150 : Z := 5000.
Definition ExpByteFrontier : Z := 10.
Definition ExpByteEIP158 : Z := 50.
Definition ExtcodeCopyBaseFrontier : Z := 20.
Definition ExtcodeCopyBaseEIP150 : Z := 700.
Definition CreateBySelfdestructGas : Z := 25000.
Definition BaseFeeChangeDenominator : Z := 8.
Definition ElasticityMultiplier : Z := 2.
Definition InitialBaseFee : Z := 1000000000.
Definition MaxCodeSize : Z := 24576.
Definition EcrecoverGas : Z := 3000.
Definition Sha256BaseGas : Z := 60.
Definition Sha256PerWordGas : Z := 12.
Definition Ripemd160BaseGas : Z := 600.
Definition Ripemd160PerWordGas : Z := 120.
Definition IdentityBaseGas : Z := 15.
Definition IdentityPerWordGas : Z := 3.
Definition Bn256AddGasByzantium : Z := 500.
Definition Bn256AddGasIstanbul : Z := 150.
Definition Bn256ScalarMulGasByzantium : Z := 40000.
Definition Bn256ScalarMulGasIstanbul : Z := 6000.
Definition Bn256PairingBaseGasByzantium : Z := 100000.
Definition Bn256PairingBaseGasIstanbul : Z := 45000.
Definition Bn256PairingPerPointGasByzantium : Z := 80000.
Definition Bn256PairingPerPointGasIstanbul : Z := 34000.
Definition Bls12381G1AddGas : Z := 600.
Definition Bls12381G1MulGas : Z := 12000.
Definition Bls12381G2AddGas : Z := 4500.
Definition Bls12381G2MulGas : Z := 55000.
Definition Bls12381PairingBaseGas : Z := 115000.
Definition Bls12381PairingPerPairGas : Z := 23000.
Definition Bls12381MapG1Gas : Z := 5500.
Definition Bls12381MapG2Gas : Z := 110000.
Definition RefundQuotient : Z := 2.
Definition RefundQuotientEIP3529 : Z := 5.
Definition Cao : Z := 1.

#[export] Hint Unfold GasLimitBoundDivisor MinGasLimit MaxGasLimit GenesisGasLimit
  MaximumExtraDataSize ExpByteGas SloadGas CallValueTransferGas CallNewAccountGas TxGas
  TxGasContractCreation TxDataZeroGas QuadCoeffDiv LogDataGas CallStipend Keccak256Gas
  Keccak256WordGas SstoreSetGas SstoreResetGas SstoreClearGas SstoreRefundGas NetSstoreNoopGas
  NetSstoreInitGas NetSstoreCleanGas NetSstoreDirtyGas NetSstoreClearRefund NetSstoreResetRefund
  NetSstoreResetClearRefund SstoreSentryGasEIP2200 SstoreSetGasEIP2200 SstoreResetGasEIP2200
  SstoreClearsScheduleRefundEIP2200 ColdAccountAccessCostEIP2929 ColdSloadCostEIP2929
  WarmStorageReadCostEIP2929 JumpdestGas EpochDuration CreateDataGas CallCreateDepth ExpGas
  LogGas CopyGas StackLimit TierStepGas LogTopicGas CreateGas Create2Gas SelfdestructRefundGas
  MemoryGas TxDataNonZeroGasFrontier TxDataNonZeroGasEIP2028 TxAccessListAddressGas
  TxAccessListStorageKeyGas SstoreClearsScheduleRefundEIP3529 CallGasFrontier CallGasEIP150
  BalanceGasFrontier BalanceGasEIP150 BalanceGasEIP1884 ExtcodeSizeGasFrontier
  ExtcodeSizeGasEIP150 SloadGasFrontier SloadGasEIP150 SloadGasEIP1884 SloadGasEIP2200
  ExtcodeHashGasConstantinople ExtcodeHashGasEIP1884 SelfdestructGasEIP150 ExpByteFrontier
  ExpByteEIP158 ExtcodeCopyBaseFrontier ExtcodeCopyBaseEIP150 CreateBySelfdestructGas
  BaseFeeChangeDenominator ElasticityMultiplier InitialBaseFee MaxCodeSize EcrecoverGas
  Sha256BaseGas Sha256PerWordGas Ripemd160BaseGas Ripemd160PerWordGas IdentityBaseGas
  IdentityPerWordGas Bn256AddGasByzantium Bn256AddGasIstanbul Bn256ScalarMulGasByzantium
  Bn256ScalarMulGasIstanbul Bn256PairingBaseGasByzantium Bn256PairingBaseGasIstanbul
  Bn256PairingPerPointGasByzantium Bn256PairingPerPointGasIstanbul Bls12381G1AddGas
  Bls12381G1MulGas Bls12381G2AddGas Bls12381G2MulGas Bls12381PairingBaseGas
  Bls12381PairingPerPairGas Bls12381MapG1Gas Bls12381MapG2Gas RefundQuotient
  RefundQuotientEIP3529 Cao : params.

(** Replace every protocol constant by its value. *)
Ltac params := autounfold with params in *.

(** ** The fork schedule *)

(** A block number that may be absent ([*big.Int], [nil] = no fork). *)
Record ChainConfig := {
  ChainID : option Z;
  HomesteadBlock : option Z; DAOForkBlock : option Z; DAOForkSupport : bool;
  EIP150Block : option Z; EIP150Hash : Z;
  EIP155Block : option Z; EIP158Block : option Z;
  ByzantiumBlock : option Z; ConstantinopleBlock : option Z; PetersburgBlock : option Z;
  IstanbulBlock : option Z; MuirGlacierBlock : option Z; BerlinBlock : option Z;
  LondonBlock : option Z; ArrowGlacierBlock : option Z; MergeNetsplitBlock : option Z;
  TerminalTotalDifficulty : option Z }.

Definition isForked (s head : option Z) : bool :=
  match s, head with
  | Some s, Some head => s <=? head
  | _, _ => false
  end.

Definition IsPetersburg_cfg (c : ChainConfig) (num : option Z) : bool :=
  isForked (PetersburgBlock c) num ||
  (match PetersburgBlock c with None => true | Some _ => false end &&
   isForked (ConstantinopleBlock c) num).

Definition IsLondon_cfg (c : ChainConfig) (num : option Z) : bool := isForked (LondonBlock c) num.

Record Rules := {
  RChainID : Z;
  IsHomestead : bool; IsEIP150 : bool; IsEIP155 : bool; IsEIP158 : bool;
  IsByzantium : bool; IsConstantinople : bool; IsPetersburg : bool; IsIstanbul : bool;
  IsBerlin : bool; IsLondon : bool; IsMerge : bool }.

(** [ChainConfig.Rules]: [IsLondon] is the literal [true] of the source, not the
    schedule's answer. *)
Definition config_Rules (c : ChainConfig) (num : option Z) (isMerge : bool) : Rules := {|
  RChainID := match ChainID c with Some z => z | None => 0 end;
  IsHomestead := isForked (HomesteadBlock c) num;
  IsEIP150 := isForked (EIP150Block c) num;
  IsEIP155 := isForked (EIP155Block c) num;
  IsEIP158 := isForked (EIP158Block c) num;
  IsByzantium := isForked (ByzantiumBlock c) num;
  IsConstantinople := isForked (ConstantinopleBlock c) num;
  IsPetersburg := IsPetersburg_cfg c num;
  IsIstanbul := isForked (IstanbulBlock c) num;
  IsBerlin := isForked (BerlinBlock c) num;
  IsLondon := true;
  IsMerge := isMerge |}.

(** The configuration [AllOctellProtocolChanges]: every fork at block 0. *)
Definition AllOctellProtocolChanges : ChainConfig := {|
  ChainID := Some 1337;
  HomesteadBlock := Some 0; DAOForkBlock := None; DAOForkSupport := false;
  EIP150Block := Some 0; EIP150Hash := 0; EIP155Block := Some 0; EIP158Block := Some 0;
  ByzantiumBlock := Some 0; ConstantinopleBlock := Some 0; PetersburgBlock := Some 0;
  IstanbulBlock := Some 0; MuirGlacierBlock := Some 0; BerlinBlock := Some 0;
  LondonBlock := Some 0; ArrowGlacierBlock := Some 0; MergeNetsplitBlock := None;
  TerminalTotalDifficulty := None |}.
