(* ===== verification/GoMath.v ===== *)
(** * Checked 64-bit arithmetic and byte padding

    [entity/math/integer.go] ([SafeAdd], [SafeSub], [SafeMul]) over
    [math/bits], and the padding helpers of
    [operationutils/octopus_util_bit.go]. *)
From S2P Require Import Prelude.

(** [bits.Add64(x, y, 0)], [bits.Sub64(x, y, 0)], [bits.Mul64(x, y)]. *)
Definition bits_Add64 (x y : Z) : Z * Z := (x +64 y, (x + y) / two64).
Definition bits_Sub64 (x y : Z) : Z * Z := (x -64 y, if x <? y then 1 else 0).
Definition bits_Mul64 (x y : Z) : Z * Z := ((x * y) / two64, x *64 y).

Definition SafeSub (x y : Z) : Z * bool :=
  let '(diff, borrowOut) := bits_Sub64 x y in (diff, negb (borrowOut =? 0)).

Definition SafeAdd (x y : Z) : Z * bool :=
  let '(sum, carryOut) := bits_Add64 x y in (sum, negb (carryOut =? 0)).

Definition SafeMul (x y : Z) : Z * bool :=
  let '(hi, lo) := bits_Mul64 x y in (lo, negb (hi =? 0)).

Definition RightPadBytes (slice : list Z) (l : Z) : list Z :=
  if l <=? zlen slice then slice else slice ++ zeros (l - zlen slice).

Definition LeftPadBytes (slice : list Z) (l : Z) : list Z :=
  if l <=? zlen slice then slice else zeros (l - zlen slice) ++ slice.

(** No overflow reported: the exact result, which fits. *)
Lemma SafeAdd_ok x y r : is_u64 x -> is_u64 y -> SafeAdd x y = (r, false) ->
  r = x + y /\ is_u64 r.
Proof.
  unfold is_u64, SafeAdd, bits_Add64. intros Hx Hy [= <- Hc].
  destruct (Z.eqb_spec ((x + y) / two64) 0) as [H0|]; [|done].
  apply Z.div_small_iff in H0; [|lia]. rewrite wrap64_small; unfold is_u64; lia.
Qed.

Lemma SafeAdd_overflow x y r : is_u64 x -> is_u64 y -> SafeAdd x y = (r, true) ->
  two64 <= x + y.
Proof.
  unfold is_u64, SafeAdd, bits_Add64. intros Hx Hy [= <- Hc].
  destruct (Z.eqb_spec ((x + y) / two64) 0) as [H0|H0]; [done|].
  rewrite Z.div_small_iff in H0; lia.
Qed.

Lemma SafeMul_ok x y r : is_u64 x -> is_u64 y -> SafeMul x y = (r, false) ->
  r = x * y /\ is_u64 r.
Proof.
  unfold is_u64, SafeMul, bits_Mul64. intros Hx Hy [= <- Hc].
  destruct (Z.eqb_spec ((x * y) / two64) 0) as [H0|]; [|done].
  apply Z.div_small_iff in H0; [|lia]. rewrite wrap64_small; unfold is_u64; nia.
Qed.

Lemma SafeMul_overflow x y r : is_u64 x -> is_u64 y -> SafeMul x y = (r, true) ->
  two64 <= x * y.
Proof.
  unfold is_u64, SafeMul, bits_Mul64. intros Hx Hy [= <- Hc].
  destruct (Z.eqb_spec ((x * y) / two64) 0) as [H0|H0]; [done|].
  rewrite Z.div_small_iff in H0; nia.
Qed.

Lemma SafeSub_spec x y : is_u64 x -> is_u64 y ->
  SafeSub x y = if x <? y then (x - y + two64, true) else (x - y, false).
Proof.
  unfold is_u64, SafeSub, bits_Sub64. intros. zcase; simpl; f_equal.
  - unfold wrap64. symmetry. apply Z.mod_unique with (-1); lia.
  - apply wrap64_small. unfold is_u64. lia.
Qed.

Lemma RightPadBytes_length bs l : 0 <= l -> zlen (RightPadBytes bs l) = Z.max l (zlen bs).
Proof.
  intros. unfold RightPadBytes. zcase. rewrite zlen_app, zlen_zeros by lia. lia.
Qed.

Lemma RightPadBytes_byte bs l : Forall is_byte bs -> Forall is_byte (RightPadBytes bs l).
Proof.
  intros. unfold RightPadBytes. destruct (l <=? _); [done|].
  apply Forall_app; split; auto using zeros_byte.
Qed.

Lemma LeftPadBytes_byte bs l : Forall is_byte bs -> Forall is_byte (LeftPadBytes bs l).
Proof.
  intros. unfold LeftPadBytes. destruct (l <=? _); [done|].
  apply Forall_app; split; auto using zeros_byte.
Qed.

#[export] Hint Resolve RightPadBytes_byte LeftPadBytes_byte : go.

(** [SafeAdd], [SafeSub] and [SafeMul] agree with unbounded arithmetic: the flag
    is raised exactly when the true result leaves the 64-bit range, and otherwise
    the result is exact. *)
Theorem safe_arith_exact (x y : Z) (Hx : is_u64 x) (Hy : is_u64 y) :
  (snd (SafeAdd x y) = negb (x + y <? two64) /\
   (snd (SafeAdd x y) = false -> fst (SafeAdd x y) = x + y)) /\
  (snd (SafeSub x y) = (x <? y) /\ (snd (SafeSub x y) = false -> fst (SafeSub x y) = x - y)) /\
  (snd (SafeMul x y) = negb (x * y <? two64) /\
   (snd (SafeMul x y) = false -> fst (SafeMul x y) = x * y)).
Proof.
  rewrite (SafeSub_spec x y) by done.
  destruct (SafeAdd x y) as [a [|]] eqn:Ha; destruct (SafeMul x y) as [m [|]] eqn:Hm;
    [apply SafeAdd_overflow in Ha | apply SafeAdd_overflow in Ha
    |apply SafeAdd_ok in Ha as [-> ?] | apply SafeAdd_ok in Ha as [-> ?]]; try done;
    [apply SafeMul_overflow in Hm | apply SafeMul_ok in Hm as [-> ?]
    |apply SafeMul_overflow in Hm | apply SafeMul_ok in Hm as [-> ?]]; try done;
    unfold is_u64 in *; zcase; simpl; split_and!; auto; lia.
Qed.

Lemma safe_arith_exact_witness :
  snd (SafeAdd (two64 - 1) 1) = true /\ snd (SafeSub (two64 - 1) 1) = false /\
  snd (SafeMul (two64 - 1) 1) = false.
Proof.
  destruct (safe_arith_exact (two64 - 1) 1) as [[Ha _] [[Hs _] [Hm _]]];
    [vm_compute; split; congruence | vm_compute; split; congruence |].
  rewrite Ha, Hs, Hm. vm_compute. auto.
Defined.
