(* ===== verification/VmStack.v ===== *)
(** * The virtual machine's stack and memory

    [vm/octopus_ovm_stack.go], [octopus_ovm_stack_table.go],
    [octopus_ovm_memory.go], [octopus_ovm_memory_table.go] and
    [octopus_ovm_common.go].  A [Stack] is the slice [data] of the source in the
    source's order: the top of the stack is the last element. *)
From S2P Require Import Prelude Uint256 Params GoMath.

(** ** Stack *)
Abbreviation Stack := (list Z).

Definition push (d : Z) (st : Stack) : Stack := st ++ [d].

Definition pop (st : Stack) : outcome (Z * Stack) :=
  r <-o index st (zlen st - 1) ;;
  d <-o slice st 0 (zlen st - 1) ;;
  Ret (r, d).

Definition Back (n : Z) (st : Stack) : outcome Z := index st (zlen st - n - 1).

Definition peek (st : Stack) : outcome Z := index st (zlen st - 1).

(** Writing through the pointer [peek] returns. *)
Definition set_top (v : Z) (st : Stack) : outcome Stack :=
  if 0 <? zlen st then Ret (<[(length st - 1)%nat := v]> st) else Panic PIndex.

Definition dup (n : Z) (st : Stack) : outcome Stack :=
  v <-o index st (zlen st - n) ;; Ret (push v st).

Definition swap (n : Z) (st : Stack) : outcome Stack :=
  a <-o index st (zlen st - n) ;;
  b <-o index st (zlen st - 1) ;;
  Ret (<[Z.to_nat (zlen st - 1) := a]> (<[Z.to_nat (zlen st - n) := b]> st)).

(** ** Stack bounds of the jump table *)
Definition maxStack (pops push : Z) : Z := StackLimit + pops - push.
Definition minStack (pops push : Z) : Z := pops.
Definition minSwapStack (n : Z) : Z := minStack n n.
Definition maxSwapStack (n : Z) : Z := maxStack n n.
Definition minDupStack (n : Z) : Z := minStack n (n + 1).
Definition maxDupStack (n : Z) : Z := maxStack n (n + 1).

(** ** Memory *)
Record Memory := mkMemory { store : list Z; lastGasCost : Z }.

Definition NewMemory : Memory := {| store := []; lastGasCost := 0 |}.

(** [copy(dst[off:], src)] restricted to at most [n] bytes of [src]. *)
Definition copy_at (dst : list Z) (off n : Z) (src : list Z) : list Z :=
  let k := Z.min n (Z.min (zlen src) (zlen dst - off)) in
  take (Z.to_nat off) dst ++ take (Z.to_nat k) src ++ drop (Z.to_nat (off + k)) dst.

Definition Memory_Set (offset size : Z) (value : list Z) (m : Memory) : outcome Memory :=
  if 0 <? size then
    if zlen (store m) <? offset +64 size then Panic PIndex
    else _ <-o slice (store m) offset (offset +64 size) ;;
         Ret {| store := copy_at (store m) offset size value; lastGasCost := lastGasCost m |}
  else Ret m.

Definition Memory_Set32 `{Uint256} (offset v : Z) (m : Memory) : outcome Memory :=
  if zlen (store m) <? offset +64 32 then Panic PIndex
  else _ <-o slice (store m) offset (zlen (store m)) ;;
       Ret {| store := copy_at (store m) offset 32 (u_Bytes32 v); lastGasCost := lastGasCost m |}.

Definition Memory_Resize (size : Z) (m : Memory) : Memory :=
  if zlen (store m) <? size
  then {| store := store m ++ zeros (size - zlen (store m)); lastGasCost := lastGasCost m |}
  else m.

(** The arguments are [int64]. *)
Definition Memory_GetPtr (offset size : Z) (m : Memory) : outcome (list Z) :=
  if size =? 0 then Ret []
  else if offset <? zlen (store m) then slice (store m) offset (int64_of (offset + size))
  else Ret [].

Definition Memory_GetCopy (offset size : Z) (m : Memory) : outcome (list Z) :=
  if size =? 0 then Ret []
  else if offset <? zlen (store m) then
    if size <? 0 then Panic PIndex
    else c <-o slice (store m) offset (int64_of (offset + size)) ;;
         Ret (copy_at (zeros size) 0 size c)
  else Ret [].

(** ** Memory sizes *)
Section common.
Context `{U : Uint256}.

Definition Uint64WithOverflow (x : Z) : Z * bool := (u_Uint64 x, negb (u_IsUint64 x)).

Definition calcMemSize64WithUint (off length64 : Z) : Z * bool :=
  if length64 =? 0 then (0, false)
  else
    let '(offset64, overflow) := Uint64WithOverflow off in
    if overflow then (0, true)
    else let val := offset64 +64 length64 in (val, val <? offset64).

Definition calcMemSize64 (off l : Z) : Z * bool :=
  if negb (u_IsUint64 l) then (0, true) else calcMemSize64WithUint off (u_Uint64 l).

Definition memSizeBack (a b : Z) (st : Stack) : outcome (Z * bool) :=
  x <-o Back a st ;; y <-o Back b st ;; Ret (calcMemSize64 x y).

Definition memoryKeccak256 : Stack -> outcome (Z * bool) := memSizeBack 0 1.
Definition memoryCallDataCopy : Stack -> outcome (Z * bool) := memSizeBack 0 2.
Definition memoryReturnDataCopy : Stack -> outcome (Z * bool) := memSizeBack 0 2.
Definition memoryCodeCopy : Stack -> outcome (Z * bool) := memSizeBack 0 2.
Definition memoryExtCodeCopy : Stack -> outcome (Z * bool) := memSizeBack 1 3.
Definition memoryMLoad (st : Stack) : outcome (Z * bool) :=
  x <-o Back 0 st ;; Ret (calcMemSize64WithUint x 32).
Definition memoryMStore8 (st : Stack) : outcome (Z * bool) :=
  x <-o Back 0 st ;; Ret (calcMemSize64WithUint x 1).
Definition memoryMStore (st : Stack) : outcome (Z * bool) :=
  x <-o Back 0 st ;; Ret (calcMemSize64WithUint x 32).
Definition memoryCreate : Stack -> outcome (Z * bool) := memSizeBack 1 2.
Definition memoryCreate2 : Stack -> outcome (Z * bool) := memSizeBack 1 2.

(** The larger of two regions, as the call instructions compute it. *)
Definition memSizeMax (a b c d : Z) (st : Stack) : outcome (Z * bool) :=
  let!o (x, overflow) := memSizeBack a b st ;;
  if overflow : bool then Ret (0, true)
  else
    let!o (y, overflow) := memSizeBack c d st ;;
    if overflow : bool then Ret (0, true)
    else if y <? x then Ret (x, false) else Ret (y, false).

Definition memoryCall : Stack -> outcome (Z * bool) := memSizeMax 5 6 3 4.
Definition memoryDelegateCall : Stack -> outcome (Z * bool) := memSizeMax 4 5 2 3.
Definition memoryStaticCall : Stack -> outcome (Z * bool) := memSizeMax 4 5 2 3.
Definition memoryReturn : Stack -> outcome (Z * bool) := memSizeBack 0 1.
Definition memoryRevert : Stack -> outcome (Z * bool) := memSizeBack 0 1.
Definition memoryLog : Stack -> outcome (Z * bool) := memSizeBack 0 1.

Definition toWordSize (size : Z) : Z :=
  if two64 - 1 - 31 <? size then (two64 - 1) / 32 + 1 else (size + 31) / 32.

(** [getData]: the slice of [data] from [start], zero-padded to [size]. *)
Definition getData (data : list Z) (start size : Z) : outcome (list Z) :=
  let length := zlen data in
  let start := if length <? start then length else start in
  let end_ := start +64 size in
  let end_ := if length <? end_ then length else end_ in
  d <-o slice data start end_ ;;
  Ret (RightPadBytes d (int64_of size)).

Definition allZero (b : list Z) : bool := forallb (fun x => x =? 0) b.
End common.

(** ** Stack lemmas *)
Definition wf_stack (st : Stack) : Prop := Forall is_u256 st.

Lemma take_last {A} (d : list A) (x : A) : take (length (d ++ [x]) - 1) (d ++ [x]) = d.
Proof.
  rewrite length_app. simpl. replace (length d + 1 - 1)%nat with (length d) by lia.
  by rewrite take_app_length.
Qed.

Lemma lookup_last {A} (d : list A) (x : A) : (d ++ [x]) !! length d = Some x.
Proof. by rewrite lookup_app_r, Nat.sub_diag by done. Qed.

Lemma snoc_inv {A} (st : list A) : 1 <= zlen st -> exists d x, st = d ++ [x].
Proof.
  unfold zlen. destruct st as [|x d] using rev_ind; [simpl; lia|]. intros _. by exists d, x.
Qed.

Lemma index_last {A} (d : list A) (x : A) : index (d ++ [x]) (zlen (d ++ [x]) - 1) = Ret x.
Proof.
  unfold index. rewrite zlen_snoc.
  pose proof (zlen_nonneg d). zcase.
  replace (Z.to_nat (zlen d + 1 - 1)) with (length d) by (unfold zlen; lia).
  by rewrite lookup_last.
Qed.

Lemma pop_snoc (d : Stack) (x : Z) : pop (d ++ [x]) = Ret (x, d).
Proof.
  unfold pop. rewrite index_last. cbn [obind].
  pose proof (zlen_nonneg d).
  rewrite slice_ok by (rewrite ?zlen_snoc; lia).
  cbn [obind]. rewrite drop_0, Z.sub_0_r. f_equal. f_equal.
  replace (Z.to_nat _) with (length (d ++ [x]) - 1)%nat by (unfold zlen; lia).
  apply take_last.
Qed.

Lemma peek_snoc (d : Stack) (x : Z) : peek (d ++ [x]) = Ret x.
Proof. apply index_last. Qed.

Lemma set_top_snoc (d : Stack) (x v : Z) : set_top v (d ++ [x]) = Ret (d ++ [v]).
Proof.
  unfold set_top. rewrite zlen_snoc.
  pose proof (zlen_nonneg d). zcase. f_equal.
  rewrite length_app. simpl. replace (length d + 1 - 1)%nat with (length d + 0)%nat by lia.
  by rewrite insert_app_r.
Qed.

Lemma wf_snoc (d : Stack) (x : Z) : wf_stack (d ++ [x]) <-> wf_stack d /\ is_u256 x.
Proof. unfold wf_stack. rewrite Forall_app, Forall_singleton. done. Qed.

Lemma index_wf (st : Stack) i : wf_stack st -> 0 <= i < zlen st ->
  exists v, index st i = Ret v /\ is_u256 v.
Proof.
  intros Hw Hi. destruct (index_ok st i Hi) as (v & -> & Hv).
  exists v. split; [done|]. by eapply Forall_forall in Hw.
Qed.

Lemma Back_wf (st : Stack) n : wf_stack st -> 0 <= n < zlen st ->
  exists v, Back n st = Ret v /\ is_u256 v.
Proof. intros Hw Hn. apply index_wf; [done|lia]. Qed.

Lemma dup_wf (st : Stack) n : wf_stack st -> 1 <= n <= zlen st ->
  exists st', dup n st = Ret st' /\ wf_stack st' /\ zlen st' = zlen st + 1.
Proof.
  intros Hw Hn. unfold dup. destruct (index_wf st (zlen st - n)) as (v & -> & Hv); [done|lia|].
  cbn [obind]. exists (push v st). unfold push. rewrite wf_snoc, zlen_app. done.
Qed.

Lemma swap_wf (st : Stack) n : wf_stack st -> 1 <= n <= zlen st ->
  exists st', swap n st = Ret st' /\ wf_stack st' /\ zlen st' = zlen st.
Proof.
  intros Hw Hn. unfold swap.
  destruct (index_wf st (zlen st - n)) as (v & -> & Hv); [done|lia|].
  destruct (index_wf st (zlen st - 1)) as (w & -> & Hw'); [done|lia|].
  cbn [obind]. eexists. split; [done|]. split.
  - apply Forall_insert; [|done]. by apply Forall_insert.
  - unfold zlen. by rewrite !length_insert.
Qed.

(** ** Memory lemmas *)
Definition wf_mem (m : Memory) : Prop := Forall is_byte (store m).

Lemma copy_at_length dst off n src :
  0 <= off -> 0 <= n -> off + n <= zlen dst -> zlen (copy_at dst off n src) = zlen dst.
Proof.
  intros. pose proof (zlen_nonneg src). unfold copy_at, zlen in *.
  rewrite !length_app, !length_take, length_drop. lia.
Qed.

Lemma copy_at_byte dst off n src :
  Forall is_byte dst -> Forall is_byte src -> Forall is_byte (copy_at dst off n src).
Proof.
  intros. unfold copy_at. rewrite !Forall_app.
  split_and!; auto using Forall_take, Forall_drop.
Qed.

Lemma Memory_Set_ok offset size v m :
  wf_mem m -> Forall is_byte v -> 0 <= offset -> 0 <= size -> offset < two64 ->
  (0 < size -> offset + size <= zlen (store m) < two64) ->
  exists m', Memory_Set offset size v m = Ret m' /\ wf_mem m' /\
             zlen (store m') = zlen (store m) /\ lastGasCost m' = lastGasCost m.
Proof.
  intros Hm Hv Ho Hs Hl Hfit. unfold Memory_Set.
  destruct (Z.ltb_spec 0 size); [|by exists m].
  rewrite wrap64_small by (unfold is_u64; lia). zcase.
  rewrite slice_ok by lia. cbn [obind]. eexists. split; [done|]. cbn.
  split_and!; auto; [by apply copy_at_byte|apply copy_at_length; lia].
Qed.

Lemma Memory_Set32_ok `{U : Uint256} {L : Uint256Laws U} offset v m :
  wf_mem m -> is_u256 v -> 0 <= offset -> offset + 32 <= zlen (store m) < two64 ->
  exists m', Memory_Set32 offset v m = Ret m' /\ wf_mem m' /\
             zlen (store m') = zlen (store m) /\ lastGasCost m' = lastGasCost m.
Proof.
  intros Hm Hv Ho Hfit. unfold Memory_Set32.
  rewrite wrap64_small by (unfold is_u64; lia). zcase.
  rewrite slice_ok by lia. cbn [obind]. eexists. split; [done|]. cbn.
  split_and!; auto; [|apply copy_at_length; lia].
  apply copy_at_byte; [done|]. rewrite Bytes32_law by done. apply be_bytes_byte.
Qed.

Lemma Memory_GetPtr_ok offset size m :
  wf_mem m -> 0 <= size ->
  (0 < size -> 0 <= offset /\ offset + size <= zlen (store m) < two63) ->
  exists bs, Memory_GetPtr offset size m = Ret bs /\ Forall is_byte bs /\ zlen bs = size.
Proof.
  intros Hm Hs Hfit. unfold Memory_GetPtr.
  destruct (Z.eqb_spec size 0) as [->|]; [by exists []|].
  destruct Hfit as [? ?]; [lia|]. zcase.
  rewrite int64_of_small by lia. rewrite slice_ok by lia.
  eexists. split; [done|]. split; [auto using Forall_take, Forall_drop|].
  unfold zlen in *. rewrite length_take, length_drop. lia.
Qed.

Lemma Memory_GetCopy_ok offset size m :
  wf_mem m -> 0 <= size ->
  (0 < size -> 0 <= offset /\ offset + size <= zlen (store m) < two63) ->
  exists bs, Memory_GetCopy offset size m = Ret bs /\ Forall is_byte bs /\ zlen bs = size.
Proof.
  intros Hm Hs Hfit. unfold Memory_GetCopy.
  destruct (Z.eqb_spec size 0) as [->|]; [by exists []|].
  destruct Hfit as [? ?]; [lia|]. zcase.
  rewrite int64_of_small by lia. rewrite slice_ok by lia. cbn [obind].
  eexists. split; [done|]. split.
  - apply copy_at_byte; auto using zeros_byte, Forall_take, Forall_drop.
  - rewrite copy_at_length; rewrite ?zlen_zeros; lia.
Qed.

Lemma Memory_Resize_ok size m :
  wf_mem m -> wf_mem (Memory_Resize size m) /\
  zlen (store (Memory_Resize size m)) = Z.max size (zlen (store m)) /\
  lastGasCost (Memory_Resize size m) = lastGasCost m.
Proof.
  intros Hm. unfold Memory_Resize. pose proof (zlen_nonneg (store m)). zcase; cbn.
  - split_and!; [|rewrite zlen_app, zlen_zeros; lia|done].
    apply Forall_app; split; auto using zeros_byte.
  - split_and!; auto. lia.
Qed.

(** ** Size computations *)
Section size_lemmas.
Context {U : Uint256} {L : Uint256Laws U}.

Lemma calcMemSize64WithUint_ok off l s :
  is_u256 off -> is_u64 l -> calcMemSize64WithUint off l = (s, false) ->
  (l = 0 /\ s = 0) \/ (0 < l /\ s = off + l /\ u_Uint64 off = off /\ s < two64).
Proof.
  intros Ho Hl. unfold calcMemSize64WithUint, Uint64WithOverflow, is_u64 in *.
  destruct (Z.eqb_spec l 0) as [->|Hnz]; [intros [= <-]; by left|].
  destruct (u_IsUint64 off) eqn:Hof; [|done]. cbn [negb].
  rewrite (Uint64_small off) by done. intros [= <- Hc]. right.
  rewrite IsUint64_law in Hof by done.
  apply Z.ltb_lt in Hof. apply Z.ltb_ge in Hc.
  unfold is_u256 in Ho. destruct (Z.lt_ge_cases (off + l) two64).
  - rewrite wrap64_small by (unfold is_u64; lia). lia.
  - exfalso. assert (wrap64 (off + l) = off + l - two64) as Hw.
    { unfold wrap64. symmetry. apply Z.mod_unique with 1; lia. }
    lia.
Qed.

Lemma calcMemSize64_ok off l s :
  is_u256 off -> is_u256 l -> calcMemSize64 off l = (s, false) ->
  u_Uint64 l = l /\ is_u64 l /\
  ((l = 0 /\ s = 0) \/ (0 < l /\ s = off + l /\ u_Uint64 off = off /\ s < two64)).
Proof.
  intros Ho Hl. unfold calcMemSize64. destruct (u_IsUint64 l) eqn:Hul; [|done]. cbn [negb].
  pose proof (Uint64_small l Hl Hul) as Hs.
  assert (is_u64 l) by (rewrite <- Hs; auto with go).
  rewrite Hs. intros H'%calcMemSize64WithUint_ok; auto.
Qed.

Lemma toWordSize_spec size : 0 <= size < two64 ->
  toWordSize size = (size + 31) / 32 /\ size <= 32 * toWordSize size < size + 32 /\
  0 <= toWordSize size <= 576460752303423488.
Proof.
  intros Hs. unfold toWordSize.
  assert (Heq : forall q, q = (size + 31) / 32 -> q = (size + 31) / 32 /\
    size <= 32 * q < size + 32 /\ 0 <= q <= 576460752303423488).
  { intros q ->. dlia. }
  destruct (Z.ltb_spec (two64 - 1 - 31) size); apply Heq; dlia.
Qed.

Lemma getData_ok data start size :
  Forall is_byte data -> 0 <= start -> 0 <= size -> size < two63 -> zlen data < two63 ->
  exists bs, getData data start size = Ret bs /\ Forall is_byte bs /\ zlen bs = size.
Proof.
  intros Hd Hs0 Hz0 Hz Hl. unfold getData. pose proof (zlen_nonneg data).
  rewrite int64_of_small by lia.
  set (st := if zlen data <? start then zlen data else start).
  assert (0 <= st <= zlen data) by (unfold st; zcase).
  rewrite wrap64_small by (unfold is_u64; lia).
  set (en := if zlen data <? st + size then zlen data else st + size).
  assert (st <= en <= zlen data /\ en - st <= size) by (unfold en; zcase).
  rewrite slice_ok by lia. cbn [obind]. eexists. split; [done|]. split.
  - apply RightPadBytes_byte. auto using Forall_take, Forall_drop.
  - rewrite RightPadBytes_length by lia. unfold zlen in *. rewrite length_take, length_drop. lia.
Qed.
End size_lemmas.
