(* ===== verification/Analysis.v ===== *)
(** * JUMPDEST analysis

    [vm/octopus_analysis.go]: [codeBitmap] marks, in a bit vector of packed
    bytes, every position of a program that is an operand of a PUSH
    instruction.  The optimised routine writes up to sixteen bits at a time; it
    is proved equal to the one-byte-at-a-time reference [data_flags]. *)
From S2P Require Import Prelude.

Definition set2BitsMask : Z := 3.
Definition set3BitsMask : Z := 7.
Definition set4BitsMask : Z := 15.
Definition set5BitsMask : Z := 31.
Definition set6BitsMask : Z := 63.
Definition set7BitsMask : Z := 127.

(** Positions are natural numbers; a [bitvec] is a list of bytes. *)
Abbreviation bitvec := (list Z).

(** [bits[i] |= v] and [bits[i] = v]: panics out of range. *)
Definition or_byte (i : nat) (v : Z) (bits : bitvec) : outcome bitvec :=
  match bits !! i with
  | Some b => Ret (<[i := Z.lor b v]> bits)
  | None => Panic PIndex
  end.
Definition put_byte (i : nat) (v : Z) (bits : bitvec) : outcome bitvec :=
  match bits !! i with
  | Some _ => Ret (<[i := v]> bits)
  | None => Panic PIndex
  end.

Definition set1 (pos : nat) (bits : bitvec) : outcome bitvec :=
  or_byte (pos / 8) (Z.shiftl 1 (Z.of_nat (pos mod 8))) bits.

(** [flag] is a [uint16]. *)
Definition setN (flag : Z) (pos : nat) (bits : bitvec) : outcome bitvec :=
  let a := Z.shiftl flag (Z.of_nat (pos mod 8)) mod 65536 in
  bits <-o or_byte (pos / 8) (a mod 256) bits ;;
  let b := Z.shiftr a 8 mod 256 in
  if negb (b =? 0) then put_byte (pos / 8 + 1) b bits else Ret bits.

Definition set8 (pos : nat) (bits : bitvec) : outcome bitvec :=
  let a := Z.shiftl 255 (Z.of_nat (pos mod 8)) mod 256 in
  bits <-o or_byte (pos / 8) a bits ;;
  put_byte (pos / 8 + 1) (255 - a) bits.

Definition set16 (pos : nat) (bits : bitvec) : outcome bitvec :=
  let a := Z.shiftl 255 (Z.of_nat (pos mod 8)) mod 256 in
  bits <-o or_byte (pos / 8) a bits ;;
  bits <-o put_byte (pos / 8 + 1) 255 bits ;;
  put_byte (pos / 8 + 2) (255 - a) bits.

Definition codeSegment (bits : bitvec) (pos : nat) : outcome bool :=
  match bits !! (pos / 8)%nat with
  | Some b => Ret (Z.land (Z.shiftr b (Z.of_nat (pos mod 8))) 1 =? 0)
  | None => Panic PBitvec
  end.

(** The two inner loops and the switch; [numbits] is at most 32, so that the
    loops on sixteens and eights run at most twice and once. *)
Fixpoint loop16 (fuel : nat) (numbits pc : nat) (bits : bitvec)
    : outcome (nat * nat * bitvec) :=
  if (16 <=? numbits)%nat then
    match fuel with
    | O => NoFuel
    | S f => bits <-o set16 pc bits ;; loop16 f (numbits - 16) (pc + 16) bits
    end
  else Ret (numbits, pc, bits).

Fixpoint loop8 (fuel : nat) (numbits pc : nat) (bits : bitvec)
    : outcome (nat * nat * bitvec) :=
  if (8 <=? numbits)%nat then
    match fuel with
    | O => NoFuel
    | S f => bits <-o set8 pc bits ;; loop8 f (numbits - 8) (pc + 8) bits
    end
  else Ret (numbits, pc, bits).

Definition set_rest (numbits pc : nat) (bits : bitvec) : outcome (nat * bitvec) :=
  match numbits with
  | 1%nat => bits <-o set1 pc bits ;; Ret ((pc + 1)%nat, bits)
  | 2%nat => bits <-o setN set2BitsMask pc bits ;; Ret ((pc + 2)%nat, bits)
  | 3%nat => bits <-o setN set3BitsMask pc bits ;; Ret ((pc + 3)%nat, bits)
  | 4%nat => bits <-o setN set4BitsMask pc bits ;; Ret ((pc + 4)%nat, bits)
  | 5%nat => bits <-o setN set5BitsMask pc bits ;; Ret ((pc + 5)%nat, bits)
  | 6%nat => bits <-o setN set6BitsMask pc bits ;; Ret ((pc + 6)%nat, bits)
  | 7%nat => bits <-o setN set7BitsMask pc bits ;; Ret ((pc + 7)%nat, bits)
  | _ => Ret (pc, bits)
  end.

(** [int8(op) < int8(PUSH1)]: true below 0x60 and, the value being negative,
    from 0x80 on. *)
Definition not_push (op : Z) : bool := (op <? 96) || (128 <=? op).

(** One iteration per opcode; [fuel] bounds their number. *)
Fixpoint codeBitmapInternal (fuel : nat) (pc : nat) (code bits : bitvec) : outcome bitvec :=
  match code !! pc with
  | None => Ret bits
  | Some op =>
      match fuel with
      | O => NoFuel
      | S f =>
          let pc := (pc + 1)%nat in
          if not_push op then codeBitmapInternal f pc code bits
          else
            let numbits := Z.to_nat (op - 96 + 1) in
            let!o (numbits, pc, bits) :=
              (if (8 <=? numbits)%nat then
                 let!o (numbits, pc, bits) := loop16 2 numbits pc bits ;;
                 loop8 1 numbits pc bits
               else Ret (numbits, pc, bits)) ;;
            let!o (pc, bits) := set_rest numbits pc bits ;;
            codeBitmapInternal f pc code bits
      end
  end.

Definition codeBitmap (code : list Z) : outcome bitvec :=
  codeBitmapInternal (length code) 0 code (replicate (length code / 8 + 1 + 4) 0).

(** ** Reference: which positions are operands *)

(** [push_size op] operand bytes follow [op]. *)
Definition push_size (op : Z) : nat := if not_push op then 0 else Z.to_nat (op - 95).

(** [data_flags code skip]: for each position, whether it is an operand, the
    first [skip] positions being operands of an earlier instruction. *)
Fixpoint data_flags (code : list Z) (skip : nat) : list bool :=
  match code with
  | [] => []
  | op :: r =>
      match skip with
      | S k => true :: data_flags r k
      | O => false :: data_flags r (push_size op)
      end
  end.

Definition is_data (code : list Z) (i : nat) : bool := nth i (data_flags code 0) false.

(** ** Bit-level view of the vector *)
Definition bit (bits : bitvec) (p : nat) : bool :=
  Z.testbit (nth (p / 8) bits 0) (Z.of_nat (p mod 8)).

Definition clear_from (bits : bitvec) (pos : nat) : Prop :=
  forall p, (pos <= p)%nat -> bit bits p = false.

(** [bits'] is [bits] with [[pos, pos+k)] set. *)
Definition sets (bits : bitvec) (pos k : nat) (bits' : bitvec) : Prop :=
  length bits' = length bits /\
  forall p, bit bits' p = bit bits p || ((pos <=? p) && (p <? pos + k))%nat.

Lemma sets_app bits pos k bits' k' bits'' :
  sets bits pos k bits' -> sets bits' (pos + k) k' bits'' -> sets bits pos (k + k') bits''.
Proof.
  intros [Hl Hb] [Hl' Hb']. split; [congruence|]. intros p. rewrite Hb', Hb.
  destruct (bit bits p); [done|]. simpl.
  destruct (Nat.leb_spec pos p), (Nat.ltb_spec p (pos + k)), (Nat.leb_spec (pos + k) p),
    (Nat.ltb_spec p (pos + k + k')), (Nat.ltb_spec p (pos + (k + k'))); simpl; done || lia.
Qed.

Lemma sets_clear bits pos k bits' :
  clear_from bits pos -> sets bits pos k bits' -> clear_from bits' (pos + k).
Proof.
  intros Hc [_ Hb] p Hp. rewrite Hb, Hc by lia.
  destruct (Nat.ltb_spec p (pos + k)); [lia|]. by rewrite andb_false_r.
Qed.

Lemma nth_insert (l : list Z) i j v :
  (i < length l)%nat -> nth j (<[i := v]> l) 0 = if decide (i = j) then v else nth j l 0.
Proof.
  intros Hi. rewrite !nth_lookup. case_decide as Hij.
  - subst. by rewrite list_lookup_insert_eq.
  - by rewrite list_lookup_insert_ne.
Qed.

(** The mask of [k] bits at offset [o], and its bytes. *)
Definition mask (k o : nat) : Z := Z.shiftl (Z.ones (Z.of_nat k)) (Z.of_nat o).

Lemma mask_testbit k o j :
  Z.testbit (mask k o) (Z.of_nat j) = ((o <=? j) && (j <? o + k))%nat.
Proof.
  unfold mask. rewrite Z.shiftl_spec by lia.
  destruct (Nat.leb_spec o j), (Nat.ltb_spec j (o + k)); simpl.
  - rewrite Z.ones_spec_low by lia. done.
  - rewrite Z.ones_spec_high by lia. done.
  - rewrite Z.testbit_neg_r by lia. done.
  - rewrite Z.testbit_neg_r by lia. done.
Qed.

Definition mask_byte (k o i : nat) : Z := (mask k o / 256 ^ Z.of_nat i) mod 256.

Lemma mask_byte_testbit k o i r : (r < 8)%nat ->
  Z.testbit (mask_byte k o i) (Z.of_nat r) = ((o <=? 8 * i + r) && (8 * i + r <? o + k))%nat.
Proof.
  intros Hr. unfold mask_byte. change 256 with (2 ^ 8) at 2.
  rewrite Z.mod_pow2_bits_low by lia.
  replace (256 ^ Z.of_nat i) with (2 ^ (8 * Z.of_nat i)) by (rewrite Z.pow_mul_r; [done|lia|lia]).
  rewrite Z.div_pow2_bits by lia.
  replace (Z.of_nat r + 8 * Z.of_nat i) with (Z.of_nat (8 * i + r)) by lia.
  apply mask_testbit.
Qed.

Lemma mask_byte_high k o i : (o + k <= 8 * i)%nat -> mask_byte k o i = 0.
Proof.
  intros H. unfold mask_byte. rewrite Z.div_small; [done|].
  unfold mask. rewrite Z.shiftl_mul_pow2, Z.ones_equiv by lia.
  assert (0 < 2 ^ Z.of_nat k) by (apply Z.pow_pos_nonneg; lia).
  assert (0 < 2 ^ Z.of_nat o) by (apply Z.pow_pos_nonneg; lia).
  replace (256 ^ Z.of_nat i) with (2 ^ (8 * Z.of_nat i)) by (rewrite Z.pow_mul_r; [done|lia|lia]).
  assert (2 ^ (Z.of_nat k + Z.of_nat o) <= 2 ^ (8 * Z.of_nat i)) by (apply Z.pow_le_mono_r; lia).
  rewrite Z.pow_add_r in * by lia. nia.
Qed.

(** Writing the bytes of a mask over a vector that is clear from [pos] sets
    exactly the bits of the mask. *)
Lemma write_mask_bits bits pos k bits' :
  clear_from bits pos -> length bits' = length bits ->
  (forall i, (i < pos / 8)%nat -> nth i bits' 0 = nth i bits 0) ->
  nth (pos / 8) bits' 0 = Z.lor (nth (pos / 8) bits 0) (mask_byte k (pos mod 8) 0) ->
  (forall i, (pos / 8 < i)%nat ->
     nth i bits' 0 = mask_byte k (pos mod 8) (i - pos / 8) \/
     (nth i bits' 0 = nth i bits 0 /\ mask_byte k (pos mod 8) (i - pos / 8) = 0)) ->
  sets bits pos k bits'.
Proof.
  intros Hc Hl Hlo Heq Hhi. split; [done|]. intros p.
  pose proof (Nat.div_mod_eq p 8) as Ep. pose proof (Nat.mod_upper_bound p 8 ltac:(lia)) as Rp.
  pose proof (Nat.div_mod_eq pos 8) as Eq. pose proof (Nat.mod_upper_bound pos 8 ltac:(lia)) as Rq.
  destruct (Nat.lt_trichotomy (p / 8) (pos / 8)) as [Hlt|[He|Hgt]].
  - unfold bit at 1. rewrite Hlo by done. fold (bit bits p).
    destruct (Nat.leb_spec pos p); [lia|]. by rewrite andb_false_l, orb_false_r.
  - unfold bit at 1. rewrite He, Heq, Z.lor_spec, mask_byte_testbit by lia.
    unfold bit. rewrite He. f_equal.
    f_equal; apply Bool.eq_iff_eq_true; rewrite ?Nat.leb_le, ?Nat.ltb_lt; lia.
  - rewrite (Hc p), orb_false_l by lia.
    transitivity (Z.testbit (mask_byte k (pos mod 8) (p / 8 - pos / 8)) (Z.of_nat (p mod 8))).
    + destruct (Hhi (p / 8)%nat Hgt) as [Hm|[Hm H0]]; unfold bit; rewrite Hm; [done|].
      rewrite H0, Z.bits_0. apply (Hc p). lia.
    + rewrite mask_byte_testbit by lia.
      f_equal; apply Bool.eq_iff_eq_true; rewrite ?Nat.leb_le, ?Nat.ltb_lt; lia.
Qed.

(** ** The set operations *)
Lemma or_byte_ok i v bits : (i < length bits)%nat ->
  or_byte i v bits = Ret (<[i := Z.lor (nth i bits 0) v]> bits).
Proof.
  intros Hi. unfold or_byte. destruct (lookup_lt_is_Some_2 bits i Hi) as [b Hb].
  rewrite Hb. by rewrite nth_lookup, Hb.
Qed.

Lemma put_byte_ok i v bits : (i < length bits)%nat -> put_byte i v bits = Ret (<[i := v]> bits).
Proof.
  intros Hi. unfold put_byte. destruct (lookup_lt_is_Some_2 bits i Hi) as [b Hb]. by rewrite Hb.
Qed.

(** Enumerate the eight offsets inside a byte. *)
Ltac eight o := do 8 (destruct o as [|o]; [reflexivity|]); lia.

Lemma mask_bytes_1 o : (o < 8)%nat ->
  Z.shiftl 1 (Z.of_nat o) = mask_byte 1 o 0 /\ mask_byte 1 o 1 = 0.
Proof. intros. split; eight o. Qed.

Lemma mask_bytes_8 o : (o < 8)%nat ->
  Z.shiftl 255 (Z.of_nat o) mod 256 = mask_byte 8 o 0 /\
  255 - Z.shiftl 255 (Z.of_nat o) mod 256 = mask_byte 8 o 1.
Proof. intros. split; eight o. Qed.

Lemma mask_bytes_16 o : (o < 8)%nat ->
  Z.shiftl 255 (Z.of_nat o) mod 256 = mask_byte 16 o 0 /\ 255 = mask_byte 16 o 1 /\
  255 - Z.shiftl 255 (Z.of_nat o) mod 256 = mask_byte 16 o 2.
Proof. intros. split_and!; eight o. Qed.

Lemma mask_bytes_N k o : (2 <= k < 8)%nat -> (o < 8)%nat ->
  (Z.shiftl (Z.ones (Z.of_nat k)) (Z.of_nat o) mod 65536) mod 256 = mask_byte k o 0 /\
  Z.shiftr (Z.shiftl (Z.ones (Z.of_nat k)) (Z.of_nat o) mod 65536) 8 mod 256 = mask_byte k o 1.
Proof.
  intros Hk Ho.
  do 8 (destruct k as [|k]; [try lia; split; eight o|]). lia.
Qed.

(** Close the byte-by-byte conditions of [write_mask_bits]. *)
Ltac mask_cases :=
  repeat match goal with
  | |- context [nth _ (<[_ := _]> _) 0] => rewrite nth_insert by (rewrite ?length_insert; lia)
  | |- context [decide (?a = ?b)] => destruct (decide (a = b)); try lia
  end; subst.

Section set_lemmas.
Context (bits : bitvec) (pos : nat) (Hc : clear_from bits pos).

Lemma pos_mod8 : (pos mod 8 < 8)%nat.
Proof. apply Nat.mod_upper_bound. lia. Qed.

Lemma set1_ok : (pos / 8 < length bits)%nat ->
  exists bits', set1 pos bits = Ret bits' /\ sets bits pos 1 bits'.
Proof using Hc.
  intros Hl. unfold set1. rewrite or_byte_ok by done. eexists. split; [done|].
  destruct (mask_bytes_1 _ pos_mod8) as [-> H1].
  apply write_mask_bits; rewrite ?length_insert; auto; intros; mask_cases; auto.
  right. split; [done|]. destruct (decide (i - pos / 8 = 1)%nat) as [->|]; [done|].
  apply mask_byte_high. pose proof pos_mod8. lia.
Qed.

Lemma setN_ok k : (2 <= k < 8)%nat -> (pos / 8 + 1 < length bits)%nat ->
  exists bits', setN (Z.ones (Z.of_nat k)) pos bits = Ret bits' /\ sets bits pos k bits'.
Proof using Hc.
  intros Hk Hl. unfold setN. destruct (mask_bytes_N k _ Hk pos_mod8) as [-> ->].
  rewrite or_byte_ok by lia. cbn [obind]. pose proof pos_mod8.
  destruct (Z.eqb_spec (mask_byte k (pos mod 8) 1) 0) as [H0|H0]; cbn [negb];
    rewrite ?put_byte_ok by (rewrite ?length_insert; lia);
    eexists; (split; [done|]); apply write_mask_bits; rewrite ?length_insert; auto;
    intros; mask_cases; auto.
  - right. split; [done|]. destruct (decide (i - pos / 8 = 1)%nat) as [->|]; [done|].
    apply mask_byte_high. lia.
  - left. by replace (pos / 8 + 1 - pos / 8)%nat with 1%nat by lia.
  - right. split; [done|]. apply mask_byte_high. lia.
Qed.

Lemma set8_ok : (pos / 8 + 1 < length bits)%nat ->
  exists bits', set8 pos bits = Ret bits' /\ sets bits pos 8 bits'.
Proof using Hc.
  intros Hl. unfold set8. destruct (mask_bytes_8 _ pos_mod8) as [H0 H1].
  rewrite or_byte_ok by lia. cbn [obind].
  rewrite put_byte_ok by (rewrite length_insert; lia). pose proof pos_mod8.
  eexists. split; [done|]. rewrite H1, H0.
  apply write_mask_bits; rewrite ?length_insert; auto; intros; mask_cases; auto.
  - left. by replace (pos / 8 + 1 - pos / 8)%nat with 1%nat by lia.
  - right. split; [done|]. apply mask_byte_high. lia.
Qed.

Lemma set16_ok : (pos / 8 + 2 < length bits)%nat ->
  exists bits', set16 pos bits = Ret bits' /\ sets bits pos 16 bits'.
Proof using Hc.
  intros Hl. unfold set16. destruct (mask_bytes_16 _ pos_mod8) as (H0 & H1 & H2).
  rewrite or_byte_ok by lia. cbn [obind].
  rewrite !put_byte_ok by (rewrite ?length_insert; lia). cbn [obind].
  rewrite put_byte_ok by (rewrite ?length_insert; lia). pose proof pos_mod8.
  eexists. split; [done|]. rewrite H2, H0, H1.
  apply write_mask_bits; rewrite ?length_insert; auto; intros; mask_cases; auto.
  - left. by replace (pos / 8 + 2 - pos / 8)%nat with 2%nat by lia.
  - left. by replace (pos / 8 + 1 - pos / 8)%nat with 1%nat by lia.
  - right. split; [done|]. apply mask_byte_high. lia.
Qed.
End set_lemmas.

(** ** The main loop *)

(** Room for [n] more bits at [pc]. *)
Definition room (bits : bitvec) (pc n : nat) : Prop :=
  (pc / 8 + n / 8 < length bits)%nat /\
  (n mod 8 <> 0 -> pc / 8 + n / 8 + 1 < length bits)%nat.

Lemma sets_refl bits pos : sets bits pos 0 bits.
Proof.
  split; [done|]. intros p. destruct (Nat.leb_spec pos p), (Nat.ltb_spec p (pos + 0)); try lia;
    by rewrite ?andb_false_r, orb_false_r.
Qed.

Lemma loop16_ok fuel : forall n pc bits,
  (n < 16 * (fuel + 1))%nat -> clear_from bits pc -> room bits pc n ->
  exists n' k bits', loop16 fuel n pc bits = Ret (n', (pc + k)%nat, bits') /\
    (n' < 16 /\ k + n' = n)%nat /\ sets bits pc k bits' /\ room bits' (pc + k) n'.
Proof.
  induction fuel as [|f IH]; intros n pc bits Hn Hc Hr; cbn [loop16];
    destruct (Nat.leb_spec 16 n); try lia.
  - exists n, 0%nat, bits. rewrite !Nat.add_0_r. split; [done|]. split; [lia|]. split; [apply sets_refl|done].
  - destruct (set16_ok bits pc Hc) as (b & -> & Hs); [unfold room in Hr; dlia|]. cbn [obind].
    destruct (IH (n - 16)%nat (pc + 16)%nat b) as (n' & k & b' & -> & Hk & Hs' & Hr').
    + lia.
    + by eapply sets_clear.
    + destruct Hs as [Hl _]. unfold room in *. rewrite Hl. dlia.
    + exists n', (16 + k)%nat, b'. rewrite Nat.add_assoc.
      split; [done|]. split; [lia|]. split; [by eapply sets_app|done].
  - exists n, 0%nat, bits. rewrite !Nat.add_0_r. split; [done|]. split; [lia|]. split; [apply sets_refl|done].
Qed.

Lemma loop8_ok fuel : forall n pc bits,
  (n < 8 * (fuel + 1))%nat -> clear_from bits pc -> room bits pc n ->
  exists n' k bits', loop8 fuel n pc bits = Ret (n', (pc + k)%nat, bits') /\
    (n' < 8 /\ k + n' = n)%nat /\ sets bits pc k bits' /\ room bits' (pc + k) n'.
Proof.
  induction fuel as [|f IH]; intros n pc bits Hn Hc Hr; cbn [loop8];
    destruct (Nat.leb_spec 8 n); try lia.
  - exists n, 0%nat, bits. rewrite !Nat.add_0_r. split; [done|]. split; [lia|]. split; [apply sets_refl|done].
  - destruct (set8_ok bits pc Hc) as (b & -> & Hs); [unfold room in Hr; dlia|]. cbn [obind].
    destruct (IH (n - 8)%nat (pc + 8)%nat b) as (n' & k & b' & -> & Hk & Hs' & Hr').
    + lia.
    + by eapply sets_clear.
    + destruct Hs as [Hl _]. unfold room in *. rewrite Hl. dlia.
    + exists n', (8 + k)%nat, b'. rewrite Nat.add_assoc.
      split; [done|]. split; [lia|]. split; [by eapply sets_app|done].
  - exists n, 0%nat, bits. rewrite !Nat.add_0_r. split; [done|]. split; [lia|]. split; [apply sets_refl|done].
Qed.

Lemma set_rest_ok n pc bits :
  (n < 8)%nat -> clear_from bits pc -> room bits pc n ->
  exists bits', set_rest n pc bits = Ret ((pc + n)%nat, bits') /\ sets bits pc n bits'.
Proof.
  intros Hn Hc Hr. unfold room in Hr.
  destruct (Nat.le_gt_cases 2 n) as [H2|H2].
  - destruct (setN_ok bits pc Hc n) as (b & Hb & Hs); [lia|dlia|].
    exists b. split; [|done].
    do 8 (destruct n as [|n]; [try lia; cbn [set_rest]; change (Z.ones _) with
      set2BitsMask in Hb || change (Z.ones _) with set3BitsMask in Hb ||
      change (Z.ones _) with set4BitsMask in Hb || change (Z.ones _) with set5BitsMask in Hb ||
      change (Z.ones _) with set6BitsMask in Hb || change (Z.ones _) with set7BitsMask in Hb;
      by rewrite Hb|]). lia.
  - destruct n as [|[|n]]; [|clear H2|lia].
    + exists bits. rewrite Nat.add_0_r. split; [done|apply sets_refl].
    + destruct (set1_ok bits pc Hc) as (b & Hb & Hs); [dlia|].
      exists b. split; [|done]. cbn [set_rest]. by rewrite Hb.
Qed.

(** One PUSH instruction: exactly its [n] operand bits are set. *)
Lemma push_block_ok n pc bits :
  (1 <= n <= 32)%nat -> clear_from bits pc -> room bits pc n ->
  exists m q bits1 bits2,
    (if (8 <=? n)%nat then
       let!o (n, pc, bits) := loop16 2 n pc bits ;; loop8 1 n pc bits
     else Ret (n, pc, bits)) = Ret (m, q, bits1) /\
    set_rest m q bits1 = Ret ((pc + n)%nat, bits2) /\ sets bits pc n bits2.
Proof.
  intros Hn Hc Hr. destruct (Nat.leb_spec 8 n).
  - destruct (loop16_ok 2 n pc bits) as (n1 & k1 & b1 & -> & Hk1 & Hs1 & Hr1); [lia|done|done|].
    cbn [obind].
    destruct (loop8_ok 1 n1 (pc + k1) b1) as (n2 & k2 & b2 & -> & Hk2 & Hs2 & Hr2);
      [lia|by eapply sets_clear|done|].
    destruct (set_rest_ok n2 (pc + k1 + k2) b2) as (b3 & Hb3 & Hs3);
      [lia|eapply sets_clear, Hs2; by eapply sets_clear|done|].
    eexists _, _, _, b3. split; [done|]. rewrite Hb3. split; [do 2 f_equal; lia|].
    replace n with (k1 + (k2 + n2))%nat by lia.
    eapply sets_app; [done|]. by eapply sets_app.
  - destruct (set_rest_ok n pc bits) as (b3 & Hb3 & Hs3); [lia|done|done|].
    by eexists _, _, _, b3.
Qed.

Lemma data_flags_drop code : forall skip,
  data_flags code skip = replicate (Nat.min skip (length code)) true ++
                         data_flags (drop skip code) 0.
Proof.
  induction code as [|op code IH]; intros skip; simpl.
  - by rewrite Nat.min_0_r, drop_nil.
  - destruct skip as [|k]; [done|]. rewrite IH. done.
Qed.

(** Loop invariant: the bits below [pc] are the reference flags. *)
Lemma codeBitmapInternal_ok code fuel : forall pc bits,
  Forall is_byte code -> (length code <= fuel + pc)%nat ->
  length bits = (length code / 8 + 5)%nat -> clear_from bits pc ->
  exists bits', codeBitmapInternal fuel pc code bits = Ret bits' /\ length bits' = length bits /\
    forall p, (p < length code)%nat ->
      bit bits' p = if (p <? pc)%nat then bit bits p else nth (p - pc) (data_flags (drop pc code) 0) false.
Proof.
  induction fuel as [|f IH]; intros pc bits Hb Hf Hl Hc; cbn [codeBitmapInternal].
  - rewrite lookup_ge_None_2 by lia. exists bits. split_and!; auto. intros p Hp.
    destruct (Nat.ltb_spec p pc); [done|lia].
  - destruct (code !! pc) as [op|] eqn:Hop.
    2: { apply lookup_ge_None in Hop. exists bits. split_and!; auto. intros p Hp.
         destruct (Nat.ltb_spec p pc); [done|lia]. }
    pose proof (lookup_lt_Some _ _ _ Hop) as Hlt.
    assert (is_byte op) as Hby by (eapply Forall_lookup_1; eauto).
    rewrite (drop_S _ op pc Hop). cbn [data_flags]. unfold push_size.
    destruct (not_push op) eqn:Hnp.
    + destruct (IH (pc + 1)%nat bits) as (b & -> & Hlb & Hbit); auto; [lia|..].
      { intros p Hp. apply Hc. lia. }
      exists b. split_and!; auto. intros p Hp. rewrite Hbit by done.
      rewrite (Nat.add_1_r pc).
      destruct (Nat.ltb_spec p pc), (Nat.ltb_spec p (S pc)); try lia; [done|..].
      * replace (p - pc)%nat with 0%nat by lia. rewrite (Hc p) by lia. done.
      * by replace (p - pc)%nat with (S (p - S pc)) by lia.
    + unfold not_push in Hnp. apply orb_false_iff in Hnp as [H96 H128].
      apply Z.ltb_ge in H96. apply Z.leb_gt in H128.
      set (n := Z.to_nat (op - 96 + 1)).
      assert (Hn : (1 <= n <= 32)%nat) by (unfold n; lia).
      replace (Z.to_nat (op - 95)) with n by (unfold n; f_equal; lia).
      assert (Hc1 : clear_from bits (pc + 1)) by (intros p Hp; apply Hc; lia).
      assert (Hr : room bits (pc + 1) n).
      { unfold room. rewrite Hl. dlia. }
      destruct (push_block_ok n (pc + 1) bits Hn Hc1 Hr) as (m & q & b1 & b2 & H1 & H2 & Hs).
      cbv zeta. fold n. rewrite H1. cbn [obind]. rewrite H2. cbn [obind].
      destruct (IH (pc + 1 + n)%nat b2) as (b & -> & Hlb & Hbit); auto.
      { lia. } { destruct Hs; congruence. } { by eapply sets_clear. }
      exists b. destruct Hs as [Hls Hs]. split_and!; [done|congruence|]. intros p Hp.
      rewrite Hbit, Hs by done. rewrite (Nat.add_1_r pc).
      destruct (Nat.ltb_spec p pc).
      { destruct (Nat.ltb_spec p (S pc + n)), (Nat.leb_spec (S pc) p); try lia.
        by rewrite andb_false_l, orb_false_r. }
      destruct (Nat.eq_dec p pc) as [->|Hne].
      { rewrite Nat.sub_diag. cbn [nth]. rewrite (Hc pc) by lia.
        destruct (Nat.ltb_spec pc (S pc + n)), (Nat.leb_spec (S pc) pc); done || lia. }
      replace (p - pc)%nat with (S (p - S pc)) by lia. cbn [nth].
      rewrite (data_flags_drop (drop (S pc) code) n), drop_drop, length_drop.
      rewrite (Hc p), orb_false_l by lia.
      destruct (Nat.leb_spec (S pc) p); [|lia].
      destruct (Nat.ltb_spec p (S pc + n)) as [Hin|Hout]; cbn [andb].
      * rewrite app_nth1 by (rewrite length_replicate; lia).
        rewrite nth_lookup, lookup_replicate_2 by lia. done.
      * rewrite app_nth2 by (rewrite length_replicate; lia). rewrite length_replicate.
        rewrite (Nat.min_l n) by lia. replace (p - S pc - n)%nat with (p - (S pc + n))%nat by lia.
        done.
Qed.

Lemma codeSegment_bit bits pos : (pos / 8 < length bits)%nat ->
  codeSegment bits pos = Ret (negb (bit bits pos)).
Proof.
  intros Hl. unfold codeSegment, bit. rewrite nth_lookup.
  destruct (lookup_lt_is_Some_2 bits _ Hl) as [b Hb]. rewrite Hb. cbn. f_equal.
  change 1 with (Z.ones 1). rewrite Z.land_ones by lia.
  rewrite <- Z.bit0_mod, Z.shiftr_spec, Z.add_0_l by lia.
  by destruct (Z.testbit b _).
Qed.

(** [codeBitmap] never indexes out of range, and its answer is the reference one
    at every position of the code. *)
Lemma codeBitmap_spec code : Forall is_byte code ->
  exists bits, codeBitmap code = Ret bits /\
    forall p, (p < length code)%nat -> codeSegment bits p = Ret (negb (is_data code p)).
Proof.
  intros Hb. unfold codeBitmap.
  destruct (codeBitmapInternal_ok code (length code) 0 (replicate (length code / 8 + 1 + 4) 0))
    as (bits & -> & Hl & Hbit); [done|lia|rewrite length_replicate; lia|..].
  { intros p _. unfold bit. rewrite nth_lookup.
    destruct (replicate _ 0 !! _) as [b|] eqn:E; [|apply Z.bits_0].
    apply lookup_replicate in E as [-> _]. apply Z.bits_0. }
  exists bits. split; [done|]. intros p Hp. rewrite length_replicate in Hl.
  rewrite codeSegment_bit by dlia. rewrite Hbit by done. cbn [Nat.ltb Nat.leb].
  unfold is_data. by rewrite Nat.sub_0_r, drop_0.
Qed.
