(* ===== verification/Rlp.v ===== *)
(** * RLP: recursive length prefix encoding

    [rlp/encode.go] and [rlp/encbuffer.go] (the encoder with its deferred list
    headers) and [rlp/raw.go] ([Split], [SplitUint64], [CountValues],
    [AppendUint64], ...).  Values reach the encoder by reflection; [rval] is the
    universe of the writers modelled here: byte strings, unsigned integers and
    lists (slices and structs). *)
From S2P Require Import Prelude.

(** [byte(i >> k)] *)
Definition byte_at (i k : Z) : Z := Z.shiftr i k mod 256.

(** ** Sizes and headers ([encode.go]) *)

(** The bytes [putint] writes; it returns their number. *)
Definition putint (i : Z) : list Z :=
  if i <? 256 then [byte_at i 0]
  else if i <? 65536 then [byte_at i 8; byte_at i 0]
  else if i <? 16777216 then [byte_at i 16; byte_at i 8; byte_at i 0]
  else if i <? 4294967296 then [byte_at i 24; byte_at i 16; byte_at i 8; byte_at i 0]
  else if i <? 1099511627776 then
    [byte_at i 32; byte_at i 24; byte_at i 16; byte_at i 8; byte_at i 0]
  else if i <? 281474976710656 then
    [byte_at i 40; byte_at i 32; byte_at i 24; byte_at i 16; byte_at i 8; byte_at i 0]
  else if i <? 72057594037927936 then
    [byte_at i 48; byte_at i 40; byte_at i 32; byte_at i 24; byte_at i 16; byte_at i 8; byte_at i 0]
  else
    [byte_at i 56; byte_at i 48; byte_at i 40; byte_at i 32;
     byte_at i 24; byte_at i 16; byte_at i 8; byte_at i 0].

Definition puthead (smalltag largetag size : Z) : list Z :=
  if size <? 56 then [(smalltag + size) mod 256]
  else let b := putint size in ((largetag + zlen b) mod 256) :: b.

(** [intsize]: the loop shifts a [uint64] by 8 until it is zero, at most eight
    times. *)
Fixpoint intsize_loop (fuel : nat) (i size : Z) : outcome Z :=
  match fuel with
  | O => NoFuel
  | S f => let i := Z.shiftr i 8 in if i =? 0 then Ret size else intsize_loop f i (size + 1)
  end.
Definition intsize (i : Z) : outcome Z := intsize_loop 8 i 1.

Definition headsize (size : Z) : outcome Z :=
  if size <? 56 then Ret 1 else s <-o intsize size ;; Ret (1 + s).

Definition IntSize (x : Z) : outcome Z :=
  if x <? 128 then Ret 1 else s <-o intsize x ;; Ret (1 + s).

(** ** The encoder buffer ([encbuffer.go]) *)
Record listhead := mkHead { offset : Z; hsize : Z }.

Record encBuffer := mkBuf { str : list Z; lheads : list listhead; lhsize : Z }.

Definition buf_reset : encBuffer := {| str := []; lheads := []; lhsize := 0 |}.

Definition buf_size (b : encBuffer) : Z := zlen (str b) + lhsize b.

Definition append_str (bs : list Z) (b : encBuffer) : encBuffer :=
  {| str := str b ++ bs; lheads := lheads b; lhsize := lhsize b |}.

Definition head_encode (h : listhead) : list Z := puthead 192 247 (hsize h).

Definition writeUint64 (i : Z) (b : encBuffer) : encBuffer :=
  if i =? 0 then append_str [128] b
  else if i <? 128 then append_str [i] b
  else let s := putint i in append_str (((128 + zlen s) mod 256) :: s) b.

Definition encodeStringHeader (size : Z) (b : encBuffer) : encBuffer :=
  if size <? 56 then append_str [(128 + size) mod 256] b
  else let s := putint size in append_str (((183 + zlen s) mod 256) :: s) b.

Definition writeBytes (bs : list Z) (b : encBuffer) : encBuffer :=
  match bs with
  | [x] => if x <=? 127 then append_str [x] b
           else append_str bs (encodeStringHeader (zlen bs) b)
  | _ => append_str bs (encodeStringHeader (zlen bs) b)
  end.

(** [list] returns the index of the new header, [listEnd] completes it. *)
Definition buf_list (b : encBuffer) : nat * encBuffer :=
  (length (lheads b),
   {| str := str b; lheads := lheads b ++ [{| offset := zlen (str b); hsize := lhsize b |}];
      lhsize := lhsize b |}).

Definition buf_listEnd (index : nat) (b : encBuffer) : outcome encBuffer :=
  match lheads b !! index with
  | None => Panic PIndex
  | Some lh =>
      let size := buf_size b - offset lh - hsize lh in
      let heads := <[index := {| offset := offset lh; hsize := size |}]> (lheads b) in
      if size <? 56 then Ret {| str := str b; lheads := heads; lhsize := lhsize b + 1 |}
      else s <-o intsize size ;;
           Ret {| str := str b; lheads := heads; lhsize := lhsize b + (1 + s) |}
  end.

(** [copyTo]: string data interleaved with the list headers. *)
Fixpoint copyTo_loop (heads : list listhead) (strpos : Z) (s : list Z) : outcome (list Z) :=
  match heads with
  | [] => slice s strpos (zlen s)
  | h :: r =>
      d <-o slice s strpos (offset h) ;;
      rest <-o copyTo_loop r (strpos + zlen d) s ;;
      Ret (d ++ head_encode h ++ rest)
  end.

Definition makeBytes (b : encBuffer) : outcome (list Z) := copyTo_loop (lheads b) 0 (str b).

(** ** Values *)
Inductive rval : Type :=
| RBytes (bs : list Z)
| RUint (i : Z)
| RList (vs : list rval).

(** The writers: an empty slice writes [0xC0], a non-empty one is bracketed by
    [list] and [listEnd]. *)
Fixpoint writer (v : rval) (b : encBuffer) : outcome encBuffer :=
  match v with
  | RBytes bs => Ret (writeBytes bs b)
  | RUint i => Ret (writeUint64 i b)
  | RList [] => Ret (append_str [192] b)
  | RList vs =>
      let '(index, b) := buf_list b in
      b <-o (fix write_all vs b :=
               match vs with
               | [] => Ret b
               | v :: r => b <-o writer v b ;; write_all r b
               end) vs b ;;
      buf_listEnd index b
  end.

Definition EncodeToBytes (v : rval) : outcome (list Z) :=
  b <-o writer v buf_reset ;; makeBytes b.

(** [AppendUint64] *)
Definition AppendUint64 (b : list Z) (i : Z) : list Z :=
  if i =? 0 then b ++ [128]
  else if i <? 128 then b ++ [i]
  else if i <? 256 then b ++ [129; byte_at i 0]
  else if i <? 65536 then b ++ [130; byte_at i 8; byte_at i 0]
  else if i <? 16777216 then b ++ [131; byte_at i 16; byte_at i 8; byte_at i 0]
  else if i <? 4294967296 then
    b ++ [132; byte_at i 24; byte_at i 16; byte_at i 8; byte_at i 0]
  else if i <? 1099511627776 then
    b ++ [133; byte_at i 32; byte_at i 24; byte_at i 16; byte_at i 8; byte_at i 0]
  else if i <? 281474976710656 then
    b ++ [134; byte_at i 40; byte_at i 32; byte_at i 24; byte_at i 16; byte_at i 8; byte_at i 0]
  else if i <? 72057594037927936 then
    b ++ [135; byte_at i 48; byte_at i 40; byte_at i 32; byte_at i 24; byte_at i 16;
          byte_at i 8; byte_at i 0]
  else
    b ++ [136; byte_at i 56; byte_at i 48; byte_at i 40; byte_at i 32; byte_at i 24;
          byte_at i 16; byte_at i 8; byte_at i 0].

(** ** Splitting encoded values ([raw.go]) *)
Inductive Kind : Set := KByte | KString | KList.

Inductive rlp_err : Set :=
| ErrUnexpectedEOF | ErrCanonSize | ErrCanonInt | ErrValueTooLarge
| ErrExpectedString | ErrExpectedList | errUintOverflow.

Abbreviation result A := (A + rlp_err)%type.

(** [readSize]: big-endian, at least 56 and without a leading zero. *)
Definition readSize (b : list Z) (slen : Z) : result Z :=
  if zlen b <? slen then inr ErrUnexpectedEOF
  else
    let s := be_value (take (Z.to_nat slen) b) 0 in
    if (s <? 56) || (nth 0 b 0 =? 0) then inr ErrCanonSize else inl s.

Definition readKind (buf : list Z) : result (Kind * Z * Z) :=
  match buf with
  | [] => inr ErrUnexpectedEOF
  | b :: tl =>
      let r : result (Kind * Z * Z) :=
        if b <? 128 then inl (KByte, 0, 1)
        else if b <? 184 then
          if (b - 128 =? 1) && (1 <? zlen buf) && (nth 0 tl 0 <? 128)
          then inr ErrCanonSize else inl (KString, 1, b - 128)
        else if b <? 192 then
          match readSize tl (b - 183) with
          | inl s => inl (KString, b - 183 + 1, s)
          | inr e => inr e
          end
        else if b <? 248 then inl (KList, 1, b - 192)
        else
          match readSize tl (b - 247) with
          | inl s => inl (KList, b - 247 + 1, s)
          | inr e => inr e
          end in
      match r with
      | inr e => inr e
      | inl (k, tagsize, contentsize) =>
          if zlen buf -64 tagsize <? contentsize then inr ErrValueTooLarge
          else inl (k, tagsize, contentsize)
      end
  end.

Definition Split (b : list Z) : outcome (result (Kind * list Z * list Z)) :=
  match readKind b with
  | inr e => Ret (inr e)
  | inl (k, ts, cs) =>
      content <-o slice b ts (ts +64 cs) ;;
      rest <-o slice b (ts +64 cs) (zlen b) ;;
      Ret (inl (k, content, rest))
  end.

Definition SplitString (b : list Z) : outcome (result (list Z * list Z)) :=
  r <-o Split b ;;
  match r with
  | inr e => Ret (inr e)
  | inl (KList, _, _) => Ret (inr ErrExpectedString)
  | inl (_, content, rest) => Ret (inl (content, rest))
  end.

Definition SplitList (b : list Z) : outcome (result (list Z * list Z)) :=
  r <-o Split b ;;
  match r with
  | inr e => Ret (inr e)
  | inl (KList, content, rest) => Ret (inl (content, rest))
  | inl (_, _, _) => Ret (inr ErrExpectedList)
  end.

Definition SplitUint64 (b : list Z) : outcome (result (Z * list Z)) :=
  r <-o SplitString b ;;
  match r with
  | inr e => Ret (inr e)
  | inl (content, rest) =>
      match content with
      | [] => Ret (inl (0, rest))
      | [x] => if x =? 0 then Ret (inr ErrCanonInt) else Ret (inl (x, rest))
      | _ =>
          if 8 <? zlen content then Ret (inr errUintOverflow)
          else match readSize content (zlen content) with
               | inl x => Ret (inl (x, rest))
               | inr _ => Ret (inr ErrCanonInt)
               end
      end
  end.

(** [CountValues]: one value per iteration; every value takes at least one byte. *)
Fixpoint CountValues_loop (fuel : nat) (b : list Z) (i : Z) : outcome (result Z) :=
  match b with
  | [] => Ret (inl i)
  | _ =>
      match fuel with
      | O => NoFuel
      | S f =>
          match readKind b with
          | inr e => Ret (inr e)
          | inl (_, ts, cs) =>
              rest <-o slice b (ts +64 cs) (zlen b) ;;
              CountValues_loop f rest (i + 1)
          end
      end
  end.
Definition CountValues (b : list Z) : outcome (result Z) := CountValues_loop (length b) b 0.

(** ** Reference encoding *)
Definition enc_bytes (bs : list Z) : list Z :=
  match bs with
  | [x] => if x <=? 127 then [x] else puthead 128 183 1 ++ bs
  | _ => puthead 128 183 (zlen bs) ++ bs
  end.

Fixpoint rlp_enc (v : rval) : list Z :=
  match v with
  | RBytes bs => enc_bytes bs
  | RUint i => if i =? 0 then [128] else enc_bytes (putint i)
  | RList vs =>
      let payload := concat (map rlp_enc vs) in
      puthead 192 247 (zlen payload) ++ payload
  end.
