(* ===== verification/RlpProofs.v ===== *)
(** * RLP: the encoder meets the specification, and decoding inverts it

    The encoder collects string data and list headers separately and interleaves
    them at the end; [EncodeToBytes_ok] shows that the result is the
    recursive definition [rlp_enc].  The splitters of [raw.go] return exactly
    what was encoded, accept only canonical input, and never index out of
    range. *)
From S2P Require Import Prelude Rlp.

(** ** Integers *)
Lemma byte_at_div i k : 0 <= k -> byte_at i k = (i / 2 ^ k) mod 256.
Proof. intros. unfold byte_at. by rewrite Z.shiftr_div_pow2. Qed.

(** [putint] writes the shortest big-endian form. *)
Lemma putint_be i : 0 <= i < two64 ->
  exists n : nat, (1 <= n <= 8)%nat /\ putint i = be_bytes n i /\ i < 256 ^ Z.of_nat n /\
    (n = 1%nat \/ 256 ^ (Z.of_nat n - 1) <= i).
Proof.
  intros Hi. unfold putint.
  repeat match goal with
  | |- context [if ?a <? ?b then _ else _] => destruct (Z.ltb_spec a b)
  end;
  [exists 1%nat|exists 2%nat|exists 3%nat|exists 4%nat|exists 5%nat|exists 6%nat|exists 7%nat
  |exists 8%nat]; (split; [lia|]; split;
    [cbn [be_bytes app]; rewrite !byte_at_div, ?Z.div_div by lia; cbn; rewrite ?Z.div_1_r; done
    |cbn; lia]).
Qed.

Lemma be_bytes_head n i : 256 ^ (Z.of_nat n) <= i < 256 ^ (Z.of_nat n + 1) ->
  exists b r, be_bytes (S n) i = b :: r /\ 0 < b < 256.
Proof.
  revert i. induction n as [|n IH]; intros i Hi.
  - exists i, []. cbn in *. rewrite Z.mod_small by lia. split; [done|lia].
  - destruct (IH (i / 256)) as (b & r & Hb & Hr).
    { replace (Z.of_nat (S n)) with (Z.of_nat n + 1) in Hi by lia.
      rewrite !Z.pow_add_r in * by lia. set (p := 256 ^ Z.of_nat n) in *. cbn in *. dlia. }
    exists b, (r ++ [i mod 256]). cbn [be_bytes] in *. by rewrite Hb.
Qed.

Lemma putint_facts i : 0 <= i < two64 ->
  Forall is_byte (putint i) /\ 1 <= zlen (putint i) <= 8 /\ be_value (putint i) 0 = i /\
  (0 < i -> exists b r, putint i = b :: r /\ 0 < b < 256).
Proof.
  intros Hi. destruct (putint_be i Hi) as (n & Hn & Hp & Hlt & Hge). rewrite Hp.
  split; [apply be_bytes_byte|]. split; [unfold zlen; rewrite length_be_bytes; lia|].
  split; [rewrite be_value_bytes; apply Z.mod_small; lia|].
  intros Hpos. destruct n as [|n]; [lia|]. apply be_bytes_head.
  replace (Z.of_nat n) with (Z.of_nat (S n) - 1) by lia. rewrite Z.sub_add. split; [|done].
  destruct Hge as [[= ->]|]; [cbn; lia|done].
Qed.

(** The loop of [intsize] ends within its eight iterations, with the number of
    bytes [putint] writes. *)
Lemma intsize_putint i : 0 <= i < two64 -> intsize i = Ret (zlen (putint i)).
Proof.
  intros Hi. unfold intsize.
  assert (Hs : forall k, 0 <= k -> Z.shiftr i k = i / 2 ^ k) by (intros; by apply Z.shiftr_div_pow2).
  assert (Hsh : forall k, 0 <= k -> Z.shiftr (i / 2 ^ k) 8 = i / 2 ^ (k + 8)).
  { intros k Hk. rewrite Z.shiftr_div_pow2, Z.pow_add_r, Z.div_div by lia. done. }
  unfold putint. cbn [intsize_loop]. rewrite Hs by lia.
  repeat (rewrite Hsh by lia; cbn [Z.add Pos.add Pos.succ]).
  repeat match goal with
  | |- context [if ?a <? ?b then _ else _] => destruct (Z.ltb_spec a b)
  end;
  repeat match goal with
  | |- context [if ?a =? 0 then _ else _] =>
      first [rewrite (proj2 (Z.eqb_eq a 0)) by (cbn; dlia)
            |rewrite (proj2 (Z.eqb_neq a 0)) by (cbn; dlia)]
  end; try done.
Qed.

Lemma puthead_facts t l size : 0 <= size < two64 -> 0 <= t <= 192 -> 0 <= l <= 247 ->
  Forall is_byte (puthead t l size) /\ 1 <= zlen (puthead t l size) <= 9.
Proof.
  intros Hs Ht Hl. unfold puthead. destruct (putint_facts size Hs) as (Hb & Hlen & _).
  assert (Hm : forall z, is_byte (z mod 256)) by (intros; apply Z.mod_pos_bound; lia).
  destruct (Z.ltb_spec size 56).
  - split; [by repeat constructor; apply Hm|]. unfold zlen. cbn. lia.
  - split; [by constructor|]. unfold zlen in *. cbn. lia.
Qed.

(** ** The encoder *)

(** Induction over values, with the induction hypothesis on the list items. *)
Lemma rval_ind' (P : rval -> Prop) :
  (forall bs, P (RBytes bs)) -> (forall i, P (RUint i)) ->
  (forall vs, Forall P vs -> P (RList vs)) -> forall v, P v.
Proof.
  intros Hb Hu Hl. fix IH 1. intros [bs|i|vs]; [apply Hb|apply Hu|apply Hl].
  induction vs; constructor; [apply IH|done].
Qed.

(** What a value adds to the buffer: its string data, and its list headers when
    the data starts at [base]. *)
Fixpoint strdata (v : rval) : list Z :=
  match v with
  | RList [] => [192]
  | RList vs => concat (map strdata vs)
  | v => rlp_enc v
  end.

Fixpoint heads (base : Z) (v : rval) : list listhead :=
  match v with
  | RList [] => []
  | RList vs =>
      mkHead base (zlen (concat (map rlp_enc vs))) ::
      (fix go base vs := match vs with
                         | [] => []
                         | v :: r => heads base v ++ go (base + zlen (strdata v)) r
                         end) base vs
  | _ => []
  end.

Fixpoint heads_list (base : Z) (vs : list rval) : list listhead :=
  match vs with
  | [] => []
  | v :: r => heads base v ++ heads_list (base + zlen (strdata v)) r
  end.

Lemma heads_RList base v vs :
  heads base (RList (v :: vs)) =
    mkHead base (zlen (concat (map rlp_enc (v :: vs)))) :: heads_list base (v :: vs).
Proof. reflexivity. Qed.

Fixpoint write_all (vs : list rval) (b : encBuffer) : outcome encBuffer :=
  match vs with
  | [] => Ret b
  | v :: r => b <-o writer v b ;; write_all r b
  end.

Lemma writer_RList v vs b :
  writer (RList (v :: vs)) b =
    (let '(index, b) := buf_list b in
     b <-o write_all (v :: vs) b ;; buf_listEnd index b).
Proof. reflexivity. Qed.

(** Every encoded item fits in memory. *)
Definition fits (v : rval) : Prop :=
  zlen (rlp_enc v) < two64 /\ match v with RUint i => is_u64 i | _ => True end.
Fixpoint all_fit (v : rval) : Prop :=
  fits v /\ match v with RList vs => (fix go vs := match vs with [] => True | v :: r => all_fit v /\ go r end) vs | _ => True end.

Lemma all_fit_list vs : all_fit (RList vs) -> zlen (concat (map rlp_enc vs)) < two64 /\ Forall all_fit vs.
Proof.
  cbn [all_fit]. intros [[Hf _] Hr]. split.
  - cbn [rlp_enc] in Hf. rewrite zlen_app in Hf.
    pose proof (zlen_nonneg (puthead 192 247 (zlen (concat (map rlp_enc vs))))). lia.
  - clear Hf. induction vs as [|v vs IH]; constructor; [apply Hr|]. apply IH. apply Hr.
Qed.

Lemma writeBytes_enc bs b : writeBytes bs b = append_str (enc_bytes bs) b.
Proof.
  assert (Hg : append_str bs (encodeStringHeader (zlen bs) b) =
               append_str (puthead 128 183 (zlen bs) ++ bs) b).
  { unfold encodeStringHeader, puthead, append_str. destruct (_ <? _); cbn; by rewrite <- app_assoc. }
  unfold writeBytes, enc_bytes. destruct bs as [|x [|y r]]; [exact Hg| |exact Hg].
  destruct (x <=? 127); [done|exact Hg].
Qed.

Lemma writeUint64_enc i b : 0 <= i < two64 -> writeUint64 i b = append_str (rlp_enc (RUint i)) b.
Proof.
  intros Hi. unfold writeUint64. cbn [rlp_enc]. destruct (Z.eqb_spec i 0); [done|].
  destruct (Z.ltb_spec i 128) as [Hlt|Hge].
  { replace (putint i) with [i]; [|unfold putint, byte_at; zcase; rewrite Z.shiftr_0_r, Z.mod_small by lia; done].
    cbn. destruct (Z.leb_spec i 127); [done|lia]. }
  destruct (putint_facts i Hi) as (Hb & Hl & Hv & _). f_equal.
  unfold enc_bytes, puthead. unfold zlen in *.
  destruct (putint i) as [|x [|y r]]; [done| |].
  - cbn [be_value] in Hv. assert (x = i) as -> by lia. zcase. done.
  - zcase. done.
Qed.

(** The header size that [listEnd] adds is the size of the header. *)
Lemma buf_listEnd_ok index b lh size :
  lheads b !! index = Some lh -> buf_size b - offset lh - hsize lh = size -> 0 <= size < two64 ->
  buf_listEnd index b =
    Ret {| str := str b; lheads := <[index := mkHead (offset lh) size]> (lheads b);
           lhsize := lhsize b + zlen (puthead 192 247 size) |}.
Proof.
  intros Hl Hsz Hs. unfold buf_listEnd. rewrite Hl, Hsz. unfold puthead.
  destruct (Z.ltb_spec size 56); [done|]. rewrite intsize_putint by done. cbn [obind].
  do 2 f_equal. unfold zlen. cbn. lia.
Qed.

(** The bytes of the headers of a value. *)
Definition headbytes (v : rval) : Z := zlen (rlp_enc v) - zlen (strdata v).

Definition extend (s : list Z) (hs : list listhead) (n : Z) (b : encBuffer) : encBuffer :=
  {| str := str b ++ s; lheads := lheads b ++ hs; lhsize := lhsize b + n |}.

Definition writes (v : rval) : Prop :=
  forall b, writer v b = Ret (extend (strdata v) (heads (zlen (str b)) v) (headbytes v) b).

Lemma extend_leaf s b : append_str s b = extend s [] 0 b.
Proof. unfold append_str, extend. by rewrite app_nil_r, Z.add_0_r. Qed.

Lemma write_all_ok vs : Forall writes vs -> forall b,
  write_all vs b = Ret (extend (concat (map strdata vs)) (heads_list (zlen (str b)) vs)
    (zlen (concat (map rlp_enc vs)) - zlen (concat (map strdata vs))) b).
Proof.
  induction 1 as [|v vs Hv _ IH]; intros b; cbn [write_all map concat heads_list].
  { f_equal. unfold extend. destruct b. cbn. rewrite !app_nil_r. f_equal. lia. }
  rewrite Hv. cbn [obind]. rewrite IH. f_equal. unfold extend. cbn [str lheads lhsize].
  rewrite <- !app_assoc, !zlen_app. f_equal. unfold headbytes. lia.
Qed.

Lemma writer_ok v : all_fit v -> writes v.
Proof.
  induction v as [bs|i|vs IH] using rval_ind'; intros Hf b.
  - cbn [writer]. rewrite writeBytes_enc, extend_leaf. unfold headbytes. cbn [strdata heads].
    by rewrite Z.sub_diag.
  - destruct Hf as [[_ Hi] _]. cbn [writer]. rewrite writeUint64_enc, extend_leaf by done.
    unfold headbytes. cbn [strdata heads]. by rewrite Z.sub_diag.
  - apply all_fit_list in Hf as [Hsz Hf]. destruct vs as [|v vs].
    { cbn [writer]. by rewrite extend_leaf. }
    assert (Hw : Forall writes (v :: vs)).
    { apply Forall_forall. intros x Hx. rewrite Forall_forall in IH, Hf. auto. }
    rewrite writer_RList, heads_RList. cbn [buf_list]. rewrite (write_all_ok _ Hw). cbn [obind str].
    set (payload := concat (map rlp_enc (v :: vs))) in *. pose proof (zlen_nonneg payload).
    set (data := concat (map strdata (v :: vs))).
    erewrite (buf_listEnd_ok _ _ (mkHead (zlen (str b)) (lhsize b)) (zlen payload)); [| | |lia].
    + unfold extend. cbn [str lheads lhsize offset hsize]. do 2 f_equal.
      * rewrite <- !app_assoc. rewrite insert_app_r_alt, Nat.sub_diag by done. done.
      * unfold headbytes. change (strdata (RList (v :: vs))) with data.
        cbn [rlp_enc]. rewrite zlen_app. fold payload. lia.
    + unfold extend. cbn [lheads]. rewrite <- app_assoc, lookup_app_r, Nat.sub_diag by done. done.
    + unfold buf_size, extend. cbn [str lhsize offset hsize]. rewrite zlen_app. lia.
Qed.

(** ** Interleaving: [copyTo] *)
Lemma slice_earlier {A} (l : list A) p k e d :
  0 <= p -> 0 <= k -> slice l (p + k) e = Ret d ->
  slice l p e = Ret (take (Z.to_nat k) (drop (Z.to_nat p) l) ++ d).
Proof.
  intros Hp Hk. unfold slice.
  destruct (Z.leb_spec 0 (p + k)), (Z.leb_spec (p + k) e), (Z.leb_spec e (zlen l)); cbn; try done.
  intros [= <-]. zcase. cbn. f_equal.
  replace (Z.to_nat (p + k)) with (Z.to_nat p + Z.to_nat k)%nat by lia.
  rewrite <- drop_drop. set (x := drop (Z.to_nat p) l).
  replace (Z.to_nat (e - p)) with (Z.to_nat k + Z.to_nat (e - (p + k)))%nat by lia.
  by rewrite <- take_take_drop.
Qed.

Lemma slice_len {A} (l : list A) lo hi d : slice l lo hi = Ret d -> zlen d = hi - lo.
Proof.
  unfold slice. destruct (Z.leb_spec 0 lo), (Z.leb_spec lo hi), (Z.leb_spec hi (zlen l)); cbn; try done.
  intros [= <-]. unfold zlen in *. rewrite length_take, length_drop. lia.
Qed.

(** Starting earlier emits the data in between first. *)
Lemma copyTo_earlier hs pre x post out :
  copyTo_loop hs (zlen pre + zlen x) (pre ++ x ++ post) = Ret out ->
  copyTo_loop hs (zlen pre) (pre ++ x ++ post) = Ret (x ++ out).
Proof.
  assert (Hx : take (Z.to_nat (zlen x)) (drop (Z.to_nat (zlen pre)) (pre ++ x ++ post)) = x).
  { unfold zlen. rewrite !Nat2Z.id, drop_app_length. apply take_app_length. }
  pose proof (zlen_nonneg pre). pose proof (zlen_nonneg x).
  destruct hs as [|h hs]; cbn [copyTo_loop].
  - intros Hs. apply slice_earlier in Hs; [|done|done]. by rewrite Hs, Hx.
  - destruct (slice _ (zlen pre + zlen x) (offset h)) as [d|?|] eqn:E; try done. cbn [obind].
    apply slice_earlier in E as E'; [|done|done]. rewrite E', Hx. cbn [obind].
    rewrite zlen_app, Z.add_assoc.
    destruct (copyTo_loop hs _ _) as [rest|?|]; try done. cbn [obind].
    intros [= <-]. by rewrite <- app_assoc.
Qed.

(** A value's headers, interleaved with its data, give its encoding. *)
Definition emits (v : rval) : Prop := forall pre post hs out,
  copyTo_loop hs (zlen pre + zlen (strdata v)) (pre ++ strdata v ++ post) = Ret out ->
  copyTo_loop (heads (zlen pre) v ++ hs) (zlen pre) (pre ++ strdata v ++ post) =
    Ret (rlp_enc v ++ out).

Lemma emits_list vs : Forall emits vs -> forall pre post hs out,
  copyTo_loop hs (zlen pre + zlen (concat (map strdata vs)))
    (pre ++ concat (map strdata vs) ++ post) = Ret out ->
  copyTo_loop (heads_list (zlen pre) vs ++ hs) (zlen pre) (pre ++ concat (map strdata vs) ++ post) =
    Ret (concat (map rlp_enc vs) ++ out).
Proof.
  induction 1 as [|v vs Hv _ IH]; intros pre post hs out; cbn [map concat heads_list].
  { cbn [app]. change (zlen (@nil Z)) with 0. by rewrite Z.add_0_r. }
  rewrite <- !app_assoc. intros H. apply Hv.
  specialize (IH (pre ++ strdata v) post hs out). rewrite zlen_app, <- !app_assoc in IH.
  apply IH. rewrite zlen_app in H. by rewrite <- Z.add_assoc.
Qed.

Lemma emits_ok v : emits v.
Proof.
  induction v as [bs|i|vs IH] using rval_ind'; intros pre post hs out H.
  - by apply copyTo_earlier.
  - by apply copyTo_earlier.
  - destruct vs as [|v vs]; [by apply copyTo_earlier|].
    rewrite heads_RList. cbn [app copyTo_loop offset].
    rewrite slice_ok by (rewrite ?zlen_app; pose proof (zlen_nonneg pre);
      pose proof (zlen_nonneg (strdata (RList (v :: vs)))); pose proof (zlen_nonneg post); lia).
    rewrite Z.sub_diag, take_0. cbn [obind]. change (zlen (@nil Z)) with 0. rewrite Z.add_0_r.
    change (strdata (RList (v :: vs))) with (concat (map strdata (v :: vs))) in *.
    rewrite (emits_list _ IH _ _ _ _ H). cbn [obind rlp_enc app]. f_equal.
    unfold head_encode. cbn [hsize]. by rewrite <- app_assoc.
Qed.

Lemma EncodeToBytes_ok v : all_fit v -> EncodeToBytes v = Ret (rlp_enc v).
Proof.
  intros Hf. unfold EncodeToBytes. rewrite (writer_ok v Hf). cbn [obind].
  unfold makeBytes, extend. cbn [str lheads buf_reset app]. change (zlen (@nil Z)) with 0.
  pose proof (emits_ok v [] [] [] []) as H. cbn [app] in H. rewrite !app_nil_r in H.
  change (zlen (@nil Z)) with 0 in H. apply H. cbn [copyTo_loop].
  rewrite Z.add_0_l. pose proof (zlen_nonneg (strdata v)). rewrite slice_ok by lia.
  by rewrite Z.sub_diag, take_0.
Qed.

(** ** Splitting what was encoded *)
Lemma byte_lt b : is_byte b -> 0 <= b < 256.
Proof. done. Qed.

Lemma readSize_putint size tl : 56 <= size < two64 ->
  readSize (putint size ++ tl) (zlen (putint size)) = inl size.
Proof.
  intros Hs. destruct (putint_facts size) as (_ & Hl & Hv & Hh); [lia|].
  destruct Hh as (b & r & Hb & Hpos); [lia|]. unfold readSize.
  pose proof (zlen_nonneg tl). rewrite zlen_app.
  destruct (Z.ltb_spec (zlen (putint size) + zlen tl) (zlen (putint size))); [lia|].
  assert (Htk : take (Z.to_nat (zlen (putint size))) (putint size ++ tl) = putint size).
  { unfold zlen. rewrite Nat2Z.id. apply take_app_length. }
  rewrite Htk, Hv, Hb. cbn [app nth]. destruct (Z.ltb_spec size 56), (Z.eqb_spec b 0); cbn; done || lia.
Qed.

(** The two kinds of headers, with their tags. *)
Definition head_of (k : Kind) (size : Z) : list Z :=
  match k with
  | KByte => []
  | KString => puthead 128 183 size
  | KList => puthead 192 247 size
  end.

Lemma readKind_head k size tl :
  k <> KByte -> 0 <= size <= zlen tl -> zlen (head_of k size ++ tl) < two64 ->
  (k = KString -> size = 1 -> 128 <= nth 0 tl 0) ->
  readKind (head_of k size ++ tl) = inl (k, zlen (head_of k size), size).
Proof.
  intros Hk Hsz Hlen Hcanon. rewrite zlen_app in Hlen. pose proof (zlen_nonneg (head_of k size)).
  assert (Hwrap : zlen (head_of k size ++ tl) -64 zlen (head_of k size) = zlen tl).
  { rewrite zlen_app. rewrite wrap64_small; [lia|]. unfold is_u64. lia. }
  destruct (putint_facts size) as (_ & Hl & _); [lia|].
  assert (Hlast : (zlen tl <? size) = false) by lia.
  destruct k; [done| |]; cbn [head_of] in *; unfold puthead in *;
    destruct (Z.ltb_spec size 56).
  - rewrite Z.mod_small in * by lia. cbn [app readKind] in *.
    destruct (Z.ltb_spec (128 + size) 128); [lia|].
    destruct (Z.ltb_spec (128 + size) 184); [|lia].
    replace (128 + size - 128) with size by lia.
    assert (Hc : (size =? 1) && (1 <? zlen ((128 + size) :: tl)) && (nth 0 tl 0 <? 128) = false).
    { destruct (Z.eqb_spec size 1) as [->|]; [|done]. specialize (Hcanon eq_refl eq_refl).
      destruct (Z.ltb_spec (nth 0 tl 0) 128); [lia|]. apply andb_false_r. }
    rewrite Hc. change (zlen [128 + size]) with 1 in *. by rewrite Hwrap, Hlast.
  - rewrite Z.mod_small in * by lia. cbn [app readKind] in *.
    destruct (Z.ltb_spec (183 + zlen (putint size)) 128); [lia|].
    destruct (Z.ltb_spec (183 + zlen (putint size)) 184); [lia|].
    destruct (Z.ltb_spec (183 + zlen (putint size)) 192); [|lia].
    replace (183 + zlen (putint size) - 183) with (zlen (putint size)) by lia.
    rewrite readSize_putint by lia.
    replace (zlen (183 + zlen (putint size) :: putint size)) with (zlen (putint size) + 1) in *
      by (unfold zlen; cbn; lia).
    by rewrite Hwrap, Hlast.
  - rewrite Z.mod_small in * by lia. cbn [app readKind] in *.
    destruct (Z.ltb_spec (192 + size) 128); [lia|].
    destruct (Z.ltb_spec (192 + size) 184); [lia|].
    destruct (Z.ltb_spec (192 + size) 192); [lia|].
    destruct (Z.ltb_spec (192 + size) 248); [|lia].
    replace (192 + size - 192) with size by lia.
    change (zlen [192 + size]) with 1 in *. by rewrite Hwrap, Hlast.
  - rewrite Z.mod_small in * by lia. cbn [app readKind] in *.
    destruct (Z.ltb_spec (247 + zlen (putint size)) 128); [lia|].
    destruct (Z.ltb_spec (247 + zlen (putint size)) 184); [lia|].
    destruct (Z.ltb_spec (247 + zlen (putint size)) 192); [lia|].
    destruct (Z.ltb_spec (247 + zlen (putint size)) 248); [lia|].
    replace (247 + zlen (putint size) - 247) with (zlen (putint size)) by lia.
    rewrite readSize_putint by lia.
    replace (zlen (247 + zlen (putint size) :: putint size)) with (zlen (putint size) + 1) in *
      by (unfold zlen; cbn; lia).
    by rewrite Hwrap, Hlast.
Qed.

(** Cutting a buffer at the sizes [readKind] returns. *)
Lemma Split_cut k hd content rest :
  zlen (hd ++ content ++ rest) < two64 ->
  readKind (hd ++ content ++ rest) = inl (k, zlen hd, zlen content) ->
  Split (hd ++ content ++ rest) = Ret (inl (k, content, rest)).
Proof.
  intros Hl Hr. unfold Split. rewrite Hr. rewrite !zlen_app in Hl.
  pose proof (zlen_nonneg hd). pose proof (zlen_nonneg content). pose proof (zlen_nonneg rest).
  rewrite wrap64_small by (unfold is_u64; lia).
  rewrite !slice_ok by (rewrite ?zlen_app; lia). cbn [obind]. do 3 f_equal.
  - f_equal. replace (zlen hd + zlen content - zlen hd) with (zlen content) by lia.
    unfold zlen. rewrite !Nat2Z.id, drop_app_length. apply take_app_length.
  - rewrite !zlen_app.
    replace (zlen hd + (zlen content + zlen rest) - (zlen hd + zlen content)) with (zlen rest) by lia.
    rewrite app_assoc. replace (zlen hd + zlen content) with (zlen (hd ++ content)) by apply zlen_app.
    unfold zlen. rewrite !Nat2Z.id, drop_app_length. apply firstn_all.
Qed.

Lemma Split_head k content rest :
  k <> KByte -> zlen (head_of k (zlen content) ++ content ++ rest) < two64 ->
  (k = KString -> zlen content = 1 -> 128 <= nth 0 (content ++ rest) 0) ->
  Split (head_of k (zlen content) ++ content ++ rest) = Ret (inl (k, content, rest)).
Proof.
  intros Hk Hl Hc. apply Split_cut; [done|]. apply readKind_head; try done.
  rewrite zlen_app. pose proof (zlen_nonneg content). pose proof (zlen_nonneg rest). lia.
Qed.

Lemma Split_byte x rest : 0 <= x < 128 -> zlen (x :: rest) < two64 ->
  Split (x :: rest) = Ret (inl (KByte, [x], rest)).
Proof.
  intros Hx Hl. change (x :: rest) with ([] ++ [x] ++ rest). apply Split_cut; [done|].
  cbn [app readKind] in *. destruct (Z.ltb_spec x 128); [|lia].
  pose proof (zlen_nonneg (x :: rest)).
  rewrite Z.sub_0_r, wrap64_small by (unfold is_u64; lia).
  destruct (Z.ltb_spec (zlen (x :: rest)) 1) as [Hlt|]; [|done]. unfold zlen in Hlt. cbn in Hlt. lia.
Qed.

Lemma SplitString_enc bs rest :
  Forall is_byte bs -> zlen (enc_bytes bs ++ rest) < two64 ->
  SplitString (enc_bytes bs ++ rest) = Ret (inl (bs, rest)).
Proof.
  intros Hb Hl. unfold SplitString.
  assert (Hgen : enc_bytes bs = puthead 128 183 (zlen bs) ++ bs ->
    (zlen bs = 1 -> 128 <= nth 0 (bs ++ rest) 0) ->
    Split (enc_bytes bs ++ rest) = Ret (inl (KString, bs, rest))).
  { intros He Hc. rewrite He, <- app_assoc in *. by apply (Split_head KString). }
  assert (Hlen2 : forall (a b : Z) (l : list Z), zlen (a :: b :: l) = 1 -> False).
  { intros a b l. unfold zlen. cbn. lia. }
  destruct bs as [|x [|y r]].
  - rewrite Hgen; [done..].
  - apply Forall_inv in Hb. unfold is_byte in Hb. cbn [enc_bytes] in *.
    destruct (Z.leb_spec x 127); [cbn [app] in *; by rewrite (Split_byte x) by (done || lia)|].
    rewrite Hgen; [done|done|]. intros _. cbn. lia.
  - rewrite Hgen; [done|done|]. by intros ?%Hlen2.
Qed.

Lemma SplitList_enc vs rest : zlen (rlp_enc (RList vs) ++ rest) < two64 ->
  SplitList (rlp_enc (RList vs) ++ rest) = Ret (inl (concat (map rlp_enc vs), rest)).
Proof.
  intros Hl. unfold SplitList. cbn [rlp_enc] in *. rewrite <- app_assoc in *.
  pose proof (Split_head KList (concat (map rlp_enc vs)) rest) as Hs. cbn [head_of] in Hs.
  by rewrite Hs.
Qed.

Lemma enc_uint_bytes i : 0 < i -> rlp_enc (RUint i) = enc_bytes (putint i).
Proof. intros. cbn [rlp_enc]. destruct (Z.eqb_spec i 0); [lia|done]. Qed.

Lemma SplitUint64_enc i rest : is_u64 i -> zlen (rlp_enc (RUint i) ++ rest) < two64 ->
  SplitUint64 (rlp_enc (RUint i) ++ rest) = Ret (inl (i, rest)).
Proof.
  intros Hi Hl. unfold SplitUint64. destruct (Z.eq_dec i 0) as [->|Hnz].
  { change (rlp_enc (RUint 0)) with (enc_bytes []). by rewrite SplitString_enc. }
  unfold is_u64 in Hi. rewrite enc_uint_bytes in * by lia.
  destruct (putint_facts i Hi) as (Hb & Hlen & Hv & Hh). rewrite SplitString_enc by done. cbn [obind].
  destruct Hh as (b & r & Hp & Hpos); [lia|]. rewrite Hp in *. destruct r as [|y r].
  - cbn [be_value] in Hv. destruct (Z.eqb_spec b 0); [lia|]. do 3 f_equal. lia.
  - destruct (Z.ltb_spec 8 (zlen (b :: y :: r))); [lia|]. unfold readSize.
    assert (Htk : take (Z.to_nat (zlen (b :: y :: r))) (b :: y :: r) = b :: y :: r).
    { unfold zlen. rewrite Nat2Z.id. apply firstn_all. }
    rewrite Htk, Hv, Z.ltb_irrefl. cbn [nth].
    destruct (Z.eqb_spec b 0); [lia|].
    assert (56 <= i).
    { rewrite <- Hv. cbn [be_value]. rewrite be_value_acc.
      inversion Hb as [|? ? ? Hb']; subst. inversion Hb' as [|? ? Hy Hr]; subst.
      pose proof (be_value_bound r Hr). unfold is_byte in *.
      assert (0 < 256 ^ zlen r) by (apply Z.pow_pos_nonneg; [lia|apply zlen_nonneg]). nia. }
    destruct (Z.ltb_spec i 56); [lia|]. done.
Qed.

(** ** Only canonical input is accepted *)
Lemma putint_unique bs : Forall is_byte bs -> 1 <= zlen bs <= 8 -> nth 0 bs 0 <> 0 ->
  putint (be_value bs 0) = bs.
Proof.
  intros Hb Hl Hnz. pose proof (be_value_bound bs Hb) as Hv.
  assert (Hmax : 256 ^ zlen bs <= 256 ^ 8) by (apply Z.pow_le_mono_r; lia).
  change (256 ^ 8) with two64 in Hmax.
  assert (Hlow : 256 ^ (zlen bs - 1) <= be_value bs 0).
  { destruct bs as [|b r]; [unfold zlen in Hl; cbn in Hl; lia|]. cbn [nth be_value] in *.
    inversion Hb as [|? ? Hb0 Hr]; subst. rewrite be_value_acc. pose proof (be_value_bound r Hr).
    unfold is_byte in Hb0. replace (zlen (b :: r) - 1) with (zlen r) by (unfold zlen; cbn; lia). nia. }
  destruct (putint_be (be_value bs 0)) as (n & Hn & -> & Hlt & Hge); [lia|].
  assert (Z.of_nat n = zlen bs) as Heq.
  { assert (zlen bs - 1 < Z.of_nat n) by (apply (Z.pow_lt_mono_r_iff 256); lia).
    destruct Hge as [->|Hge]; [|assert (Z.of_nat n - 1 < zlen bs) by (apply (Z.pow_lt_mono_r_iff 256); lia); lia].
    cbn in Hlt |- *. destruct (Z.eq_dec (zlen bs) 1); [done|].
    assert (256 ^ 1 <= 256 ^ (zlen bs - 1)) by (apply Z.pow_le_mono_r; lia). lia. }
  replace n with (length bs) by (unfold zlen in Heq; lia). by apply be_bytes_value.
Qed.

Lemma readSize_inv b n s : Forall is_byte b -> 1 <= n <= 8 -> readSize b n = inl s ->
  n <= zlen b /\ 56 <= s < two64 /\ zlen (putint s) = n /\ take (Z.to_nat n) b = putint s.
Proof.
  intros Hb Hn. unfold readSize. destruct (Z.ltb_spec (zlen b) n); [done|].
  set (t := take (Z.to_nat n) b). destruct (Z.ltb_spec (be_value t 0) 56); [done|].
  destruct (Z.eqb_spec (nth 0 b 0) 0) as [|Hnz]; [done|]. cbn. intros [= <-].
  assert (Ht : zlen t = n) by (unfold t, zlen in *; rewrite length_take; lia).
  assert (Hbt : Forall is_byte t) by (by apply Forall_take).
  pose proof (be_value_bound t Hbt). assert (256 ^ zlen t <= 256 ^ 8) by (apply Z.pow_le_mono_r; lia).
  assert (Hp : putint (be_value t 0) = t).
  { apply putint_unique; [done|lia|]. unfold t. destruct b as [|x b]; [done|].
    replace (Z.to_nat n) with (S (Z.to_nat (n - 1))) by lia. done. }
  rewrite Hp. change (256 ^ 8) with two64 in *. split; [done|]. split; [lia|done].
Qed.

Lemma readKind_inv buf k ts cs :
  Forall is_byte buf -> zlen buf < two64 -> readKind buf = inl (k, ts, cs) ->
  0 <= ts /\ 0 <= cs /\ ts + cs <= zlen buf /\ 1 <= ts + cs /\
  match k with
  | KByte => ts = 0 /\ cs = 1 /\ nth 0 buf 0 < 128
  | _ => ts = zlen (head_of k cs) /\ take (Z.to_nat ts) buf = head_of k cs /\
         (k = KString -> cs = 1 -> 128 <= nth (Z.to_nat ts) buf 0)
  end.
Proof.
  intros Hb Hl. destruct buf as [|b tl]; [done|]. inversion Hb as [|? ? Hb0 Htl]; subst.
  unfold is_byte in Hb0. assert (Hlc : zlen (b :: tl) = zlen tl + 1) by (unfold zlen; cbn; lia).
  pose proof (zlen_nonneg tl). cbn [readKind].
  assert (Hfin : forall k' t c, 0 <= t <= zlen (b :: tl) ->
    (if zlen (b :: tl) -64 t <? c then inr ErrValueTooLarge else inl (k', t, c)) =
      (inl (k, ts, cs) : result _) -> k' = k /\ t = ts /\ c = cs /\ ts + cs <= zlen (b :: tl)).
  { intros k' t c Ht. rewrite wrap64_small by (unfold is_u64; lia).
    destruct (Z.ltb_spec (zlen (b :: tl) - t) c); [done|]. intros [= <- <- <-]. repeat split; lia. }
  destruct (Z.ltb_spec b 128).
  { intros (<- & <- & <- & Hle)%Hfin; [|lia]. cbn. repeat split; lia. }
  destruct (Z.ltb_spec b 184).
  { destruct ((b - 128 =? 1) && (1 <? zlen (b :: tl)) && (nth 0 tl 0 <? 128)) eqn:Hcan; [done|].
    intros (<- & <- & <- & Hle)%Hfin; [|lia]. cbn [head_of]. unfold puthead.
    destruct (Z.ltb_spec (b - 128) 56); [|lia]. repeat split; try lia.
    - replace (128 + (b - 128)) with b by lia. by rewrite Z.mod_small by lia.
    - intros _ Hone. change (nth (Z.to_nat 1) (b :: tl) 0) with (nth 0 tl 0).
      destruct (Z.eqb_spec (b - 128) 1), (Z.ltb_spec 1 (zlen (b :: tl))),
        (Z.ltb_spec (nth 0 tl 0) 128); cbn in Hcan; done || lia. }
  assert (Hlong : forall t k' n, n = b - t -> 1 <= n <= 8 ->
    (forall s, 56 <= s < two64 -> zlen (putint s) = n -> head_of k' s = b :: putint s) ->
    match (match readSize tl n with inl s => inl (k', n + 1, s) | inr e => inr e end : result _) with
    | inl (k0, t0, c0) => if zlen (b :: tl) -64 t0 <? c0 then inr ErrValueTooLarge else inl (k0, t0, c0)
    | inr e => inr e
    end = inl (k, ts, cs) ->
    0 <= ts /\ 0 <= cs /\ ts + cs <= zlen (b :: tl) /\ 1 <= ts + cs /\ k' = k /\
    ts = zlen (head_of k cs) /\ take (Z.to_nat ts) (b :: tl) = head_of k cs /\ 56 <= cs).
  { intros t k' n Hn Hr Hhead. destruct (readSize tl n) as [s|e] eqn:E; [|done].
    apply readSize_inv in E as (Hle & Hs & Hlen & Htk); [|done|done].
    intros (<- & <- & <- & Hle')%Hfin; [|lia]. rewrite (Hhead s Hs Hlen).
    repeat split; try lia.
    - unfold zlen in *. cbn. lia.
    - replace (Z.to_nat (n + 1)) with (S (Z.to_nat n)) by lia. cbn [take]. by rewrite Htk. }
  assert (Hput : forall l s, l + zlen (putint s) = b -> 56 <= s ->
    puthead (l - 55) l s = b :: putint s).
  { intros l s Hs H56. unfold puthead. destruct (Z.ltb_spec s 56); [lia|]. rewrite Hs.
    by rewrite Z.mod_small by lia. }
  destruct (Z.ltb_spec b 192).
  { intros (? & ? & ? & ? & <- & ? & ? & ?)%(Hlong 183); try done; try lia.
    - repeat split; try done; lia.
    - intros s Hs Hlen. cbn [head_of]. apply (Hput 183); lia. }
  destruct (Z.ltb_spec b 248).
  { intros (<- & <- & <- & Hle)%Hfin; [|lia]. cbn [head_of]. unfold puthead.
    destruct (Z.ltb_spec (b - 192) 56); [|lia]. repeat split; try lia; try done.
    replace (192 + (b - 192)) with b by lia. by rewrite Z.mod_small by lia. }
  intros (? & ? & ? & ? & <- & ? & ? & ?)%(Hlong 247); try done; try lia.
  intros s Hs Hlen. cbn [head_of]. apply (Hput 247); lia.
Qed.

(** ** Splitting arbitrary input *)
Lemma nth_drop_head (l : list Z) n : nth 0 (drop n l) 0 = nth n l 0.
Proof. revert l. induction n as [|n IH]; intros [|x l]; cbn; done. Qed.

Lemma Split_inv buf k content rest :
  Forall is_byte buf -> zlen buf < two64 -> Split buf = Ret (inl (k, content, rest)) ->
  match k with
  | KByte => exists x, content = [x] /\ 0 <= x < 128 /\ buf = x :: rest
  | _ => buf = head_of k (zlen content) ++ content ++ rest /\
         (k = KString -> zlen content = 1 -> 128 <= nth 0 content 0)
  end.
Proof.
  intros Hb Hl. unfold Split. destruct (readKind buf) as [[[k' ts] cs]|e] eqn:E; [|done].
  apply readKind_inv in E as (Hts & Hcs & Hle & _ & Hk); [|done|done].
  rewrite wrap64_small by (unfold is_u64; lia). rewrite !slice_ok by lia. cbn [obind].
  intros [= -> <- <-].
  replace (Z.to_nat (ts + cs - ts)) with (Z.to_nat cs) by lia.
  rewrite (firstn_all2 (n := Z.to_nat (zlen buf - (ts + cs)))) by (rewrite length_drop; unfold zlen in *; lia).
  assert (Hc : zlen (take (Z.to_nat cs) (drop (Z.to_nat ts) buf)) = cs).
  { unfold zlen in *. rewrite length_take, length_drop. lia. }
  assert (Hcut : buf = take (Z.to_nat ts) buf ++ take (Z.to_nat cs) (drop (Z.to_nat ts) buf) ++
                       drop (Z.to_nat (ts + cs)) buf).
  { replace (Z.to_nat (ts + cs)) with (Z.to_nat ts + Z.to_nat cs)%nat by lia.
    rewrite <- drop_drop, !take_drop. done. }
  destruct k.
  - destruct Hk as (-> & -> & Hx). destruct buf as [|x buf]; [unfold zlen in Hle; cbn in Hle; lia|].
    apply Forall_inv in Hb. unfold is_byte in Hb. cbn in Hx. exists x. cbn.
    split; [done|]. split; [lia|done].
  - destruct Hk as (Hz & Htk & Hcan). rewrite Hc, <- Htk. split; [done|]. intros _ ->.
    specialize (Hcan eq_refl eq_refl). rewrite <- nth_drop_head in Hcan.
    destruct (drop (Z.to_nat ts) buf); [cbn in Hcan; lia|done].
  - destruct Hk as (Hz & Htk & _). rewrite Hc, <- Htk. by split.
Qed.

Lemma SplitString_inv buf content rest :
  Forall is_byte buf -> zlen buf < two64 -> SplitString buf = Ret (inl (content, rest)) ->
  buf = enc_bytes content ++ rest.
Proof.
  intros Hb Hl. unfold SplitString. destruct (Split buf) as [[[[k c] r]|e]|?|] eqn:E; try done.
  apply Split_inv in E; [|done|done]. destruct k; cbn [obind]; [| |done]; intros [= <- <-].
  - destruct E as (x & -> & Hx & ->). cbn. destruct (Z.leb_spec x 127); [done|lia].
  - destruct E as [-> Hc]. cbn [head_of]. rewrite app_assoc. f_equal.
    destruct c as [|x [|y c]]; [done| |done]. cbn. specialize (Hc eq_refl eq_refl). cbn in Hc.
    destruct (Z.leb_spec x 127); [lia|done].
Qed.

Lemma Split_no_panic buf : Forall is_byte buf -> zlen buf < two64 -> exists r, Split buf = Ret r.
Proof.
  intros Hb Hl. unfold Split. destruct (readKind buf) as [[[k ts] cs]|e] eqn:E; [|eauto].
  apply readKind_inv in E as (Hts & Hcs & Hle & _); [|done|done].
  rewrite wrap64_small by (unfold is_u64; lia). rewrite !slice_ok by lia. cbn. eauto.
Qed.

(** ** Counting: one iteration per value, at least one byte per iteration *)
Lemma CountValues_loop_ok fuel buf i :
  (length buf <= fuel)%nat -> Forall is_byte buf -> zlen buf < two64 ->
  exists r, CountValues_loop fuel buf i = Ret r.
Proof.
  revert buf i. induction fuel as [|f IH]; intros buf i Hf Hb Hl;
    (destruct buf as [|b tl]; [cbn; eauto|]); [cbn in Hf; lia|].
  cbn [CountValues_loop]. destruct (readKind (b :: tl)) as [[[k ts] cs]|e] eqn:E; [|eauto].
  apply readKind_inv in E as (Hts & Hcs & Hle & Hpos & _); [|done|done].
  rewrite wrap64_small by (unfold is_u64; lia). rewrite slice_ok by lia. cbn [obind]. apply IH.
  - rewrite length_take, length_drop. unfold zlen in *. cbn in *. lia.
  - auto using Forall_take, Forall_drop.
  - unfold zlen in *. rewrite length_take, length_drop. lia.
Qed.

(** ** Sizes *)
Lemma enc_bytes_length bs : zlen bs < two64 -> zlen (enc_bytes bs) <= zlen bs + 9.
Proof.
  intros Hl. pose proof (zlen_nonneg bs).
  assert (zlen (puthead 128 183 (zlen bs) ++ bs) <= zlen bs + 9).
  { rewrite zlen_app. destruct (puthead_facts 128 183 (zlen bs)); lia. }
  unfold enc_bytes. destruct bs as [|x [|y r]]; [done| |done].
  destruct (x <=? 127); [unfold zlen in *; cbn in *; lia|done].
Qed.

Lemma enc_uint_length i : is_u64 i -> zlen (rlp_enc (RUint i)) <= 17.
Proof.
  intros Hi. destruct (Z.eq_dec i 0) as [->|]; [done|]. unfold is_u64 in Hi.
  rewrite enc_uint_bytes by lia. destruct (putint_facts i Hi) as (_ & Hl & _).
  pose proof (enc_bytes_length (putint i)). lia.
Qed.
