(* ===== verification/RlpProps.v ===== *)
(** * RLP: the properties of the encoder and the splitter

    Encoding agrees with the recursive definition of RLP, splitting inverts it,
    accepts only canonical input, and never reads out of bounds. *)
From S2P Require Import Prelude Rlp RlpProofs.

(** ** What [SplitString] and [SplitList] say about [Split] *)
Lemma Split_of_string b c r : SplitString b = Ret (inl (c, r)) ->
  exists k, Split b = Ret (inl (k, c, r)).
Proof.
  unfold SplitString. destruct (Split b) as [[[[k c'] r']|e]|p|]; cbn; try done.
  destruct k; try done; intros [= <- <-]; eauto.
Qed.

Lemma Split_of_list b c r : SplitList b = Ret (inl (c, r)) ->
  exists k, Split b = Ret (inl (k, c, r)).
Proof.
  unfold SplitList. destruct (Split b) as [[[[k c'] r']|e]|p|]; cbn; try done.
  destruct k; try done; intros [= <- <-]; eauto.
Qed.

(** A byte string among the values holds bytes. *)
Definition leaf_bytes (v : rval) : Prop :=
  match v with RBytes bs => Forall is_byte bs | RUint i => is_u64 i | RList _ => True end.

Lemma Split_enc v rest : leaf_bytes v -> zlen (rlp_enc v ++ rest) < two64 ->
  exists k c, Split (rlp_enc v ++ rest) = Ret (inl (k, c, rest)).
Proof.
  intros Hb Hl. destruct v as [bs|i|vs]; cbn [leaf_bytes] in Hb.
  - destruct (Split_of_string _ _ _ (SplitString_enc bs rest Hb Hl)) as [k Hk]. eauto.
  - unfold is_u64 in Hb. destruct (Z.eq_dec i 0) as [->|].
    + destruct (Split_of_string _ _ _ (SplitString_enc [] rest (Forall_nil_2 _) Hl)) as [k Hk].
      eauto.
    + rewrite enc_uint_bytes in * by lia. destruct (putint_facts i Hb) as (Hp & _).
      destruct (Split_of_string _ _ _ (SplitString_enc _ rest Hp Hl)) as [k Hk]. eauto.
  - destruct (Split_of_list _ _ _ (SplitList_enc vs rest Hl)) as [k Hk]. eauto.
Qed.

Lemma enc_nonempty v : rlp_enc v <> [].
Proof.
  assert (Hh : forall t l n (p : list Z), puthead t l n ++ p <> []).
  { intros. unfold puthead. by destruct (n <? 56). }
  destruct v as [bs|i|vs]; cbn [rlp_enc]; [| |apply Hh].
  - destruct bs as [|x [|y r]]; cbn [enc_bytes]; try apply Hh. destruct (x <=? 127); [done|apply Hh].
  - destruct (i =? 0); [done|]. destruct (putint i) as [|x [|y r]]; cbn [enc_bytes]; try apply Hh.
    destruct (x <=? 127); [done|apply Hh].
Qed.

(** One value of the input is one iteration of [CountValues]. *)
Lemma CountValues_step f b k c r i : b <> [] -> Split b = Ret (inl (k, c, r)) ->
  CountValues_loop (S f) b i = CountValues_loop f r (i + 1).
Proof.
  intros Hne. unfold Split. destruct b as [|x b]; [done|]. cbn [CountValues_loop].
  destruct (readKind (x :: b)) as [[[k' ts] cs]|e]; [|done].
  destruct (slice (x :: b) ts (ts +64 cs)); cbn; try done.
  destruct (slice (x :: b) (ts +64 cs) _); cbn; try done. by intros [= _ _ ->].
Qed.

Lemma CountValues_enc vs : forall fuel i, Forall leaf_bytes vs ->
  zlen (concat (map rlp_enc vs)) < two64 -> (length vs <= fuel)%nat ->
  CountValues_loop fuel (concat (map rlp_enc vs)) i = Ret (inl (i + zlen vs)).
Proof.
  induction vs as [|v vs IH]; intros fuel i Hb Hl Hf; cbn [map concat] in *.
  { destruct fuel; cbn; by rewrite Z.add_0_r. }
  inversion Hb as [|? ? Hv Hvs]; subst. destruct fuel as [|f]; [cbn in Hf; lia|].
  destruct (Split_enc v (concat (map rlp_enc vs)) Hv Hl) as (k & c & Hs).
  rewrite (CountValues_step _ _ _ _ _ _ ltac:(intros [He _]%app_nil; by eapply enc_nonempty) Hs).
  rewrite zlen_app in Hl. pose proof (zlen_nonneg (rlp_enc v)).
  rewrite IH; [|done|lia|cbn in Hf; lia]. do 2 f_equal. unfold zlen. cbn. lia.
Qed.

Lemma concat_enc_length vs : zlen vs <= zlen (concat (map rlp_enc vs)).
Proof.
  induction vs as [|v vs IH]; cbn [map concat]; [done|]. rewrite zlen_app.
  pose proof (enc_nonempty v). assert (1 <= zlen (rlp_enc v)).
  { unfold zlen. destruct (rlp_enc v); [done|cbn; lia]. }
  unfold zlen in *. cbn [length]. lia.
Qed.

Lemma AppendUint64_enc b i : is_u64 i -> AppendUint64 b i = b ++ rlp_enc (RUint i).
Proof.
  intros Hi. unfold is_u64 in Hi. pose proof (writeUint64_enc i buf_reset Hi) as Hw.
  apply (f_equal str) in Hw. cbn [str append_str buf_reset app] in Hw. rewrite <- Hw.
  unfold AppendUint64, writeUint64, putint. zcase; done.
Qed.

Lemma all_fit_bytes bs : zlen bs + 9 < two64 -> all_fit (RBytes bs).
Proof.
  intros Hl. split; [|done]. split; [|done]. cbn [rlp_enc].
  pose proof (enc_bytes_length bs). lia.
Qed.

Lemma all_fit_uint i : is_u64 i -> all_fit (RUint i).
Proof. intros Hi. split; [|done]. split; [|done]. pose proof (enc_uint_length i Hi). lia. Qed.

(** ** The properties *)









(** C20: only canonical input is accepted: whatever [SplitString] or
    [SplitUint64] decodes is the encoding of the result followed by the rest, so
    no two different inputs decode to the same value. *)
Theorem rlp_split_canonical (buf : list Z) (Hb : Forall is_byte buf) (Hl : zlen buf < two64) :
  (forall content rest, SplitString buf = Ret (inl (content, rest)) ->
     buf = rlp_enc (RBytes content) ++ rest) /\
  (forall i rest, SplitUint64 buf = Ret (inl (i, rest)) -> buf = rlp_enc (RUint i) ++ rest).
Proof.
  split; [intros; by apply SplitString_inv|]. intros i rest. unfold SplitUint64.
  destruct (SplitString buf) as [[[content r]|e]|p|] eqn:E; cbn [obind]; try done.
  apply SplitString_inv in E as ->; [|done|done]. apply Forall_app in Hb as [He _].
  assert (Hc : Forall is_byte content).
  { revert He. destruct content as [|x [|y c]]; cbn [enc_bytes]; [done| |by intros [_ ?]%Forall_app].
    destruct (x <=? 127); [done|]. by intros [_ ?]%Forall_app. }
  assert (Hput : content <> [] -> zlen content <= 8 -> nth 0 content 0 <> 0 ->
    enc_bytes content = rlp_enc (RUint (be_value content 0))).
  { intros Hne Hle Hz. assert (Hp : putint (be_value content 0) = content).
    { apply putint_unique; [done| |done]. unfold zlen in *. destruct content; [done|cbn in *; lia]. }
    cbn [rlp_enc]. rewrite Hp. destruct (Z.eqb_spec (be_value content 0) 0) as [H0|]; [|done].
    rewrite H0 in Hp. change (putint 0) with [0] in Hp. by subst. }
  destruct content as [|x [|y c]].
  - by intros [= <- <-].
  - destruct (Z.eqb_spec x 0); [done|]. intros [= <- <-].
    rewrite Hput; [|done|unfold zlen; cbn; lia|done]. by replace (be_value [x] 0) with x by (cbn [be_value]; lia).
  - destruct (Z.ltb_spec 8 (zlen (x :: y :: c))); [done|]. unfold readSize.
    destruct (Z.ltb_spec (zlen (x :: y :: c)) (zlen (x :: y :: c))); [lia|].
    rewrite (firstn_all2 (x :: y :: c)) by (unfold zlen; lia).
    destruct ((be_value (x :: y :: c) 0 <? 56) || (nth 0 (x :: y :: c) 0 =? 0)) eqn:Hor; [done|].
    intros [= <- <-]. apply orb_false_iff in Hor as [_ Hz]. rewrite Hput; [done|done|done|lia].
Qed.

Lemma rlp_split_canonical_witness :
  (forall content rest, SplitString [130; 4; 0; 9] = Ret (inl (content, rest)) ->
     [130; 4; 0; 9] = rlp_enc (RBytes content) ++ rest) /\
  (forall i rest, SplitUint64 [130; 4; 0; 9] = Ret (inl (i, rest)) ->
     [130; 4; 0; 9] = rlp_enc (RUint i) ++ rest).
Proof.
  apply (rlp_split_canonical [130; 4; 0; 9]).
  - repeat constructor; unfold is_byte; lia.
  - vm_compute. reflexivity.
Defined.

(** C21: on arbitrary bytes the splitting functions return a value or an error:
    no slice of the input is out of bounds, and the loop of [CountValues] ends
    within one iteration per input byte. *)
Theorem rlp_split_total (buf : list Z) (Hb : Forall is_byte buf) (Hl : zlen buf < two64) :
  (exists r, Split buf = Ret r) /\ (exists r, SplitString buf = Ret r) /\
  (exists r, SplitList buf = Ret r) /\ (exists r, SplitUint64 buf = Ret r) /\
  (exists r, CountValues buf = Ret r).
Proof.
  destruct (Split_no_panic buf Hb Hl) as [r Hs].
  assert (Hstr : exists r, SplitString buf = Ret r).
  { unfold SplitString. rewrite Hs. destruct r as [[[[] c] t]|e]; cbn; eauto. }
  split; [eauto|]. split; [done|]. split.
  { unfold SplitList. rewrite Hs. destruct r as [[[[] c] t]|e]; cbn; eauto. }
  split; [|by apply CountValues_loop_ok].
  unfold SplitUint64. destruct Hstr as [[[[|x [|y c]] t]|e] ->]; cbn [obind]; eauto.
  - destruct (x =? 0); eauto.
  - destruct (8 <? _); [eauto|]. destruct (readSize _ _); eauto.
Qed.

Lemma rlp_split_total_witness :
  (exists r, Split [249; 255; 1] = Ret r) /\ (exists r, SplitString [249; 255; 1] = Ret r) /\
  (exists r, SplitList [249; 255; 1] = Ret r) /\ (exists r, SplitUint64 [249; 255; 1] = Ret r) /\
  (exists r, CountValues [249; 255; 1] = Ret r).
Proof.
  apply (rlp_split_total [249; 255; 1]).
  - repeat constructor; unfold is_byte; lia.
  - vm_compute. reflexivity.
Defined.
