(* ===== verification/StateDB.v ===== *)
(** * The state database

    [operationdb/octopus_operationdb.go], [octopus_operationdb_object.go] and
    [octopus_db_journal.go]: account objects cached over a trie, a journal of
    reversible changes, the refund counter, the logs and the access list.

    Objects are pointers in the source and are always reached through the map
    [OperationObjects]; the model keeps them in the map and updates the entry.
    The tries and the code store behind [DatabaseI] are the functions of the
    record [DatabaseI]: what [TryGet] followed by the RLP decoder yields. *)
From S2P Require Import Prelude Uint256.

(** ** Data *)

(** [entity.StateAccount]; [None] is a nil pointer or slice. *)
Record StateAccount := {
  sa_Nonce : Z; sa_Balance : option Z; sa_Root : Z; sa_CodeHash : option Z }.

Definition empty_StateAccount : StateAccount :=
  {| sa_Nonce := 0; sa_Balance := None; sa_Root := 0; sa_CodeHash := None |}.

Record DatabaseI := {
  db_account : Z -> option StateAccount;             (* trieI.TryGet + rlp.DecodeBytes *)
  db_storage : Z -> Z -> Z -> option Z;              (* OpenStorageTrie(addrHash, root).TryGet *)
  db_code : Z -> Z -> option (list Z) }.             (* ContractCode(addrHash, codeHash) *)

Abbreviation Storage := (gmap Z Z).

Record OperationObject := mkObj {
  address : Z;
  data_Nonce : Z; data_Balance : Z; data_Root : Z; data_CodeHash : Z;
  obj_dbErr : bool;
  code : option (list Z);
  originStorage : Storage; pendingStorage : Storage; dirtyStorage : Storage;
  fakeStorage : option Storage;
  dirtyCode : bool; suicided : bool; deleted : bool }.

Inductive journalEntry :=
| createObjectChange (account : Z)
| resetObjectChange (prev : OperationObject)
| codeChange (account : Z) (prevcode : option (list Z)) (prevhash : Z)
| balanceChange (account prev : Z)
| nonceChange (account prev : Z)
| storageChange (account key prevalue : Z)
| suicideChange (account : Z) (prev : bool) (prevbalance : Z)
| accessListAddAccountChange (addr : Z)
| accessListAddSlotChange (addr slot : Z)
| refundChange (prev : Z)
| addLogChange (txhash : Z).

Definition dirtied (e : journalEntry) : option Z :=
  match e with
  | createObjectChange a | codeChange a _ _ | balanceChange a _ | nonceChange a _
  | storageChange a _ _ | suicideChange a _ _ => Some a
  | resetObjectChange _ | accessListAddAccountChange _ | accessListAddSlotChange _ _
  | refundChange _ | addLogChange _ => None
  end.

Record Journal := mkJournal { entries : list journalEntry; Dirties : gmap Z Z }.

Definition NewJournal : Journal := {| entries := []; Dirties := ∅ |}.

Definition journal_append (e : journalEntry) (j : Journal) : Journal :=
  {| entries := entries j ++ [e];
     Dirties := match dirtied e with
                | Some a => <[a := default 0 (Dirties j !! a) + 1]> (Dirties j)
                | None => Dirties j
                end |}.

Record accessList := mkAL { al_addresses : gmap Z Z; al_slots : list (gset Z) }.

Definition newAccessList : accessList := {| al_addresses := ∅; al_slots := [] |}.

(** [block.Log] *)
Record Log := mkLog {
  log_Address : Z; log_Topics : list Z; log_Data : list Z; log_BlockNumber : Z;
  log_TxHash : Z; log_TxIndex : Z; log_Index : Z }.

Record OperationDB := mkDB {
  odb : DatabaseI;
  OperationObjects : gmap Z OperationObject;
  OperationObjectsPending : gset Z;
  OperationObjectsDirty : gset Z;
  refund : Z;
  thash : Z; txIndex : Z;
  logs : gmap Z (list Log); logSize : Z;
  access_list : accessList;
  journal : Journal }.

Definition NewOperationDb (db : DatabaseI) : OperationDB :=
  {| odb := db; OperationObjects := ∅; OperationObjectsPending := ∅; OperationObjectsDirty := ∅;
     refund := 0; thash := 0; txIndex := 0; logs := ∅; logSize := 0;
     access_list := newAccessList; journal := NewJournal |}.

(** ** Field updates *)
Definition set_objects (f : gmap Z OperationObject -> gmap Z OperationObject) (s : OperationDB) :=
  {| odb := odb s; OperationObjects := f (OperationObjects s);
     OperationObjectsPending := OperationObjectsPending s;
     OperationObjectsDirty := OperationObjectsDirty s; refund := refund s; thash := thash s;
     txIndex := txIndex s; logs := logs s; logSize := logSize s;
     access_list := access_list s; journal := journal s |}.
Definition set_journal (f : Journal -> Journal) (s : OperationDB) :=
  {| odb := odb s; OperationObjects := OperationObjects s;
     OperationObjectsPending := OperationObjectsPending s;
     OperationObjectsDirty := OperationObjectsDirty s; refund := refund s; thash := thash s;
     txIndex := txIndex s; logs := logs s; logSize := logSize s;
     access_list := access_list s; journal := f (journal s) |}.
Definition set_refund (r : Z) (s : OperationDB) :=
  {| odb := odb s; OperationObjects := OperationObjects s;
     OperationObjectsPending := OperationObjectsPending s;
     OperationObjectsDirty := OperationObjectsDirty s; refund := r; thash := thash s;
     txIndex := txIndex s; logs := logs s; logSize := logSize s;
     access_list := access_list s; journal := journal s |}.
Definition set_logs (l : gmap Z (list Log)) (n : Z) (s : OperationDB) :=
  {| odb := odb s; OperationObjects := OperationObjects s;
     OperationObjectsPending := OperationObjectsPending s;
     OperationObjectsDirty := OperationObjectsDirty s; refund := refund s; thash := thash s;
     txIndex := txIndex s; logs := l; logSize := n;
     access_list := access_list s; journal := journal s |}.
Definition set_al (a : accessList) (s : OperationDB) :=
  {| odb := odb s; OperationObjects := OperationObjects s;
     OperationObjectsPending := OperationObjectsPending s;
     OperationObjectsDirty := OperationObjectsDirty s; refund := refund s; thash := thash s;
     txIndex := txIndex s; logs := logs s; logSize := logSize s;
     access_list := a; journal := journal s |}.
Definition set_pending (p d : gset Z) (s : OperationDB) :=
  {| odb := odb s; OperationObjects := OperationObjects s;
     OperationObjectsPending := p; OperationObjectsDirty := d; refund := refund s;
     thash := thash s; txIndex := txIndex s; logs := logs s; logSize := logSize s;
     access_list := access_list s; journal := journal s |}.
Definition Prepare (h ti : Z) (s : OperationDB) :=
  {| odb := odb s; OperationObjects := OperationObjects s;
     OperationObjectsPending := OperationObjectsPending s;
     OperationObjectsDirty := OperationObjectsDirty s; refund := refund s; thash := h;
     txIndex := ti; logs := logs s; logSize := logSize s;
     access_list := access_list s; journal := journal s |}.

Definition obj_setBalance (v : Z) (o : OperationObject) :=
  mkObj (address o) (data_Nonce o) v (data_Root o) (data_CodeHash o) (obj_dbErr o) (code o)
    (originStorage o) (pendingStorage o) (dirtyStorage o) (fakeStorage o)
    (dirtyCode o) (suicided o) (deleted o).
Definition obj_setNonce (v : Z) (o : OperationObject) :=
  mkObj (address o) v (data_Balance o) (data_Root o) (data_CodeHash o) (obj_dbErr o) (code o)
    (originStorage o) (pendingStorage o) (dirtyStorage o) (fakeStorage o)
    (dirtyCode o) (suicided o) (deleted o).
Definition obj_setCode (hash : Z) (c : option (list Z)) (o : OperationObject) :=
  mkObj (address o) (data_Nonce o) (data_Balance o) (data_Root o) hash (obj_dbErr o) c
    (originStorage o) (pendingStorage o) (dirtyStorage o) (fakeStorage o)
    true (suicided o) (deleted o).
Definition obj_cacheCode (c : option (list Z)) (o : OperationObject) :=
  mkObj (address o) (data_Nonce o) (data_Balance o) (data_Root o) (data_CodeHash o) (obj_dbErr o) c
    (originStorage o) (pendingStorage o) (dirtyStorage o) (fakeStorage o)
    (dirtyCode o) (suicided o) (deleted o).
Definition obj_setDirty (d : Storage) (o : OperationObject) :=
  mkObj (address o) (data_Nonce o) (data_Balance o) (data_Root o) (data_CodeHash o) (obj_dbErr o)
    (code o) (originStorage o) (pendingStorage o) d (fakeStorage o)
    (dirtyCode o) (suicided o) (deleted o).
Definition obj_setPending (p d : Storage) (o : OperationObject) :=
  mkObj (address o) (data_Nonce o) (data_Balance o) (data_Root o) (data_CodeHash o) (obj_dbErr o)
    (code o) (originStorage o) p d (fakeStorage o)
    (dirtyCode o) (suicided o) (deleted o).
Definition obj_setFake (f : option Storage) (o : OperationObject) :=
  mkObj (address o) (data_Nonce o) (data_Balance o) (data_Root o) (data_CodeHash o) (obj_dbErr o)
    (code o) (originStorage o) (pendingStorage o) (dirtyStorage o) f
    (dirtyCode o) (suicided o) (deleted o).
Definition obj_setSuicided (b : bool) (o : OperationObject) :=
  mkObj (address o) (data_Nonce o) (data_Balance o) (data_Root o) (data_CodeHash o) (obj_dbErr o)
    (code o) (originStorage o) (pendingStorage o) (dirtyStorage o) (fakeStorage o)
    (dirtyCode o) b (deleted o).
Definition obj_setDeleted (b : bool) (o : OperationObject) :=
  mkObj (address o) (data_Nonce o) (data_Balance o) (data_Root o) (data_CodeHash o) (obj_dbErr o)
    (code o) (originStorage o) (pendingStorage o) (dirtyStorage o) (fakeStorage o)
    (dirtyCode o) (suicided o) b.
Definition obj_setError (o : OperationObject) :=
  mkObj (address o) (data_Nonce o) (data_Balance o) (data_Root o) (data_CodeHash o) true
    (code o) (originStorage o) (pendingStorage o) (dirtyStorage o) (fakeStorage o)
    (dirtyCode o) (suicided o) (deleted o).

(** ** The access list *)
Definition al_AddAddress (a : Z) (al : accessList) : bool * accessList :=
  match al_addresses al !! a with
  | Some _ => (false, al)
  | None => (true, {| al_addresses := <[a := -1]> (al_addresses al); al_slots := al_slots al |})
  end.

Definition al_DeleteAddress (a : Z) (al : accessList) : accessList :=
  {| al_addresses := delete a (al_addresses al); al_slots := al_slots al |}.

Definition al_AddSlot (a slot : Z) (al : accessList) : outcome (bool * bool * accessList) :=
  let fresh (addrPresent : bool) :=
    Ret (negb addrPresent, true,
         {| al_addresses := <[a := zlen (al_slots al)]> (al_addresses al);
            al_slots := al_slots al ++ [ {[slot]} ] |}) in
  match al_addresses al !! a with
  | None => fresh false
  | Some idx =>
      if idx =? -1 then fresh true
      else
        slotmap <-o index (al_slots al) idx ;;
        if decide (slot ∈ slotmap) then Ret (false, false, al)
        else Ret (false, true,
               {| al_addresses := al_addresses al;
                  al_slots := <[Z.to_nat idx := {[slot]} ∪ slotmap]> (al_slots al) |})
  end.

Definition al_DeleteSlot (a slot : Z) (al : accessList) : outcome accessList :=
  match al_addresses al !! a with
  | None => Panic PNil
  | Some idx =>
      slotmap <-o index (al_slots al) idx ;;
      let slotmap := slotmap ∖ {[slot]} in
      if decide (slotmap = ∅)
      then Ret {| al_addresses := <[a := -1]> (al_addresses al);
                  al_slots := take (Z.to_nat idx) (al_slots al) |}
      else Ret {| al_addresses := al_addresses al;
                  al_slots := <[Z.to_nat idx := slotmap]> (al_slots al) |}
  end.

Definition al_Contains (a slot : Z) (al : accessList) : outcome (bool * bool) :=
  match al_addresses al !! a with
  | None => Ret (false, false)
  | Some idx =>
      if idx =? -1 then Ret (true, false)
      else slotmap <-o index (al_slots al) idx ;; Ret (true, bool_decide (slot ∈ slotmap))
  end.

Definition al_ContainsAddress (a : Z) (al : accessList) : bool :=
  match al_addresses al !! a with Some _ => true | None => false end.

(** ** Operations *)
Section ops.
Context `{Crypto}.

Definition emptyRoot : Z :=
  39309028074332508661983559455579427211983204215636056653337583610388178777121.
Definition emptyCodeHash : Z := Keccak256Hash [].
Definition addrHash (o : OperationObject) : Z := Keccak256Hash (be_bytes 20 (address o)).

Abbreviation DB := (M OperationDB).

Definition newObject (addr : Z) (data : StateAccount) : OperationObject :=
  {| address := addr;
     data_Nonce := sa_Nonce data;
     data_Balance := match sa_Balance data with Some b => b | None => 200000000 end;
     data_Root := if sa_Root data =? 0 then emptyRoot else sa_Root data;
     data_CodeHash := match sa_CodeHash data with Some h => h | None => emptyCodeHash end;
     obj_dbErr := false; code := None;
     originStorage := ∅; pendingStorage := ∅; dirtyStorage := ∅; fakeStorage := None;
     dirtyCode := false; suicided := false; deleted := false |}.

Definition obj_empty (o : OperationObject) : bool :=
  (data_Nonce o =? 0) && (data_Balance o =? 0) && (data_CodeHash o =? emptyCodeHash).

Definition setOperationObject (o : OperationObject) : DB unit :=
  modify (set_objects (fun m => <[address o := o]> m)).

(** Mutation through the pointer stored at [addr]. *)
Definition update_object (addr : Z) (f : OperationObject -> OperationObject) : DB unit :=
  modify (set_objects (alter f addr)).

Definition append_entry (e : journalEntry) : DB unit := modify (set_journal (journal_append e)).

Definition getDeletedOperationObject (addr : Z) : DB (option OperationObject) :=
  s <- get ;;
  match OperationObjects s !! addr with
  | Some obj => ret (Some obj)
  | None =>
      match db_account (odb s) addr with
      | None => ret None
      | Some data =>
          let obj := newObject addr data in
          setOperationObject obj ;;; ret (Some obj)
      end
  end.

(** The source does not test the [deleted] flag here. *)
Definition getOperationObject (addr : Z) : DB (option OperationObject) :=
  getDeletedOperationObject addr.

Definition createObject (addr : Z) : DB (OperationObject * option OperationObject) :=
  prev <- getDeletedOperationObject addr ;;
  let newobj := newObject addr empty_StateAccount in
  match prev with
  | None => append_entry (createObjectChange addr)
  | Some p => append_entry (resetObjectChange p)
  end ;;;
  setOperationObject newobj ;;;
  ret (newobj, prev).

Definition GetOrNewOperationObject (addr : Z) : DB OperationObject :=
  o <- getOperationObject addr ;;
  match o with
  | Some obj => ret obj
  | None => let! (obj, _) := createObject addr ;; ret obj
  end.

Definition CreateAccount (addr : Z) : DB unit :=
  let! (_, prev) := createObject addr ;;
  match prev with
  | Some p => update_object addr (obj_setBalance (data_Balance p))
  | None => ret tt
  end.

(** Methods of an object; [obj] is the value at [addr]. *)
Definition obj_SetBalance (addr : Z) (obj : OperationObject) (amount : Z) : DB unit :=
  append_entry (balanceChange addr (data_Balance obj)) ;;;
  update_object addr (obj_setBalance amount).

Definition obj_SubBalance (addr : Z) (obj : OperationObject) (amount : Z) : DB unit :=
  if amount =? 0 then ret tt else obj_SetBalance addr obj (data_Balance obj - amount).

(** [touch] has an empty body in the source. *)
Definition obj_AddBalance (addr : Z) (obj : OperationObject) (amount : Z) : DB unit :=
  if amount =? 0 then ret tt else obj_SetBalance addr obj (data_Balance obj + amount).

Definition SubBalance (addr amount : Z) : DB unit :=
  obj <- GetOrNewOperationObject addr ;; obj_SubBalance addr obj amount.
Definition AddBalance (addr amount : Z) : DB unit :=
  obj <- GetOrNewOperationObject addr ;; obj_AddBalance addr obj amount.
Definition SetBalance (addr amount : Z) : DB unit :=
  obj <- GetOrNewOperationObject addr ;; obj_SetBalance addr obj amount.

Definition GetBalance (addr : Z) : DB Z :=
  o <- getOperationObject addr ;;
  ret (match o with Some obj => data_Balance obj | None => 0 end).

Definition GetNonce (addr : Z) : DB Z :=
  o <- getOperationObject addr ;;
  ret (match o with Some obj => data_Nonce obj | None => 0 end).

Definition SetNonce (addr nonce : Z) : DB unit :=
  obj <- GetOrNewOperationObject addr ;;
  append_entry (nonceChange addr (data_Nonce obj)) ;;;
  update_object addr (obj_setNonce nonce).

Definition GetCodeHash (addr : Z) : DB Z :=
  o <- getOperationObject addr ;;
  ret (match o with Some obj => data_CodeHash obj | None => 0 end).

(** [OperationObject.Code]: loads and caches; a failed load caches nil. *)
Definition obj_Code (addr : Z) (obj : OperationObject) : DB (option (list Z)) :=
  match code obj with
  | Some c => ret (Some c)
  | None =>
      if data_CodeHash obj =? emptyCodeHash then ret None
      else
        s <- get ;;
        let c := db_code (odb s) (addrHash obj) (data_CodeHash obj) in
        update_object addr (obj_cacheCode c) ;;; ret c
  end.

Definition GetCode (addr : Z) : DB (list Z) :=
  o <- getOperationObject addr ;;
  match o with
  | Some obj => c <- obj_Code addr obj ;; ret (default [] c)
  | None => ret []
  end.

Definition GetCodeSize (addr : Z) : DB Z :=
  o <- getOperationObject addr ;;
  match o with
  | None => ret 0
  | Some obj =>
      match code obj with
      | Some c => ret (zlen c)
      | None =>
          if data_CodeHash obj =? emptyCodeHash then ret 0
          else
            s <- get ;;
            match db_code (odb s) (addrHash obj) (data_CodeHash obj) with
            | Some c => ret (zlen c)
            | None => update_object addr obj_setError ;;; ret 0
            end
      end
  end.

Definition SetCode (addr : Z) (c : list Z) : DB unit :=
  obj <- GetOrNewOperationObject addr ;;
  prevcode <- obj_Code addr obj ;;
  append_entry (codeChange addr prevcode (data_CodeHash obj)) ;;;
  update_object addr (obj_setCode (Keccak256Hash c) (Some c)).

Definition AddRefund (gas : Z) : DB unit :=
  s <- get ;;
  append_entry (refundChange (refund s)) ;;;
  modify (fun s => set_refund (refund s +64 gas) s).

Definition SubRefund (gas : Z) : DB unit :=
  s <- get ;;
  append_entry (refundChange (refund s)) ;;;
  if refund s <? gas then panicM PRefund
  else modify (fun s => set_refund (refund s - gas) s).

Definition GetRefund : DB Z := gets refund.

Definition obj_GetCommittedState (addr : Z) (obj : OperationObject) (key : Z) : DB Z :=
  match fakeStorage obj with
  | Some f => ret (default 0 (f !! key))
  | None =>
      match pendingStorage obj !! key with
      | Some v => ret v
      | None =>
          match originStorage obj !! key with
          | Some v => ret v
          | None =>
              s <- get ;;
              match db_storage (odb s) (addrHash obj) (data_Root obj) key with
              | Some v => ret v
              | None => update_object addr obj_setError ;;; ret 0
              end
          end
      end
  end.

Definition obj_GetState (addr : Z) (obj : OperationObject) (key : Z) : DB Z :=
  match fakeStorage obj with
  | Some f => ret (default 0 (f !! key))
  | None =>
      match dirtyStorage obj !! key with
      | Some v => ret v
      | None => obj_GetCommittedState addr obj key
      end
  end.

Definition GetCommittedState (addr key : Z) : DB Z :=
  o <- getOperationObject addr ;;
  match o with Some obj => obj_GetCommittedState addr obj key | None => ret 0 end.

Definition GetState (addr key : Z) : DB Z :=
  o <- getOperationObject addr ;;
  match o with Some obj => obj_GetState addr obj key | None => ret 0 end.

Definition obj_SetState (addr : Z) (obj : OperationObject) (key value : Z) : DB unit :=
  match fakeStorage obj with
  | Some f => update_object addr (obj_setFake (Some (<[key := value]> f)))
  | None =>
      prev <- obj_GetState addr obj key ;;
      if prev =? value then ret tt
      else
        append_entry (storageChange addr key prev) ;;;
        update_object addr (fun o => obj_setDirty (<[key := value]> (dirtyStorage o)) o)
  end.

Definition SetState (addr key value : Z) : DB unit :=
  obj <- GetOrNewOperationObject addr ;; obj_SetState addr obj key value.

Definition SetStorage (addr : Z) (storage : Storage) : DB unit :=
  obj <- GetOrNewOperationObject addr ;;
  update_object addr (fun o => obj_setFake (Some (storage ∪ default ∅ (fakeStorage o))) o).

Definition Suicide (addr : Z) : DB bool :=
  o <- getOperationObject addr ;;
  match o with
  | None => ret false
  | Some obj =>
      append_entry (suicideChange addr (suicided obj) (data_Balance obj)) ;;;
      update_object addr (fun o => obj_setBalance 0 (obj_setSuicided true o)) ;;;
      ret true
  end.

Definition HasSuicided (addr : Z) : DB bool :=
  o <- getOperationObject addr ;;
  ret (match o with Some obj => suicided obj | None => false end).

Definition Exist (addr : Z) : DB bool :=
  o <- getOperationObject addr ;; ret (match o with Some _ => true | None => false end).

Definition Empty (addr : Z) : DB bool :=
  o <- getOperationObject addr ;;
  ret (match o with Some obj => obj_empty obj | None => true end).

Definition AddressInAccessList (addr : Z) : DB bool :=
  gets (fun s => al_ContainsAddress addr (access_list s)).

Definition SlotInAccessList (addr slot : Z) : DB (bool * bool) :=
  s <- get ;; liftO (al_Contains addr slot (access_list s)).

Definition AddAddressToAccessList (addr : Z) : DB unit :=
  s <- get ;;
  let '(changed, al) := al_AddAddress addr (access_list s) in
  modify (set_al al) ;;;
  if changed : bool then append_entry (accessListAddAccountChange addr) else ret tt.

Definition AddSlotToAccessList (addr slot : Z) : DB unit :=
  s <- get ;;
  let! (addrMod, slotMod, al) := liftO (al_AddSlot addr slot (access_list s)) ;;
  modify (set_al al) ;;;
  (if addrMod : bool then append_entry (accessListAddAccountChange addr) else ret tt) ;;;
  (if slotMod : bool then append_entry (accessListAddSlotChange addr slot) else ret tt).

(** These three have the body [panic("implement me")]. *)
Definition Snapshot : DB Z := panicM PNotImplemented.
Definition RevertToSnapshot (id : Z) : DB unit := panicM PNotImplemented.
Definition AddPreimage (hash : Z) (preimage : list Z) : DB unit := panicM PNotImplemented.

Definition AddLog (l : Log) : DB unit :=
  s <- get ;;
  append_entry (addLogChange (thash s)) ;;;
  let l := {| log_Address := log_Address l; log_Topics := log_Topics l; log_Data := log_Data l;
              log_BlockNumber := log_BlockNumber l; log_TxHash := thash s;
              log_TxIndex := txIndex s; log_Index := logSize s |} in
  modify (set_logs (<[thash s := default [] (logs s !! thash s) ++ [l]]> (logs s))
                   (logSize s + 1)).

(** ** Reverting journal entries *)

(** [getOperationObject(a).f()]: a nil object is dereferenced. *)
Definition deref_update (a : Z) (f : OperationObject -> OperationObject) : DB unit :=
  o <- getOperationObject a ;;
  match o with
  | None => panicM PNil
  | Some _ => update_object a f
  end.

Definition revert (e : journalEntry) : DB unit :=
  match e with
  | createObjectChange a =>
      modify (fun s => set_pending (OperationObjectsPending s) (OperationObjectsDirty s ∖ {[a]})
                         (set_objects (delete a) s))
  | resetObjectChange prev => setOperationObject prev
  | codeChange a prevcode prevhash => deref_update a (obj_setCode prevhash prevcode)
  | balanceChange a prev => deref_update a (obj_setBalance prev)
  | nonceChange a prev => deref_update a (obj_setNonce prev)
  | storageChange a key v =>
      deref_update a (fun o => obj_setDirty (<[key := v]> (dirtyStorage o)) o)
  | suicideChange a prev prevbalance =>
      o <- getOperationObject a ;;
      match o with
      | None => ret tt
      | Some _ =>
          update_object a (fun o => obj_setBalance prevbalance (obj_setSuicided prev o))
      end
  | accessListAddAccountChange a =>
      modify (fun s => set_al (al_DeleteAddress a (access_list s)) s)
  | accessListAddSlotChange a slot =>
      s <- get ;;
      al <- liftO (al_DeleteSlot a slot (access_list s)) ;;
      modify (set_al al)
  | refundChange prev => modify (set_refund prev)
  | addLogChange txhash =>
      s <- get ;;
      let l := default [] (logs s !! txhash) in
      (if zlen l =? 1 then modify (set_logs (delete txhash (logs s)) (logSize s - 1))
       else
         l' <- liftO (slice l 0 (zlen l - 1)) ;;
         modify (set_logs (<[txhash := l']> (logs s)) (logSize s - 1)))
  end.

(** ** End of a transaction *)
Definition obj_finalise (o : OperationObject) : OperationObject :=
  obj_setPending (dirtyStorage o ∪ pendingStorage o) ∅ o.

Definition clearJournalAndRefund : DB unit :=
  s <- get ;;
  if decide (entries (journal s) = []) then ret tt
  else modify (fun s => set_refund 0 (set_journal (fun _ => NewJournal) s)).

(** One address of the loop over the journal's dirty set. *)
Definition finalise_one (deleteEmptyObjects : bool) (s : OperationDB) (addr : Z) : OperationDB :=
  match OperationObjects s !! addr with
  | None => s
  | Some obj =>
      let obj' := if suicided obj || (deleteEmptyObjects && obj_empty obj)
                  then obj_setDeleted true obj else obj_finalise obj in
      set_pending ({[addr]} ∪ OperationObjectsPending s) ({[addr]} ∪ OperationObjectsDirty s)
        (set_objects (<[addr := obj']>) s)
  end.

Definition Finalise (deleteEmptyObjects : bool) : DB unit :=
  modify (fun s => fold_left (finalise_one deleteEmptyObjects)
                     (elements (dom (Dirties (journal s)))) s) ;;;
  clearJournalAndRefund.

(** ** Balance transfer ([vm/octopus_ovm.go]) *)
Definition CanTransfer (addr amount : Z) : DB bool :=
  b <- GetBalance addr ;; ret (amount <=? b).

(** The source then reads the recipient's object for a print. *)
Definition Transfer (sender recipient amount : Z) : DB unit :=
  SubBalance sender amount ;;;
  AddBalance recipient amount ;;;
  _ <- GetOrNewOperationObject recipient ;;
  ret tt.
End ops.
