(* ===== verification/StateInv.v ===== *)
(** * Invariant of the state database

    [wf_db] is what the virtual machine relies on: nonces are [uint64], code is
    a byte string of Go length, and every index of the access list is in range
    and used by one address.  Every operation the virtual machine calls
    preserves it and does not panic except where the source panics on purpose
    ([ok_panic]). *)
From S2P Require Import Prelude Uint256 StateDB.

(** The panics a run of the virtual machine can end with: the refund counter
    below zero, the operations that are not implemented, and a cached
    jump-destination analysis that belongs to other code. *)
Definition ok_panic (p : panic) : Prop := p = PRefund \/ p = PNotImplemented \/ p = PBitvec.

Definition bytes_ok (bs : list Z) : Prop := Forall is_byte bs /\ zlen bs < two63.

Lemma bytes_ok_nil : bytes_ok [].
Proof. split; [constructor|]. unfold zlen. simpl. lia. Qed.
#[export] Hint Resolve bytes_ok_nil : go.

Definition wf_obj (o : OperationObject) : Prop :=
  is_u64 (data_Nonce o) /\ (forall c, code o = Some c -> bytes_ok c).

Definition wf_dbi (d : DatabaseI) : Prop :=
  (forall a sa, db_account d a = Some sa -> is_u64 (sa_Nonce sa)) /\
  (forall h k c, db_code d h k = Some c -> bytes_ok c).

Definition al_index_ok (al : accessList) : Prop :=
  forall a i, al_addresses al !! a = Some i -> i = -1 \/ 0 <= i < zlen (al_slots al).

Definition al_index_inj (al : accessList) : Prop :=
  forall a b i, al_addresses al !! a = Some i -> al_addresses al !! b = Some i -> i <> -1 -> a = b.

Definition wf_al (al : accessList) : Prop := al_index_ok al /\ al_index_inj al.

Definition wf_objs (m : gmap Z OperationObject) : Prop :=
  forall a o, m !! a = Some o -> wf_obj o.

Definition wf_db (s : OperationDB) : Prop :=
  wf_dbi (odb s) /\ wf_objs (OperationObjects s) /\ wf_al (access_list s).

(** ** The access list *)
Lemma wf_newAccessList : wf_al newAccessList.
Proof. split; [intros a i|intros a b i]; cbn; by rewrite lookup_empty. Qed.

Lemma al_AddAddress_wf a al : wf_al al -> wf_al (al_AddAddress a al).2.
Proof.
  intros [Hok Hinj]. unfold al_AddAddress. destruct (al_addresses al !! a) eqn:E; [by split|].
  split.
  - intros b i. cbn. destruct (decide (a = b)) as [->|].
    + rewrite lookup_insert_eq. intros [= <-]. by left.
    + rewrite lookup_insert_ne by done. apply Hok.
  - intros b c i. cbn.
    destruct (decide (b = a)) as [->|], (decide (c = a)) as [->|];
      rewrite ?lookup_insert_eq, ?lookup_insert_ne by congruence; try congruence.
    apply Hinj.
Qed.

(** The shape shared by the two cases of [al_AddSlot] that open a new slot set. *)
Lemma al_fresh_wf a slot al : wf_al al ->
  (forall i, al_addresses al !! a = Some i -> i = -1) ->
  wf_al {| al_addresses := <[a := zlen (al_slots al)]> (al_addresses al);
           al_slots := al_slots al ++ [ {[slot]} ] |}.
Proof.
  intros [Hok Hinj] Ha. pose proof (zlen_nonneg (al_slots al)). split.
  - intros b i. cbn. rewrite zlen_snoc. destruct (decide (a = b)) as [->|].
    + rewrite lookup_insert_eq. intros [= <-]. right. lia.
    + rewrite lookup_insert_ne by done. intros H'%Hok. lia.
  - intros b c i. cbn.
    destruct (decide (b = a)) as [->|], (decide (c = a)) as [->|];
      rewrite ?lookup_insert_eq, ?lookup_insert_ne by congruence; auto.
    + intros [= <-] Hc%Hok. lia.
    + intros Hb%Hok [= <-]. lia.
    + apply Hinj.
Qed.

Lemma al_AddSlot_wf a slot al : wf_al al ->
  exists am sm al', al_AddSlot a slot al = Ret (am, sm, al') /\ wf_al al'.
Proof.
  intros Hal. pose proof Hal as [Hok Hinj]. unfold al_AddSlot.
  destruct (al_addresses al !! a) as [i|] eqn:Ea.
  2: { do 3 eexists. split; [done|]. apply al_fresh_wf; [done|]. congruence. }
  destruct (Z.eqb_spec i (-1)) as [->|].
  { do 3 eexists. split; [done|]. apply al_fresh_wf; [done|]. congruence. }
  destruct (Hok _ _ Ea) as [|Hr]; [done|].
  destruct (index_ok (al_slots al) i Hr) as (sm & -> & _). cbn [obind].
  destruct (decide (slot ∈ sm)); do 3 eexists; split; try done.
  split; [|done]. intros b j Hb%Hok. cbn. unfold zlen in *. by rewrite length_insert.
Qed.

Lemma al_Contains_ok a slot al : wf_al al -> exists r, al_Contains a slot al = Ret r.
Proof.
  intros [Hok _]. unfold al_Contains. destruct (al_addresses al !! a) as [i|] eqn:Ea; [|eauto].
  destruct (Z.eqb_spec i (-1)); [eauto|]. destruct (Hok _ _ Ea) as [|Hr]; [done|].
  destruct (index_ok (al_slots al) i Hr) as (sm & -> & _). cbn. eauto.
Qed.

(** ** Safe database programs *)
Definition dsafe {A} (p : M OperationDB A) (R : A -> Prop) : Prop :=
  forall s, wf_db s -> wp ok_panic p s (fun a s' => wf_db s' /\ odb s' = odb s /\ R a).

Lemma dsafe_ret {A} (a : A) (R : A -> Prop) : R a -> dsafe (ret a) R.
Proof. intros Ha s Hs. by apply wp_ret. Qed.

Lemma dsafe_bind {A B} (p : M OperationDB A) (k : A -> M OperationDB B) R R' :
  dsafe p R -> (forall a, R a -> dsafe (k a) R') -> dsafe (bind p k) R'.
Proof.
  intros Hp Hk s Hs. apply wp_bind. eapply wp_mono; [by apply Hp|].
  intros a s' (Hs' & Ho & Ha). eapply wp_mono; [by apply Hk|].
  intros b s'' (? & Ho' & ?). by rewrite Ho', Ho.
Qed.

Lemma dsafe_mono {A} (p : M OperationDB A) (R R' : A -> Prop) :
  dsafe p R -> (forall a, R a -> R' a) -> dsafe p R'.
Proof. intros Hp HR s Hs. eapply wp_mono; [by apply Hp|]. naive_solver. Qed.

Lemma dsafe_get : dsafe get wf_db.
Proof. intros s Hs. by apply wp_get. Qed.

Lemma dsafe_gets {A} (f : OperationDB -> A) : dsafe (gets f) (fun _ => True).
Proof. intros s Hs. by apply wp_gets. Qed.

Lemma dsafe_modify f :
  (forall s, wf_db s -> wf_db (f s) /\ odb (f s) = odb s) -> dsafe (modify f) (fun _ => True).
Proof. intros Hf s Hs. apply wp_modify. by destruct (Hf s Hs). Qed.

Lemma dsafe_panic {A} p (R : A -> Prop) : ok_panic p -> dsafe (panicM p) R.
Proof. intros Hp s Hs. by apply wp_panic. Qed.

Lemma dsafe_liftO {A} (o : outcome A) (R : A -> Prop) a : o = Ret a -> R a -> dsafe (liftO o) R.
Proof. intros -> Ha s Hs. by eapply wp_liftO. Qed.

(** ** The operations *)
Section ops.
Context `{C : Crypto}.

Lemma wf_newObject a sa : is_u64 (sa_Nonce sa) -> wf_obj (newObject a sa).
Proof. intros. by split. Qed.

Lemma wf_empty_object a : wf_obj (newObject a empty_StateAccount).
Proof. apply wf_newObject. unfold is_u64. simpl. lia. Qed.

Lemma dsafe_set o : wf_obj o -> dsafe (setOperationObject o) (fun _ => True).
Proof.
  intros Ho. apply dsafe_modify. intros s (? & Hobjs & ?). split; [|done].
  split; [done|]. split; [|done]. intros a o'. cbn.
  destruct (decide (address o = a)) as [->|].
  - rewrite lookup_insert_eq. by intros [= <-].
  - rewrite lookup_insert_ne by done. apply Hobjs.
Qed.

Lemma dsafe_update a f :
  (forall o, wf_obj o -> wf_obj (f o)) -> dsafe (update_object a f) (fun _ => True).
Proof.
  intros Hf. apply dsafe_modify. intros s (? & Hobjs & ?). split; [|done].
  split; [done|]. split; [|done]. intros b o. cbn.
  rewrite lookup_alter. destruct (decide (a = b)) as [->|]; [|apply Hobjs].
  intros (o' & Ho' & ->)%fmap_Some. eauto.
Qed.

Lemma dsafe_append e : dsafe (append_entry e) (fun _ => True).
Proof. by apply dsafe_modify. Qed.

Definition some_wf (o : option OperationObject) : Prop := forall x, o = Some x -> wf_obj x.

Lemma dsafe_getDeleted a : dsafe (getDeletedOperationObject a) some_wf.
Proof.
  unfold getDeletedOperationObject. eapply dsafe_bind; [apply dsafe_get|].
  intros s (Hd & Ho & _). destruct (OperationObjects s !! a) as [o|] eqn:E.
  { apply dsafe_ret. intros x [= <-]. by eapply Ho. }
  destruct (db_account (odb s) a) as [sa|] eqn:Ea; [|by apply dsafe_ret].
  assert (wf_obj (newObject a sa)) by (apply wf_newObject; by eapply Hd).
  eapply dsafe_bind; [by apply dsafe_set|]. intros _ _. apply dsafe_ret. by intros x [= <-].
Qed.

Lemma dsafe_getObj a : dsafe (getOperationObject a) some_wf.
Proof. apply dsafe_getDeleted. Qed.

Lemma dsafe_createObject a :
  dsafe (createObject a) (fun r => wf_obj r.1 /\ some_wf r.2).
Proof.
  unfold createObject. eapply dsafe_bind; [apply dsafe_getDeleted|]. intros prev Hprev.
  eapply dsafe_bind; [destruct prev; apply dsafe_append|]. intros _ _.
  eapply dsafe_bind; [apply dsafe_set, wf_empty_object|]. intros _ _.
  apply dsafe_ret. split; [apply wf_empty_object|done].
Qed.

Lemma dsafe_getOrNew a : dsafe (GetOrNewOperationObject a) wf_obj.
Proof.
  unfold GetOrNewOperationObject. eapply dsafe_bind; [apply dsafe_getObj|].
  intros [o|] Ho; [apply dsafe_ret; auto|].
  eapply dsafe_bind; [apply dsafe_createObject|]. intros [o p] [? _]. by apply dsafe_ret.
Qed.

Lemma dsafe_CreateAccount a : dsafe (CreateAccount a) (fun _ => True).
Proof.
  unfold CreateAccount. eapply dsafe_bind; [apply dsafe_createObject|]. intros [o [p|]] _.
  - by apply dsafe_update.
  - by apply dsafe_ret.
Qed.

Lemma dsafe_obj_SetBalance a o v : dsafe (obj_SetBalance a o v) (fun _ => True).
Proof.
  unfold obj_SetBalance. eapply dsafe_bind; [apply dsafe_append|]. intros _ _.
  by apply dsafe_update.
Qed.

Lemma dsafe_SubBalance a v : dsafe (SubBalance a v) (fun _ => True).
Proof.
  eapply dsafe_bind; [apply dsafe_getOrNew|]. intros o _. unfold obj_SubBalance.
  destruct (v =? 0); [by apply dsafe_ret|apply dsafe_obj_SetBalance].
Qed.

Lemma dsafe_AddBalance a v : dsafe (AddBalance a v) (fun _ => True).
Proof.
  eapply dsafe_bind; [apply dsafe_getOrNew|]. intros o _. unfold obj_AddBalance.
  destruct (v =? 0); [by apply dsafe_ret|apply dsafe_obj_SetBalance].
Qed.

(** A read of one object. *)
Lemma dsafe_read {A} a (f : option OperationObject -> A) (R : A -> Prop) :
  (forall o, some_wf o -> R (f o)) ->
  dsafe (o <- getOperationObject a ;; ret (f o)) R.
Proof.
  intros Hf. eapply dsafe_bind; [apply dsafe_getObj|]. intros o Ho. apply dsafe_ret. auto.
Qed.

Lemma dsafe_GetBalance a : dsafe (GetBalance a) (fun _ => True).
Proof. by apply dsafe_read. Qed.
Lemma dsafe_GetCodeHash a : dsafe (GetCodeHash a) (fun _ => True).
Proof. by apply dsafe_read. Qed.
Lemma dsafe_HasSuicided a : dsafe (HasSuicided a) (fun _ => True).
Proof. by apply dsafe_read. Qed.
Lemma dsafe_Exist a : dsafe (Exist a) (fun _ => True).
Proof. by apply dsafe_read. Qed.
Lemma dsafe_Empty a : dsafe (Empty a) (fun _ => True).
Proof. by apply dsafe_read. Qed.
Lemma dsafe_GetNonce a : dsafe (GetNonce a) is_u64.
Proof.
  apply dsafe_read. intros [o|] Ho; [by apply Ho|]. unfold is_u64. lia.
Qed.

Lemma dsafe_SetNonce a n : is_u64 n -> dsafe (SetNonce a n) (fun _ => True).
Proof.
  intros Hn. eapply dsafe_bind; [apply dsafe_getOrNew|]. intros o _.
  eapply dsafe_bind; [apply dsafe_append|]. intros _ _.
  apply dsafe_update. intros o' [? ?]. by split.
Qed.

Lemma dsafe_obj_Code a o : wf_obj o ->
  dsafe (obj_Code a o) (fun c => forall bs, c = Some bs -> bytes_ok bs).
Proof.
  intros Ho. unfold obj_Code. destruct (code o) as [c|] eqn:Ec.
  { apply dsafe_ret. intros bs [= <-]. by apply Ho. }
  destruct (_ =? _); [by apply dsafe_ret|].
  eapply dsafe_bind; [apply dsafe_get|]. intros s (Hd & _).
  assert (Hc : forall bs, db_code (odb s) (addrHash o) (data_CodeHash o) = Some bs -> bytes_ok bs)
    by apply Hd.
  eapply dsafe_bind; [apply dsafe_update|].
  - intros o' [? ?]. split; [done|]. cbn. auto.
  - intros _ _. apply dsafe_ret. auto.
Qed.

Lemma dsafe_GetCode a : dsafe (GetCode a) bytes_ok.
Proof.
  eapply dsafe_bind; [apply dsafe_getObj|]. intros [o|] Ho; [|apply dsafe_ret; auto with go].
  eapply dsafe_bind; [apply dsafe_obj_Code; auto|]. intros [c|] Hc; apply dsafe_ret; cbn;
    auto with go.
Qed.

Lemma dsafe_GetCodeSize a : dsafe (GetCodeSize a) (fun n => 0 <= n < two63).
Proof.
  assert (Hl : forall c, bytes_ok c -> 0 <= zlen c < two63).
  { intros c [_ ?]. pose proof (zlen_nonneg c). lia. }
  eapply dsafe_bind; [apply dsafe_getObj|]. intros [o|] Ho; [|apply dsafe_ret; lia].
  destruct (code o) as [c|] eqn:Ec; [apply dsafe_ret, Hl; by eapply Ho|].
  destruct (_ =? _); [apply dsafe_ret; lia|].
  eapply dsafe_bind; [apply dsafe_get|]. intros s (Hd & _).
  destruct (db_code _ _ _) as [c|] eqn:E; [apply dsafe_ret, Hl; by eapply Hd|].
  eapply dsafe_bind; [by apply dsafe_update|]. intros _ _. apply dsafe_ret. lia.
Qed.

Lemma dsafe_SetCode a c : bytes_ok c -> dsafe (SetCode a c) (fun _ => True).
Proof.
  intros Hc. eapply dsafe_bind; [apply dsafe_getOrNew|]. intros o Ho.
  eapply dsafe_bind; [by apply dsafe_obj_Code|]. intros prev _.
  eapply dsafe_bind; [apply dsafe_append|]. intros _ _.
  apply dsafe_update. intros o' [? ?]. split; [done|]. cbn. by intros c' [= <-].
Qed.

Lemma dsafe_AddRefund g : dsafe (AddRefund g) (fun _ => True).
Proof.
  eapply dsafe_bind; [apply dsafe_get|]. intros s _.
  eapply dsafe_bind; [apply dsafe_append|]. intros _ _. by apply dsafe_modify.
Qed.

Lemma dsafe_SubRefund g : dsafe (SubRefund g) (fun _ => True).
Proof.
  eapply dsafe_bind; [apply dsafe_get|]. intros s _.
  eapply dsafe_bind; [apply dsafe_append|]. intros _ _.
  destruct (_ <? _); [|by apply dsafe_modify]. apply dsafe_panic. by left.
Qed.

Lemma dsafe_obj_GetCommittedState a o k : dsafe (obj_GetCommittedState a o k) (fun _ => True).
Proof.
  unfold obj_GetCommittedState.
  destruct (fakeStorage o); [by apply dsafe_ret|].
  destruct (_ !! _); [by apply dsafe_ret|]. destruct (_ !! _); [by apply dsafe_ret|].
  eapply dsafe_bind; [apply dsafe_get|]. intros s _.
  destruct (db_storage _ _ _ _); [by apply dsafe_ret|].
  eapply dsafe_bind; [by apply dsafe_update|]. intros _ _. by apply dsafe_ret.
Qed.

Lemma dsafe_obj_GetState a o k : dsafe (obj_GetState a o k) (fun _ => True).
Proof.
  unfold obj_GetState. destruct (fakeStorage o); [by apply dsafe_ret|].
  destruct (_ !! _); [by apply dsafe_ret|]. apply dsafe_obj_GetCommittedState.
Qed.

Lemma dsafe_GetCommittedState a k : dsafe (GetCommittedState a k) (fun _ => True).
Proof.
  eapply dsafe_bind; [apply dsafe_getObj|].
  intros [o|] _; [apply dsafe_obj_GetCommittedState|by apply dsafe_ret].
Qed.

Lemma dsafe_GetState a k : dsafe (GetState a k) (fun _ => True).
Proof.
  eapply dsafe_bind; [apply dsafe_getObj|].
  intros [o|] _; [apply dsafe_obj_GetState|by apply dsafe_ret].
Qed.

Lemma dsafe_SetState a k v : dsafe (SetState a k v) (fun _ => True).
Proof.
  eapply dsafe_bind; [apply dsafe_getOrNew|]. intros o _. unfold obj_SetState.
  destruct (fakeStorage o); [by apply dsafe_update|].
  eapply dsafe_bind; [apply dsafe_obj_GetState|]. intros prev _.
  destruct (_ =? _); [by apply dsafe_ret|].
  eapply dsafe_bind; [apply dsafe_append|]. intros _ _. by apply dsafe_update.
Qed.

Lemma dsafe_Suicide a : dsafe (Suicide a) (fun _ => True).
Proof.
  eapply dsafe_bind; [apply dsafe_getObj|]. intros [o|] _; [|by apply dsafe_ret].
  eapply dsafe_bind; [apply dsafe_append|]. intros _ _.
  eapply dsafe_bind; [by apply dsafe_update|]. intros _ _. by apply dsafe_ret.
Qed.

Lemma dsafe_set_al al : wf_al al -> dsafe (modify (set_al al)) (fun _ => True).
Proof. intros Hal. apply dsafe_modify. intros s (? & ? & ?). by split. Qed.

Lemma dsafe_AddressInAccessList a : dsafe (AddressInAccessList a) (fun _ => True).
Proof. apply dsafe_gets. Qed.

Lemma dsafe_SlotInAccessList a k : dsafe (SlotInAccessList a k) (fun _ => True).
Proof.
  eapply dsafe_bind; [apply dsafe_get|]. intros s (_ & _ & Hal).
  destruct (al_Contains_ok a k _ Hal) as [r Hr]. by eapply dsafe_liftO.
Qed.

Lemma dsafe_AddAddressToAccessList a : dsafe (AddAddressToAccessList a) (fun _ => True).
Proof.
  eapply dsafe_bind; [apply dsafe_get|]. intros s (_ & _ & Hal).
  pose proof (al_AddAddress_wf a _ Hal). destruct (al_AddAddress a (access_list s)) as [ch al].
  eapply dsafe_bind; [by apply dsafe_set_al|]. intros _ _.
  destruct ch; [apply dsafe_append|by apply dsafe_ret].
Qed.

Lemma dsafe_AddSlotToAccessList a k : dsafe (AddSlotToAccessList a k) (fun _ => True).
Proof.
  eapply dsafe_bind; [apply dsafe_get|]. intros s (_ & _ & Hal).
  destruct (al_AddSlot_wf a k _ Hal) as (am & sm & al & Heq & Hal').
  eapply (dsafe_bind _ _ (fun r => r = (am, sm, al))); [by eapply dsafe_liftO|].
  intros ? ->. eapply dsafe_bind; [by apply dsafe_set_al|]. intros _ _.
  eapply dsafe_bind; [destruct am; [apply dsafe_append|by apply dsafe_ret]|]. intros _ _.
  destruct sm; [apply dsafe_append|by apply dsafe_ret].
Qed.

Lemma dsafe_AddPreimage h p : dsafe (AddPreimage h p) (fun _ => True).
Proof. apply dsafe_panic. right. by left. Qed.

Lemma dsafe_Snapshot (R : Z -> Prop) : dsafe Snapshot R.
Proof. apply dsafe_panic. right. by left. Qed.

Lemma dsafe_AddLog l : dsafe (AddLog l) (fun _ => True).
Proof.
  eapply dsafe_bind; [apply dsafe_get|]. intros s _.
  eapply dsafe_bind; [apply dsafe_append|]. intros _ _. by apply dsafe_modify.
Qed.

Lemma dsafe_CanTransfer a v : dsafe (CanTransfer a v) (fun _ => True).
Proof. eapply dsafe_bind; [apply dsafe_GetBalance|]. intros b _. by apply dsafe_ret. Qed.

Lemma dsafe_Transfer a b v : dsafe (Transfer a b v) (fun _ => True).
Proof.
  eapply dsafe_bind; [apply dsafe_SubBalance|]. intros _ _.
  eapply dsafe_bind; [apply dsafe_AddBalance|]. intros _ _.
  eapply dsafe_bind; [apply dsafe_getOrNew|]. intros _ _. by apply dsafe_ret.
Qed.
End ops.

#[export] Hint Resolve dsafe_GetBalance dsafe_GetCodeHash dsafe_HasSuicided dsafe_Exist
  dsafe_Empty dsafe_GetNonce dsafe_SetNonce dsafe_GetCode dsafe_GetCodeSize dsafe_SetCode
  dsafe_AddRefund dsafe_SubRefund dsafe_GetState dsafe_GetCommittedState dsafe_SetState
  dsafe_Suicide dsafe_AddressInAccessList dsafe_SlotInAccessList dsafe_AddAddressToAccessList
  dsafe_AddSlotToAccessList dsafe_AddPreimage dsafe_Snapshot dsafe_AddLog dsafe_CanTransfer
  dsafe_Transfer dsafe_AddBalance dsafe_SubBalance dsafe_CreateAccount : go.
