(* ===== verification/StateSpec.v ===== *)
(** * What the state database promises

    The abstract state is a map from addresses to accounts, with no caches, no
    loading and no journal.  [acct] reads it off an [OperationDB]; [db_eq]
    relates two databases that no observer can tell apart.  Every operation
    refines an update of the abstract state, and reverting the journal entries
    it appended takes the database back to an equivalent one. *)
From S2P Require Import Prelude Uint256 StateDB.

(** ** Abstract accounts *)
Record account := mkAcct {
  a_nonce : Z; a_balance : Z; a_codehash : Z; a_code : list Z;
  a_storage : Z -> Z; a_committed : Z -> Z; a_suicided : bool }.

Record acct_eq (x y : account) : Prop := mkAcctEq {
  eq_nonce : a_nonce x = a_nonce y;
  eq_balance : a_balance x = a_balance y;
  eq_codehash : a_codehash x = a_codehash y;
  eq_code : a_code x = a_code y;
  eq_storage : forall k, a_storage x k = a_storage y k;
  eq_committed : forall k, a_committed x k = a_committed y k;
  eq_suicided : a_suicided x = a_suicided y }.

#[export] Instance acct_eq_equiv : Equivalence acct_eq.
Proof.
  split.
  - intros x. by constructor.
  - intros x y []. constructor; intros; symmetry; auto.
  - intros x y z [] []. constructor; intros; etrans; eauto.
Qed.

Abbreviation oacct_eq := (option_Forall2 acct_eq).

#[export] Instance oacct_eq_equiv : Equivalence oacct_eq.
Proof.
  split.
  - intros [x|]; constructor. reflexivity.
  - intros x y []; constructor. by symmetry.
  - intros x y z [a b Hab|] H; inversion H; subst; constructor. by etrans.
Qed.

Section spec.
Context `{C : Crypto}.

(** The account an object stands for, through its caches. *)
Definition view_committed (d : DatabaseI) (o : OperationObject) (k : Z) : Z :=
  match pendingStorage o !! k with
  | Some v => v
  | None => match originStorage o !! k with
            | Some v => v
            | None => default 0 (db_storage d (addrHash o) (data_Root o) k)
            end
  end.

Definition code_of (d : DatabaseI) (a hash : Z) (c : option (list Z)) : list Z :=
  match c with
  | Some c => c
  | None => if hash =? emptyCodeHash then []
            else default [] (db_code d (Keccak256Hash (be_bytes 20 a)) hash)
  end.

Definition view_code (d : DatabaseI) (o : OperationObject) : list Z :=
  code_of d (address o) (data_CodeHash o) (code o).

Definition view (d : DatabaseI) (o : OperationObject) : account := {|
  a_nonce := data_Nonce o; a_balance := data_Balance o; a_codehash := data_CodeHash o;
  a_code := view_code d o;
  a_storage k := match dirtyStorage o !! k with Some v => v | None => view_committed d o k end;
  a_committed := view_committed d o;
  a_suicided := suicided o |}.

(** The object [getOperationObject] returns, loaded or not. *)
Definition obj_at (s : OperationDB) (a : Z) : option OperationObject :=
  match OperationObjects s !! a with
  | Some o => Some o
  | None => newObject a <$> db_account (odb s) a
  end.

Definition acct (s : OperationDB) (a : Z) : option account := view (odb s) <$> obj_at s a.

(** ** Well-formed databases

    An object is stored under its own address, and the test-only storage
    override of [SetStorage] is not in use. *)
Definition obj_ok (a : Z) (o : OperationObject) : Prop := address o = a /\ fakeStorage o = None.
Definition objs_ok (s : OperationDB) : Prop :=
  forall a o, OperationObjects s !! a = Some o -> obj_ok a o.
(** Slot sets of the access list are not empty and indices are in range. *)
Definition al_ok (al : accessList) : Prop :=
  (forall a i, al_addresses al !! a = Some i ->
     i = -1 \/ exists sm, 0 <= i /\ al_slots al !! Z.to_nat i = Some sm /\ sm <> ∅).
Definition db_ok (s : OperationDB) : Prop := objs_ok s /\ al_ok (access_list s).

Lemma obj_at_ok s a o : objs_ok s -> obj_at s a = Some o -> obj_ok a o.
Proof.
  intros Hs. unfold obj_at. destruct (OperationObjects s !! a) eqn:E.
  - intros [= <-]. by apply Hs.
  - intros (sa & _ & ->)%fmap_Some. done.
Qed.

(** ** Observational equivalence *)
Record db_eq (s t : OperationDB) : Prop := mkDbEq {
  eq_odb : odb s = odb t;
  eq_acct : forall a, oacct_eq (acct s a) (acct t a);
  eq_refund : refund s = refund t;
  eq_logs : forall h, default [] (logs s !! h) = default [] (logs t !! h);
  eq_logSize : logSize s = logSize t;
  eq_al : access_list s = access_list t;
  eq_thash : thash s = thash t;
  eq_txIndex : txIndex s = txIndex t }.

#[export] Instance db_eq_equiv : Equivalence db_eq.
Proof.
  split.
  - intros s. constructor; intros; done || reflexivity.
  - intros s t []. constructor; intros; symmetry; auto.
  - intros s t u [] []. constructor; intros; etrans; eauto.
Qed.

(** ** Loading an object changes nothing that can be observed *)
Lemma acct_insert s a o b :
  acct (set_objects (<[a := o]>) s) b = if decide (a = b) then Some (view (odb s) o) else acct s b.
Proof.
  unfold acct, obj_at. cbn. destruct (decide (a = b)) as [->|].
  - by rewrite lookup_insert_eq.
  - by rewrite lookup_insert_ne by done.
Qed.

Lemma objs_ok_insert s a o : objs_ok s -> obj_ok a o -> objs_ok (set_objects (<[a := o]>) s).
Proof.
  intros Hs Ho b o'. cbn. destruct (decide (a = b)) as [->|].
  - rewrite lookup_insert_eq. by intros [= <-].
  - rewrite lookup_insert_ne by done. apply Hs.
Qed.

(** What a read leaves behind: the same database with objects loaded. *)
Definition loaded (s s' : OperationDB) : Prop :=
  db_eq s' s /\ journal s' = journal s /\ (objs_ok s -> objs_ok s').

Lemma loaded_refl s : loaded s s.
Proof. by split. Qed.

Lemma loaded_ok s s' : loaded s s' -> db_ok s -> db_ok s'.
Proof. intros (H & _ & Ho) [? ?]. split; [auto|]. by rewrite (eq_al _ _ H). Qed.

Lemma loaded_trans s t u : loaded s t -> loaded t u -> loaded s u.
Proof.
  intros (H1 & J1 & O1) (H2 & J2 & O2). split; [by rewrite H2|].
  split; [congruence|]. auto.
Qed.

(** Replacing the object at [a] by one with the same view. *)
Lemma loaded_insert s a o o' : obj_at s a = Some o -> acct_eq (view (odb s) o') (view (odb s) o) ->
  (obj_ok a o -> obj_ok a o') -> loaded s (set_objects (<[a := o']>) s).
Proof.
  intros Ho Hv Hk. split.
  - constructor; try done. intros b. rewrite acct_insert. destruct (decide (a = b)) as [<-|]; [|done].
    unfold acct. rewrite Ho. by constructor.
  - split; [done|]. intros Hs. apply objs_ok_insert; [done|]. apply Hk. by eapply obj_at_ok.
Qed.

Lemma getObj_spec a s : exists s', getOperationObject a s = Ret (obj_at s a, s') /\ loaded s s' /\
  OperationObjects s' !! a = obj_at s a.
Proof.
  unfold getOperationObject, getDeletedOperationObject, bind, get, setOperationObject, modify, ret.
  destruct (OperationObjects s !! a) as [o|] eqn:E.
  { exists s. unfold obj_at. rewrite E. split; [done|]. split; [apply loaded_refl|done]. }
  destruct (db_account (odb s) a) as [sa|] eqn:Ea.
  - assert (Ho : obj_at s a = Some (newObject a sa)) by (unfold obj_at; by rewrite E, Ea).
    rewrite Ho. eexists. split; [done|]. split; [|cbn; by rewrite lookup_insert_eq].
    by eapply loaded_insert.
  - assert (Ho : obj_at s a = None) by (unfold obj_at; by rewrite E, Ea).
    rewrite Ho. exists s. split; [done|]. split; [apply loaded_refl|done].
Qed.

(** ** The readers compute the abstract observers *)

(** [reads p v]: [p] returns [v s] and only loads objects. *)
Definition reads {A} (p : M OperationDB A) (v : OperationDB -> A) : Prop :=
  forall s, db_ok s -> exists s', p s = Ret (v s, s') /\ loaded s s'.

Lemma reads_obj {A} a (f : option OperationObject -> A) :
  reads (o <- getOperationObject a ;; ret (f o)) (fun s => f (obj_at s a)).
Proof.
  intros s _. destruct (getObj_spec a s) as (s' & Hg & Hl & _). unfold bind. rewrite Hg. eauto.
Qed.

Definition get_acct {A} (s : OperationDB) (a : Z) (f : account -> A) (d : A) : A :=
  match acct s a with Some x => f x | None => d end.

Lemma reads_field {A} a (f : OperationObject -> A) (g : account -> A) (dflt : A) :
  (forall d o, g (view d o) = f o) ->
  reads (o <- getOperationObject a ;; ret (match o with Some obj => f obj | None => dflt end))
    (fun s => get_acct s a g dflt).
Proof.
  intros Hf s Hs. destruct (reads_obj a (fun o => match o with Some obj => f obj | None => dflt end) s Hs)
    as (s' & -> & Hl). exists s'. split; [|done]. unfold get_acct, acct.
  destruct (obj_at s a); cbn; by rewrite ?Hf.
Qed.

(** The update that [obj_Code], [GetCodeSize] and [GetCommittedState] make. *)
Lemma update_at s a o f : OperationObjects s !! a = Some o ->
  update_object a f s = Ret (tt, set_objects (<[a := f o]>) s).
Proof.
  intros Ho. unfold update_object, modify. do 2 f_equal. unfold set_objects. f_equal.
  apply map_eq. intros b. rewrite lookup_alter. destruct (decide (a = b)) as [<-|].
  - by rewrite lookup_insert_eq, Ho.
  - by rewrite lookup_insert_ne.
Qed.

Lemma obj_at_some s a o : OperationObjects s !! a = Some o -> obj_at s a = Some o.
Proof. unfold obj_at. by intros ->. Qed.

Lemma obj_Code_spec s a o : OperationObjects s !! a = Some o ->
  exists c s', obj_Code a o s = Ret (c, s') /\ loaded s s' /\ default [] c = view_code (odb s) o /\
    (exists c', OperationObjects s' !! a = Some (obj_cacheCode c' o)) /\
    code_of (odb s) (address o) (data_CodeHash o) c = view_code (odb s) o.
Proof.
  intros Ho. assert (Hid : obj_cacheCode (code o) o = o) by by destruct o.
  unfold obj_Code. destruct (code o) as [c|] eqn:Ec.
  { exists (Some c), s. split; [done|]. split; [apply loaded_refl|]. unfold view_code. rewrite Ec.
    split; [done|]. split; [|done]. exists (Some c). by rewrite Hid. }
  destruct (data_CodeHash o =? emptyCodeHash) eqn:Eh.
  { exists None, s. split; [done|]. split; [apply loaded_refl|]. unfold view_code. rewrite Ec.
    split; [cbn; by rewrite Eh|]. split; [|done]. exists None. by rewrite Hid. }
  set (c := db_code (odb s) (addrHash o) (data_CodeHash o)). unfold bind, get. fold c. rewrite (update_at s a o) by done. unfold ret.
  assert (Hc : code_of (odb s) (address o) (data_CodeHash o) c = default [] c /\
               view_code (odb s) o = default [] c).
  { unfold view_code. rewrite Ec. unfold code_of. rewrite Eh. subst c. unfold addrHash.
    split; [by destruct (db_code _ _ _)|done]. }
  destruct Hc as [Hc1 Hc2]. exists c. eexists. split; [done|]. split.
  - apply loaded_insert with o; [by apply obj_at_some| |done].
    constructor; try done. unfold view, a_code. rewrite Hc2. by rewrite <- Hc1.
  - split; [done|]. split; [|by rewrite Hc1, Hc2]. exists c. cbn. by rewrite lookup_insert_eq.
Qed.

Lemma view_setError d o : view d (obj_setError o) = view d o.
Proof. done. Qed.

Lemma loaded_setError s a o : OperationObjects s !! a = Some o ->
  loaded s (set_objects (<[a := obj_setError o]>) s).
Proof. intros Ho. apply loaded_insert with o; [by apply obj_at_some|done|done]. Qed.

(** Reading storage: the value, and the object afterwards. *)
Definition reads_slot (p : M OperationDB Z) (v : Z) (s : OperationDB) (a : Z) (o : OperationObject) :=
  exists s' o', p s = Ret (v, s') /\ loaded s s' /\ OperationObjects s' !! a = Some o' /\
    view (odb s) o' = view (odb s) o /\ dirtyStorage o' = dirtyStorage o /\
    fakeStorage o' = None /\ address o' = address o.

Lemma obj_GetCommittedState_spec s a o k : OperationObjects s !! a = Some o ->
  fakeStorage o = None ->
  reads_slot (obj_GetCommittedState a o k) (view_committed (odb s) o k) s a o.
Proof.
  intros Ho Hf. unfold reads_slot, obj_GetCommittedState, view_committed. rewrite Hf.
  assert (Hsame : forall v : Z, exists s' o', ret v s = Ret (v, s') /\ loaded s s' /\
    OperationObjects s' !! a = Some o' /\ view (odb s) o' = view (odb s) o /\
    dirtyStorage o' = dirtyStorage o /\ fakeStorage o' = None /\ address o' = address o).
  { intros v. exists s, o. split; [done|]. split; [apply loaded_refl|done]. }
  destruct (pendingStorage o !! k); [apply Hsame|]. destruct (originStorage o !! k); [apply Hsame|].
  unfold bind, get. destruct (db_storage _ _ _ _); [apply Hsame|].
  rewrite (update_at s a o) by done. exists (set_objects (<[a := obj_setError o]>) s), (obj_setError o).
  split; [done|]. split; [by apply loaded_setError|]. split; [cbn; by rewrite lookup_insert_eq|done].
Qed.

Lemma obj_GetState_spec s a o k : OperationObjects s !! a = Some o -> fakeStorage o = None ->
  reads_slot (obj_GetState a o k) (a_storage (view (odb s) o) k) s a o.
Proof.
  intros Ho Hf. pose proof (obj_GetCommittedState_spec s a o k Ho Hf) as Hc.
  unfold obj_GetState. rewrite Hf. cbn. destruct (dirtyStorage o !! k); [|exact Hc].
  exists s, o. split; [done|]. split; [apply loaded_refl|done].
Qed.

(** Reading through [getOperationObject]. *)
Lemma reads_via {A} a (p : OperationObject -> M OperationDB A) (f : account -> A) (dflt : A) :
  (forall s o, OperationObjects s !! a = Some o -> fakeStorage o = None ->
     exists s', p o s = Ret (f (view (odb s) o), s') /\ loaded s s') ->
  reads (o <- getOperationObject a ;; match o with Some obj => p obj | None => ret dflt end)
    (fun s => get_acct s a f dflt).
Proof.
  intros Hp s [Hs _]. destruct (getObj_spec a s) as (s' & Hg & Hl & Ha). unfold bind. rewrite Hg.
  unfold get_acct, acct. destruct (obj_at s a) as [o|] eqn:Eo; cbn; [|eauto].
  destruct (obj_at_ok s a o Hs Eo) as [_ Hf]. destruct (Hp s' o Ha Hf) as (s'' & -> & Hl').
  destruct Hl as (Hd & Hj & Hk). exists s''. rewrite (eq_odb _ _ Hd). split; [done|].
  eapply loaded_trans; [|done]. by split.
Qed.

Lemma GetCode_reads a : reads (GetCode a) (fun s => get_acct s a a_code []).
Proof.
  apply (reads_via a (fun obj => c <- obj_Code a obj ;; ret (default [] c))).
  intros s o Ho _. destruct (obj_Code_spec s a o Ho) as (c & s' & Hc & Hl & Hd & _).
  exists s'. unfold bind. rewrite Hc. unfold ret. by rewrite Hd.
Qed.

Lemma GetCodeSize_reads a : reads (GetCodeSize a) (fun s => zlen (get_acct s a a_code [])).
Proof.
  assert (He : forall s, zlen (get_acct s a a_code []) = get_acct s a (fun x => zlen (a_code x)) 0).
  { intros s. unfold get_acct. by destruct (acct s a). }
  intros s Hs. rewrite He. revert s Hs. unfold GetCodeSize. apply reads_via. intros s o Ho _.
  unfold view, a_code, view_code, code_of. destruct (code o); [exists s; auto using loaded_refl|].
  destruct (_ =? _); [exists s; auto using loaded_refl|]. unfold bind, get, addrHash.
  destruct (db_code _ _ _) as [c|]; [exists s; auto using loaded_refl|].
  rewrite (update_at s a o) by done. eexists. split; [done|by apply loaded_setError].
Qed.

Lemma GetCommittedState_reads a k :
  reads (GetCommittedState a k) (fun s => get_acct s a (fun x => a_committed x k) 0).
Proof.
  apply reads_via. intros s o Ho Hf.
  destruct (obj_GetCommittedState_spec s a o k Ho Hf) as (s' & o' & -> & Hl & _). eauto.
Qed.

Lemma GetState_reads a k :
  reads (GetState a k) (fun s => get_acct s a (fun x => a_storage x k) 0).
Proof.
  apply reads_via. intros s o Ho Hf.
  destruct (obj_GetState_spec s a o k Ho Hf) as (s' & o' & -> & Hl & _). eauto.
Qed.
End spec.
