(* ===== verification/StateUndo.v ===== *)
(** * The journal undoes what it records

    [undoes s s']: the entries appended to the journal between [s] and [s'],
    reverted newest first, lead from [s'] back to a database equivalent to
    [s].  Every operation of the state database is shown to have this property
    together with its effect on the abstract accounts. *)
From S2P Require Import Prelude Uint256 StateDB StateSpec.

Section undo.
Context `{C : Crypto}.

(** Revert a list of entries, the newest first. *)
Fixpoint revert_all (es : list journalEntry) : M OperationDB unit :=
  match es with
  | [] => ret tt
  | e :: r => revert e ;;; revert_all r
  end.

Lemma revert_all_app es es' s :
  revert_all (es ++ es') s = (revert_all es ;;; revert_all es') s.
Proof.
  revert s. induction es as [|e es IH]; intros s; [done|]. cbn. unfold bind in *.
  destruct (revert e s) as [[u s']|p|]; [apply IH|done|done].
Qed.

Definition entry_ok (e : journalEntry) : Prop :=
  match e with resetObjectChange p => fakeStorage p = None | _ => True end.

(** ** Reverting respects observational equivalence *)
Lemma acct_none s a : acct s a = None <-> obj_at s a = None.
Proof. unfold acct. destruct (obj_at s a); done. Qed.

Lemma acct_some s a o : obj_at s a = Some o -> acct s a = Some (view (odb s) o).
Proof. unfold acct. by intros ->. Qed.

(** An update of objects that acts on what they stand for. *)
Definition acts (a : Z) (d : DatabaseI) (f : OperationObject -> OperationObject) : Prop :=
  (forall o, obj_ok a o -> obj_ok a (f o)) /\
  (forall o o', obj_ok a o -> obj_ok a o' -> acct_eq (view d o) (view d o') ->
     acct_eq (view d (f o)) (view d (f o'))).

Lemma obj_eq s t a o o' : db_eq s t -> obj_at s a = Some o -> obj_at t a = Some o' ->
  acct_eq (view (odb s) o) (view (odb s) o').
Proof.
  intros H Ho Ho'. pose proof (eq_acct _ _ H a) as Ha. unfold acct in Ha.
  rewrite Ho, Ho' in Ha. inversion Ha; subst. by rewrite (eq_odb _ _ H) in *.
Qed.

(** Inserting equivalent objects into equivalent databases. *)
Lemma insert_congr s t a o o' : db_eq s t -> acct_eq (view (odb s) o) (view (odb s) o') ->
  db_eq (set_objects (<[a := o]>) s) (set_objects (<[a := o']>) t).
Proof.
  intros H Hv. destruct H as [Hd Ha ? ? ? ? ? ?]. constructor; try done. intros b.
  rewrite !acct_insert. destruct (decide (a = b)); [|done]. rewrite <- Hd. by constructor.
Qed.

Lemma update_congr s t s1 t1 a f : db_eq s t -> objs_ok s -> objs_ok t -> acts a (odb s) f ->
  loaded s s1 -> loaded t t1 -> OperationObjects s1 !! a = obj_at s a ->
  OperationObjects t1 !! a = obj_at t a -> obj_at s a <> None ->
  exists s' t', update_object a f s1 = Ret (tt, s') /\ update_object a f t1 = Ret (tt, t') /\
    db_eq s' t' /\ objs_ok s' /\ objs_ok t'.
Proof.
  intros H Hs Ht [Hf1 Hf2] (Hl & _ & Hok) (Hl' & _ & Hok') Hsa Hta Hne.
  destruct (obj_at s a) as [o|] eqn:Eo; [|done].
  destruct (obj_at t a) as [o'|] eqn:Eo'.
  2: { pose proof (eq_acct _ _ H a) as Ha. unfold acct in Ha. rewrite Eo, Eo' in Ha. inversion Ha. }
  rewrite !(update_at _ _ _ f Hsa), !(update_at _ _ _ f Hta). do 2 eexists.
  split; [done|]. split; [done|].
  pose proof (obj_at_ok _ _ _ Hs Eo) as Hoo. pose proof (obj_at_ok _ _ _ Ht Eo') as Hoo'.
  split.
  - apply insert_congr; [by rewrite Hl, Hl'|]. rewrite (eq_odb _ _ Hl).
    apply Hf2; [done|done|]. by eapply obj_eq.
  - split; (apply objs_ok_insert; [auto|by apply Hf1]).
Qed.

(** The updates the entries make. *)
Lemma acts_balance a d v : acts a d (obj_setBalance v).
Proof. split; [done|]. intros o o' _ _ []. by constructor. Qed.
Lemma acts_nonce a d v : acts a d (obj_setNonce v).
Proof. split; [done|]. intros o o' _ _ []. by constructor. Qed.
Lemma acts_code a d h c : acts a d (obj_setCode h c).
Proof.
  split; [done|]. intros o o' [Ha _] [Ha' _] []. constructor; try done.
  unfold view, a_code, view_code. cbn [address data_CodeHash code obj_setCode]. congruence.
Qed.
Lemma acts_suicide a d b v :
  acts a d (fun o => obj_setBalance v (obj_setSuicided b o)).
Proof. split; [done|]. intros o o' _ _ []. by constructor. Qed.
Lemma acts_dirty a d k v : acts a d (fun o => obj_setDirty (<[k := v]> (dirtyStorage o)) o).
Proof.
  split; [done|]. intros o o' _ _ H. destruct H as [? ? ? ? Hst ? ?]. constructor; try done.
  intros j. specialize (Hst j). cbn in *. destruct (decide (k = j)) as [<-|].
  - by rewrite !lookup_insert_eq.
  - by rewrite !lookup_insert_ne.
Qed.

Lemma obj_none s t a : db_eq s t -> obj_at s a = None -> obj_at t a = None.
Proof.
  intros H Ho. apply acct_none. pose proof (eq_acct _ _ H a) as Ha. apply acct_none in Ho.
  rewrite Ho in Ha. by inversion Ha.
Qed.

Definition congr (p : M OperationDB unit) : Prop := forall s t s',
  db_eq s t -> objs_ok s -> objs_ok t -> p s = Ret (tt, s') ->
  exists t', p t = Ret (tt, t') /\ db_eq s' t' /\ objs_ok s' /\ objs_ok t'.

(** The shape of the entries that update one object. *)
Lemma congr_update a f (none : M OperationDB unit) : (forall d, acts a d f) -> congr none ->
  congr (o <- getOperationObject a ;; match o with None => none | Some _ => update_object a f end).
Proof.
  intros Hf Hnone s t s' H Hs Ht. unfold bind.
  destruct (getObj_spec a s) as (s1 & -> & Hl & Hsa).
  destruct (getObj_spec a t) as (t1 & -> & Hl' & Hta).
  destruct (obj_at s a) as [o|] eqn:Eo.
  - destruct (obj_at t a) as [o'|] eqn:Eo'.
    2: { assert (db_eq t s) as H' by by symmetry. rewrite (obj_none _ _ _ H' Eo') in Eo. done. }
    rewrite <- Eo in Hsa. rewrite <- Eo' in Hta.
    destruct (update_congr s t s1 t1 a f) as (s2 & t2 & -> & -> & ? & ? & ?); auto; [by rewrite Eo|].
    intros [= <-]. eauto.
  - rewrite (obj_none _ _ _ H Eo). destruct Hl as (Hd & _ & Ho1), Hl' as (Hd' & _ & Ho2).
    apply Hnone; auto. by rewrite Hd, Hd'.
Qed.

Lemma congr_panic p : congr (panicM p).
Proof. done. Qed.
Lemma congr_ret : congr (ret tt).
Proof. intros s t s' H Hs Ht [= <-]. exists t. auto. Qed.

Lemma revert_congr e : entry_ok e -> congr (revert e).
Proof.
  intros He. destruct e; cbn [revert];
    try (apply congr_update; [intros|apply congr_panic || apply congr_ret];
         auto using acts_balance, acts_nonce, acts_code, acts_suicide, acts_dirty).
  - intros s t s' H Hs Ht [= <-]. eexists. split; [done|].
    assert (Hok : forall u, objs_ok u -> objs_ok (set_pending (OperationObjectsPending u)
      (OperationObjectsDirty u ∖ {[account]}) (set_objects (delete account) u))).
    { intros u Hu b o. cbn. intros [_ ?]%lookup_delete_Some. by apply Hu. }
    split; [|auto]. destruct H as [Hd Ha ? ? ? ? ? ?]. constructor; try done. intros b.
    specialize (Ha b). unfold acct, obj_at in *. cbn. rewrite <- Hd in *.
    destruct (decide (account = b)) as [<-|]; [by rewrite !lookup_delete_eq|].
    by rewrite !lookup_delete_ne.
  - intros s t s' H Hs Ht [= <-]. eexists. split; [done|]. split; [by apply insert_congr|].
    split; by apply objs_ok_insert.
  - intros s t s' H Hs Ht [= <-]. eexists. split; [done|]. split; [|done].
    pose proof (eq_al _ _ H) as Hal. destruct H. constructor; try done. cbn. by rewrite Hal.
  - intros s t s' H Hs Ht. unfold bind, get, liftO, modify. rewrite (eq_al _ _ H).
    destruct (al_DeleteSlot _ _ _); [|done|done]. intros [= <-]. eexists. split; [done|].
    split; [|done]. by destruct H.
  - intros s t s' H Hs Ht [= <-]. eexists. split; [done|]. split; [|done]. by destruct H.
  - intros s t s' H Hs Ht. unfold bind, get. pose proof (eq_logs _ _ H) as Hlogs.
    rewrite (Hlogs txhash), (eq_logSize _ _ H).
    set (l := default [] (logs t !! txhash)).
    assert (Hfin : forall m m', (forall h, default [] (m !! h) = default [] (m' !! h)) ->
      Ret (tt, set_logs m (logSize t - 1) s) = Ret (tt, s') ->
      exists t', Ret (tt, set_logs m' (logSize t - 1) t) = Ret (tt, t') /\ db_eq s' t' /\
        objs_ok s' /\ objs_ok t').
    { intros m m' Hm [= <-]. eexists. split; [done|]. split; [|done]. by destruct H. }
    destruct (zlen l =? 1).
    + apply Hfin. intros h. destruct (decide (txhash = h)) as [<-|].
      * by rewrite !lookup_delete_eq.
      * by rewrite !lookup_delete_ne.
    + unfold liftO. destruct (slice l 0 (zlen l - 1)) as [l'|p|]; [|done|done].
      apply Hfin. intros h. destruct (decide (txhash = h)) as [<-|].
      * by rewrite !lookup_insert_eq.
      * by rewrite !lookup_insert_ne.
Qed.

Lemma revert_all_congr es : Forall entry_ok es -> congr (revert_all es).
Proof.
  induction 1 as [|e es He _ IH]; [apply congr_ret|]. intros s t s' H Hs Ht. cbn. unfold bind.
  destruct (revert e s) as [[[] s1]|p|] eqn:E; [|done|done].
  destruct (revert_congr e He s t s1) as (t1 & -> & H1 & Hs1 & Ht1); auto. by apply IH.
Qed.

(** ** Operations that can be undone *)
Definition undoes (s s' : OperationDB) : Prop :=
  odb s' = odb s /\ db_ok s' /\
  exists es, entries (journal s') = entries (journal s) ++ es /\ Forall entry_ok es /\
    exists s0, revert_all (rev es) s' = Ret (tt, s0) /\ db_eq s0 s /\ objs_ok s0.

Lemma undoes_loaded s s' : db_ok s -> loaded s s' -> undoes s s'.
Proof.
  intros Hs Hl. pose proof (loaded_ok _ _ Hl Hs) as Hok. destruct Hl as (H & Hj & Ho).
  split; [apply H|]. split; [done|]. exists []. rewrite Hj, app_nil_r. split; [done|].
  split; [constructor|]. exists s'. split; [done|]. split; [done|]. apply Hok.
Qed.

Lemma undoes_trans s s1 s2 : objs_ok s1 -> undoes s s1 -> undoes s1 s2 -> undoes s s2.
Proof.
  intros Hok (Hd1 & _ & es1 & He1 & Hf1 & u1 & Hr1 & Hu1 & Hk1)
         (Hd2 & Hdb2 & es2 & He2 & Hf2 & u2 & Hr2 & Hu2 & Hk2).
  split; [congruence|]. split; [done|]. exists (es1 ++ es2).
  split; [by rewrite He2, He1, app_assoc|]. split; [by apply Forall_app|].
  rewrite rev_app_distr. setoid_rewrite revert_all_app. unfold bind. rewrite Hr2.
  destruct (revert_all_congr (rev es1) (Forall_rev Hf1) s1 u2 u1) as (u3 & Hr3 & Hu3 & _ & Hk3);
    auto; [by symmetry|].
  exists u3. split; [done|]. split; [|done]. by rewrite <- Hu3.
Qed.

Lemma append_entries e j : entries (journal_append e j) = entries j ++ [e].
Proof. done. Qed.

(** A change of one object under an entry whose reversal restores its view. *)
Lemma undoes_update s a o f e g : db_ok s -> OperationObjects s !! a = Some o ->
  entry_ok e -> obj_ok a (f o) -> obj_ok a (g (f o)) ->
  acct_eq (view (odb s) (g (f o))) (view (odb s) o) ->
  (forall t o', OperationObjects t !! a = Some o' ->
     revert e t = Ret (tt, set_objects (<[a := g o']>) t)) ->
  undoes s (set_objects (<[a := f o]>) (set_journal (journal_append e) s)).
Proof.
  intros [Hs Hal] Ho He Hfo Hgo Hv Hr. split; [done|].
  split; [split; [by apply objs_ok_insert|done]|]. exists [e]. split; [done|].
  split; [by constructor|]. cbn [rev app revert_all]. unfold bind.
  rewrite (Hr _ (f o)) by (cbn; by rewrite lookup_insert_eq). unfold ret.
  eexists. split; [done|]. split.
  - constructor; try done. intros b. rewrite acct_insert.
    cbn [odb set_objects set_journal]. destruct (decide (a = b)) as [<-|].
    + unfold acct. rewrite (obj_at_some _ _ _ Ho). by constructor.
    + unfold acct, obj_at. cbn. by rewrite lookup_insert_ne.
  - by apply objs_ok_insert; [apply objs_ok_insert|].
Qed.

Lemma deref_at a g t o : OperationObjects t !! a = Some o ->
  (o <- getOperationObject a ;;
   match o with None => panicM PNil | Some _ => update_object a g end) t =
    Ret (tt, set_objects (<[a := g o]>) t).
Proof.
  intros Ho. unfold bind, getOperationObject, getDeletedOperationObject, bind, get, ret. rewrite Ho.
  by rewrite (update_at t a o).
Qed.

(** The effect on the abstract accounts: [a] becomes [x], the rest stays. *)
Definition effect (s s' : OperationDB) (a : Z) (x : account) : Prop :=
  forall b, oacct_eq (acct s' b) (if decide (a = b) then Some x else acct s b).

(** What account operations leave alone. *)
Definition frame (s s' : OperationDB) : Prop :=
  refund s' = refund s /\ (forall h, default [] (logs s' !! h) = default [] (logs s !! h)) /\
  logSize s' = logSize s /\ access_list s' = access_list s /\
  thash s' = thash s /\ txIndex s' = txIndex s.

Lemma frame_trans s t u : frame s t -> frame t u -> frame s u.
Proof. intros (? & H & ? & ? & ? & ?) (? & H' & ? & ? & ? & ?).
  repeat split; congruence. Qed.

Lemma frame_loaded s s' : loaded s s' -> frame s s'.
Proof. intros ([] & _). by repeat split. Qed.

(** An operation on the account at [a] that turns it into [x]. *)
Definition changes (s s' : OperationDB) (a : Z) (x : account) : Prop :=
  undoes s s' /\ frame s s' /\ effect s s' a x.

Lemma changes_trans s s1 s2 a x y : changes s s1 a x -> changes s1 s2 a y -> changes s s2 a y.
Proof.
  intros (U1 & F1 & E1) (U2 & F2 & E2). split.
  - eapply undoes_trans; [|done|done]. apply U1.
  - split; [by eapply frame_trans|]. intros b. rewrite (E2 b).
    destruct (decide (a = b)) as [|]; [done|]. rewrite (E1 b). by rewrite decide_False.
Qed.

Lemma changes_loaded s s' a x : db_ok s -> loaded s s' -> acct s a = Some x -> changes s s' a x.
Proof.
  intros Hs Hl Ha. split; [by apply undoes_loaded|]. split; [by apply frame_loaded|].
  intros b. rewrite (eq_acct _ _ (proj1 Hl) b). destruct (decide (a = b)) as [<-|]; by rewrite ?Ha.
Qed.

Lemma changes_eq s s' a x y : changes s s' a x -> acct_eq x y -> changes s s' a y.
Proof.
  intros (U & F & E) Hxy. split; [done|]. split; [done|]. intros b. rewrite (E b).
  destruct (decide (a = b)); [by constructor|done].
Qed.

Lemma changes_update s a o f e g : db_ok s -> OperationObjects s !! a = Some o ->
  entry_ok e -> obj_ok a (f o) -> obj_ok a (g (f o)) ->
  acct_eq (view (odb s) (g (f o))) (view (odb s) o) ->
  (forall t o', OperationObjects t !! a = Some o' ->
     revert e t = Ret (tt, set_objects (<[a := g o']>) t)) ->
  exists s', (append_entry e ;;; update_object a f) s = Ret (tt, s') /\
    changes s s' a (view (odb s) (f o)).
Proof.
  intros Hs Ho He Hfo Hgo Hv Hr. unfold bind, append_entry, modify.
  rewrite (update_at _ a o) by done. eexists. split; [done|].
  split; [by eapply undoes_update|]. split; [done|]. intros b. rewrite acct_insert. done.
Qed.

Lemma changes_ok s s' a x : changes s s' a x -> db_ok s' /\ odb s' = odb s.
Proof. intros ((? & ? & _) & _). done. Qed.

(** ** Creating objects *)
Definition fresh (d : DatabaseI) (a : Z) : account := view d (newObject a empty_StateAccount).

(** The account an operation works on: a missing one is created. *)
Definition cur (s : OperationDB) (a : Z) : account := default (fresh (odb s) a) (acct s a).

Definition create_entry (a : Z) (prev : option OperationObject) : journalEntry :=
  match prev with None => createObjectChange a | Some p => resetObjectChange p end.

Lemma obj_at_none s a : obj_at s a = None -> db_account (odb s) a = None.
Proof.
  unfold obj_at. destruct (OperationObjects s !! a); [done|]. by destruct (db_account (odb s) a).
Qed.

Lemma changes_replace s s1 a o : db_ok s -> loaded s s1 -> obj_ok a o ->
  changes s (set_objects (<[a := o]>) (set_journal (journal_append (create_entry a (obj_at s a))) s1))
    a (view (odb s) o).
Proof.
  intros Hs Hl Ho. pose proof (loaded_ok _ _ Hl Hs) as [Hs1 Hal1].
  pose proof Hl as (Heq & Hj & _). pose proof (eq_odb _ _ Heq) as Hd. split.
  - split; [done|]. split; [split; [by apply objs_ok_insert|done]|].
    exists [create_entry a (obj_at s a)]. cbn [journal set_objects set_journal].
    split; [by rewrite append_entries, Hj|].
    assert (Hback : forall p, obj_at s a = Some p -> obj_ok a p) by (intros; by eapply obj_at_ok, H; apply Hs).
    destruct (obj_at s a) as [p|] eqn:Ep.
    + destruct (Hback p eq_refl) as [Hpa Hpf]. split; [by constructor|].
      eexists. split; [done|]. rewrite Hpa. split.
      * transitivity s1; [|done]. constructor; try done. intros b. rewrite acct_insert.
        cbn [odb set_objects set_journal]. destruct (decide (a = b)) as [<-|].
        -- rewrite (eq_acct _ _ Heq a), (acct_some _ _ _ Ep). rewrite Hd. by constructor.
        -- unfold acct, obj_at. cbn. by rewrite lookup_insert_ne.
      * apply objs_ok_insert; [by apply objs_ok_insert|done].
    + split; [by constructor|]. eexists. split; [done|]. split.
      * transitivity s1; [|done]. constructor; try done. intros b.
        unfold acct at 1, obj_at. cbn. destruct (decide (a = b)) as [<-|].
        -- rewrite lookup_delete_eq, (eq_acct _ _ Heq a), (proj2 (acct_none s a) Ep), Hd.
           rewrite (obj_at_none _ _ Ep). constructor.
        -- rewrite lookup_delete_ne, lookup_insert_ne by done. done.
      * intros b x. cbn. intros [_ Hx]%lookup_delete_Some. revert Hx.
        intros Hx. eapply (objs_ok_insert s1 a o); eauto.
  - split; [exact (frame_loaded s s1 Hl)|]. intros b. rewrite acct_insert.
    cbn [odb set_objects set_journal]. rewrite Hd. destruct (decide (a = b)); [done|].
    exact (eq_acct _ _ Heq b).
Qed.

Lemma createObject_spec s a : db_ok s -> exists s1 s',
  createObject a s = Ret (newObject a empty_StateAccount, obj_at s a, s') /\ loaded s s1 /\
  s' = set_objects (<[a := newObject a empty_StateAccount]>)
         (set_journal (journal_append (create_entry a (obj_at s a))) s1).
Proof.
  intros Hs. destruct (getObj_spec a s) as (s1 & Hg & Hl & _). exists s1.
  unfold createObject, bind. unfold getOperationObject in Hg. rewrite Hg.
  destruct (obj_at s a); eexists; (split; [reflexivity|]); done.
Qed.

Lemma GetOrNew_spec s a : db_ok s -> exists o s', GetOrNewOperationObject a s = Ret (o, s') /\
  OperationObjects s' !! a = Some o /\ changes s s' a (cur s a) /\
  acct_eq (view (odb s) o) (cur s a) /\ obj_ok a o.
Proof.
  intros Hs. destruct (getObj_spec a s) as (s1 & Hg & Hl & Ha).
  unfold GetOrNewOperationObject, bind. rewrite Hg. unfold cur, acct.
  destruct (obj_at s a) as [o|] eqn:Eo; cbn [fmap option_fmap option_map default from_option].
  - exists o, s1. split; [done|]. split; [done|]. split; [|split; [done|]].
    + apply changes_loaded; [done|done|]. by apply acct_some.
    + eapply obj_at_ok; [apply Hs|done].
  - pose proof (loaded_ok _ _ Hl Hs) as Hs1.
    destruct (createObject_spec s1 a Hs1) as (s2 & s' & -> & Hl' & ->).
    do 2 eexists. split; [done|]. split; [cbn; by rewrite lookup_insert_eq|].
    split; [|split; [done|done]].
    assert (obj_at s1 a = None) as -> by (eapply obj_none; [symmetry; apply Hl|done]).
    pose proof (changes_replace s s2 a (newObject a empty_StateAccount)) as Hc.
    rewrite Eo in Hc. apply Hc; [done|by eapply loaded_trans|done].
Qed.

(** ** The account operations *)

(** Finish an operation that starts with [GetOrNewOperationObject]. *)
Lemma changes_via s a (p : OperationObject -> M OperationDB unit) (x : account) : db_ok s ->
  (forall t o, db_ok t -> odb t = odb s -> OperationObjects t !! a = Some o -> obj_ok a o ->
     acct_eq (view (odb s) o) (cur s a) ->
     exists t', p o t = Ret (tt, t') /\ changes t t' a x) ->
  exists s', (o <- GetOrNewOperationObject a ;; p o) s = Ret (tt, s') /\ changes s s' a x.
Proof.
  intros Hs Hp. destruct (GetOrNew_spec s a Hs) as (o & s1 & Hg & Ho & Hc & Hv & Hok).
  unfold bind. rewrite Hg. destruct (changes_ok _ _ _ _ Hc) as [Hs1 Hd1].
  destruct (Hp s1 o Hs1 Hd1 Ho Hok Hv) as (s2 & -> & Hc2). exists s2. split; [done|].
  by eapply changes_trans.
Qed.

Definition with_balance (v : Z) (x : account) : account :=
  mkAcct (a_nonce x) v (a_codehash x) (a_code x) (a_storage x) (a_committed x) (a_suicided x).
Definition with_nonce (v : Z) (x : account) : account :=
  mkAcct v (a_balance x) (a_codehash x) (a_code x) (a_storage x) (a_committed x) (a_suicided x).
Definition with_code (c : list Z) (x : account) : account :=
  mkAcct (a_nonce x) (a_balance x) (Keccak256Hash c) c (a_storage x) (a_committed x) (a_suicided x).
Definition with_slot (k v : Z) (x : account) : account :=
  mkAcct (a_nonce x) (a_balance x) (a_codehash x) (a_code x)
    (fun j => if decide (k = j) then v else a_storage x j) (a_committed x) (a_suicided x).
Definition with_suicide (x : account) : account :=
  mkAcct (a_nonce x) 0 (a_codehash x) (a_code x) (a_storage x) (a_committed x) true.

Lemma obj_SetBalance_changes t a o v : db_ok t -> OperationObjects t !! a = Some o -> obj_ok a o ->
  exists t', obj_SetBalance a o v t = Ret (tt, t') /\
    changes t t' a (with_balance v (view (odb t) o)).
Proof.
  intros Ht Ho Hok. unfold obj_SetBalance.
  apply (changes_update t a o (obj_setBalance v) (balanceChange a (data_Balance o))
    (obj_setBalance (data_Balance o))); try done.
  intros u o' Ho'. by apply deref_at.
Qed.

Lemma with_balance_eq v x y : acct_eq x y -> acct_eq (with_balance v x) (with_balance v y).
Proof. intros []. by constructor. Qed.

Lemma cur_loaded t a o : OperationObjects t !! a = Some o -> cur t a = view (odb t) o.
Proof. intros Ho. unfold cur, acct. by rewrite (obj_at_some _ _ _ Ho). Qed.

Lemma SetBalance_changes s a v : db_ok s -> exists s', SetBalance a v s = Ret (tt, s') /\
  changes s s' a (with_balance v (cur s a)).
Proof.
  intros Hs. apply changes_via; [done|]. intros t o Ht Hd Ho Hok Hv.
  destruct (obj_SetBalance_changes t a o v Ht Ho Hok) as (t' & -> & Hc).
  exists t'. split; [done|]. eapply changes_eq; [done|]. rewrite Hd. by apply with_balance_eq.
Qed.

Lemma changes_zero t a o x : db_ok t -> OperationObjects t !! a = Some o ->
  acct_eq (view (odb t) o) x -> changes t t a (with_balance (a_balance x) x).
Proof.
  intros Ht Ho Hv. eapply changes_eq.
  - apply changes_loaded; [done|apply loaded_refl|]. by apply acct_some, obj_at_some.
  - rewrite Hv. by constructor.
Qed.

Lemma AddBalance_changes s a v : db_ok s -> exists s', AddBalance a v s = Ret (tt, s') /\
  changes s s' a (with_balance (a_balance (cur s a) + v) (cur s a)).
Proof.
  intros Hs. apply changes_via; [done|]. intros t o Ht Hd Ho Hok Hv. unfold obj_AddBalance.
  destruct (Z.eqb_spec v 0) as [->|].
  - exists t. split; [done|]. rewrite Z.add_0_r. apply changes_zero with o; [done|done|by rewrite Hd].
  - destruct (obj_SetBalance_changes t a o (data_Balance o + v) Ht Ho Hok) as (t' & -> & Hc).
    exists t'. split; [done|]. eapply changes_eq; [done|]. rewrite Hd, <- (eq_balance _ _ Hv).
    by apply with_balance_eq.
Qed.

Lemma SubBalance_changes s a v : db_ok s -> exists s', SubBalance a v s = Ret (tt, s') /\
  changes s s' a (with_balance (a_balance (cur s a) - v) (cur s a)).
Proof.
  intros Hs. apply changes_via; [done|]. intros t o Ht Hd Ho Hok Hv. unfold obj_SubBalance.
  destruct (Z.eqb_spec v 0) as [->|].
  - exists t. split; [done|]. rewrite Z.sub_0_r. apply changes_zero with o; [done|done|by rewrite Hd].
  - destruct (obj_SetBalance_changes t a o (data_Balance o - v) Ht Ho Hok) as (t' & -> & Hc).
    exists t'. split; [done|]. eapply changes_eq; [done|]. rewrite Hd, <- (eq_balance _ _ Hv).
    by apply with_balance_eq.
Qed.

Lemma SetNonce_changes s a n : db_ok s -> exists s', SetNonce a n s = Ret (tt, s') /\
  changes s s' a (with_nonce n (cur s a)).
Proof.
  intros Hs. apply changes_via; [done|]. intros t o Ht Hd Ho Hok Hv.
  destruct (changes_update t a o (obj_setNonce n) (nonceChange a (data_Nonce o))
    (obj_setNonce (data_Nonce o))) as (t' & -> & Hc); try done.
  { intros u o' Ho'. by apply deref_at. }
  exists t'. split; [done|]. eapply changes_eq; [done|]. rewrite Hd. destruct Hv. by constructor.
Qed.

Lemma SetCode_changes s a c : db_ok s -> exists s', SetCode a c s = Ret (tt, s') /\
  changes s s' a (with_code c (cur s a)).
Proof.
  intros Hs. apply changes_via; [done|]. intros t o Ht Hd Ho Hok Hv.
  destruct (obj_Code_spec t a o Ho) as (prev & t1 & Hp & Hl & _ & (c' & Ho1) & Hprev).
  unfold bind at 1. rewrite Hp. pose proof (loaded_ok _ _ Hl Ht) as Ht1.
  pose proof (eq_odb _ _ (proj1 Hl)) as Hd1.
  pose proof (eq_acct _ _ (proj1 Hl) a) as Hva. unfold acct in Hva.
  rewrite (obj_at_some _ _ _ Ho), (obj_at_some _ _ _ Ho1), Hd1 in Hva. cbn in Hva.
  inversion Hva as [? ? Hva'|]; subst.
  destruct (changes_update t1 a (obj_cacheCode c' o) (obj_setCode (Keccak256Hash c) (Some c))
    (codeChange a prev (data_CodeHash o)) (obj_setCode (data_CodeHash o) prev)) as (t' & -> & Hc); try done.
  { rewrite Hd1, Hva'. constructor; try done. }
  { intros u o' Ho'. by apply deref_at. }
  exists t'. split; [done|]. eapply changes_trans; [by apply changes_loaded; [..|apply acct_some, obj_at_some, Ho]|].
  eapply changes_eq; [done|]. rewrite Hd1, Hd. destruct Hv. by constructor.
Qed.

Lemma SetState_changes s a k v : db_ok s -> exists s', SetState a k v s = Ret (tt, s') /\
  changes s s' a (with_slot k v (cur s a)).
Proof.
  intros Hs. apply changes_via; [done|]. intros t o Ht Hd Ho Hok Hv. destruct Hok as [Hadr Hfk].
  destruct (obj_GetState_spec t a o k Ho Hfk) as (t1 & o1 & Hg & Hl & Ho1 & Hvo & Hdo & Hfo & Hao).
  unfold obj_SetState. rewrite Hfk. unfold bind at 1. rewrite Hg.
  pose proof (loaded_ok _ _ Hl Ht) as Ht1. pose proof (eq_odb _ _ (proj1 Hl)) as Hd1.
  assert (Hl' : changes t t1 a (view (odb t) o)).
  { apply changes_loaded; [done|done|]. by apply acct_some, obj_at_some. }
  rewrite Hd. destruct (Z.eqb_spec (a_storage (view (odb s) o) k) v) as [Heq|].
  - exists t1. split; [done|]. eapply changes_eq; [done|]. rewrite Hd, Hv. constructor; try done.
    intros j. cbn. destruct (decide (k = j)) as [<-|]; [|done]. by rewrite <- (eq_storage _ _ Hv).
  - destruct (changes_update t1 a o1 (fun o => obj_setDirty (<[k := v]> (dirtyStorage o)) o)
      (storageChange a k (a_storage (view (odb s) o) k))
      (fun o' => obj_setDirty (<[k := a_storage (view (odb s) o) k]> (dirtyStorage o')) o'))
      as (t' & -> & Hc); try done; try (split; [by rewrite <- Hadr, <- Hao|done]).
    { constructor; try done. intros j. cbn -[view]. rewrite Hd1, Hd in *.
      destruct (decide (k = j)) as [<-|].
      - rewrite <- Hvo. cbn. by rewrite lookup_insert_eq.
      - cbn. by rewrite !lookup_insert_ne. }
    { intros u o' Ho'. exact (deref_at a (fun o' => obj_setDirty
        (<[k := a_storage (view (odb s) o) k]> (dirtyStorage o')) o') u o' Ho'). }
    exists t'. split; [done|]. eapply changes_trans; [done|]. eapply changes_eq; [done|].
    rewrite Hd1.
    assert (Hslot : acct_eq (view (odb t) (obj_setDirty (<[k := v]> (dirtyStorage o1)) o1))
      (with_slot k v (view (odb t) o1))).
    { constructor; try done. intros j. cbn. destruct (decide (k = j)) as [<-|].
      - by rewrite lookup_insert_eq.
      - by rewrite lookup_insert_ne. }
    rewrite Hslot, Hvo, Hd. destruct Hv as [? ? ? ? Hst ? ?]. constructor; try done.
    intros j. cbn -[view]. by destruct (decide (k = j)).
Qed.

Lemma CreateAccount_changes s a : db_ok s -> exists s', CreateAccount a s = Ret (tt, s') /\
  changes s s' a (match acct s a with
                  | Some x => with_balance (a_balance x) (fresh (odb s) a)
                  | None => fresh (odb s) a
                  end).
Proof.
  intros Hs. destruct (createObject_spec s a Hs) as (s1 & s' & Hc & Hl & ->).
  unfold CreateAccount. unfold bind at 1. rewrite Hc. unfold acct.
  pose proof (changes_replace s s1 a) as Hrep. destruct (obj_at s a) as [p|] eqn:Ep.
  - rewrite (update_at _ a (newObject a empty_StateAccount)) by (cbn; by rewrite lookup_insert_eq).
    eexists. split; [done|].
    assert (Hins : forall u o o', set_objects (<[a := o]>) (set_objects (<[a := o']>) u) =
                                  set_objects (<[a := o]>) u).
    { intros u o o'. unfold set_objects. f_equal. cbn. apply insert_insert_eq. }
    rewrite Hins. exact (Hrep (obj_setBalance (data_Balance p) (newObject a empty_StateAccount)) Hs Hl
      (conj eq_refl eq_refl)).
  - eexists. split; [done|]. by apply Hrep.
Qed.

Lemma Suicide_changes s a o : db_ok s -> obj_at s a = Some o -> exists s',
  Suicide a s = Ret (true, s') /\ changes s s' a (with_suicide (view (odb s) o)).
Proof.
  intros Hs Ho. destruct (getObj_spec a s) as (s1 & Hg & Hl & Ha). rewrite Ho in Hg, Ha.
  unfold Suicide. unfold bind at 1. rewrite Hg. pose proof (loaded_ok _ _ Hl Hs) as Hs1.
  destruct (obj_at_ok s a o (proj1 Hs) Ho) as [Hadr Hfk].
  destruct (changes_update s1 a o (fun o => obj_setBalance 0 (obj_setSuicided true o))
    (suicideChange a (suicided o) (data_Balance o))
    (fun o' => obj_setBalance (data_Balance o) (obj_setSuicided (suicided o) o'))) as (s' & Hr & Hc);
    try done.
  { intros t o' Ho'. cbn [revert]. unfold bind, getOperationObject, getDeletedOperationObject, bind, get, ret.
    rewrite Ho'. exact (update_at t a o' (fun o' => obj_setBalance (data_Balance o)
      (obj_setSuicided (suicided o) o')) Ho'). }
  exists s'. split.
  - unfold bind in Hr |- *. destruct (append_entry _ s1) as [[u s2]|?|]; [|done|done].
    destruct (update_object _ _ s2) as [[u2 s3]|?|]; [|done|done]. by injection Hr as _ ->.
  - eapply changes_trans; [by apply changes_loaded; [..|apply acct_some, Ho]|].
    by rewrite <- (eq_odb _ _ (proj1 Hl)).
Qed.

Lemma Suicide_none s a : obj_at s a = None -> exists s', Suicide a s = Ret (false, s') /\ loaded s s'.
Proof.
  intros Ho. destruct (getObj_spec a s) as (s1 & Hg & Hl & _). rewrite Ho in Hg.
  unfold Suicide, bind. rewrite Hg. by exists s1.
Qed.

(** ** Refunds, logs and the access list *)

(** A change outside the accounts whose entry restores it exactly. *)
Lemma undoes_other s s' es s0 : db_ok s' -> odb s' = odb s ->
  entries (journal s') = entries (journal s) ++ es -> Forall entry_ok es ->
  revert_all (rev es) s' = Ret (tt, s0) -> db_eq s0 s -> objs_ok s0 -> undoes s s'.
Proof. intros. split; [done|]. split; [done|]. exists es. eauto 10. Qed.

Lemma AddRefund_undoes s g : db_ok s -> exists s', AddRefund g s = Ret (tt, s') /\ undoes s s' /\
  s' = set_refund (refund s +64 g) (set_journal (journal_append (refundChange (refund s))) s).
Proof.
  intros [? ?]. eexists. split; [reflexivity|]. split; [|done].
  eapply (undoes_other _ _ [refundChange (refund s)]); try done; by repeat constructor.
Qed.

Lemma SubRefund_undoes s g : db_ok s -> g <= refund s -> exists s', SubRefund g s = Ret (tt, s') /\
  undoes s s' /\
  s' = set_refund (refund s - g) (set_journal (journal_append (refundChange (refund s))) s).
Proof.
  intros [? ?] Hg. unfold SubRefund, bind, get, append_entry, modify.
  destruct (Z.ltb_spec (refund s) g); [lia|]. eexists. split; [reflexivity|]. split; [|done].
  eapply (undoes_other _ _ [refundChange (refund s)]); try done; by repeat constructor.
Qed.

Definition stamped (s : OperationDB) (l : Log) : Log :=
  mkLog (log_Address l) (log_Topics l) (log_Data l) (log_BlockNumber l)
    (thash s) (txIndex s) (logSize s).

Lemma AddLog_undoes s l : db_ok s -> exists s', AddLog l s = Ret (tt, s') /\ undoes s s' /\
  s' = set_logs (<[thash s := default [] (logs s !! thash s) ++ [stamped s l]]> (logs s))
         (logSize s + 1) (set_journal (journal_append (addLogChange (thash s))) s).
Proof.
  intros [? ?]. unfold AddLog, bind, get, append_entry, modify. cbn beta iota zeta.
  eexists. split; [reflexivity|]. split; [|done].
  set (old := default [] (logs s !! thash s)).
  assert (Hback : forall m, (forall h, default [] (m !! h) = default [] (logs s !! h)) ->
    db_eq (set_logs m (logSize s + 1 - 1) (set_journal (journal_append (addLogChange (thash s))) s)) s).
  { intros m Hm. constructor; try done; cbn; lia. }
  assert (Hrev : exists s0, revert (addLogChange (thash s))
    (set_logs (<[thash s := old ++ [stamped s l]]> (logs s)) (logSize s + 1)
       (set_journal (journal_append (addLogChange (thash s))) s)) = Ret (tt, s0) /\ db_eq s0 s /\
    objs_ok s0).
  { cbn [revert]. unfold bind, get. cbn [logs set_logs]. rewrite lookup_insert_eq.
    cbn [from_option id]. rewrite zlen_snoc. pose proof (zlen_nonneg old).
    destruct (Z.eqb_spec (zlen old + 1) 1) as [Hone|].
    - eexists. split; [done|]. split; [|done]. apply (Hback _). intros h.
      destruct (decide (thash s = h)) as [<-|].
      + rewrite lookup_delete_eq. fold old. cbn. destruct old; [done|]. unfold zlen in Hone. cbn in Hone. lia.
      + by rewrite lookup_delete_ne, lookup_insert_ne.
    - rewrite slice_ok by (rewrite ?zlen_snoc; lia). unfold liftO. eexists. split; [done|].
      split; [|done]. apply (Hback _). intros h. destruct (decide (thash s = h)) as [<-|].
      + rewrite lookup_insert_eq. fold old. cbn. rewrite drop_0, Z.sub_0_r.
        replace (Z.to_nat (zlen old + 1 - 1)) with (length old) by (unfold zlen; lia).
        apply take_app_length.
      + by rewrite !lookup_insert_ne. }
  destruct Hrev as (s0 & Hr & Hs0 & Ho). eapply (undoes_other _ _ [addLogChange (thash s)] s0); try done.
  - repeat constructor.
  - cbn [rev app revert_all]. unfold bind. unfold stamped in Hr. by rewrite Hr.
Qed.

(** Reverting the entries of an access-list operation, on the list alone. *)
Lemma set_al_eq s al : al = access_list s -> db_eq (set_al al s) s.
Proof. intros ->. by constructor. Qed.

Lemma undoes_al s al es g : db_ok s -> al_ok al -> Forall entry_ok es ->
  entries (g (journal s)) = entries (journal s) ++ es ->
  (forall t, access_list t = al -> revert_all (rev es) t = Ret (tt, set_al (access_list s) t)) ->
  undoes s (set_journal g (set_al al s)).
Proof.
  intros [Hs _] Hal He Hg Hr.
  apply (undoes_other _ _ es (set_al (access_list s) (set_journal g (set_al al s)))); try done;
    first [by apply Hr|by constructor].
Qed.

Lemma al_ok_insert al a i : al_ok al -> i = -1 ->
  al_ok {| al_addresses := <[a := i]> (al_addresses al); al_slots := al_slots al |}.
Proof.
  intros Hal -> b j. cbn. destruct (decide (a = b)) as [<-|].
  - rewrite lookup_insert_eq. intros [= <-]. by left.
  - rewrite lookup_insert_ne by done. apply Hal.
Qed.

Lemma AddAddress_undoes s a : db_ok s -> exists s',
  AddAddressToAccessList a s = Ret (tt, s') /\ undoes s s' /\
  (forall b, acct s' b = acct s b) /\ refund s' = refund s /\ logs s' = logs s /\
  access_list s' = (al_AddAddress a (access_list s)).2.
Proof.
  intros [Hs Hal]. unfold AddAddressToAccessList, bind, get. unfold al_AddAddress.
  destruct (al_addresses (access_list s) !! a) as [i|] eqn:Ea.
  - eexists. split; [reflexivity|]. split; [|done].
    apply undoes_loaded; [done|]. split; [by apply set_al_eq|done].
  - eexists. split; [reflexivity|]. split; [|done].
    apply (undoes_al s _ [accessListAddAccountChange a]); try done;
      [by apply al_ok_insert|by repeat constructor|].
    intros t Ht. cbn. unfold bind, modify, ret. do 2 f_equal. unfold set_al at 1. f_equal.
    rewrite Ht. unfold al_DeleteAddress. cbn. rewrite delete_insert_eq, delete_id by done.
    by destruct (access_list s).
Qed.

Lemma al_ok_fresh al a k : al_ok al ->
  al_ok {| al_addresses := <[a := zlen (al_slots al)]> (al_addresses al);
           al_slots := al_slots al ++ [ {[k]} ] |}.
Proof.
  intros Hal b j. cbn. destruct (decide (a = b)) as [<-|].
  - rewrite lookup_insert_eq. intros [= <-]. right. exists {[k]}. split; [apply zlen_nonneg|].
    split; [|set_solver]. unfold zlen. rewrite Nat2Z.id, lookup_app_r by lia. by rewrite Nat.sub_diag.
  - rewrite lookup_insert_ne by done. intros [|(sm & ? & Hl & ?)]%Hal; [by left|right].
    exists sm. split; [done|]. split; [|done]. apply lookup_app_l_Some, Hl.
Qed.

Lemma al_DeleteSlot_fresh al a k i : al_addresses al !! a = i ->
  al_DeleteSlot a k {| al_addresses := <[a := zlen (al_slots al)]> (al_addresses al);
                       al_slots := al_slots al ++ [ {[k]} ] |} =
  Ret {| al_addresses := <[a := -1]> (al_addresses al); al_slots := al_slots al |}.
Proof.
  intros Ha. unfold al_DeleteSlot. cbn. rewrite lookup_insert_eq. unfold index.
  pose proof (zlen_nonneg (al_slots al)). destruct (Z.leb_spec 0 (zlen (al_slots al))); [|lia].
  assert (Hn : Z.to_nat (zlen (al_slots al)) = length (al_slots al)) by (unfold zlen; lia).
  rewrite Hn, lookup_app_r, Nat.sub_diag by lia. cbn [lookup list_lookup obind].
  rewrite decide_True by set_solver. by rewrite insert_insert_eq, take_app_length.
Qed.


(** A reverted slot entry, given what it does to the list. *)
Lemma revert_slot a k t al : al_DeleteSlot a k (access_list t) = Ret al ->
  revert (accessListAddSlotChange a k) t = Ret (tt, set_al al t).
Proof. intros Hr. cbn [revert]. unfold bind, get. by rewrite Hr. Qed.

Lemma al_AddSlot_old al a k i sm : al_ok al -> al_addresses al !! a = Some i -> i <> -1 ->
  0 <= i -> al_slots al !! Z.to_nat i = Some sm -> sm <> ∅ -> k ∉ sm ->
  let al' := {| al_addresses := al_addresses al;
                al_slots := <[Z.to_nat i := {[k]} ∪ sm]> (al_slots al) |} in
  al_ok al' /\ al_DeleteSlot a k al' = Ret al.
Proof.
  intros Hal Ea Hi Hi0 Hsm Hne Hk al'. assert (Hlen : (Z.to_nat i < length (al_slots al))%nat)
    by (by eapply lookup_lt_Some). split.
  - intros b j Hb. cbn in *. destruct (Hal _ _ Hb) as [|(sm' & ? & Hsm' & ?)]; [by left|].
    right. destruct (decide (Z.to_nat i = Z.to_nat j)) as [Hij|].
    + exists ({[k]} ∪ sm). rewrite <- Hij, list_lookup_insert_eq by done. split; [done|].
      split; [done|set_solver].
    + exists sm'. by rewrite list_lookup_insert_ne.
  - unfold al_DeleteSlot, al'. cbn. rewrite Ea. unfold index. destruct (Z.leb_spec 0 i); [|lia].
    rewrite list_lookup_insert_eq by done. cbn [obind].
    replace (({[k]} ∪ sm) ∖ {[k]}) with sm by set_solver. rewrite decide_False by done.
    rewrite list_insert_insert_eq, list_insert_id by done. by destruct al.
Qed.

Lemma AddSlot_undoes s a k : db_ok s -> exists s' am sm,
  AddSlotToAccessList a k s = Ret (tt, s') /\ undoes s s' /\
  (forall b, acct s' b = acct s b) /\ refund s' = refund s /\ logs s' = logs s /\
  al_AddSlot a k (access_list s) = Ret (am, sm, access_list s').
Proof.
  intros Hok. pose proof Hok as [Hs Hal]. unfold AddSlotToAccessList, bind, get. unfold al_AddSlot.
  destruct (al_addresses (access_list s) !! a) as [i|] eqn:Ea.
  - destruct (Z.eqb_spec i (-1)) as [->|Hi].
    + cbn [liftO negb]. do 3 eexists. split; [reflexivity|]. split; [|done].
      apply (undoes_al s _ [accessListAddSlotChange a k]); try done;
        [by apply al_ok_fresh|by repeat constructor|].
      intros t Ht. cbn [rev app revert_all]. unfold bind. erewrite revert_slot; [done|].
      rewrite Ht, (al_DeleteSlot_fresh _ _ _ _ Ea), insert_id by done. by destruct (access_list s).
    + destruct (Hal _ _ Ea) as [|(sm & Hi0 & Hsm & Hne)]; [done|].
      assert (Hx : index (al_slots (access_list s)) i = Ret sm).
      { unfold index. destruct (Z.leb_spec 0 i); [|lia]. by rewrite Hsm. }
      rewrite Hx. cbn [obind]. destruct (decide (k ∈ sm)) as [|Hk]; cbn [liftO]; do 3 eexists;
        (split; [reflexivity|]); (split; [|done]).
      * apply undoes_loaded; [done|]. split; [by apply set_al_eq|done].
      * destruct (al_AddSlot_old _ a k i sm Hal Ea Hi Hi0 Hsm Hne Hk) as [Hal' Hdel].
        apply (undoes_al s _ [accessListAddSlotChange a k]); try done; [by repeat constructor|].
        intros t Ht. cbn [rev app revert_all]. unfold bind. erewrite revert_slot; [done|].
        by rewrite Ht.
  - cbn [liftO negb]. do 3 eexists. split; [reflexivity|]. split; [|done].
    apply (undoes_al s _ [accessListAddAccountChange a; accessListAddSlotChange a k]
      (fun j => journal_append (accessListAddSlotChange a k)
                  (journal_append (accessListAddAccountChange a) j))); try done;
      [by apply al_ok_fresh|by repeat constructor|cbn; by rewrite <- app_assoc|].
    intros t Ht. cbn [rev app revert_all]. unfold bind at 1. erewrite revert_slot;
      [|rewrite Ht; by apply (al_DeleteSlot_fresh _ _ _ _ Ea)].
    unfold bind, revert, modify, ret. do 2 f_equal. unfold set_al. f_equal. cbn.
    unfold al_DeleteAddress. cbn. rewrite delete_insert_eq, delete_id by done.
    by destruct (access_list s).
Qed.
End undo.
