(* ===== verification/StateProps.v ===== *)
(** * The state database: properties

    Programs over the state database are sequences of [dbop]; each operation
    refines its abstract counterpart, and the journal of any sequence undoes
    it. *)
From S2P Require Import Prelude Uint256 StateDB StateInv StateSpec StateUndo.

(** ** Programs of database operations *)
Inductive dbop :=
| OSetBalance (a v : Z) | OAddBalance (a v : Z) | OSubBalance (a v : Z)
| OSetNonce (a n : Z) | OSetCode (a : Z) (c : list Z) | OSetState (a k v : Z)
| OSuicide (a : Z) | OCreateAccount (a : Z) | OTransfer (a b v : Z)
| OAddRefund (g : Z) | OSubRefund (g : Z) | OAddLog (l : Log)
| OAddAddress (a : Z) | OAddSlot (a k : Z).

Section props.
Context `{C : Crypto}.

Definition run_op (op : dbop) : M OperationDB unit :=
  match op with
  | OSetBalance a v => SetBalance a v
  | OAddBalance a v => AddBalance a v
  | OSubBalance a v => SubBalance a v
  | OSetNonce a n => SetNonce a n
  | OSetCode a c => SetCode a c
  | OSetState a k v => SetState a k v
  | OSuicide a => _ <- Suicide a ;; ret tt
  | OCreateAccount a => CreateAccount a
  | OTransfer a b v => Transfer a b v
  | OAddRefund g => AddRefund g
  | OSubRefund g => SubRefund g
  | OAddLog l => AddLog l
  | OAddAddress a => AddAddressToAccessList a
  | OAddSlot a k => AddSlotToAccessList a k
  end.

Fixpoint run_ops (ops : list dbop) : M OperationDB unit :=
  match ops with [] => ret tt | op :: r => run_op op ;;; run_ops r end.

(** ** The abstract operations *)
Definition world := Z -> option account.

Definition upd (d : DatabaseI) (a : Z) (f : account -> account) (w : world) : world :=
  fun b => if decide (a = b) then Some (f (default (fresh d a) (w a))) else w b.

Definition spec (d : DatabaseI) (op : dbop) (w : world) : world :=
  match op with
  | OSetBalance a v => upd d a (with_balance v) w
  | OAddBalance a v => upd d a (fun x => with_balance (a_balance x + v) x) w
  | OSubBalance a v => upd d a (fun x => with_balance (a_balance x - v) x) w
  | OSetNonce a n => upd d a (with_nonce n) w
  | OSetCode a c => upd d a (with_code c) w
  | OSetState a k v => upd d a (with_slot k v) w
  | OSuicide a => match w a with Some _ => upd d a with_suicide w | None => w end
  | OCreateAccount a =>
      upd d a (fun _ => match w a with
                        | Some x => with_balance (a_balance x) (fresh d a)
                        | None => fresh d a
                        end) w
  | OTransfer a b v =>
      upd d b (fun x => with_balance (a_balance x + v) x)
        (upd d a (fun x => with_balance (a_balance x - v) x) w)
  | _ => w
  end.

Definition spec_refund (op : dbop) (r : Z) : Z :=
  match op with OAddRefund g => r +64 g | OSubRefund g => r - g | _ => r end.

(** The one way an operation can fail. *)
Definition op_fails (op : dbop) (s : OperationDB) : Prop :=
  match op with OSubRefund g => refund s < g | _ => False end.

Definition op_post (op : dbop) (s s' : OperationDB) : Prop :=
  undoes s s' /\ (forall b, oacct_eq (acct s' b) (spec (odb s) op (acct s) b)) /\
  refund s' = spec_refund op (refund s).

(** An operation on one account refines an [upd]. *)
Lemma changes_upd s s' a f : changes s s' a (f (cur s a)) ->
  undoes s s' /\ (forall b, oacct_eq (acct s' b) (upd (odb s) a f (acct s) b)) /\
  refund s' = refund s.
Proof.
  intros (U & (F & _) & E). split; [done|]. split; [|done]. intros b. rewrite (E b). done.
Qed.

Lemma default_eq f x y : oacct_eq x y -> acct_eq (default f x) (default f y).
Proof. intros []; [done|reflexivity]. Qed.

Lemma add_balance_eq v x y : acct_eq x y ->
  acct_eq (with_balance (a_balance x + v) x) (with_balance (a_balance y + v) y).
Proof. intros []. constructor; cbn; congruence. Qed.

Lemma Transfer_post s a b v : db_ok s -> exists s', Transfer a b v s = Ret (tt, s') /\
  op_post (OTransfer a b v) s s'.
Proof.
  intros Hs. destruct (SubBalance_changes s a v Hs) as (s1 & H1 & C1).
  destruct (changes_ok _ _ _ _ C1) as [Hs1 Hd1].
  destruct (AddBalance_changes s1 b v Hs1) as (s2 & H2 & C2).
  destruct (changes_ok _ _ _ _ C2) as [Hs2 Hd2].
  destruct (GetOrNew_spec s2 b Hs2) as (o & s3 & H3 & _ & C3 & _).
  exists s3. unfold Transfer, bind. rewrite H1, H2, H3. split; [done|].
  assert (C23 : changes s1 s3 b (cur s2 b)) by by eapply changes_trans.
  destruct C1 as (U1 & (F1 & _) & E1), C2 as (_ & _ & E2), C23 as (U2 & (F2 & _) & E3).
  split; [eapply undoes_trans; [apply U1|done..]|]. split; [|by cbn; rewrite F2].
  intros c. rewrite (E3 c). cbn [spec]. unfold upd. destruct (decide (b = c)) as [<-|].
  - assert (Hb : oacct_eq (acct s2 b) (Some (with_balance (a_balance (cur s1 b) + v) (cur s1 b)))).
    { rewrite (E2 b). by rewrite decide_True. }
    unfold cur at 1. inversion Hb as [x y Hxy Hx Hy|]; subst. cbn. constructor. rewrite Hxy.
    apply add_balance_eq. unfold cur. rewrite Hd1. apply default_eq, (E1 b).
  - rewrite (E1 c). by destruct (decide (a = c)).
Qed.

Lemma run_op_post op s : db_ok s -> op_fails op s \/
  exists s', run_op op s = Ret (tt, s') /\ op_post op s s'.
Proof.
  intros Hs. pose proof Hs as [Hso Hal].
  assert (Hsame : forall s', undoes s s' -> (forall b, acct s' b = acct s b) ->
    undoes s s' /\ (forall b, oacct_eq (acct s' b) (acct s b))).
  { intros s' U E. split; [done|]. intros b. by rewrite E. }
  assert (Hdec : op_fails op s \/ ~ op_fails op s) by (destruct op; cbn; lia || tauto).
  destruct Hdec as [|Hnf]; [by left|right]. destruct op; cbn [run_op].
  - destruct (SetBalance_changes s a v Hs) as (s' & -> & Hc). exists s'. split; [done|].
    by apply changes_upd in Hc.
  - destruct (AddBalance_changes s a v Hs) as (s' & -> & Hc). exists s'. split; [done|].
    by apply (changes_upd s s' a (fun x => with_balance (a_balance x + v) x)) in Hc.
  - destruct (SubBalance_changes s a v Hs) as (s' & -> & Hc). exists s'. split; [done|].
    by apply (changes_upd s s' a (fun x => with_balance (a_balance x - v) x)) in Hc.
  - destruct (SetNonce_changes s a n Hs) as (s' & -> & Hc). exists s'. split; [done|].
    by apply changes_upd in Hc.
  - destruct (SetCode_changes s a c Hs) as (s' & -> & Hc). exists s'. split; [done|].
    by apply changes_upd in Hc.
  - destruct (SetState_changes s a k v Hs) as (s' & -> & Hc). exists s'. split; [done|].
    by apply changes_upd in Hc.
  - unfold bind. destruct (obj_at s a) as [o|] eqn:Eo.
    + destruct (Suicide_changes s a o Hs Eo) as (s' & -> & Hc). exists s'. split; [done|].
      unfold op_post. cbn [spec spec_refund]. rewrite (acct_some _ _ _ Eo).
      apply (changes_upd s s' a with_suicide). unfold cur. by rewrite (acct_some _ _ _ Eo).
    + destruct (Suicide_none s a Eo) as (s' & -> & Hl). exists s'. split; [done|].
      split; [by apply undoes_loaded|]. destruct Hl as (Hd & _). split; [|apply Hd].
      intros b. cbn. rewrite (proj2 (acct_none s a) Eo). apply (eq_acct _ _ Hd).
  - destruct (CreateAccount_changes s a Hs) as (s' & -> & Hc). exists s'. split; [done|].
    by apply (changes_upd s s' a (fun _ => match acct s a with
      | Some x => with_balance (a_balance x) (fresh (odb s) a) | None => fresh (odb s) a end)) in Hc.
  - by apply Transfer_post.
  - destruct (AddRefund_undoes s g Hs) as (s' & -> & U & ->). eexists. split; [done|].
    split; [done|]. split; [by intros b|done].
  - cbn in Hnf. destruct (SubRefund_undoes s g Hs) as (s' & -> & U & ->); [lia|]. eexists. split; [done|].
    split; [done|]. split; [by intros b|done].
  - destruct (AddLog_undoes s l Hs) as (s' & -> & U & ->). eexists. split; [done|].
    split; [done|]. split; [by intros b|done].
  - destruct (AddAddress_undoes s a Hs) as (s' & -> & U & E & R & _). eexists. split; [done|].
    split; [done|]. split; [intros b; cbn; by rewrite E|done].
  - destruct (AddSlot_undoes s a k Hs) as (s' & ? & ? & -> & U & E & R & _). eexists. split; [done|].
    split; [done|]. split; [intros b; cbn; by rewrite E|done].
Qed.

Lemma run_op_fails op s : op_fails op s -> run_op op s = Panic PRefund.
Proof.
  destruct op; cbn [op_fails]; try done. intros Hg. cbn [run_op].
  unfold SubRefund, bind, get, append_entry, modify. by destruct (Z.ltb_spec (refund s) g); [|lia].
Qed.

Lemma run_ops_undoes ops : forall s s', db_ok s -> run_ops ops s = Ret (tt, s') -> undoes s s'.
Proof.
  induction ops as [|op ops IH]; intros s s' Hs; cbn [run_ops].
  { intros [= <-]. apply undoes_loaded; [done|apply loaded_refl]. }
  unfold bind. destruct (run_op_post op s Hs) as [Hf|(s1 & -> & U & _)].
  { by rewrite run_op_fails. }
  intros Hr. eapply undoes_trans; [apply U|done|]. apply IH; [apply U|done].
Qed.

(** ** Totals *)
Definition total (s : OperationDB) (l : list Z) : Z :=
  foldr (fun a acc => get_acct s a a_balance 0 + acc) 0 l.

Definition wbal (w : world) (a : Z) : Z := match w a with Some x => a_balance x | None => 0 end.

Lemma get_acct_wbal s w a : oacct_eq (acct s a) (w a) -> get_acct s a a_balance 0 = wbal w a.
Proof. unfold get_acct, wbal. intros []; [by apply eq_balance|done]. Qed.

(** Changing one account changes the total by the difference. *)
Lemma total_upd (w w' : world) a l : NoDup l -> a ∈ l -> (forall b, a <> b -> w' b = w b) ->
  foldr (fun b acc => wbal w' b + acc) 0 l =
  foldr (fun b acc => wbal w b + acc) 0 l + (wbal w' a - wbal w a).
Proof.
  intros Hn Ha Hw. induction Hn as [|b l Hb Hn IH]; [set_solver|]. cbn.
  destruct (decide (a = b)) as [<-|Hab].
  - assert (foldr (fun b acc => wbal w' b + acc) 0 l = foldr (fun b acc => wbal w b + acc) 0 l) as ->; [|lia].
    clear IH Ha Hn. induction l as [|c l IH]; [done|]. cbn. rewrite IH by set_solver.
    unfold wbal. rewrite Hw; [done|set_solver].
  - rewrite IH by set_solver. unfold wbal at 1. rewrite Hw by done. fold (wbal w b). lia.
Qed.

Lemma total_world s w l : (forall b, oacct_eq (acct s b) (w b)) ->
  total s l = foldr (fun b acc => wbal w b + acc) 0 l.
Proof.
  intros Hw. unfold total. induction l as [|b l IH]; [done|]. cbn. by rewrite IH, (get_acct_wbal s w).
Qed.

Lemma wbal_upd d a f w : wbal (upd d a f w) a = a_balance (f (default (fresh d a) (w a))).
Proof. unfold wbal, upd. by rewrite decide_True. Qed.

(** The balance [newObject] gives an account that does not exist yet. *)
Definition minted (w : world) (a : Z) : Z := match w a with Some _ => 0 | None => 200000000 end.

Lemma fresh_balance d a (w : world) : a_balance (default (fresh d a) (w a)) = wbal w a + minted w a.
Proof. unfold wbal, minted. destruct (w a); cbn; lia. Qed.

(** ** End of transaction *)
Definition finalised (deleteEmpty : bool) (o : OperationObject) : OperationObject :=
  if suicided o || (deleteEmpty && obj_empty o) then obj_setDeleted true o else obj_finalise o.

Lemma finalise_fold b l : forall s, NoDup l ->
  let s' := fold_left (finalise_one b) l s in
  (forall a, OperationObjects s' !! a =
     if decide (a ∈ l) then finalised b <$> (OperationObjects s !! a) else OperationObjects s !! a) /\
  odb s' = odb s /\ journal s' = journal s /\ logs s' = logs s.
Proof.
  induction l as [|x l IH]; intros s Hn; cbn [fold_left].
  { split; [|done]. intros a. by rewrite decide_False by set_solver. }
  inversion Hn as [|? ? Hx Hl]; subst. destruct (IH (finalise_one b s x) Hl) as (Ho & Hd & Hj & Hlg).
  assert (Hone : (forall a, OperationObjects (finalise_one b s x) !! a =
      if decide (a = x) then finalised b <$> (OperationObjects s !! a) else OperationObjects s !! a) /\
    odb (finalise_one b s x) = odb s /\ journal (finalise_one b s x) = journal s /\
    logs (finalise_one b s x) = logs s).
  { unfold finalise_one. destruct (OperationObjects s !! x) as [o|] eqn:Ex.
    - split; [|done]. intros a. cbn. destruct (decide (a = x)) as [->|].
      + by rewrite lookup_insert_eq, Ex.
      + by rewrite lookup_insert_ne.
    - split; [|done]. intros a. destruct (decide (a = x)) as [->|]; [by rewrite Ex|done]. }
  destruct Hone as (Ho1 & Hd1 & Hj1 & Hl1). cbn zeta in *.
  split; [|split; [congruence|split; congruence]]. intros a. rewrite Ho, Ho1.
  destruct (decide (a ∈ l)), (decide (a = x)) as [Hax|], (decide (a ∈ x :: l));
    try done; subst; set_solver.
Qed.

Lemma finalise_view d o : forall k,
  a_committed (view d (obj_finalise o)) k = a_storage (view d o) k /\
  a_storage (view d (obj_finalise o)) k = a_storage (view d o) k.
Proof.
  intros k. assert (Hu : (dirtyStorage o ∪ pendingStorage o) !! k =
    match dirtyStorage o !! k with Some v => Some v | None => pendingStorage o !! k end).
  { rewrite lookup_union. by destruct (dirtyStorage o !! k), (pendingStorage o !! k). }
  assert (Hc : a_committed (view d (obj_finalise o)) k = a_storage (view d o) k).
  { cbn -[union]. unfold view_committed, obj_finalise. cbn -[union]. rewrite Hu.
    by destruct (dirtyStorage o !! k). }
  split; [done|]. rewrite <- Hc. cbn -[union]. by rewrite lookup_empty.
Qed.
End props.

(** A database with two stored accounts, for the closed instances below. *)
Definition demo_dbi : DatabaseI := {|
  db_account a := if a =? 5 then Some {| sa_Nonce := 3; sa_Balance := Some 1000; sa_Root := 0; sa_CodeHash := None |}
                  else if a =? 6 then Some {| sa_Nonce := 0; sa_Balance := Some 7; sa_Root := 0; sa_CodeHash := None |}
                  else None;
  db_storage _ _ _ := None; db_code _ _ := None |}.
Definition demo_db : OperationDB := NewOperationDb demo_dbi.

(** The same database after one storage write. *)
Definition demo_dirty : OperationDB :=
  match run_ops [OSetState 5 1 9] demo_db with Ret (_, s) => s | _ => demo_db end.
Definition demo_obj : OperationObject :=
  match OperationObjects demo_dirty !! 5 with Some o => o | None => newObject 5 empty_StateAccount end.

Lemma demo_ok `{Crypto} : db_ok demo_db.
Proof. split; intros a o; cbn; by rewrite lookup_empty. Qed.

(** ** The access list as sets *)
Definition al_has (b j : Z) (al : accessList) : bool :=
  match al_addresses al !! b with
  | Some i => if i =? -1 then false
              else match al_slots al !! Z.to_nat i with
                   | Some sm => bool_decide (j ∈ sm)
                   | None => false
                   end
  | None => false
  end.

Lemma Contains_has al b j : wf_al al -> al_Contains b j al = Ret (al_ContainsAddress b al, al_has b j al).
Proof.
  intros [Hok _]. unfold al_Contains, al_ContainsAddress, al_has.
  destruct (al_addresses al !! b) as [i|] eqn:Eb; [|done].
  destruct (Z.eqb_spec i (-1)); [done|]. destruct (Hok _ _ Eb) as [|Hr]; [done|].
  unfold index. destruct (Z.leb_spec 0 i); [|lia].
  destruct (al_slots al !! Z.to_nat i) as [sm|] eqn:Es; [done|].
  apply lookup_ge_None in Es. unfold zlen in Hr. lia.
Qed.

(** A slot set opened for an address that had none. *)
Lemma has_fresh al a k b j : wf_al al -> al_has a j al = false ->
  let al' := {| al_addresses := <[a := zlen (al_slots al)]> (al_addresses al);
                al_slots := al_slots al ++ [ {[k]} ] |} in
  al_ContainsAddress b al' = bool_decide (a = b) || al_ContainsAddress b al /\
  al_has b j al' = bool_decide (a = b /\ k = j) || al_has b j al.
Proof.
  intros [Hok _] Ha al'. unfold al_ContainsAddress, al_has, al'. cbn.
  pose proof (zlen_nonneg (al_slots al)). destruct (decide (a = b)) as [<-|Hab].
  - rewrite lookup_insert_eq, bool_decide_true by done. split; [done|].
    destruct (Z.eqb_spec (zlen (al_slots al)) (-1)); [lia|].
    rewrite lookup_app_r by (unfold zlen; lia).
    replace (Z.to_nat (zlen (al_slots al)) - length (al_slots al))%nat with 0%nat by (unfold zlen; lia).
    cbn. fold (al_has a j al). rewrite Ha, orb_false_r. apply bool_decide_ext. set_solver.
  - rewrite lookup_insert_ne by done. rewrite !bool_decide_false by (done || naive_solver).
    split; [done|]. destruct (al_addresses al !! b) as [i|] eqn:Eb; [|done].
    destruct (Z.eqb_spec i (-1)); [done|]. destruct (Hok _ _ Eb) as [|Hr]; [done|].
    rewrite lookup_app_l by (unfold zlen in Hr; lia). done.
Qed.

(** A slot added to an existing set. *)
Lemma has_old al a k i sm b j : wf_al al -> al_addresses al !! a = Some i -> i <> -1 ->
  al_slots al !! Z.to_nat i = Some sm ->
  let al' := {| al_addresses := al_addresses al;
                al_slots := <[Z.to_nat i := {[k]} ∪ sm]> (al_slots al) |} in
  al_has b j al' = bool_decide (a = b /\ k = j) || al_has b j al.
Proof.
  intros [Hok Hinj] Ea Hi Es al'. unfold al_has, al'. cbn.
  assert (Hlt : (Z.to_nat i < length (al_slots al))%nat) by by eapply lookup_lt_Some.
  destruct (Hok _ _ Ea) as [|Hri]; [done|]. destruct (decide (a = b)) as [<-|Hab].
  - rewrite Ea. destruct (Z.eqb_spec i (-1)); [done|]. rewrite list_lookup_insert_eq, Es by done.
    rewrite <- bool_decide_or. apply bool_decide_ext. set_solver.
  - rewrite (bool_decide_false (a = b /\ k = j)) by naive_solver. cbn.
    destruct (al_addresses al !! b) as [i'|] eqn:Eb; [|done].
    destruct (Z.eqb_spec i' (-1)); [done|]. destruct (Hok _ _ Eb) as [|Hri']; [done|].
    rewrite list_lookup_insert_ne; [done|]. intros Hn. apply Hab. eapply Hinj; [done| |done].
    rewrite Eb. f_equal. lia.
Qed.

Lemma AddSlot_has al a k : wf_al al -> exists am sm al', al_AddSlot a k al = Ret (am, sm, al') /\
  am = negb (al_ContainsAddress a al) /\
  forall b j, al_ContainsAddress b al' = bool_decide (a = b) || al_ContainsAddress b al /\
              al_has b j al' = bool_decide (a = b /\ k = j) || al_has b j al.
Proof.
  intros Hal. pose proof Hal as [Hok _]. unfold al_AddSlot.
  assert (Hsame : is_Some (al_addresses al !! a) -> forall b, al_ContainsAddress b al =
    bool_decide (a = b) || al_ContainsAddress b al).
  { intros [i Hi] b. unfold al_ContainsAddress. destruct (bool_decide_reflect (a = b)) as [<-|]; [by rewrite Hi|done]. }
  destruct (al_addresses al !! a) as [i|] eqn:Ea.
  2: { do 3 eexists. split; [done|]. split; [unfold al_ContainsAddress; by rewrite Ea|]. intros b j.
       apply has_fresh; [done|]. unfold al_has. by rewrite Ea. }
  destruct (Z.eqb_spec i (-1)) as [->|Hi].
  { do 3 eexists. split; [done|]. split; [unfold al_ContainsAddress; by rewrite Ea|]. intros b j.
    apply has_fresh; [done|]. unfold al_has. by rewrite Ea. }
  destruct (Hok _ _ Ea) as [|Hr]; [done|]. unfold index. destruct (Z.leb_spec 0 i); [|lia].
  destruct (al_slots al !! Z.to_nat i) as [sm|] eqn:Es.
  2: { apply lookup_ge_None in Es. unfold zlen in Hr. lia. }
  cbn [obind]. destruct (decide (k ∈ sm)) as [Hk|Hk]; do 3 eexists; (split; [done|]);
    (split; [unfold al_ContainsAddress; by rewrite Ea|]); intros b j.
  - split; [by apply Hsame|]. unfold al_has. destruct (bool_decide_reflect (a = b /\ k = j)) as [[<- <-]|]; [|done].
    rewrite Ea. destruct (Z.eqb_spec i (-1)); [done|]. rewrite Es. by rewrite bool_decide_true.
  - split; [by apply Hsame|]. by eapply has_old.
Qed.

(** ** The properties *)

(** C3: every state-changing operation of the database refines its abstract
    counterpart on accounts: the touched account changes as specified (a missing
    one is created first), every other account is unchanged, the refund counter
    follows, and the operation returns unless it is a [SubRefund] below zero,
    which panics. *)
Theorem db_ops_refine `{C : Crypto} (op : dbop) (s : OperationDB) (Hs : db_ok s) :
  (op_fails op s /\ run_op op s = Panic PRefund) \/
  exists s', run_op op s = Ret (tt, s') /\ db_ok s' /\
    (forall b, oacct_eq (acct s' b) (spec (odb s) op (acct s) b)) /\
    refund s' = spec_refund op (refund s).
Proof.
  destruct (run_op_post op s Hs) as [Hf|(s' & Hr & U & E & R)].
  - left. split; [done|]. by apply run_op_fails.
  - right. exists s'. split; [done|]. split; [apply U|done].
Qed.

Lemma db_ops_refine_witness :
  (op_fails (OSetState 5 1 9) demo_db /\ run_op (OSetState 5 1 9) demo_db = Panic PRefund) \/
  exists s', run_op (OSetState 5 1 9) demo_db = Ret (tt, s') /\ db_ok s' /\
    (forall b, oacct_eq (acct s' b) (spec (odb demo_db) (OSetState 5 1 9) (acct demo_db) b)) /\
    refund s' = spec_refund (OSetState 5 1 9) (refund demo_db).
Proof. exact (db_ops_refine (OSetState 5 1 9) demo_db demo_ok). Defined.

(** C15: the readers return the abstract account's fields (through the caches,
    the dirty and pending storage and the database) and change nothing that can
    be observed. *)
Theorem db_getters_refine `{C : Crypto} (s : OperationDB) (a k : Z) (Hs : db_ok s) :
  let gets {A} (p : M OperationDB A) (v : A) := exists s', p s = Ret (v, s') /\ db_eq s' s in
  gets (GetBalance a) (get_acct s a a_balance 0) /\
  gets (GetNonce a) (get_acct s a a_nonce 0) /\
  gets (GetCodeHash a) (get_acct s a a_codehash 0) /\
  gets (HasSuicided a) (get_acct s a a_suicided false) /\
  gets (GetCode a) (get_acct s a a_code []) /\
  gets (GetCodeSize a) (zlen (get_acct s a a_code [])) /\
  gets (GetState a k) (get_acct s a (fun x => a_storage x k) 0) /\
  gets (GetCommittedState a k) (get_acct s a (fun x => a_committed x k) 0) /\
  gets (Exist a) (get_acct s a (fun _ => true) false).
Proof.
  intros gets. assert (Hg : forall A (p : M OperationDB A) v, reads p v -> gets A p (v s)).
  { intros A p v Hp. destruct (Hp s Hs) as (s' & Hr & Hl). exists s'. split; [done|apply Hl]. }
  split; [by apply (Hg _ (GetBalance a) (fun s => get_acct s a a_balance 0)), reads_field|].
  split; [by apply (Hg _ (GetNonce a) (fun s => get_acct s a a_nonce 0)), reads_field|].
  split; [by apply (Hg _ (GetCodeHash a) (fun s => get_acct s a a_codehash 0)), reads_field|].
  split; [by apply (Hg _ (HasSuicided a) (fun s => get_acct s a a_suicided false)), reads_field|].
  split; [apply (Hg _ _ _ (GetCode_reads a))|].
  split; [apply (Hg _ _ _ (GetCodeSize_reads a))|].
  split; [apply (Hg _ _ _ (GetState_reads a k))|].
  split; [apply (Hg _ _ _ (GetCommittedState_reads a k))|].
  by apply (Hg _ (Exist a) (fun s => get_acct s a (fun _ => true) false)), (reads_field a (fun _ => true)).
Qed.

Lemma db_getters_refine_witness :
  exists s', GetBalance 5 demo_db = Ret (1000, s') /\ db_eq s' demo_db.
Proof. exact (proj1 (db_getters_refine demo_db 5 0 demo_ok)). Defined.

(** C2: the journal is a correct undo log.  After any sequence of
    state-changing operations that returns, reverting the entries it appended,
    newest first, succeeds and restores every observable: accounts, storage,
    code, refund counter, logs and access list. *)
Theorem journal_undo `{C : Crypto} (ops : list dbop) (s s' : OperationDB) (Hs : db_ok s)
    (Hr : run_ops ops s = Ret (tt, s')) :
  exists es s0, entries (journal s') = entries (journal s) ++ es /\
    revert_all (rev es) s' = Ret (tt, s0) /\ db_eq s0 s.
Proof.
  destruct (run_ops_undoes ops s s' Hs Hr) as (_ & _ & es & He & _ & s0 & Hrev & Heq & _).
  by exists es, s0.
Qed.

Lemma journal_undo_witness :
  let ops := [OTransfer 5 9 100; OSetState 9 1 2; OAddSlot 9 1; OAddLog (mkLog 9 [] [] 0 0 0 0);
              OSuicide 5; OCreateAccount 6] in
  match run_ops ops demo_db with
  | Ret (_, s') => exists es s0, entries (journal s') = entries (journal demo_db) ++ es /\
      revert_all (rev es) s' = Ret (tt, s0) /\ db_eq s0 demo_db
  | _ => False
  end.
Proof.
  intros ops. destruct (run_ops ops demo_db) as [[[] s']|p|] eqn:E.
  - exact (journal_undo ops demo_db s' demo_ok E).
  - vm_compute in E. discriminate E.
  - vm_compute in E. discriminate E.
Defined.

(** C28: balances are conserved by [Transfer] up to the accounts it creates: the
    sum over any set of accounts containing sender and recipient grows by exactly
    200000000 for each of the two that did not exist, and not at all otherwise. *)
Theorem transfer_total `{C : Crypto} (s : OperationDB) (a b v : Z) (l : list Z) (Hs : db_ok s)
    (Hn : NoDup l) (Ha : a ∈ l) (Hb : b ∈ l) :
  exists s', Transfer a b v s = Ret (tt, s') /\
    total s' l = total s l + minted (acct s) a + (if decide (a = b) then 0 else minted (acct s) b).
Proof.
  destruct (Transfer_post s a b v Hs) as (s' & Hr & _ & E & _). exists s'. split; [done|].
  rewrite (total_world s' _ l E), (total_world s (acct s) l) by reflexivity. cbn [spec].
  set (w1 := upd (odb s) a _ (acct s)).
  rewrite (total_upd w1 _ b l Hn Hb) by (intros c Hc; unfold upd; by rewrite decide_False).
  rewrite (total_upd (acct s) w1 a l Hn Ha) by (intros c Hc; unfold w1, upd; by rewrite decide_False).
  assert (Hw1 : wbal w1 a = wbal (acct s) a + minted (acct s) a - v).
  { unfold w1. rewrite wbal_upd. cbn [a_balance with_balance]. by rewrite fresh_balance. }
  assert (Hm : minted w1 b = if decide (a = b) then 0 else minted (acct s) b).
  { unfold minted, w1, upd. by destruct (decide (a = b)). }
  rewrite wbal_upd. cbn [a_balance with_balance]. rewrite fresh_balance, Hm. lia.
Qed.

Lemma transfer_total_witness : exists s', Transfer 5 6 300 demo_db = Ret (tt, s') /\
  total s' [5; 6; 8] = 1007.
Proof.
  destruct (transfer_total demo_db 5 6 300 [5; 6; 8] demo_ok) as (s' & Hr & Ht).
  - repeat constructor; set_solver.
  - set_solver.
  - set_solver.
  - exists s'. split; [exact Hr|]. rewrite Ht. vm_compute. reflexivity.
Defined.

(** C27: the access list implements a set of addresses and a set of
    (address, slot) pairs: adding an address or a slot adds exactly that member,
    the index structure stays well formed, and no lookup is out of range. *)
Theorem access_list_refines (al : accessList) (a k b j : Z) (Hal : wf_al al) :
  exists p q am sm al', al_Contains b j al = Ret (p, q) /\ p = al_ContainsAddress b al /\
    wf_al (al_AddAddress a al).2 /\
    al_Contains b j (al_AddAddress a al).2 = Ret (bool_decide (a = b) || p, q) /\
    al_AddSlot a k al = Ret (am, sm, al') /\ wf_al al' /\
    am = negb (al_ContainsAddress a al) /\
    al_Contains b j al' = Ret (bool_decide (a = b) || p, bool_decide (a = b /\ k = j) || q).
Proof.
  destruct (AddSlot_has al a k Hal) as (am & sm & al' & Hadd & Ham & Hin).
  destruct (al_AddSlot_wf a k al Hal) as (am' & sm' & al'' & Hadd' & Hwf).
  rewrite Hadd in Hadd'. injection Hadd' as <- <- <-.
  pose proof (al_AddAddress_wf a al Hal) as Hwfa.
  exists (al_ContainsAddress b al), (al_has b j al), am, sm, al'.
  split; [by apply Contains_has|]. split; [done|]. split; [done|]. split.
  { rewrite Contains_has by done. unfold al_AddAddress, al_ContainsAddress, al_has.
    destruct (al_addresses al !! a) as [i|] eqn:Ea; cbn.
    - destruct (bool_decide_reflect (a = b)) as [<-|]; [by rewrite Ea|done].
    - destruct (bool_decide_reflect (a = b)) as [<-|].
      + by rewrite lookup_insert_eq, Ea.
      + by rewrite lookup_insert_ne. }
  split; [done|]. split; [done|]. split; [done|]. rewrite Contains_has by done.
  destruct (Hin b j) as [-> ->]. done.
Qed.

Lemma access_list_refines_witness :
  exists p q am sm al', al_Contains 2 3 newAccessList = Ret (p, q) /\
    p = al_ContainsAddress 2 newAccessList /\
    wf_al (al_AddAddress 1 newAccessList).2 /\
    al_Contains 2 3 (al_AddAddress 1 newAccessList).2 = Ret (bool_decide (1 = 2) || p, q) /\
    al_AddSlot 1 7 newAccessList = Ret (am, sm, al') /\ wf_al al' /\
    am = negb (al_ContainsAddress 1 newAccessList) /\
    al_Contains 2 3 al' = Ret (bool_decide (1 = 2) || p, bool_decide (1 = 2 /\ 7 = 3) || q).
Proof. exact (access_list_refines newAccessList 1 7 2 3 wf_newAccessList). Defined.

(** C26: [Finalise] on a non-empty journal clears the journal and the refund
    counter; every object dirtied in the transaction that is self-destructed (or
    empty, when empty objects are deleted) is marked deleted, every other dirtied
    object has its current storage values committed, and all other objects are
    untouched. *)
Theorem finalise_commits `{C : Crypto} (deleteEmpty : bool) (s : OperationDB) (a k : Z)
    (o : OperationObject) (Hj : entries (journal s) <> []) (Ho : OperationObjects s !! a = Some o) :
  exists s' o', Finalise deleteEmpty s = Ret (tt, s') /\ entries (journal s') = [] /\ refund s' = 0 /\
    OperationObjects s' !! a = Some o' /\
    (Dirties (journal s) !! a = None -> o' = o) /\
    (is_Some (Dirties (journal s) !! a) ->
       if suicided o || (deleteEmpty && obj_empty o) then o' = obj_setDeleted true o
       else deleted o' = deleted o /\ dirtyStorage o' = ∅ /\
            a_committed (view (odb s) o') k = a_storage (view (odb s) o) k /\
            a_storage (view (odb s) o') k = a_storage (view (odb s) o) k).
Proof.
  destruct (finalise_fold deleteEmpty (elements (dom (Dirties (journal s)))) s (NoDup_elements _))
    as (Hobj & Hd & Hjr & _). specialize (Hobj a). rewrite Ho in Hobj.
  set (s1 := fold_left _ _ s) in *.
  assert (Hrun : Finalise deleteEmpty s =
    Ret (tt, set_refund 0 (set_journal (fun _ => NewJournal) s1))).
  { unfold Finalise, clearJournalAndRefund, bind, modify, get. fold s1. rewrite Hjr.
    by rewrite decide_False. }
  eexists _, (if decide (a ∈ elements (dom (Dirties (journal s)))) then finalised deleteEmpty o else o).
  split; [exact Hrun|]. split; [done|]. split; [done|].
  split; [cbn; rewrite Hobj; by destruct (decide _)|].
  destruct (decide (a ∈ elements (dom (Dirties (journal s))))) as [Hin|Hin];
    rewrite elem_of_elements, elem_of_dom in Hin; cbn.
  - split; [intros Hn; rewrite Hn in Hin; by destruct Hin|]. intros _. unfold finalised.
    destruct (_ || _); [done|]. split; [done|]. split; [done|]. apply finalise_view.
  - split; [done|]. by intros ?%Hin.
Qed.

Lemma finalise_commits_witness :
  exists s' o', Finalise true demo_dirty = Ret (tt, s') /\ entries (journal s') = [] /\
    OperationObjects s' !! 5 = Some o' /\ a_committed (view (odb demo_dirty) o') 1 = 9.
Proof.
  destruct (finalise_commits true demo_dirty 5 1 demo_obj) as (s' & o' & Hf & He & _ & Ho & _ & Hd).
  - vm_compute. discriminate.
  - vm_compute. reflexivity.
  - exists s', o'. split; [exact Hf|]. split; [exact He|]. split; [exact Ho|].
    specialize (Hd ltac:(vm_compute; by eexists)).
    change (suicided demo_obj || true && obj_empty demo_obj) with false in Hd.
    destruct Hd as (_ & _ & Hc & _). rewrite Hc. vm_compute. reflexivity.
Defined.
