(* ===== verification/VmCore.v ===== *)
(** * Virtual machine: errors, opcodes, contracts and machine state

    [vm/errors.go], [octopus_ovm_opcodes.go], [octopus_ovm_contract.go] and the
    state part of [octopus_ovm.go].  The state an instruction works on is
    [Machine]: the program counter, the [ScopeContext] (memory, stack,
    contract) and the [OVM] with its interpreter. *)
From S2P Require Import Prelude Uint256 Params GoMath VmStack Analysis Rlp StateDB.

(** ** Errors *)
Inductive vmerr : Set :=
| ErrOutOfGas | ErrCodeStoreOutOfGas | ErrDepth | ErrInsufficientBalance
| ErrContractAddressCollision | ErrExecutionReverted | ErrMaxCodeSizeExceeded | ErrInvalidJump
| ErrWriteProtection | ErrReturnDataOutOfBounds | ErrGasUintOverflow | ErrInvalidCode
| ErrNonceUintOverflow | errStopToken
| ErrStackUnderflow (stackLen required : Z) | ErrStackOverflow (stackLen limit : Z)
| ErrInvalidOpCode (opcode : Z)
| errGasExhausted      (* errors.New of the interpreter and the precompile runner *)
| errReentrancySentry  (* errors.New("not enough gas for reentrancy sentry") *)
| errCallDepth.        (* errors.New of OVM.Call *)

#[export] Instance vmerr_eq_dec : EqDecision vmerr.
Proof. solve_decision. Defined.

(** ** Opcodes *)
Definition STOP : Z := 0.
Definition ADD : Z := 1.
Definition MUL : Z := 2.
Definition SUB : Z := 3.
Definition DIV : Z := 4.
Definition SDIV : Z := 5.
Definition MOD : Z := 6.
Definition SMOD : Z := 7.
Definition ADDMOD : Z := 8.
Definition MULMOD : Z := 9.
Definition EXP : Z := 10.
Definition SIGNEXTEND : Z := 11.
Definition LT : Z := 16.
Definition GT : Z := 17.
Definition SLT : Z := 18.
Definition SGT : Z := 19.
Definition EQ : Z := 20.
Definition ISZERO : Z := 21.
Definition AND : Z := 22.
Definition OR : Z := 23.
Definition XOR : Z := 24.
Definition NOT : Z := 25.
Definition BYTE : Z := 26.
Definition SHL : Z := 27.
Definition SHR : Z := 28.
Definition SAR : Z := 29.
Definition KECCAK256 : Z := 32.
Definition ADDRESS : Z := 48.
Definition BALANCE : Z := 49.
Definition ORIGIN : Z := 50.
Definition CALLER : Z := 51.
Definition CALLVALUE : Z := 52.
Definition CALLDATALOAD : Z := 53.
Definition CALLDATASIZE : Z := 54.
Definition CALLDATACOPY : Z := 55.
Definition CODESIZE : Z := 56.
Definition CODECOPY : Z := 57.
Definition GASPRICE : Z := 58.
Definition EXTCODESIZE : Z := 59.
Definition EXTCODECOPY : Z := 60.
Definition RETURNDATASIZE : Z := 61.
Definition RETURNDATACOPY : Z := 62.
Definition EXTCODEHASH : Z := 63.
Definition BLOCKHASH : Z := 64.
Definition COINBASE : Z := 65.
Definition TIMESTAMP : Z := 66.
Definition NUMBER : Z := 67.
Definition DIFFICULTY : Z := 68.
Definition RANDOM : Z := 68.
Definition GASLIMIT : Z := 69.
Definition CHAINID : Z := 70.
Definition SELFBALANCE : Z := 71.
Definition BASEFEE : Z := 72.
Definition POP : Z := 80.
Definition MLOAD : Z := 81.
Definition MSTORE : Z := 82.
Definition MSTORE8 : Z := 83.
Definition SLOAD : Z := 84.
Definition SSTORE : Z := 85.
Definition JUMP : Z := 86.
Definition JUMPI : Z := 87.
Definition PC : Z := 88.
Definition MSIZE : Z := 89.
Definition GAS : Z := 90.
Definition JUMPDEST : Z := 91.
Definition PUSH0 : Z := 95.
Definition PUSH1 : Z := 96.
Definition PUSH2 : Z := 97.
Definition PUSH3 : Z := 98.
Definition PUSH4 : Z := 99.
Definition PUSH5 : Z := 100.
Definition PUSH6 : Z := 101.
Definition PUSH7 : Z := 102.
Definition PUSH8 : Z := 103.
Definition PUSH9 : Z := 104.
Definition PUSH10 : Z := 105.
Definition PUSH11 : Z := 106.
Definition PUSH12 : Z := 107.
Definition PUSH13 : Z := 108.
Definition PUSH14 : Z := 109.
Definition PUSH15 : Z := 110.
Definition PUSH16 : Z := 111.
Definition PUSH17 : Z := 112.
Definition PUSH18 : Z := 113.
Definition PUSH19 : Z := 114.
Definition PUSH20 : Z := 115.
Definition PUSH21 : Z := 116.
Definition PUSH22 : Z := 117.
Definition PUSH23 : Z := 118.
Definition PUSH24 : Z := 119.
Definition PUSH25 : Z := 120.
Definition PUSH26 : Z := 121.
Definition PUSH27 : Z := 122.
Definition PUSH28 : Z := 123.
Definition PUSH29 : Z := 124.
Definition PUSH30 : Z := 125.
Definition PUSH31 : Z := 126.
Definition PUSH32 : Z := 127.
Definition DUP1 : Z := 128.
Definition DUP2 : Z := 129.
Definition DUP3 : Z := 130.
Definition DUP4 : Z := 131.
Definition DUP5 : Z := 132.
Definition DUP6 : Z := 133.
Definition DUP7 : Z := 134.
Definition DUP8 : Z := 135.
Definition DUP9 : Z := 136.
Definition DUP10 : Z := 137.
Definition DUP11 : Z := 138.
Definition DUP12 : Z := 139.
Definition DUP13 : Z := 140.
Definition DUP14 : Z := 141.
Definition DUP15 : Z := 142.
Definition DUP16 : Z := 143.
Definition SWAP1 : Z := 144.
Definition SWAP2 : Z := 145.
Definition SWAP3 : Z := 146.
Definition SWAP4 : Z := 147.
Definition SWAP5 : Z := 148.
Definition SWAP6 : Z := 149.
Definition SWAP7 : Z := 150.
Definition SWAP8 : Z := 151.
Definition SWAP9 : Z := 152.
Definition SWAP10 : Z := 153.
Definition SWAP11 : Z := 154.
Definition SWAP12 : Z := 155.
Definition SWAP13 : Z := 156.
Definition SWAP14 : Z := 157.
Definition SWAP15 : Z := 158.
Definition SWAP16 : Z := 159.
Definition LOG0 : Z := 160.
Definition LOG1 : Z := 161.
Definition LOG2 : Z := 162.
Definition LOG3 : Z := 163.
Definition LOG4 : Z := 164.
Definition CREATE : Z := 240.
Definition CALL : Z := 241.
Definition CALLCODE : Z := 242.
Definition RETURN : Z := 243.
Definition DELEGATECALL : Z := 244.
Definition CREATE2 : Z := 245.
Definition STATICCALL : Z := 250.
Definition REVERT : Z := 253.
Definition INVALID : Z := 254.
Definition SELFDESTRUCT : Z := 255.

(** ** Contracts *)
Record Contract := mkContract {
  CallerAddress : Z;
  self : Z;
  jumpdests : gmap Z bitvec;
  analysis : option bitvec;
  Code : list Z;
  CodeHash : Z;
  CodeAddr : option Z;
  Input : list Z;
  Gas : Z;
  value : option Z }.

(** A [ContractRef] is a contract or a plain account. *)
Inductive ContractRef :=
| RefContract (c : Contract)
| RefAccount (a : Z).

Definition ref_Address (r : ContractRef) : Z :=
  match r with RefContract c => self c | RefAccount a => a end.

(** The map [jumpdests] is shared with a calling contract. *)
Definition NewContract (caller : ContractRef) (object : Z) (value : option Z) (gas : Z) : Contract :=
  {| CallerAddress := ref_Address caller; self := object;
     jumpdests := match caller with RefContract p => jumpdests p | RefAccount _ => ∅ end;
     analysis := None; Code := []; CodeHash := 0; CodeAddr := None; Input := [];
     Gas := gas; value := value |}.

Definition AsDelegate (caller : ContractRef) (c : Contract) : outcome Contract :=
  match caller with
  | RefAccount _ => Panic PNil
  | RefContract parent =>
      Ret {| CallerAddress := CallerAddress parent; self := self c; jumpdests := jumpdests c;
             analysis := analysis c; Code := Code c; CodeHash := CodeHash c;
             CodeAddr := CodeAddr c; Input := Input c; Gas := Gas c; value := value parent |}
  end.

Definition SetCallCode (addr hash : Z) (code : list Z) (c : Contract) : Contract :=
  {| CallerAddress := CallerAddress c; self := self c; jumpdests := jumpdests c;
     analysis := analysis c; Code := code; CodeHash := hash; CodeAddr := Some addr;
     Input := Input c; Gas := Gas c; value := value c |}.

Definition set_Gas (g : Z) (c : Contract) : Contract :=
  {| CallerAddress := CallerAddress c; self := self c; jumpdests := jumpdests c;
     analysis := analysis c; Code := Code c; CodeHash := CodeHash c; CodeAddr := CodeAddr c;
     Input := Input c; Gas := g; value := value c |}.
Definition set_Input (i : list Z) (c : Contract) : Contract :=
  {| CallerAddress := CallerAddress c; self := self c; jumpdests := jumpdests c;
     analysis := analysis c; Code := Code c; CodeHash := CodeHash c; CodeAddr := CodeAddr c;
     Input := i; Gas := Gas c; value := value c |}.
Definition set_analysis (j : gmap Z bitvec) (a : option bitvec) (c : Contract) : Contract :=
  {| CallerAddress := CallerAddress c; self := self c; jumpdests := j;
     analysis := a; Code := Code c; CodeHash := CodeHash c; CodeAddr := CodeAddr c;
     Input := Input c; Gas := Gas c; value := value c |}.

(** [UseGas]: false leaves the contract unchanged. *)
Definition UseGas (gas : Z) (c : Contract) : bool * Contract :=
  if Gas c <? gas then (false, c) else (true, set_Gas (Gas c - gas) c).

Definition GetOp (n : Z) (c : Contract) : Z :=
  if n <? zlen (Code c) then nth (Z.to_nat n) (Code c) 0 else STOP.

(** [isCode]: the analysis is cached in the contract, and in the shared map when
    the code hash is known. *)
Definition isCode (udest : nat) (c : Contract) : outcome (bool * Contract) :=
  match analysis c with
  | Some a => b <-o codeSegment a udest ;; Ret (b, c)
  | None =>
      if negb (CodeHash c =? 0) then
        let!o (a, c) :=
          match jumpdests c !! CodeHash c with
          | Some a => Ret (a, c)
          | None =>
              a <-o codeBitmap (Code c) ;;
              Ret (a, set_analysis (<[CodeHash c := a]> (jumpdests c)) (analysis c) c)
          end ;;
        let c := set_analysis (jumpdests c) (Some a) c in
        b <-o codeSegment a udest ;; Ret (b, c)
      else
        a <-o codeBitmap (Code c) ;;
        let c := set_analysis (jumpdests c) (Some a) c in
        b <-o codeSegment a udest ;; Ret (b, c)
  end.

Definition validJumpdest `{Uint256} (dest : Z) (c : Contract) : outcome (bool * Contract) :=
  let '(udest, overflow) := Uint64WithOverflow dest in
  if overflow || (zlen (Code c) <=? udest) then Ret (false, c)
  else if negb (nth (Z.to_nat udest) (Code c) 0 =? JUMPDEST) then Ret (false, c)
  else isCode (Z.to_nat udest) c.

(** ** Machine state *)
Record BlockContext := {
  Coinbase : Z; GasLimit : Z; BlockNumber : Z; Time : Z; Difficulty : Z;
  BaseFee : option Z; Random : option Z; GetHash : Z -> Z }.

Record OVM := mkOVM {
  Context : BlockContext; Origin : Z; GasPrice : Z;
  Operationdb : OperationDB;
  depth : Z;
  chainID : option Z; chainRules : Rules;
  EnablePreimageRecording : bool;
  abort : bool;
  callGasTemp : Z;
  readOnly : bool;          (* interpreter.readOnly *)
  returnData : list Z }.    (* interpreter.returnData *)

Definition set_db (d : OperationDB) (o : OVM) : OVM :=
  {| Context := Context o; Origin := Origin o; GasPrice := GasPrice o; Operationdb := d;
     depth := depth o; chainID := chainID o; chainRules := chainRules o;
     EnablePreimageRecording := EnablePreimageRecording o; abort := abort o;
     callGasTemp := callGasTemp o; readOnly := readOnly o; returnData := returnData o |}.
Definition set_depth (d : Z) (o : OVM) : OVM :=
  {| Context := Context o; Origin := Origin o; GasPrice := GasPrice o; Operationdb := Operationdb o;
     depth := d; chainID := chainID o; chainRules := chainRules o;
     EnablePreimageRecording := EnablePreimageRecording o; abort := abort o;
     callGasTemp := callGasTemp o; readOnly := readOnly o; returnData := returnData o |}.
Definition set_callGasTemp (g : Z) (o : OVM) : OVM :=
  {| Context := Context o; Origin := Origin o; GasPrice := GasPrice o; Operationdb := Operationdb o;
     depth := depth o; chainID := chainID o; chainRules := chainRules o;
     EnablePreimageRecording := EnablePreimageRecording o; abort := abort o;
     callGasTemp := g; readOnly := readOnly o; returnData := returnData o |}.
Definition set_readOnly (b : bool) (o : OVM) : OVM :=
  {| Context := Context o; Origin := Origin o; GasPrice := GasPrice o; Operationdb := Operationdb o;
     depth := depth o; chainID := chainID o; chainRules := chainRules o;
     EnablePreimageRecording := EnablePreimageRecording o; abort := abort o;
     callGasTemp := callGasTemp o; readOnly := b; returnData := returnData o |}.
Definition set_returnData (r : list Z) (o : OVM) : OVM :=
  {| Context := Context o; Origin := Origin o; GasPrice := GasPrice o; Operationdb := Operationdb o;
     depth := depth o; chainID := chainID o; chainRules := chainRules o;
     EnablePreimageRecording := EnablePreimageRecording o; abort := abort o;
     callGasTemp := callGasTemp o; readOnly := readOnly o; returnData := r |}.

Record Machine := mkMachine {
  pc : Z; ovm : OVM; mem : Memory; stack : Stack; contract : Contract }.

Abbreviation VM := (M Machine).

Definition set_pc (p : Z) (m : Machine) : Machine :=
  mkMachine p (ovm m) (mem m) (stack m) (contract m).
Definition set_ovm (o : OVM) (m : Machine) : Machine :=
  mkMachine (pc m) o (mem m) (stack m) (contract m).
Definition set_mem (x : Memory) (m : Machine) : Machine :=
  mkMachine (pc m) (ovm m) x (stack m) (contract m).
Definition set_stack (s : Stack) (m : Machine) : Machine :=
  mkMachine (pc m) (ovm m) (mem m) s (contract m).
Definition set_contract (c : Contract) (m : Machine) : Machine :=
  mkMachine (pc m) (ovm m) (mem m) (stack m) c.

(** Run a state database operation. *)
Definition db {A} (p : M OperationDB A) : VM A := fun m =>
  match p (Operationdb (ovm m)) with
  | Ret (a, d) => Ret (a, set_ovm (set_db d (ovm m)) m)
  | Panic e => Panic e
  | NoFuel => NoFuel
  end.

(** Stack operations on the machine. *)
Definition popM : VM Z :=
  m <- get ;; let! (x, st) := liftO (pop (stack m)) ;; put (set_stack st m) ;;; ret x.
Definition peekM : VM Z := m <- get ;; liftO (peek (stack m)).
Definition BackM (n : Z) : VM Z := m <- get ;; liftO (Back n (stack m)).
Definition setTop (v : Z) : VM unit :=
  m <- get ;; st <- liftO (set_top v (stack m)) ;; put (set_stack st m).
Definition pushM (v : Z) : VM unit := modify (fun m => set_stack (push v (stack m)) m).

Definition UseGasM (gas : Z) : VM bool :=
  m <- get ;; let '(ok, c) := UseGas gas (contract m) in put (set_contract c m) ;;; ret ok.

(** The 20-byte and 32-byte arrays of a stack word are its low 160 bits and the
    word itself. *)
Definition word_hash `{Uint256} (x : Z) : Z := be_value (u_Bytes32 x) 0.

(** The result of an instruction: the returned bytes and the error. *)
Abbreviation execRes := (list Z * option vmerr)%type.
