(* ===== verification/VmGas.v ===== *)
(** * Gas functions

    [vm/octopus_ovm_gas.go], [octopus_ovm_gas_table.go] and
    [octopus_ovm_operation_acl.go].  A [gasFunc] receives the requested memory
    size and returns the dynamic cost or an error; it may change the memory's
    cached fee, the refund counter, the access list, [callGasTemp] and (for the
    EIP-2929 call variants) the contract's gas. *)
From S2P Require Import Prelude Uint256 Params GoMath VmStack Analysis StateDB VmCore.

Definition GasQuickStep : Z := 2.
Definition GasFastestStep : Z := 3.
Definition GasFastStep : Z := 5.
Definition GasMidStep : Z := 8.
Definition GasSlowStep : Z := 10.
Definition GasExtStep : Z := 20.

Abbreviation gasRes := (Z * option vmerr)%type.
Abbreviation gasFunc := (Z -> VM gasRes).

Section gas.
Context `{U : Uint256} `{C : Crypto}.

Definition callGas (isEip150 : bool) (availableGas base callCost : Z) : gasRes :=
  let requested : gasRes :=
    if negb (u_IsUint64 callCost) then (0, Some ErrGasUintOverflow)
    else (u_Uint64 callCost, None) in
  if isEip150 then
    let availableGas := availableGas -64 base in
    let gas := availableGas - availableGas / 64 in
    if negb (u_IsUint64 callCost) || (gas <? u_Uint64 callCost) then (gas, None) else requested
  else requested.

Definition memoryGasCost (newMemSize : Z) : VM gasRes :=
  if newMemSize =? 0 then ret (0, None)
  else if 137438953440 (* 0x1FFFFFFFE0 *) <? newMemSize then ret (0, Some ErrGasUintOverflow)
  else
    m <- get ;;
    let newMemSizeWords := toWordSize newMemSize in
    let newMemSize := newMemSizeWords *64 32 in
    if zlen (store (mem m)) <? newMemSize then
      let square := newMemSizeWords *64 newMemSizeWords in
      let linCoef := newMemSizeWords *64 MemoryGas in
      let quadCoef := square / QuadCoeffDiv in
      let newTotalFee := linCoef +64 quadCoef in
      let fee := newTotalFee -64 lastGasCost (mem m) in
      put (set_mem {| store := store (mem m); lastGasCost := newTotalFee |} m) ;;;
      ret (fee, None)
    else ret (0, None).

(** [err] short-cuts of the gas functions. *)
Definition gas_try (r : gasRes) (k : Z -> VM gasRes) : VM gasRes :=
  match r with
  | (_, Some e) => ret (0, Some e)
  | (g, None) => k g
  end.
(** [if x, overflow = f(..); overflow { return 0, ErrGasUintOverflow }] *)
Definition gas_ovf (r : Z * bool) (k : Z -> VM gasRes) : VM gasRes :=
  let '(g, overflow) := r in
  if overflow : bool then ret (0, Some ErrGasUintOverflow) else k g.

Definition memoryCopierGas (stackpos : Z) : gasFunc := fun memorySize =>
  r <- memoryGasCost memorySize ;;
  gas_try r (fun gas =>
  l <- BackM stackpos ;;
  gas_ovf (Uint64WithOverflow l) (fun words =>
  gas_ovf (SafeMul (toWordSize words) CopyGas) (fun words =>
  gas_ovf (SafeAdd gas words) (fun gas =>
  ret (gas, None))))).

Definition gasCallDataCopy : gasFunc := memoryCopierGas 2.
Definition gasCodeCopy : gasFunc := memoryCopierGas 2.
Definition gasExtCodeCopy : gasFunc := memoryCopierGas 3.
Definition gasReturnDataCopy : gasFunc := memoryCopierGas 2.

Definition contract_Address : VM Z := gets (fun m => self (contract m)).
Definition rules : VM Rules := gets (fun m => chainRules (ovm m)).

(** The refunds of a dirty slot, shared by the net-metered variants. *)
Definition net_refunds (original current value clear reset_zero reset : Z) : VM unit :=
  (if negb (original =? 0) then
     if current =? 0 then db (SubRefund clear)
     else if value =? 0 then db (AddRefund clear) else ret tt
   else ret tt) ;;;
  (if original =? value then
     if original =? 0 then db (AddRefund reset_zero) else db (AddRefund reset)
   else ret tt).

Definition gasSStore : gasFunc := fun _ =>
  y <- BackM 1 ;;
  x <- BackM 0 ;;
  addr <- contract_Address ;;
  current <- db (GetState addr (word_hash x)) ;;
  r <- rules ;;
  if IsPetersburg r || negb (IsConstantinople r) then
    if (current =? 0) && negb (u_Sign y =? 0) then ret (SstoreSetGas, None)
    else if negb (current =? 0) && (u_Sign y =? 0) then
      db (AddRefund SstoreRefundGas) ;;; ret (SstoreClearGas, None)
    else ret (SstoreResetGas, None)
  else
    let value := word_hash y in
    if current =? value then ret (NetSstoreNoopGas, None)
    else
      original <- db (GetCommittedState addr (word_hash x)) ;;
      if original =? current then
        if original =? 0 then ret (NetSstoreInitGas, None)
        else
          (if value =? 0 then db (AddRefund NetSstoreClearRefund) else ret tt) ;;;
          ret (NetSstoreCleanGas, None)
      else
        net_refunds original current value NetSstoreClearRefund
          NetSstoreResetClearRefund NetSstoreResetRefund ;;;
        ret (NetSstoreDirtyGas, None).

Definition gasSStoreEIP2200 : gasFunc := fun _ =>
  m <- get ;;
  if Gas (contract m) <=? SstoreSentryGasEIP2200 then ret (0, Some errReentrancySentry)
  else
    y <- BackM 1 ;;
    x <- BackM 0 ;;
    addr <- contract_Address ;;
    current <- db (GetState addr (word_hash x)) ;;
    let value := word_hash y in
    if current =? value then ret (SloadGasEIP2200, None)
    else
      original <- db (GetCommittedState addr (word_hash x)) ;;
      if original =? current then
        if original =? 0 then ret (SstoreSetGasEIP2200, None)
        else
          (if value =? 0 then db (AddRefund SstoreClearsScheduleRefundEIP2200) else ret tt) ;;;
          ret (SstoreResetGasEIP2200, None)
      else
        net_refunds original current value SstoreClearsScheduleRefundEIP2200
          (SstoreSetGasEIP2200 - SloadGasEIP2200) (SstoreResetGasEIP2200 - SloadGasEIP2200) ;;;
        ret (SloadGasEIP2200, None).

Definition makeGasLog (n : Z) : gasFunc := fun memorySize =>
  l <- BackM 1 ;;
  gas_ovf (Uint64WithOverflow l) (fun requestedSize =>
  r <- memoryGasCost memorySize ;;
  gas_try r (fun gas =>
  gas_ovf (SafeAdd gas LogGas) (fun gas =>
  gas_ovf (SafeAdd gas (n *64 LogTopicGas)) (fun gas =>
  gas_ovf (SafeMul requestedSize LogDataGas) (fun memorySizeGas =>
  gas_ovf (SafeAdd gas memorySizeGas) (fun gas =>
  ret (gas, None))))))).

Definition wordGas (stackpos : Z) : gasFunc := fun memorySize =>
  r <- memoryGasCost memorySize ;;
  gas_try r (fun gas =>
  l <- BackM stackpos ;;
  gas_ovf (Uint64WithOverflow l) (fun wordGas =>
  gas_ovf (SafeMul (toWordSize wordGas) Keccak256WordGas) (fun wordGas =>
  gas_ovf (SafeAdd gas wordGas) (fun gas =>
  ret (gas, None))))).

Definition gasKeccak256 : gasFunc := wordGas 1.
Definition gasCreate2 : gasFunc := wordGas 2.

Definition pureMemoryGascost : gasFunc := memoryGasCost.
Definition gasReturn : gasFunc := pureMemoryGascost.
Definition gasRevert : gasFunc := pureMemoryGascost.
Definition gasMLoad : gasFunc := pureMemoryGascost.
Definition gasMStore8 : gasFunc := pureMemoryGascost.
Definition gasMStore : gasFunc := pureMemoryGascost.
Definition gasCreate : gasFunc := pureMemoryGascost.

(** [stack.data[stack.len()-2]] is the second element from the top. *)
Definition gasExp (perByte : Z) : gasFunc := fun _ =>
  e <- BackM 1 ;;
  let expByteLen := (u_BitLen e + 7) / 8 in
  gas_ovf (SafeAdd (expByteLen *64 perByte) ExpGas) (fun gas => ret (gas, None)).
Definition gasExpFrontier : gasFunc := gasExp ExpByteFrontier.
Definition gasExpEIP158 : gasFunc := gasExp ExpByteEIP158.

(** The common tail of the call gas functions: charge [gas] plus the gas handed
    to the callee, which is remembered in [callGasTemp]. *)
Definition charge_callGas (gas : Z) : VM gasRes :=
  m <- get ;;
  requested <- BackM 0 ;;
  let '(temp, err) := callGas (IsEIP150 (chainRules (ovm m))) (Gas (contract m)) gas requested in
  modify (fun m => set_ovm (set_callGasTemp temp (ovm m)) m) ;;;
  match err with
  | Some e => ret (0, Some e)
  | None => gas_ovf (SafeAdd gas temp) (fun gas => ret (gas, None))
  end.

Definition gasCall : gasFunc := fun memorySize =>
  v <- BackM 2 ;;
  a <- BackM 1 ;;
  let transfersValue := negb (u_IsZero v) in
  let address := u_Bytes20 a in
  r <- rules ;;
  gas <- (if IsEIP158 r then
            (* && is short-circuiting: Empty is only called on a transfer *)
            if transfersValue then
              e <- db (Empty address) ;;
              ret (if e then CallNewAccountGas else 0)
            else ret 0
          else
            e <- db (Exist address) ;;
            ret (if e then 0 else CallNewAccountGas)) ;;
  let gas := if transfersValue then gas +64 CallValueTransferGas else gas in
  mg <- memoryGasCost memorySize ;;
  gas_try mg (fun memoryGas =>
  gas_ovf (SafeAdd gas memoryGas) charge_callGas).

Definition gasCallCode : gasFunc := fun memorySize =>
  mg <- memoryGasCost memorySize ;;
  gas_try mg (fun memoryGas =>
  v <- BackM 2 ;;
  let gas := if negb (u_Sign v =? 0) then CallValueTransferGas else 0 in
  gas_ovf (SafeAdd gas memoryGas) charge_callGas).

Definition gasDelegateCall : gasFunc := fun memorySize =>
  mg <- memoryGasCost memorySize ;; gas_try mg charge_callGas.

Definition gasStaticCall : gasFunc := fun memorySize =>
  mg <- memoryGasCost memorySize ;; gas_try mg charge_callGas.

Definition gasSelfdestruct : gasFunc := fun _ =>
  r <- rules ;;
  addr <- contract_Address ;;
  gas <- (if IsEIP150 r then
            a <- BackM 0 ;;
            let address := u_Bytes20 a in
            create <- (if IsEIP158 r then
                         e <- db (Empty address) ;;
                         if e then b <- db (GetBalance addr) ;; ret (negb (b =? 0))
                         else ret false
                       else e <- db (Exist address) ;; ret (negb e)) ;;
            ret (if create : bool then SelfdestructGasEIP150 +64 CreateBySelfdestructGas
                 else SelfdestructGasEIP150)
          else ret 0) ;;
  s <- db (HasSuicided addr) ;;
  (if negb s then db (AddRefund SelfdestructRefundGas) else ret tt) ;;;
  ret (gas, None).

(** ** Access-list aware variants *)

(** The slot lookup of EIP-2929 is commented out in the source: the cold-access
    surcharge is zero. *)
Definition makeGasSStoreFunc (clearingRefund : Z) : gasFunc := fun _ =>
  m <- get ;;
  if Gas (contract m) <=? SstoreSentryGasEIP2200 then ret (0, Some errReentrancySentry)
  else
    y <- BackM 1 ;;
    x <- peekM ;;
    addr <- contract_Address ;;
    let slot := word_hash x in
    current <- db (GetState addr slot) ;;
    let cost := 0 in
    let value := word_hash y in
    if current =? value then ret (cost +64 WarmStorageReadCostEIP2929, None)
    else
      original <- db (GetCommittedState addr (word_hash x)) ;;
      if original =? current then
        if original =? 0 then ret (cost +64 SstoreSetGasEIP2200, None)
        else
          (if value =? 0 then db (AddRefund clearingRefund) else ret tt) ;;;
          ret (cost +64 (SstoreResetGasEIP2200 - ColdSloadCostEIP2929), None)
      else
        net_refunds original current value clearingRefund
          (SstoreSetGasEIP2200 - WarmStorageReadCostEIP2929)
          ((SstoreResetGasEIP2200 - ColdSloadCostEIP2929) - WarmStorageReadCostEIP2929) ;;;
        ret (cost +64 WarmStorageReadCostEIP2929, None).

Definition gasSStoreEIP2929 : gasFunc := makeGasSStoreFunc SstoreClearsScheduleRefundEIP2200.
Definition gasSStoreEIP3529 : gasFunc := makeGasSStoreFunc SstoreClearsScheduleRefundEIP3529.

Definition gasSLoadEIP2929 : gasFunc := fun _ =>
  loc <- peekM ;;
  addr <- contract_Address ;;
  let slot := word_hash loc in
  let! (_, slotPresent) := db (SlotInAccessList addr slot) ;;
  if negb slotPresent then
    db (AddSlotToAccessList addr slot) ;;; ret (ColdSloadCostEIP2929, None)
  else ret (WarmStorageReadCostEIP2929, None).

Definition gasExtCodeCopyEIP2929 : gasFunc := fun memorySize =>
  r <- gasExtCodeCopy memorySize ;;
  gas_try r (fun gas =>
  a <- peekM ;;
  let addr := u_Bytes20 a in
  warm <- db (AddressInAccessList addr) ;;
  if negb warm then
    db (AddAddressToAccessList addr) ;;;
    gas_ovf (SafeAdd gas (ColdAccountAccessCostEIP2929 - WarmStorageReadCostEIP2929))
      (fun gas => ret (gas, None))
  else ret (gas, None)).

Definition gasEip2929AccountCheck : gasFunc := fun _ =>
  a <- peekM ;;
  let addr := u_Bytes20 a in
  warm <- db (AddressInAccessList addr) ;;
  if negb warm then
    db (AddAddressToAccessList addr) ;;;
    ret (ColdAccountAccessCostEIP2929 - WarmStorageReadCostEIP2929, None)
  else ret (0, None).

Definition makeCallVariantGasCallEIP2929 (oldCalculator : gasFunc) : gasFunc := fun memorySize =>
  a <- BackM 1 ;;
  let addr := u_Bytes20 a in
  warmAccess <- db (AddressInAccessList addr) ;;
  let coldCost := ColdAccountAccessCostEIP2929 - WarmStorageReadCostEIP2929 in
  enough <- (if negb warmAccess then
               db (AddAddressToAccessList addr) ;;; UseGasM coldCost
             else ret true) ;;
  if negb enough then ret (0, Some ErrOutOfGas)
  else
    let! (gas, err) := oldCalculator memorySize ;;
    match warmAccess, err with
    | true, _ | _, Some _ => ret (gas, err)
    | false, None =>
        modify (fun m => set_contract (set_Gas (Gas (contract m) +64 coldCost) (contract m)) m) ;;;
        ret (gas +64 coldCost, None)
    end.

Definition gasCallEIP2929 : gasFunc := makeCallVariantGasCallEIP2929 gasCall.
Definition gasDelegateCallEIP2929 : gasFunc := makeCallVariantGasCallEIP2929 gasDelegateCall.
Definition gasStaticCallEIP2929 : gasFunc := makeCallVariantGasCallEIP2929 gasStaticCall.
Definition gasCallCodeEIP2929 : gasFunc := makeCallVariantGasCallEIP2929 gasCallCode.

Definition makeSelfdestructGasFn (refundsEnabled : bool) : gasFunc := fun _ =>
  a <- peekM ;;
  let address := u_Bytes20 a in
  addr <- contract_Address ;;
  warm <- db (AddressInAccessList address) ;;
  gas <- (if negb warm then
            db (AddAddressToAccessList address) ;;; ret ColdAccountAccessCostEIP2929
          else ret 0) ;;
  e <- db (Empty address) ;;
  create <- (if e : bool then b <- db (GetBalance addr) ;; ret (negb (b =? 0)) else ret false) ;;
  let gas := if create : bool then gas +64 CreateBySelfdestructGas else gas in
  (if refundsEnabled then
     s <- db (HasSuicided addr) ;;
     if negb s then db (AddRefund SelfdestructRefundGas) else ret tt
   else ret tt) ;;;
  ret (gas, None).

Definition gasSelfdestructEIP2929 : gasFunc := makeSelfdestructGasFn true.
Definition gasSelfdestructEIP3529 : gasFunc := makeSelfdestructGasFn false.
End gas.
