(* ===== verification/Instructions.v ===== *)
(** * Instructions

    [vm/instructions.go] and the instructions of [octopus_ovm_eips.go].  An
    instruction returns its output bytes and an error.  The calls into the OVM
    ([Call], [Create], ...) are the record [Subs], which the interpreter ties to
    itself.  A caller and its callee share the [jumpdests] map: a sub-call
    returns the map together with its result. *)
From S2P Require Import Prelude Uint256 Params GoMath VmStack Analysis StateDB VmCore.

Abbreviation jdmap := (gmap Z bitvec).
Abbreviation callRes := (list Z * Z * option vmerr)%type.
Abbreviation createRes := (list Z * Z * Z * option vmerr)%type.

Record Subs := {
  sub_Call : ContractRef -> Z -> list Z -> Z -> Z -> M OVM (callRes * jdmap);
  sub_CallCode : ContractRef -> Z -> list Z -> Z -> Z -> M OVM (callRes * jdmap);
  sub_DelegateCall : ContractRef -> Z -> list Z -> Z -> M OVM (callRes * jdmap);
  sub_StaticCall : ContractRef -> Z -> list Z -> Z -> M OVM (callRes * jdmap);
  sub_Create : ContractRef -> list Z -> Z -> Z -> M OVM (createRes * jdmap);
  sub_Create2 : ContractRef -> list Z -> Z -> Z -> Z -> M OVM (createRes * jdmap) }.

(** Parts of the machine. *)
Definition onOVM {A} (p : M OVM A) : VM A := fun m =>
  match p (ovm m) with
  | Ret (a, o) => Ret (a, set_ovm o m)
  | Panic e => Panic e
  | NoFuel => NoFuel
  end.
Definition memM (f : Memory -> outcome Memory) : VM unit :=
  m <- get ;; x <- liftO (f (mem m)) ;; put (set_mem x m).
Definition readMem {A} (f : Memory -> outcome A) : VM A := m <- get ;; liftO (f (mem m)).
Definition setReturnData (r : list Z) : VM unit :=
  modify (fun m => set_ovm (set_returnData r (ovm m)) m).
(** [scope.Contract.Gas += g] *)
Definition addGas (g : Z) : VM unit :=
  modify (fun m => set_contract (set_Gas (Gas (contract m) +64 g) (contract m)) m).

Section instructions.
Context `{U : Uint256} `{C : Crypto} `{B : ByteUtils}.

Definition done_ : VM execRes := ret ([], None).
Definition fail (e : vmerr) : VM execRes := ret ([], Some e).
Definition push_ (v : Z) : VM execRes := pushM v ;;; done_.

(** [x, y := pop(), peek(); y.f(&x, y)] *)
Definition binop (f : Z -> Z -> Z) : VM execRes :=
  x <- popM ;; y <- peekM ;; setTop (f x y) ;;; done_.
(** A comparison leaves one or zero. *)
Definition cmpop (f : Z -> Z -> bool) : VM execRes :=
  binop (fun x y => if f x y then 1 else 0).

Definition opAdd : VM execRes := binop u_Add.
Definition opSub : VM execRes := binop u_Sub.
Definition opMul : VM execRes := binop u_Mul.
Definition opDiv : VM execRes := binop u_Div.
Definition opSdiv : VM execRes := binop u_SDiv.
Definition opMod : VM execRes := binop u_Mod.
Definition opSmod : VM execRes := binop u_SMod.
Definition opExp : VM execRes := binop u_Exp.
Definition opSignExtend : VM execRes := binop (fun back num => u_ExtendSign num back).
Definition opNot : VM execRes := x <- peekM ;; setTop (u_Not x) ;;; done_.
Definition opLt : VM execRes := cmpop u_Lt.
Definition opGt : VM execRes := cmpop u_Gt.
Definition opSlt : VM execRes := cmpop u_Slt.
Definition opSgt : VM execRes := cmpop u_Sgt.
Definition opEq : VM execRes := cmpop u_Eq.
Definition opIszero : VM execRes :=
  x <- peekM ;; setTop (if u_IsZero x then 1 else 0) ;;; done_.
Definition opAnd : VM execRes := binop u_And.
Definition opOr : VM execRes := binop u_Or.
Definition opXor : VM execRes := binop u_Xor.
Definition opByte : VM execRes := binop (fun th val => u_Byte val th).
Definition opAddmod : VM execRes :=
  x <- popM ;; y <- popM ;; z <- peekM ;;
  setTop (if u_IsZero z then 0 else u_AddMod x y z) ;;; done_.
Definition opMulmod : VM execRes :=
  x <- popM ;; y <- popM ;; z <- peekM ;; setTop (u_MulMod x y z) ;;; done_.
Definition opSHL : VM execRes :=
  binop (fun shift value => if u_LtUint64 shift 256 then u_Lsh value (u_Uint64 shift) else 0).
Definition opSHR : VM execRes :=
  binop (fun shift value => if u_LtUint64 shift 256 then u_Rsh value (u_Uint64 shift) else 0).
Definition opSAR : VM execRes :=
  binop (fun shift value =>
    if u_GtUint64 shift 256 then (if 0 <=? u_Sign value then 0 else two256 - 1)
    else u_SRsh value (u_Uint64 shift)).

Definition opKeccak256 : VM execRes :=
  offset <- popM ;; size <- peekM ;;
  data <- readMem (Memory_GetPtr (int64_of (u_Uint64 offset)) (int64_of (u_Uint64 size))) ;;
  let h := keccak256 data in
  m <- get ;;
  (if EnablePreimageRecording (ovm m) then db (AddPreimage (be_value h 0) data) else ret tt) ;;;
  setTop (u_SetBytes h) ;;; done_.

Definition opAddress : VM execRes :=
  m <- get ;; push_ (u_SetBytes (be_bytes 20 (self (contract m)))).

Definition opBalance : VM execRes :=
  slot <- peekM ;;
  b <- db (GetBalance (u_Bytes20 slot)) ;;
  setTop (u_FromBig b) ;;; done_.

Definition opOrigin : VM execRes :=
  m <- get ;; push_ (u_SetBytes (be_bytes 20 (Origin (ovm m)))).
Definition opCaller : VM execRes :=
  m <- get ;; push_ (u_SetBytes (be_bytes 20 (CallerAddress (contract m)))).

(** [push(uint256.FromBig(x))]: a nil [x] is dereferenced. *)
Definition push_big (x : option Z) : VM execRes :=
  match x with Some v => push_ (u_FromBig v) | None => panicM PNil end.

Definition opCallValue : VM execRes := m <- get ;; push_big (value (contract m)).

Definition opCallDataLoad : VM execRes :=
  x <- peekM ;;
  let '(offset, overflow) := Uint64WithOverflow x in
  (if overflow then setTop 0
   else
     m <- get ;;
     data <- liftO (getData (Input (contract m)) offset 32) ;;
     setTop (u_SetBytes data)) ;;; done_.

Definition opCallDataSize : VM execRes := m <- get ;; push_ (zlen (Input (contract m))).

(** [0xffffffffffffffff] on overflow. *)
Definition clampOffset (x : Z) : Z :=
  let '(o, overflow) := Uint64WithOverflow x in if overflow then two64 - 1 else o.

(** The copy instructions write the zero-padded piece of [src] to memory. *)
Definition copy_to_memory (src : list Z) (memOffset dataOffset length : Z) : VM execRes :=
  d <- liftO (getData src (clampOffset dataOffset) (u_Uint64 length)) ;;
  memM (Memory_Set (u_Uint64 memOffset) (u_Uint64 length) d) ;;; done_.

Definition opCallDataCopy : VM execRes :=
  memOffset <- popM ;; dataOffset <- popM ;; length <- popM ;;
  m <- get ;; copy_to_memory (Input (contract m)) memOffset dataOffset length.

Definition opReturnDataSize : VM execRes := m <- get ;; push_ (zlen (returnData (ovm m))).

Definition opReturnDataCopy : VM execRes :=
  memOffset <- popM ;; dataOffset <- popM ;; length <- popM ;;
  let '(offset64, overflow) := Uint64WithOverflow dataOffset in
  if overflow then fail ErrReturnDataOutOfBounds
  else
    let '(end64, overflow) := Uint64WithOverflow (u_Add dataOffset length) in
    m <- get ;;
    if overflow || (zlen (returnData (ovm m)) <? end64) then fail ErrReturnDataOutOfBounds
    else
      d <- liftO (slice (returnData (ovm m)) offset64 end64) ;;
      memM (Memory_Set (u_Uint64 memOffset) (u_Uint64 length) d) ;;; done_.

Definition opExtCodeSize : VM execRes :=
  slot <- peekM ;; n <- db (GetCodeSize (u_Bytes20 slot)) ;; setTop n ;;; done_.

Definition opCodeSize : VM execRes := m <- get ;; push_ (zlen (Code (contract m))).

Definition opCodeCopy : VM execRes :=
  memOffset <- popM ;; codeOffset <- popM ;; length <- popM ;;
  m <- get ;; copy_to_memory (Code (contract m)) memOffset codeOffset length.

Definition opExtCodeCopy : VM execRes :=
  a <- popM ;; memOffset <- popM ;; codeOffset <- popM ;; length <- popM ;;
  c <- db (GetCode (u_Bytes20 a)) ;;
  copy_to_memory c memOffset codeOffset length.

Definition opExtCodeHash : VM execRes :=
  slot <- peekM ;;
  let address := u_Bytes20 slot in
  e <- db (Empty address) ;;
  (if e : bool then setTop 0
   else h <- db (GetCodeHash address) ;; setTop (u_SetBytes (be_bytes 32 h))) ;;; done_.

Definition opGasprice : VM execRes := m <- get ;; push_ (u_FromBig (GasPrice (ovm m))).

Definition opBlockhash : VM execRes :=
  num <- peekM ;;
  let '(num64, overflow) := Uint64WithOverflow num in
  if overflow then setTop 0 ;;; done_
  else
    m <- get ;;
    let upper := wrap64 (BlockNumber (Context (ovm m))) in
    let lower := if upper <? 257 then 0 else upper - 256 in
    setTop (if (lower <=? num64) && (num64 <? upper)
            then u_SetBytes (be_bytes 32 (GetHash (Context (ovm m)) num64)) else 0) ;;; done_.

Definition opCoinbase : VM execRes :=
  m <- get ;; push_ (u_SetBytes (be_bytes 20 (Coinbase (Context (ovm m))))).
Definition opTimestamp : VM execRes := m <- get ;; push_ (u_FromBig (Time (Context (ovm m)))).
Definition opNumber : VM execRes := m <- get ;; push_ (u_FromBig (BlockNumber (Context (ovm m)))).
Definition opDifficulty : VM execRes := m <- get ;; push_ (u_FromBig (Difficulty (Context (ovm m)))).
Definition opRandom : VM execRes :=
  m <- get ;;
  match Random (Context (ovm m)) with
  | Some h => push_ (u_SetBytes (be_bytes 32 h))
  | None => panicM PNil
  end.
Definition opGasLimit : VM execRes := m <- get ;; push_ (GasLimit (Context (ovm m))).

Definition opPop : VM execRes := _ <- popM ;; done_.

Definition opMload : VM execRes :=
  v <- peekM ;;
  d <- readMem (Memory_GetPtr (int64_of (u_Uint64 v)) 32) ;;
  setTop (u_SetBytes d) ;;; done_.

Definition opMstore : VM execRes :=
  mStart <- popM ;; val <- popM ;; memM (Memory_Set32 (u_Uint64 mStart) val) ;;; done_.

(** [scope.Memory.store[off] = byte(val)] *)
Definition Memory_store8 (off v : Z) (x : Memory) : outcome Memory :=
  if off <? zlen (store x)
  then Ret {| store := <[Z.to_nat off := v mod 256]> (store x); lastGasCost := lastGasCost x |}
  else Panic PIndex.
Definition opMstore8 : VM execRes :=
  off <- popM ;; val <- popM ;; memM (Memory_store8 (u_Uint64 off) (u_Uint64 val)) ;;; done_.

Definition opSload : VM execRes :=
  loc <- peekM ;;
  m <- get ;;
  v <- db (GetState (self (contract m)) (word_hash loc)) ;;
  setTop (u_SetBytes (be_bytes 32 v)) ;;; done_.

(** [if interpreter.readOnly { return nil, ErrWriteProtection }] *)
Definition writeProtected (k : VM execRes) : VM execRes :=
  m <- get ;; if readOnly (ovm m) then fail ErrWriteProtection else k.

Definition opSstore : VM execRes :=
  writeProtected (
  loc <- popM ;; val <- popM ;;
  m <- get ;;
  db (SetState (self (contract m)) (word_hash loc) (word_hash val)) ;;; done_).

(** The check of the destination and the jump itself. *)
Definition jump (pos : Z) : VM execRes :=
  m <- get ;;
  let! (ok, c) := liftO (validJumpdest pos (contract m)) ;;
  put (set_contract c m) ;;;
  if ok : bool then modify (set_pc (u_Uint64 pos -64 1)) ;;; done_ else fail ErrInvalidJump.

Definition opJump : VM execRes :=
  m <- get ;;
  if abort (ovm m) then fail errStopToken else pos <- popM ;; jump pos.

Definition opJumpi : VM execRes :=
  m <- get ;;
  if abort (ovm m) then fail errStopToken
  else
    pos <- popM ;; cond <- popM ;;
    if negb (u_IsZero cond) then jump pos else done_.

Definition opJumpdest : VM execRes := done_.
Definition opPc : VM execRes := m <- get ;; push_ (pc m).
Definition opMsize : VM execRes := m <- get ;; push_ (zlen (store (mem m))).
Definition opGas : VM execRes := m <- get ;; push_ (Gas (contract m)).

(** Run a method of the OVM on behalf of the current contract. *)
Definition subcall {A} (p : ContractRef -> M OVM (A * jdmap)) : VM A :=
  m <- get ;;
  let! (r, jd) := onOVM (p (RefContract (contract m))) ;;
  modify (fun m => set_contract (set_analysis jd (analysis (contract m)) (contract m)) m) ;;;
  ret r.

(** The tail of [opCreate] and [opCreate2]. *)
Definition finish_create (stackvalue : Z) (res : list Z) (returnGas : Z) (suberr : option vmerr)
  : VM execRes :=
  pushM stackvalue ;;;
  addGas returnGas ;;;
  if decide (suberr = Some ErrExecutionReverted)
  then setReturnData res ;;; ret (res, None)
  else setReturnData [] ;;; done_.

Definition opCreate (S : Subs) : VM execRes :=
  writeProtected (
  value <- popM ;; offset <- popM ;; size <- popM ;;
  input <- readMem (Memory_GetCopy (int64_of (u_Uint64 offset)) (int64_of (u_Uint64 size))) ;;
  m <- get ;;
  let gas := Gas (contract m) in
  let gas := if IsEIP150 (chainRules (ovm m)) then gas - gas / 64 else gas in
  _ <- UseGasM gas ;;
  let! (res, addr, returnGas, suberr) := subcall (fun c => sub_Create S c input gas value) ;;
  m <- get ;;
  let stackvalue :=
    if IsHomestead (chainRules (ovm m)) && bool_decide (suberr = Some ErrCodeStoreOutOfGas) then 0
    else if negb (bool_decide (suberr = None)) &&
            negb (bool_decide (suberr = Some ErrCodeStoreOutOfGas)) then 0
    else u_SetBytes (be_bytes 20 addr) in
  finish_create stackvalue res returnGas suberr).

Definition opCreate2 (S : Subs) : VM execRes :=
  writeProtected (
  endowment <- popM ;; offset <- popM ;; size <- popM ;; salt <- popM ;;
  input <- readMem (Memory_GetCopy (int64_of (u_Uint64 offset)) (int64_of (u_Uint64 size))) ;;
  m <- get ;;
  let gas := Gas (contract m) in
  let gas := gas - gas / 64 in
  _ <- UseGasM gas ;;
  let! (res, addr, returnGas, suberr) :=
    subcall (fun c => sub_Create2 S c input gas endowment salt) ;;
  finish_create (if bool_decide (suberr = None) then u_SetBytes (be_bytes 20 addr) else 0)
    res returnGas suberr).

(** The tail of the four call instructions. *)
Definition finish_call (retOffset retSize : Z) (r : callRes) : VM execRes :=
  let '(rv, returnGas, err) := r in
  pushM (match err with Some _ => 0 | None => 1 end) ;;;
  rv <- (if decide (err = None \/ err = Some ErrExecutionReverted) then
           let rv := CopyBytes rv in
           memM (Memory_Set (u_Uint64 retOffset) (u_Uint64 retSize) rv) ;;; ret rv
         else ret rv) ;;
  addGas returnGas ;;;
  setReturnData rv ;;;
  ret (rv, None).

(** [scope.Memory.GetPtr(int64(inOffset.Uint64()), int64(inSize.Uint64()))] *)
Definition callArgs (inOffset inSize : Z) : VM (list Z) :=
  readMem (Memory_GetPtr (int64_of (u_Uint64 inOffset)) (int64_of (u_Uint64 inSize))).

Definition withStipend (gas value : Z) : Z :=
  if negb (u_IsZero value) then gas +64 CallStipend else gas.

Definition opCall (S : Subs) : VM execRes :=
  _ <- popM ;;
  gas <- gets (fun m => callGasTemp (ovm m)) ;;
  addr <- popM ;; value <- popM ;; inOffset <- popM ;; inSize <- popM ;;
  retOffset <- popM ;; retSize <- popM ;;
  let toAddr := u_Bytes20 addr in
  args <- callArgs inOffset inSize ;;
  m <- get ;;
  if readOnly (ovm m) && negb (u_IsZero value) then fail ErrWriteProtection
  else
    r <- subcall (fun c => sub_Call S c toAddr args (withStipend gas value) value) ;;
    finish_call retOffset retSize r.

Definition opCallCode (S : Subs) : VM execRes :=
  _ <- popM ;;
  gas <- gets (fun m => callGasTemp (ovm m)) ;;
  addr <- popM ;; value <- popM ;; inOffset <- popM ;; inSize <- popM ;;
  retOffset <- popM ;; retSize <- popM ;;
  let toAddr := u_Bytes20 addr in
  args <- callArgs inOffset inSize ;;
  r <- subcall (fun c => sub_CallCode S c toAddr args (withStipend gas value) value) ;;
  finish_call retOffset retSize r.

Definition opDelegateCall (S : Subs) : VM execRes :=
  _ <- popM ;;
  gas <- gets (fun m => callGasTemp (ovm m)) ;;
  addr <- popM ;; inOffset <- popM ;; inSize <- popM ;; retOffset <- popM ;; retSize <- popM ;;
  let toAddr := u_Bytes20 addr in
  args <- callArgs inOffset inSize ;;
  r <- subcall (fun c => sub_DelegateCall S c toAddr args gas) ;;
  finish_call retOffset retSize r.

Definition opStaticCall (S : Subs) : VM execRes :=
  _ <- popM ;;
  gas <- gets (fun m => callGasTemp (ovm m)) ;;
  addr <- popM ;; inOffset <- popM ;; inSize <- popM ;; retOffset <- popM ;; retSize <- popM ;;
  let toAddr := u_Bytes20 addr in
  args <- callArgs inOffset inSize ;;
  r <- subcall (fun c => sub_StaticCall S c toAddr args gas) ;;
  finish_call retOffset retSize r.

Definition opReturn : VM execRes :=
  offset <- popM ;; size <- popM ;;
  d <- callArgs offset size ;; ret (d, Some errStopToken).

Definition opRevert : VM execRes :=
  offset <- popM ;; size <- popM ;;
  d <- callArgs offset size ;;
  setReturnData d ;;; ret (d, Some ErrExecutionReverted).

Definition opUndefined : VM execRes :=
  m <- get ;;
  b <- liftO (index (Code (contract m)) (pc m)) ;; fail (ErrInvalidOpCode b).

Definition opStop : VM execRes := fail errStopToken.

Definition opSelfdestruct : VM execRes :=
  writeProtected (
  beneficiary <- popM ;;
  m <- get ;;
  balance <- db (GetBalance (self (contract m))) ;;
  db (AddBalance (u_Bytes20 beneficiary) balance) ;;;
  _ <- db (Suicide (self (contract m))) ;;
  fail errStopToken).

Fixpoint popTopics (n : nat) : VM (list Z) :=
  match n with
  | O => ret []
  | S k => addr <- popM ;; r <- popTopics k ;; ret (word_hash addr :: r)
  end.

Definition makeLog (size : nat) : VM execRes :=
  writeProtected (
  mStart <- popM ;; mSize <- popM ;;
  topics <- popTopics size ;;
  d <- readMem (Memory_GetCopy (int64_of (u_Uint64 mStart)) (int64_of (u_Uint64 mSize))) ;;
  m <- get ;;
  db (AddLog {| log_Address := self (contract m); log_Topics := topics; log_Data := d;
                log_BlockNumber := wrap64 (BlockNumber (Context (ovm m)));
                log_TxHash := 0; log_TxIndex := 0; log_Index := 0 |}) ;;;
  done_).

Definition opPush1 : VM execRes :=
  modify (fun m => set_pc (pc m +64 1) m) ;;;
  m <- get ;;
  if pc m <? zlen (Code (contract m)) then
    b <- liftO (index (Code (contract m)) (pc m)) ;; push_ b
  else push_ 0.

Definition makePush (size pushByteSize : Z) : VM execRes :=
  m <- get ;;
  let codeLen := zlen (Code (contract m)) in
  let startMin := if int64_of (pc m + 1) <? codeLen then int64_of (pc m + 1) else codeLen in
  let endMin := if startMin + pushByteSize <? codeLen then startMin + pushByteSize else codeLen in
  d <- liftO (slice (Code (contract m)) startMin endMin) ;;
  pushM (u_SetBytes (RightPadBytes d pushByteSize)) ;;;
  modify (fun m => set_pc (pc m +64 size) m) ;;;
  done_.

Definition makeDup (size : Z) : VM execRes :=
  m <- get ;; st <- liftO (dup size (stack m)) ;; put (set_stack st m) ;;; done_.

Definition makeSwap (size : Z) : VM execRes :=
  m <- get ;; st <- liftO (swap (size + 1) (stack m)) ;; put (set_stack st m) ;;; done_.

(** ** Instructions added by EIPs *)
Definition opSelfBalance : VM execRes :=
  m <- get ;; b <- db (GetBalance (self (contract m))) ;; push_ (u_FromBig b).
Definition opChainID : VM execRes := m <- get ;; push_big (chainID (ovm m)).
Definition opBaseFee : VM execRes := m <- get ;; push_big (BaseFee (Context (ovm m))).
Definition opPush0 : VM execRes := push_ 0.
End instructions.
