(* ===== verification/JumpTable.v ===== *)
(** * The jump table

    [vm/octopus_ovm_operation.go] and the activators of
    [octopus_ovm_eips.go].  The function values an [operation] holds are the
    codes [executionFunc], [gasFn] and [memorySizeFunc], one per function of
    the source; [exec_], [gas_] and [memsize_] below give each code the function
    it stands for.  A [JumpTable] is the array of 256 pointers: [None] is nil. *)
From S2P Require Import Prelude Uint256 Params GoMath VmStack Analysis StateDB VmCore VmGas.
From S2P Require Import Instructions.

Inductive executionFunc : Set :=
| f_opAdd | f_opSub | f_opMul | f_opDiv | f_opSdiv | f_opMod | f_opSmod | f_opExp | f_opSignExtend
| f_opNot | f_opLt | f_opGt | f_opSlt | f_opSgt | f_opEq | f_opIszero | f_opAnd | f_opOr | f_opXor
| f_opByte | f_opAddmod | f_opMulmod | f_opSHL | f_opSHR | f_opSAR | f_opKeccak256 | f_opAddress
| f_opBalance | f_opOrigin | f_opCaller | f_opCallValue | f_opCallDataLoad | f_opCallDataSize
| f_opCallDataCopy | f_opReturnDataSize | f_opReturnDataCopy | f_opExtCodeSize | f_opCodeSize
| f_opCodeCopy | f_opExtCodeCopy | f_opExtCodeHash | f_opGasprice | f_opBlockhash | f_opCoinbase
| f_opTimestamp | f_opNumber | f_opDifficulty | f_opRandom | f_opGasLimit | f_opPop | f_opMload
| f_opMstore | f_opMstore8 | f_opSload | f_opSstore | f_opJump | f_opJumpi | f_opJumpdest | f_opPc
| f_opMsize | f_opGas | f_opCreate | f_opCreate2 | f_opCall | f_opCallCode | f_opDelegateCall
| f_opStaticCall | f_opReturn | f_opRevert | f_opUndefined | f_opStop | f_opSelfdestruct
| f_makeLog (size : Z) | f_opPush1 | f_makePush (size pushByteSize : Z) | f_makeDup (size : Z)
| f_makeSwap (size : Z) | f_opSelfBalance | f_opChainID | f_opBaseFee | f_opPush0.

Inductive gasFn : Set :=
| g_gasCallDataCopy | g_gasCodeCopy | g_gasExtCodeCopy | g_gasReturnDataCopy | g_gasSStore
| g_gasSStoreEIP2200 | g_makeGasLog (n : Z) | g_gasKeccak256 | g_gasReturn | g_gasRevert
| g_gasMLoad | g_gasMStore8 | g_gasMStore | g_gasCreate | g_gasCreate2 | g_gasExpFrontier
| g_gasExpEIP158 | g_gasCall | g_gasCallCode | g_gasDelegateCall | g_gasStaticCall
| g_gasSelfdestruct | g_gasSStoreEIP2929 | g_gasSStoreEIP3529 | g_gasSLoadEIP2929
| g_gasExtCodeCopyEIP2929 | g_gasEip2929AccountCheck | g_gasCallEIP2929 | g_gasDelegateCallEIP2929
| g_gasStaticCallEIP2929 | g_gasCallCodeEIP2929 | g_gasSelfdestructEIP2929
| g_gasSelfdestructEIP3529.

Inductive memorySizeFunc : Set :=
| m_memoryKeccak256 | m_memoryCallDataCopy | m_memoryReturnDataCopy | m_memoryCodeCopy
| m_memoryExtCodeCopy | m_memoryMLoad | m_memoryMStore8 | m_memoryMStore | m_memoryCreate
| m_memoryCreate2 | m_memoryCall | m_memoryDelegateCall | m_memoryStaticCall | m_memoryReturn
| m_memoryRevert | m_memoryLog.

#[export] Instance executionFunc_eq_dec : EqDecision executionFunc.
Proof. solve_decision. Defined.
#[export] Instance gasFn_eq_dec : EqDecision gasFn.
Proof. solve_decision. Defined.
#[export] Instance memorySizeFunc_eq_dec : EqDecision memorySizeFunc.
Proof. solve_decision. Defined.

Record operation := mkOp {
  execute : executionFunc; constantGas : Z; dynamicGas : option gasFn;
  op_minStack : Z; op_maxStack : Z; memorySize : option memorySizeFunc }.

Abbreviation JumpTable := (list (option operation)).

(** ** The meaning of the codes *)
Section meaning.
Context `{U : Uint256} `{C : Crypto} `{B : ByteUtils}.

Definition memsize_ (f : memorySizeFunc) : Stack -> outcome (Z * bool) :=
  match f with
  | m_memoryKeccak256 => memoryKeccak256 | m_memoryCallDataCopy => memoryCallDataCopy
  | m_memoryReturnDataCopy => memoryReturnDataCopy | m_memoryCodeCopy => memoryCodeCopy
  | m_memoryExtCodeCopy => memoryExtCodeCopy | m_memoryMLoad => memoryMLoad
  | m_memoryMStore8 => memoryMStore8 | m_memoryMStore => memoryMStore
  | m_memoryCreate => memoryCreate | m_memoryCreate2 => memoryCreate2
  | m_memoryCall => memoryCall | m_memoryDelegateCall => memoryDelegateCall
  | m_memoryStaticCall => memoryStaticCall | m_memoryReturn => memoryReturn
  | m_memoryRevert => memoryRevert | m_memoryLog => memoryLog
  end.

Definition gas_ (f : gasFn) : gasFunc :=
  match f with
  | g_gasCallDataCopy => gasCallDataCopy | g_gasCodeCopy => gasCodeCopy
  | g_gasExtCodeCopy => gasExtCodeCopy | g_gasReturnDataCopy => gasReturnDataCopy
  | g_gasSStore => gasSStore | g_gasSStoreEIP2200 => gasSStoreEIP2200
  | g_makeGasLog n => makeGasLog n | g_gasKeccak256 => gasKeccak256
  | g_gasReturn => gasReturn | g_gasRevert => gasRevert | g_gasMLoad => gasMLoad
  | g_gasMStore8 => gasMStore8 | g_gasMStore => gasMStore | g_gasCreate => gasCreate
  | g_gasCreate2 => gasCreate2 | g_gasExpFrontier => gasExpFrontier
  | g_gasExpEIP158 => gasExpEIP158 | g_gasCall => gasCall | g_gasCallCode => gasCallCode
  | g_gasDelegateCall => gasDelegateCall | g_gasStaticCall => gasStaticCall
  | g_gasSelfdestruct => gasSelfdestruct | g_gasSStoreEIP2929 => gasSStoreEIP2929
  | g_gasSStoreEIP3529 => gasSStoreEIP3529 | g_gasSLoadEIP2929 => gasSLoadEIP2929
  | g_gasExtCodeCopyEIP2929 => gasExtCodeCopyEIP2929
  | g_gasEip2929AccountCheck => gasEip2929AccountCheck
  | g_gasCallEIP2929 => gasCallEIP2929 | g_gasDelegateCallEIP2929 => gasDelegateCallEIP2929
  | g_gasStaticCallEIP2929 => gasStaticCallEIP2929
  | g_gasCallCodeEIP2929 => gasCallCodeEIP2929
  | g_gasSelfdestructEIP2929 => gasSelfdestructEIP2929
  | g_gasSelfdestructEIP3529 => gasSelfdestructEIP3529
  end.

Definition exec_ (S : Subs) (f : executionFunc) : VM execRes :=
  match f with
  | f_opAdd => opAdd | f_opSub => opSub | f_opMul => opMul | f_opDiv => opDiv
  | f_opSdiv => opSdiv | f_opMod => opMod | f_opSmod => opSmod | f_opExp => opExp
  | f_opSignExtend => opSignExtend | f_opNot => opNot | f_opLt => opLt | f_opGt => opGt
  | f_opSlt => opSlt | f_opSgt => opSgt | f_opEq => opEq | f_opIszero => opIszero
  | f_opAnd => opAnd | f_opOr => opOr | f_opXor => opXor | f_opByte => opByte
  | f_opAddmod => opAddmod | f_opMulmod => opMulmod | f_opSHL => opSHL | f_opSHR => opSHR
  | f_opSAR => opSAR | f_opKeccak256 => opKeccak256 | f_opAddress => opAddress
  | f_opBalance => opBalance | f_opOrigin => opOrigin | f_opCaller => opCaller
  | f_opCallValue => opCallValue | f_opCallDataLoad => opCallDataLoad
  | f_opCallDataSize => opCallDataSize | f_opCallDataCopy => opCallDataCopy
  | f_opReturnDataSize => opReturnDataSize | f_opReturnDataCopy => opReturnDataCopy
  | f_opExtCodeSize => opExtCodeSize | f_opCodeSize => opCodeSize | f_opCodeCopy => opCodeCopy
  | f_opExtCodeCopy => opExtCodeCopy | f_opExtCodeHash => opExtCodeHash
  | f_opGasprice => opGasprice | f_opBlockhash => opBlockhash | f_opCoinbase => opCoinbase
  | f_opTimestamp => opTimestamp | f_opNumber => opNumber | f_opDifficulty => opDifficulty
  | f_opRandom => opRandom | f_opGasLimit => opGasLimit | f_opPop => opPop
  | f_opMload => opMload | f_opMstore => opMstore | f_opMstore8 => opMstore8
  | f_opSload => opSload | f_opSstore => opSstore | f_opJump => opJump | f_opJumpi => opJumpi
  | f_opJumpdest => opJumpdest | f_opPc => opPc | f_opMsize => opMsize | f_opGas => opGas
  | f_opCreate => opCreate S | f_opCreate2 => opCreate2 S | f_opCall => opCall S
  | f_opCallCode => opCallCode S | f_opDelegateCall => opDelegateCall S
  | f_opStaticCall => opStaticCall S | f_opReturn => opReturn | f_opRevert => opRevert
  | f_opUndefined => opUndefined | f_opStop => opStop | f_opSelfdestruct => opSelfdestruct
  | f_makeLog n => makeLog (Z.to_nat n) | f_opPush1 => opPush1
  | f_makePush n k => makePush n k | f_makeDup n => makeDup n | f_makeSwap n => makeSwap n
  | f_opSelfBalance => opSelfBalance | f_opChainID => opChainID | f_opBaseFee => opBaseFee
  | f_opPush0 => opPush0
  end.
End meaning.

(** ** The frontier table *)

Definition frontier_arith : list (Z * operation) := [
    (STOP, mkOp f_opStop 0 None (minStack 0 0) (maxStack 0 0) None)
  ; (ADD, mkOp f_opAdd GasFastestStep None (minStack 2 1) (maxStack 2 1) None)
  ; (MUL, mkOp f_opMul GasFastStep None (minStack 2 1) (maxStack 2 1) None)
  ; (SUB, mkOp f_opSub GasFastestStep None (minStack 2 1) (maxStack 2 1) None)
  ; (DIV, mkOp f_opDiv GasFastStep None (minStack 2 1) (maxStack 2 1) None)
  ; (SDIV, mkOp f_opSdiv GasFastStep None (minStack 2 1) (maxStack 2 1) None)
  ; (MOD, mkOp f_opMod GasFastStep None (minStack 2 1) (maxStack 2 1) None)
  ; (SMOD, mkOp f_opSmod GasFastStep None (minStack 2 1) (maxStack 2 1) None)
  ; (ADDMOD, mkOp f_opAddmod GasMidStep None (minStack 3 1) (maxStack 3 1) None)
  ; (MULMOD, mkOp f_opMulmod GasMidStep None (minStack 3 1) (maxStack 3 1) None)
  ; (EXP, mkOp f_opExp 0 (Some g_gasExpFrontier) (minStack 2 1) (maxStack 2 1) None)
  ; (SIGNEXTEND, mkOp f_opSignExtend GasFastStep None (minStack 2 1) (maxStack 2 1) None)
  ; (LT, mkOp f_opLt GasFastestStep None (minStack 2 1) (maxStack 2 1) None)
  ; (GT, mkOp f_opGt GasFastestStep None (minStack 2 1) (maxStack 2 1) None)
  ; (SLT, mkOp f_opSlt GasFastestStep None (minStack 2 1) (maxStack 2 1) None)
  ; (SGT, mkOp f_opSgt GasFastestStep None (minStack 2 1) (maxStack 2 1) None)
  ; (EQ, mkOp f_opEq GasFastestStep None (minStack 2 1) (maxStack 2 1) None)
  ; (ISZERO, mkOp f_opIszero GasFastestStep None (minStack 1 1) (maxStack 1 1) None)
  ; (AND, mkOp f_opAnd GasFastestStep None (minStack 2 1) (maxStack 2 1) None)
  ; (XOR, mkOp f_opXor GasFastestStep None (minStack 2 1) (maxStack 2 1) None)
  ; (OR, mkOp f_opOr GasFastestStep None (minStack 2 1) (maxStack 2 1) None)
  ; (NOT, mkOp f_opNot GasFastestStep None (minStack 1 1) (maxStack 1 1) None)
  ; (BYTE, mkOp f_opByte GasFastestStep None (minStack 2 1) (maxStack 2 1) None)
].

Definition frontier_env : list (Z * operation) := [
    (KECCAK256, mkOp f_opKeccak256 Keccak256Gas (Some g_gasKeccak256) (minStack 2 1) (maxStack 2 1) (Some m_memoryKeccak256))
  ; (ADDRESS, mkOp f_opAddress GasQuickStep None (minStack 0 1) (maxStack 0 1) None)
  ; (BALANCE, mkOp f_opBalance BalanceGasFrontier None (minStack 1 1) (maxStack 1 1) None)
  ; (ORIGIN, mkOp f_opOrigin GasQuickStep None (minStack 0 1) (maxStack 0 1) None)
  ; (CALLER, mkOp f_opCaller GasQuickStep None (minStack 0 1) (maxStack 0 1) None)
  ; (CALLVALUE, mkOp f_opCallValue GasQuickStep None (minStack 0 1) (maxStack 0 1) None)
  ; (CALLDATALOAD, mkOp f_opCallDataLoad GasFastestStep None (minStack 1 1) (maxStack 1 1) None)
  ; (CALLDATASIZE, mkOp f_opCallDataSize GasQuickStep None (minStack 0 1) (maxStack 0 1) None)
  ; (CALLDATACOPY, mkOp f_opCallDataCopy GasFastestStep (Some g_gasCallDataCopy) (minStack 3 0) (maxStack 3 0) (Some m_memoryCallDataCopy))
  ; (CODESIZE, mkOp f_opCodeSize GasQuickStep None (minStack 0 1) (maxStack 0 1) None)
  ; (CODECOPY, mkOp f_opCodeCopy GasFastestStep (Some g_gasCodeCopy) (minStack 3 0) (maxStack 3 0) (Some m_memoryCodeCopy))
  ; (GASPRICE, mkOp f_opGasprice GasQuickStep None (minStack 0 1) (maxStack 0 1) None)
  ; (EXTCODESIZE, mkOp f_opExtCodeSize ExtcodeSizeGasFrontier None (minStack 1 1) (maxStack 1 1) None)
  ; (EXTCODECOPY, mkOp f_opExtCodeCopy ExtcodeCopyBaseFrontier (Some g_gasExtCodeCopy) (minStack 4 0) (maxStack 4 0) (Some m_memoryExtCodeCopy))
  ; (BLOCKHASH, mkOp f_opBlockhash GasExtStep None (minStack 1 1) (maxStack 1 1) None)
  ; (COINBASE, mkOp f_opCoinbase GasQuickStep None (minStack 0 1) (maxStack 0 1) None)
  ; (TIMESTAMP, mkOp f_opTimestamp GasQuickStep None (minStack 0 1) (maxStack 0 1) None)
  ; (NUMBER, mkOp f_opNumber GasQuickStep None (minStack 0 1) (maxStack 0 1) None)
  ; (DIFFICULTY, mkOp f_opDifficulty GasQuickStep None (minStack 0 1) (maxStack 0 1) None)
  ; (GASLIMIT, mkOp f_opGasLimit GasQuickStep None (minStack 0 1) (maxStack 0 1) None)
].

Definition frontier_flow : list (Z * operation) := [
    (POP, mkOp f_opPop GasQuickStep None (minStack 1 0) (maxStack 1 0) None)
  ; (MLOAD, mkOp f_opMload GasFastestStep (Some g_gasMLoad) (minStack 1 1) (maxStack 1 1) (Some m_memoryMLoad))
  ; (MSTORE, mkOp f_opMstore GasFastestStep (Some g_gasMStore) (minStack 2 0) (maxStack 2 0) (Some m_memoryMStore))
  ; (MSTORE8, mkOp f_opMstore8 GasFastestStep (Some g_gasMStore8) (minStack 2 0) (maxStack 2 0) (Some m_memoryMStore8))
  ; (SLOAD, mkOp f_opSload SloadGasFrontier None (minStack 1 1) (maxStack 1 1) None)
  ; (SSTORE, mkOp f_opSstore 0 (Some g_gasSStore) (minStack 2 0) (maxStack 2 0) None)
  ; (JUMP, mkOp f_opJump GasMidStep None (minStack 1 0) (maxStack 1 0) None)
  ; (JUMPI, mkOp f_opJumpi GasSlowStep None (minStack 2 0) (maxStack 2 0) None)
  ; (PC, mkOp f_opPc GasQuickStep None (minStack 0 1) (maxStack 0 1) None)
  ; (MSIZE, mkOp f_opMsize GasQuickStep None (minStack 0 1) (maxStack 0 1) None)
  ; (GAS, mkOp f_opGas GasQuickStep None (minStack 0 1) (maxStack 0 1) None)
  ; (JUMPDEST, mkOp f_opJumpdest JumpdestGas None (minStack 0 0) (maxStack 0 0) None)
].

Definition frontier_push : list (Z * operation) := [
    (PUSH1, mkOp f_opPush1 GasFastestStep None (minStack 0 1) (maxStack 0 1) None)
  ; (PUSH2, mkOp (f_makePush 2 2) GasFastestStep None (minStack 0 1) (maxStack 0 1) None)
  ; (PUSH3, mkOp (f_makePush 3 3) GasFastestStep None (minStack 0 1) (maxStack 0 1) None)
  ; (PUSH4, mkOp (f_makePush 4 4) GasFastestStep None (minStack 0 1) (maxStack 0 1) None)
  ; (PUSH5, mkOp (f_makePush 5 5) GasFastestStep None (minStack 0 1) (maxStack 0 1) None)
  ; (PUSH6, mkOp (f_makePush 6 6) GasFastestStep None (minStack 0 1) (maxStack 0 1) None)
  ; (PUSH7, mkOp (f_makePush 7 7) GasFastestStep None (minStack 0 1) (maxStack 0 1) None)
  ; (PUSH8, mkOp (f_makePush 8 8) GasFastestStep None (minStack 0 1) (maxStack 0 1) None)
  ; (PUSH9, mkOp (f_makePush 9 9) GasFastestStep None (minStack 0 1) (maxStack 0 1) None)
  ; (PUSH10, mkOp (f_makePush 10 10) GasFastestStep None (minStack 0 1) (maxStack 0 1) None)
  ; (PUSH11, mkOp (f_makePush 11 11) GasFastestStep None (minStack 0 1) (maxStack 0 1) None)
  ; (PUSH12, mkOp (f_makePush 12 12) GasFastestStep None (minStack 0 1) (maxStack 0 1) None)
  ; (PUSH13, mkOp (f_makePush 13 13) GasFastestStep None (minStack 0 1) (maxStack 0 1) None)
  ; (PUSH14, mkOp (f_makePush 14 14) GasFastestStep None (minStack 0 1) (maxStack 0 1) None)
  ; (PUSH15, mkOp (f_makePush 15 15) GasFastestStep None (minStack 0 1) (maxStack 0 1) None)
  ; (PUSH16, mkOp (f_makePush 16 16) GasFastestStep None (minStack 0 1) (maxStack 0 1) None)
].

Definition frontier_push17 : list (Z * operation) := [
    (PUSH17, mkOp (f_makePush 17 17) GasFastestStep None (minStack 0 1) (maxStack 0 1) None)
  ; (PUSH18, mkOp (f_makePush 18 18) GasFastestStep None (minStack 0 1) (maxStack 0 1) None)
  ; (PUSH19, mkOp (f_makePush 19 19) GasFastestStep None (minStack 0 1) (maxStack 0 1) None)
  ; (PUSH20, mkOp (f_makePush 20 20) GasFastestStep None (minStack 0 1) (maxStack 0 1) None)
  ; (PUSH21, mkOp (f_makePush 21 21) GasFastestStep None (minStack 0 1) (maxStack 0 1) None)
  ; (PUSH22, mkOp (f_makePush 22 22) GasFastestStep None (minStack 0 1) (maxStack 0 1) None)
  ; (PUSH23, mkOp (f_makePush 23 23) GasFastestStep None (minStack 0 1) (maxStack 0 1) None)
  ; (PUSH24, mkOp (f_makePush 24 24) GasFastestStep None (minStack 0 1) (maxStack 0 1) None)
  ; (PUSH25, mkOp (f_makePush 25 25) GasFastestStep None (minStack 0 1) (maxStack 0 1) None)
  ; (PUSH26, mkOp (f_makePush 26 26) GasFastestStep None (minStack 0 1) (maxStack 0 1) None)
  ; (PUSH27, mkOp (f_makePush 27 27) GasFastestStep None (minStack 0 1) (maxStack 0 1) None)
  ; (PUSH28, mkOp (f_makePush 28 28) GasFastestStep None (minStack 0 1) (maxStack 0 1) None)
  ; (PUSH29, mkOp (f_makePush 29 29) GasFastestStep None (minStack 0 1) (maxStack 0 1) None)
  ; (PUSH30, mkOp (f_makePush 30 30) GasFastestStep None (minStack 0 1) (maxStack 0 1) None)
  ; (PUSH31, mkOp (f_makePush 31 31) GasFastestStep None (minStack 0 1) (maxStack 0 1) None)
  ; (PUSH32, mkOp (f_makePush 32 32) GasFastestStep None (minStack 0 1) (maxStack 0 1) None)
].

Definition frontier_dup : list (Z * operation) := [
    (DUP1, mkOp (f_makeDup 1) GasFastestStep None (minDupStack 1) (maxDupStack 1) None)
  ; (DUP2, mkOp (f_makeDup 2) GasFastestStep None (minDupStack 2) (maxDupStack 2) None)
  ; (DUP3, mkOp (f_makeDup 3) GasFastestStep None (minDupStack 3) (maxDupStack 3) None)
  ; (DUP4, mkOp (f_makeDup 4) GasFastestStep None (minDupStack 4) (maxDupStack 4) None)
  ; (DUP5, mkOp (f_makeDup 5) GasFastestStep None (minDupStack 5) (maxDupStack 5) None)
  ; (DUP6, mkOp (f_makeDup 6) GasFastestStep None (minDupStack 6) (maxDupStack 6) None)
  ; (DUP7, mkOp (f_makeDup 7) GasFastestStep None (minDupStack 7) (maxDupStack 7) None)
  ; (DUP8, mkOp (f_makeDup 8) GasFastestStep None (minDupStack 8) (maxDupStack 8) None)
  ; (DUP9, mkOp (f_makeDup 9) GasFastestStep None (minDupStack 9) (maxDupStack 9) None)
  ; (DUP10, mkOp (f_makeDup 10) GasFastestStep None (minDupStack 10) (maxDupStack 10) None)
  ; (DUP11, mkOp (f_makeDup 11) GasFastestStep None (minDupStack 11) (maxDupStack 11) None)
  ; (DUP12, mkOp (f_makeDup 12) GasFastestStep None (minDupStack 12) (maxDupStack 12) None)
  ; (DUP13, mkOp (f_makeDup 13) GasFastestStep None (minDupStack 13) (maxDupStack 13) None)
  ; (DUP14, mkOp (f_makeDup 14) GasFastestStep None (minDupStack 14) (maxDupStack 14) None)
  ; (DUP15, mkOp (f_makeDup 15) GasFastestStep None (minDupStack 15) (maxDupStack 15) None)
  ; (DUP16, mkOp (f_makeDup 16) GasFastestStep None (minDupStack 16) (maxDupStack 16) None)
].

Definition frontier_swap : list (Z * operation) := [
    (SWAP1, mkOp (f_makeSwap 1) GasFastestStep None (minSwapStack 2) (maxSwapStack 2) None)
  ; (SWAP2, mkOp (f_makeSwap 2) GasFastestStep None (minSwapStack 3) (maxSwapStack 3) None)
  ; (SWAP3, mkOp (f_makeSwap 3) GasFastestStep None (minSwapStack 4) (maxSwapStack 4) None)
  ; (SWAP4, mkOp (f_makeSwap 4) GasFastestStep None (minSwapStack 5) (maxSwapStack 5) None)
  ; (SWAP5, mkOp (f_makeSwap 5) GasFastestStep None (minSwapStack 6) (maxSwapStack 6) None)
  ; (SWAP6, mkOp (f_makeSwap 6) GasFastestStep None (minSwapStack 7) (maxSwapStack 7) None)
  ; (SWAP7, mkOp (f_makeSwap 7) GasFastestStep None (minSwapStack 8) (maxSwapStack 8) None)
  ; (SWAP8, mkOp (f_makeSwap 8) GasFastestStep None (minSwapStack 9) (maxSwapStack 9) None)
  ; (SWAP9, mkOp (f_makeSwap 9) GasFastestStep None (minSwapStack 10) (maxSwapStack 10) None)
  ; (SWAP10, mkOp (f_makeSwap 10) GasFastestStep None (minSwapStack 11) (maxSwapStack 11) None)
  ; (SWAP11, mkOp (f_makeSwap 11) GasFastestStep None (minSwapStack 12) (maxSwapStack 12) None)
  ; (SWAP12, mkOp (f_makeSwap 12) GasFastestStep None (minSwapStack 13) (maxSwapStack 13) None)
  ; (SWAP13, mkOp (f_makeSwap 13) GasFastestStep None (minSwapStack 14) (maxSwapStack 14) None)
  ; (SWAP14, mkOp (f_makeSwap 14) GasFastestStep None (minSwapStack 15) (maxSwapStack 15) None)
  ; (SWAP15, mkOp (f_makeSwap 15) GasFastestStep None (minSwapStack 16) (maxSwapStack 16) None)
  ; (SWAP16, mkOp (f_makeSwap 16) GasFastestStep None (minSwapStack 17) (maxSwapStack 17) None)
].

Definition frontier_sys : list (Z * operation) := [
    (LOG0, mkOp (f_makeLog 0) 0 (Some (g_makeGasLog 0)) (minStack 2 0) (maxStack 2 0) (Some m_memoryLog))
  ; (LOG1, mkOp (f_makeLog 1) 0 (Some (g_makeGasLog 1)) (minStack 3 0) (maxStack 3 0) (Some m_memoryLog))
  ; (LOG2, mkOp (f_makeLog 2) 0 (Some (g_makeGasLog 2)) (minStack 4 0) (maxStack 4 0) (Some m_memoryLog))
  ; (LOG3, mkOp (f_makeLog 3) 0 (Some (g_makeGasLog 3)) (minStack 5 0) (maxStack 5 0) (Some m_memoryLog))
  ; (LOG4, mkOp (f_makeLog 4) 0 (Some (g_makeGasLog 4)) (minStack 6 0) (maxStack 6 0) (Some m_memoryLog))
  ; (CREATE, mkOp f_opCreate CreateGas (Some g_gasCreate) (minStack 3 1) (maxStack 3 1) (Some m_memoryCreate))
  ; (CALL, mkOp f_opCall CallGasFrontier (Some g_gasCall) (minStack 7 1) (maxStack 7 1) (Some m_memoryCall))
  ; (CALLCODE, mkOp f_opCallCode CallGasFrontier (Some g_gasCallCode) (minStack 7 1) (maxStack 7 1) (Some m_memoryCall))
  ; (RETURN, mkOp f_opReturn 0 (Some g_gasReturn) (minStack 2 0) (maxStack 2 0) (Some m_memoryReturn))
  ; (SELFDESTRUCT, mkOp f_opSelfdestruct 0 (Some g_gasSelfdestruct) (minStack 1 0) (maxStack 1 0) None)
].
(** The array literal; the positions it does not name are nil. *)
Definition frontier_entries : gmap Z operation :=
  list_to_map (frontier_arith ++ frontier_env ++ frontier_flow ++ frontier_push ++
               frontier_push17 ++ frontier_dup ++ frontier_swap ++ frontier_sys).

Definition frontier_literal : JumpTable :=
  (fun i : nat => frontier_entries !! Z.of_nat i) <$> seq 0 256.

(** The loop that fills the unassigned slots with [opUndefined]. *)
Definition fillUndefined (tbl : JumpTable) : JumpTable :=
  (fun entry => match entry with
                | None => Some (mkOp f_opUndefined 0 None 0 (maxStack 0 0) None)
                | Some op => Some op
                end) <$> tbl.

(** ** Validation and updates *)
Definition valid_op (op : option operation) : bool :=
  match op with
  | None => false
  | Some op => negb (bool_decide (is_Some (memorySize op)) && bool_decide (dynamicGas op = None))
  end.

Definition validate (jt : JumpTable) : outcome JumpTable :=
  if forallb valid_op jt then Ret jt else Panic PTable.

(** [jt[i] = &operation{...}] *)
Definition set_op (i : Z) (op : operation) (jt : JumpTable) : JumpTable :=
  <[Z.to_nat i := Some op]> jt.

(** [jt[i].field = ...]: a nil entry is dereferenced. *)
Definition upd_op (i : Z) (f : operation -> operation) (jt : JumpTable) : outcome JumpTable :=
  match jt !! Z.to_nat i with
  | Some (Some op) => Ret (set_op i (f op) jt)
  | _ => Panic PNil
  end.

Definition with_gas (g : Z) (op : operation) : operation :=
  mkOp (execute op) g (dynamicGas op) (op_minStack op) (op_maxStack op) (memorySize op).
Definition with_dynamic (g : gasFn) (op : operation) : operation :=
  mkOp (execute op) (constantGas op) (Some g) (op_minStack op) (op_maxStack op) (memorySize op).

Definition set_constantGas (i g : Z) : JumpTable -> outcome JumpTable := upd_op i (with_gas g).
Definition set_dynamicGas (i : Z) (g : gasFn) : JumpTable -> outcome JumpTable :=
  upd_op i (with_dynamic g).

(** ** EIP activators *)
Definition enable1884 (jt : JumpTable) : outcome JumpTable :=
  jt <-o set_constantGas SLOAD SloadGasEIP1884 jt ;;
  jt <-o set_constantGas BALANCE BalanceGasEIP1884 jt ;;
  jt <-o set_constantGas EXTCODEHASH ExtcodeHashGasEIP1884 jt ;;
  Ret (set_op SELFBALANCE
         (mkOp f_opSelfBalance GasFastStep None (minStack 0 1) (maxStack 0 1) None) jt).

Definition enable1344 (jt : JumpTable) : outcome JumpTable :=
  Ret (set_op CHAINID (mkOp f_opChainID GasQuickStep None (minStack 0 1) (maxStack 0 1) None) jt).

Definition enable2200 (jt : JumpTable) : outcome JumpTable :=
  jt <-o set_constantGas SLOAD SloadGasEIP2200 jt ;;
  set_dynamicGas SSTORE g_gasSStoreEIP2200 jt.

Definition enable2929 (jt : JumpTable) : outcome JumpTable :=
  jt <-o set_dynamicGas SSTORE g_gasSStoreEIP2929 jt ;;
  jt <-o set_constantGas SLOAD 0 jt ;;
  jt <-o set_dynamicGas SLOAD g_gasSLoadEIP2929 jt ;;
  jt <-o set_constantGas EXTCODECOPY WarmStorageReadCostEIP2929 jt ;;
  jt <-o set_dynamicGas EXTCODECOPY g_gasExtCodeCopyEIP2929 jt ;;
  jt <-o set_constantGas EXTCODESIZE WarmStorageReadCostEIP2929 jt ;;
  jt <-o set_dynamicGas EXTCODESIZE g_gasEip2929AccountCheck jt ;;
  jt <-o set_constantGas EXTCODEHASH WarmStorageReadCostEIP2929 jt ;;
  jt <-o set_dynamicGas EXTCODEHASH g_gasEip2929AccountCheck jt ;;
  jt <-o set_constantGas BALANCE WarmStorageReadCostEIP2929 jt ;;
  jt <-o set_dynamicGas BALANCE g_gasEip2929AccountCheck jt ;;
  jt <-o set_constantGas CALL WarmStorageReadCostEIP2929 jt ;;
  jt <-o set_dynamicGas CALL g_gasCallEIP2929 jt ;;
  jt <-o set_constantGas CALLCODE WarmStorageReadCostEIP2929 jt ;;
  jt <-o set_dynamicGas CALLCODE g_gasCallCodeEIP2929 jt ;;
  jt <-o set_constantGas STATICCALL WarmStorageReadCostEIP2929 jt ;;
  jt <-o set_dynamicGas STATICCALL g_gasStaticCallEIP2929 jt ;;
  jt <-o set_constantGas DELEGATECALL WarmStorageReadCostEIP2929 jt ;;
  jt <-o set_dynamicGas DELEGATECALL g_gasDelegateCallEIP2929 jt ;;
  jt <-o set_constantGas SELFDESTRUCT SelfdestructGasEIP150 jt ;;
  set_dynamicGas SELFDESTRUCT g_gasSelfdestructEIP2929 jt.

Definition enable3529 (jt : JumpTable) : outcome JumpTable :=
  jt <-o set_dynamicGas SSTORE g_gasSStoreEIP3529 jt ;;
  set_dynamicGas SELFDESTRUCT g_gasSelfdestructEIP3529 jt.

Definition enable3198 (jt : JumpTable) : outcome JumpTable :=
  Ret (set_op BASEFEE (mkOp f_opBaseFee GasQuickStep None (minStack 0 1) (maxStack 0 1) None) jt).

Definition enable3855 (jt : JumpTable) : outcome JumpTable :=
  Ret (set_op PUSH0 (mkOp f_opPush0 GasQuickStep None (minStack 0 1) (maxStack 0 1) None) jt).

Definition activators : gmap Z (JumpTable -> outcome JumpTable) :=
  list_to_map [(3855, enable3855); (3529, enable3529); (3198, enable3198); (2929, enable2929);
               (2200, enable2200); (1884, enable1884); (1344, enable1344)].

(** [None] is the error "undefined eip". *)
Definition EnableEIP (eipNum : Z) (jt : JumpTable) : option (outcome JumpTable) :=
  enablerFn ← activators !! eipNum; Some (enablerFn jt).

Definition ValidEip (eipNum : Z) : bool := bool_decide (is_Some (activators !! eipNum)).

(** ** The instruction sets *)
Definition newFrontierInstructionSet : outcome JumpTable :=
  validate (fillUndefined frontier_literal).

Definition newHomesteadInstructionSet : outcome JumpTable :=
  jt <-o newFrontierInstructionSet ;;
  validate (set_op DELEGATECALL
    (mkOp f_opDelegateCall CallGasFrontier (Some g_gasDelegateCall) (minStack 6 1) (maxStack 6 1)
       (Some m_memoryDelegateCall)) jt).

Definition newTangerineWhistleInstructionSet : outcome JumpTable :=
  jt <-o newHomesteadInstructionSet ;;
  jt <-o set_constantGas BALANCE BalanceGasEIP150 jt ;;
  jt <-o set_constantGas EXTCODESIZE ExtcodeSizeGasEIP150 jt ;;
  jt <-o set_constantGas SLOAD SloadGasEIP150 jt ;;
  jt <-o set_constantGas EXTCODECOPY ExtcodeCopyBaseEIP150 jt ;;
  jt <-o set_constantGas CALL CallGasEIP150 jt ;;
  jt <-o set_constantGas CALLCODE CallGasEIP150 jt ;;
  jt <-o set_constantGas DELEGATECALL CallGasEIP150 jt ;;
  validate jt.

Definition newSpuriousDragonInstructionSet : outcome JumpTable :=
  jt <-o newTangerineWhistleInstructionSet ;;
  jt <-o set_dynamicGas EXP g_gasExpEIP158 jt ;;
  validate jt.

Definition newByzantiumInstructionSet : outcome JumpTable :=
  jt <-o newSpuriousDragonInstructionSet ;;
  let jt := set_op STATICCALL
    (mkOp f_opStaticCall CallGasEIP150 (Some g_gasStaticCall) (minStack 6 1) (maxStack 6 1)
       (Some m_memoryStaticCall)) jt in
  let jt := set_op RETURNDATASIZE
    (mkOp f_opReturnDataSize GasQuickStep None (minStack 0 1) (maxStack 0 1) None) jt in
  let jt := set_op RETURNDATACOPY
    (mkOp f_opReturnDataCopy GasFastestStep (Some g_gasReturnDataCopy) (minStack 3 0)
       (maxStack 3 0) (Some m_memoryReturnDataCopy)) jt in
  let jt := set_op REVERT
    (mkOp f_opRevert 0 (Some g_gasRevert) (minStack 2 0) (maxStack 2 0)
       (Some m_memoryRevert)) jt in
  validate jt.

Definition newConstantinopleInstructionSet : outcome JumpTable :=
  jt <-o newByzantiumInstructionSet ;;
  let jt := set_op SHL (mkOp f_opSHL GasFastestStep None (minStack 2 1) (maxStack 2 1) None) jt in
  let jt := set_op SHR (mkOp f_opSHR GasFastestStep None (minStack 2 1) (maxStack 2 1) None) jt in
  let jt := set_op SAR (mkOp f_opSAR GasFastestStep None (minStack 2 1) (maxStack 2 1) None) jt in
  let jt := set_op EXTCODEHASH
    (mkOp f_opExtCodeHash ExtcodeHashGasConstantinople None (minStack 1 1) (maxStack 1 1)
       None) jt in
  let jt := set_op CREATE2
    (mkOp f_opCreate2 Create2Gas (Some g_gasCreate2) (minStack 4 1) (maxStack 4 1)
       (Some m_memoryCreate2)) jt in
  validate jt.

Definition newIstanbulInstructionSet : outcome JumpTable :=
  jt <-o newConstantinopleInstructionSet ;;
  jt <-o enable1344 jt ;;
  jt <-o enable1884 jt ;;
  jt <-o enable2200 jt ;;
  validate jt.

Definition newBerlinInstructionSet : outcome JumpTable :=
  jt <-o newIstanbulInstructionSet ;;
  jt <-o enable2929 jt ;;
  validate jt.

Definition newLondonInstructionSet : outcome JumpTable :=
  jt <-o newBerlinInstructionSet ;;
  jt <-o enable3529 jt ;;
  jt <-o enable3198 jt ;;
  validate jt.

Definition newMergeInstructionSet : outcome JumpTable :=
  jt <-o newLondonInstructionSet ;;
  validate (set_op RANDOM
    (mkOp f_opRandom GasQuickStep None (minStack 0 1) (maxStack 0 1) None) jt).

(** The choice of [NewOVMInterpreter]. *)
Definition select_table (r : Rules) : outcome JumpTable :=
  if IsMerge r then newMergeInstructionSet
  else if IsLondon r then newLondonInstructionSet
  else if IsBerlin r then newBerlinInstructionSet
  else if IsIstanbul r then newIstanbulInstructionSet
  else if IsConstantinople r then newConstantinopleInstructionSet
  else if IsByzantium r then newByzantiumInstructionSet
  else if IsEIP158 r then newSpuriousDragonInstructionSet
  else if IsEIP150 r then newTangerineWhistleInstructionSet
  else if IsHomestead r then newHomesteadInstructionSet
  else newFrontierInstructionSet.
