(* ===== verification/Interpreter.v ===== *)
(** * The interpreter and the OVM

    [vm/octopus_interpreter.go] ([NewOVMInterpreter], [Run]) and
    [vm/octopus_ovm.go] ([Call], [CallCode], [DelegateCall], [StaticCall],
    [create], [Create], [Create2]) with the precompiled contracts of
    [octopus_ovm_contract.go] and the address derivation of [crypto/crypto.go].

    The Go functions are mutually recursive: the loop runs an instruction, the
    instruction calls the OVM, the OVM runs the loop on a new contract.  The
    model cuts the knot with one fuel argument: a loop with fuel [n+1] runs one
    instruction, whose sub-calls and successors get fuel [n]. *)
From S2P Require Import Prelude Uint256 Params GoMath VmStack Analysis Rlp StateDB VmCore VmGas.
From S2P Require Import Instructions JumpTable.

(** ** Precompiled contracts *)
Inductive PrecompiledContract : Set := P_ecrecover | P_sha256hash | P_ripemd160hash | P_dataCopy.

Definition secp256k1N : Z :=
  115792089237316195423570985008687907852837564279074904382605163141518161494337.
Definition secp256k1halfN : Z := secp256k1N / 2.

Definition ValidateSignatureValues (v r s : Z) (homestead : bool) : bool :=
  if (r <? 1) || (s <? 1) then false
  else if homestead && (secp256k1halfN <? s) then false
  else (r <? secp256k1N) && (s <? secp256k1N) && ((v =? 0) || (v =? 1)).

(** The integer operations are [uint64]; [len(input)+31] is an [int]. *)
Definition perWordGas (perWord base : Z) (input : list Z) : Z :=
  (wrap64 (zlen input + 31) / 32 *64 perWord) +64 base.

Definition RequiredGas (p : PrecompiledContract) (input : list Z) : Z :=
  match p with
  | P_ecrecover => EcrecoverGas
  | P_sha256hash => perWordGas Sha256PerWordGas Sha256BaseGas input
  | P_ripemd160hash => perWordGas Ripemd160PerWordGas Ripemd160BaseGas input
  | P_dataCopy => perWordGas IdentityPerWordGas IdentityBaseGas input
  end.

(** [PrecompiledContractsHomestead] *)
Definition precompile (addr : Z) : option PrecompiledContract :=
  if addr =? 1 then Some P_ecrecover
  else if addr =? 2 then Some P_sha256hash
  else if addr =? 3 then Some P_ripemd160hash
  else if addr =? 4 then Some P_dataCopy
  else None.

Section interpreter.
Context `{U : Uint256} `{C : Crypto} `{B : ByteUtils}.
(** [in.cfg.JumpTable] *)
Variable jt : JumpTable.

Definition ecrecover_Run (input : list Z) : outcome (list Z) :=
  let input := RightPadBytes input 128 in
  rb <-o slice input 64 96 ;;
  sb <-o slice input 96 128 ;;
  let r := be_value rb 0 in
  let s := be_value sb 0 in
  v0 <-o index input 63 ;;
  let v := (v0 - 27) mod 256 in
  pad <-o slice input 32 63 ;;
  if negb (allZero pad) || negb (ValidateSignatureValues v r s false) then Ret []
  else
    rs <-o slice input 64 128 ;;
    let sig := rs ++ [v] in
    hash <-o slice input 0 32 ;;
    match ecrecover_pub hash sig with
    | None => Ret []
    | Some pubKey =>
        key <-o slice pubKey 1 (zlen pubKey) ;;
        h <-o slice (keccak256 key) 12 32 ;;
        Ret (LeftPadBytes h 32)
    end.

Definition precompile_Run (p : PrecompiledContract) (input : list Z) : outcome (list Z) :=
  match p with
  | P_ecrecover => ecrecover_Run input
  | P_sha256hash => Ret (sha256 input)
  | P_ripemd160hash => Ret (LeftPadBytes (ripemd160 input) 32)
  | P_dataCopy => Ret input
  end.

(** No precompiled contract returns an error. *)
Definition RunPrecompiledContract (p : PrecompiledContract) (input : list Z) (suppliedGas : Z)
  : outcome callRes :=
  let gasCost := RequiredGas p input in
  if suppliedGas <? gasCost then Ret ([], 0, Some errGasExhausted)
  else
    output <-o precompile_Run p input ;;
    Ret (output, suppliedGas - gasCost, None).

(** ** Address derivation *)
(** [entity.BytesToAddress(Keccak256(data)[12:])] *)
Definition address_of_hash (data : list Z) : outcome Z :=
  h <-o slice (keccak256 data) 12 32 ;; Ret (be_value h 0).

Definition CreateAddress (b nonce : Z) : outcome Z :=
  data <-o EncodeToBytes (RList [RBytes (be_bytes 20 b); RUint nonce]) ;;
  address_of_hash data.

Definition CreateAddress2 (b : Z) (salt inithash : list Z) : outcome Z :=
  address_of_hash ([255] ++ be_bytes 20 b ++ salt ++ inithash).

(** ** The main loop *)

(** The memory size of the next instruction, in whole words; [None] is an
    overflow. *)
Definition nextMemorySize (op : operation) : VM (option Z) :=
  match memorySize op with
  | None => ret (Some 0)
  | Some f =>
      m <- get ;;
      let! (memSize, overflow) := liftO (memsize_ f (stack m)) ;;
      if overflow : bool then ret None
      else
        let '(size, overflow) := SafeMul (toWordSize memSize) 32 in
        ret (if overflow : bool then None else Some size)
  end.

Definition chargeDynamic (op : operation) : VM (option vmerr) :=
  match dynamicGas op with
  | None => ret None
  | Some g =>
      sz <- nextMemorySize op ;;
      match sz with
      | None => ret (Some ErrGasUintOverflow)
      | Some memorySize =>
          let! (dynamicCost, err) := gas_ g memorySize ;;
          match err with
          | Some _ => ret (Some ErrOutOfGas)
          | None =>
              ok <- UseGasM dynamicCost ;;
              if negb ok then ret (Some ErrOutOfGas)
              else
                (if 0 <? memorySize
                 then modify (fun m => set_mem (Memory_Resize memorySize (mem m)) m)
                 else ret tt) ;;;
                ret None
          end
      end
  end.

(** One iteration: [Some] is the result the loop ends with. *)
Definition step (S : Subs) : VM (option execRes) :=
  m <- get ;;
  let op := GetOp (pc m) (contract m) in
  match jt !! Z.to_nat op with
  | Some (Some operation) =>
      let sLen := zlen (stack m) in
      if sLen <? op_minStack operation
      then ret (Some ([], Some (ErrStackUnderflow sLen (op_minStack operation))))
      else if op_maxStack operation <? sLen
      then ret (Some ([], Some (ErrStackOverflow sLen (op_maxStack operation))))
      else
        ok <- UseGasM (constantGas operation) ;;
        if negb ok then ret (Some ([], Some errGasExhausted))
        else
          e <- chargeDynamic operation ;;
          match e with
          | Some err => ret (Some ([], Some err))
          | None =>
              let! (res, err) := exec_ S (execute operation) ;;
              match err with
              | Some _ => ret (Some (res, err))
              | None => modify (fun m => set_pc (pc m +64 1) m) ;;; ret None
              end
          end
  | _ => panicM PNil
  end.

(** [Run], given the loop.  The contract is returned for the caller to read
    its remaining gas. *)
Definition Run (loop : VM execRes) (contract : Contract) (input : list Z) (ro : bool)
  : M OVM (execRes * Contract) :=
  modify (fun o => set_depth (depth o + 1) o) ;;;
  o <- get ;;
  let enter := ro && negb (readOnly o) in
  (if enter then modify (set_readOnly true) else ret tt) ;;;
  modify (set_returnData []) ;;;
  r <- (if zlen (Code contract) =? 0 then ret (([], None), contract)
        else fun o =>
          match loop (mkMachine 0 o NewMemory [] (set_Input input contract)) with
          | Ret (res, err, m) =>
              Ret ((res, if decide (err = Some errStopToken) then None else err,
                    VmCore.contract m), ovm m)
          | Panic p => Panic p
          | NoFuel => NoFuel
          end) ;;
  (if enter then modify (set_readOnly false) else ret tt) ;;;
  modify (fun o => set_depth (depth o - 1) o) ;;;
  ret r.

(** ** The OVM's methods *)
Definition odbM {A} (p : M OperationDB A) : M OVM A := fun o =>
  match p (Operationdb o) with
  | Ret (a, d) => Ret (a, set_db d o)
  | Panic e => Panic e
  | NoFuel => NoFuel
  end.

Definition ref_jumpdests (r : ContractRef) : jdmap :=
  match r with RefContract c => jumpdests c | RefAccount _ => ∅ end.

Definition isSome {A} (o : option A) : bool := match o with Some _ => true | None => false end.

(** The reversal at the end of the calls that take a snapshot. *)
Definition revertOnError (snapshot : Z) (r : callRes) : M OVM callRes :=
  let '(rv, gas, err) := r in
  if isSome err then
    odbM (RevertToSnapshot snapshot) ;;;
    ret (rv, if decide (err = Some ErrExecutionReverted) then gas else 0, err)
  else ret r.

Definition Call (loop : VM execRes) (caller : ContractRef) (addr : Z) (input : list Z)
  (gas value : Z) : M OVM (callRes * jdmap) :=
  o <- get ;;
  if CallCreateDepth <? depth o then ret ([], gas, Some errCallDepth, ref_jumpdests caller)
  else
    _ <- odbM (CanTransfer addr 20) ;;
    odbM (Transfer (ref_Address caller) addr value) ;;;
    match precompile addr with
    | Some p =>
        r <- liftO (RunPrecompiledContract p input gas) ;;
        ret (r, ref_jumpdests caller)
    | None =>
        code <- odbM (GetCode addr) ;;
        if zlen code =? 0 then ret ([], gas, None, ref_jumpdests caller)
        else
          let contract := NewContract caller addr (Some value) gas in
          h <- odbM (GetCodeHash addr) ;;
          let contract := SetCallCode addr h code contract in
          let! ((rv, err), contract) := Run loop contract input false ;;
          ret ((rv, Gas contract, err), jumpdests contract)
    end.

Definition CallCode (loop : VM execRes) (caller : ContractRef) (addr : Z) (input : list Z)
  (gas value : Z) : M OVM (callRes * jdmap) :=
  o <- get ;;
  if CallCreateDepth <? depth o then ret ([], gas, Some ErrDepth, ref_jumpdests caller)
  else
    can <- odbM (CanTransfer (ref_Address caller) value) ;;
    if negb can then ret ([], gas, Some ErrInsufficientBalance, ref_jumpdests caller)
    else
      snapshot <- odbM Snapshot ;;
      let! (r, jd) :=
        match precompile addr with
        | Some p =>
            r <- liftO (RunPrecompiledContract p input gas) ;; ret (r, ref_jumpdests caller)
        | None =>
            let contract := NewContract caller (ref_Address caller) (Some value) gas in
            h <- odbM (GetCodeHash addr) ;;
            code <- odbM (GetCode addr) ;;
            let! ((rv, err), contract) := Run loop (SetCallCode addr h code contract) input false ;;
            ret ((rv, Gas contract, err), jumpdests contract)
        end ;;
      r <- revertOnError snapshot r ;;
      ret (r, jd).

Definition DelegateCall (loop : VM execRes) (caller : ContractRef) (addr : Z) (input : list Z)
  (gas : Z) : M OVM (callRes * jdmap) :=
  o <- get ;;
  if CallCreateDepth <? depth o then ret ([], gas, Some ErrDepth, ref_jumpdests caller)
  else
    snapshot <- odbM Snapshot ;;
    let! (r, jd) :=
      match precompile addr with
      | Some p =>
          r <- liftO (RunPrecompiledContract p input gas) ;; ret (r, ref_jumpdests caller)
      | None =>
          contract <- liftO (AsDelegate caller
                               (NewContract caller (ref_Address caller) None gas)) ;;
          h <- odbM (GetCodeHash addr) ;;
          code <- odbM (GetCode addr) ;;
          let! ((rv, err), contract) := Run loop (SetCallCode addr h code contract) input false ;;
          ret ((rv, Gas contract, err), jumpdests contract)
      end ;;
    r <- revertOnError snapshot r ;;
    ret (r, jd).

Definition StaticCall (loop : VM execRes) (caller : ContractRef) (addr : Z) (input : list Z)
  (gas : Z) : M OVM (callRes * jdmap) :=
  o <- get ;;
  if CallCreateDepth <? depth o then ret ([], gas, Some ErrDepth, ref_jumpdests caller)
  else
    snapshot <- odbM Snapshot ;;
    odbM (AddBalance addr 0) ;;;
    let! (r, jd) :=
      match precompile addr with
      | Some p =>
          r <- liftO (RunPrecompiledContract p input gas) ;; ret (r, ref_jumpdests caller)
      | None =>
          let contract := NewContract caller addr (Some 0) gas in
          h <- odbM (GetCodeHash addr) ;;
          code <- odbM (GetCode addr) ;;
          let! ((rv, err), contract) := Run loop (SetCallCode addr h code contract) input true ;;
          ret ((rv, Gas contract, err), jumpdests contract)
      end ;;
    r <- revertOnError snapshot r ;;
    ret (r, jd).

(** [SetCodeOptionalHash]; a zero hash means that it is not known. *)
Definition SetCodeOptionalHash (addr : Z) (code : list Z) (hash : Z) (c : Contract) : Contract :=
  SetCallCode addr hash code c.

(** The checks and the code deposit after the init code has run. *)
Definition deployCode (address : Z) (r : list Z) (err : option vmerr) (contract : Contract)
  : M OVM (option vmerr * Contract) :=
  o <- get ;;
  let err := if negb (isSome err) && IsEIP158 (chainRules o) && (MaxCodeSize <? zlen r)
             then Some ErrMaxCodeSizeExceeded else err in
  let err := if negb (isSome err) && (1 <=? zlen r) && (nth 0 r 0 =? 239) &&
                IsLondon (chainRules o)
             then Some ErrInvalidCode else err in
  match err with
  | Some _ => ret (err, contract)
  | None =>
      let '(ok, contract) := UseGas (zlen r *64 CreateDataGas) contract in
      if ok then odbM (SetCode address r) ;;; ret (None, contract)
      else ret (Some ErrCodeStoreOutOfGas, contract)
  end.

Definition create (loop : VM execRes) (caller : ContractRef) (code : list Z) (codeHash : Z)
  (gas value address : Z) : M OVM (createRes * jdmap) :=
  o <- get ;;
  if CallCreateDepth <? depth o then ret ([], 0, gas, Some ErrDepth, ref_jumpdests caller)
  else
    can <- odbM (CanTransfer (ref_Address caller) value) ;;
    if negb can then ret ([], 0, gas, Some ErrInsufficientBalance, ref_jumpdests caller)
    else
      nonce <- odbM (GetNonce (ref_Address caller)) ;;
      if nonce +64 1 <? nonce then ret ([], 0, gas, Some ErrNonceUintOverflow, ref_jumpdests caller)
      else
        odbM (SetNonce (ref_Address caller) (nonce +64 1)) ;;;
        (if IsBerlin (chainRules o) then odbM (AddAddressToAccessList address) else ret tt) ;;;
        contractHash <- odbM (GetCodeHash address) ;;
        n <- odbM (GetNonce address) ;;
        if negb (n =? 0) ||
           (negb (contractHash =? 0) && negb (contractHash =? emptyCodeHash))
        then ret ([], 0, 0, Some ErrContractAddressCollision, ref_jumpdests caller)
        else
          odbM (CreateAccount address) ;;;
          (if IsEIP158 (chainRules o) then odbM (SetNonce address 1) else ret tt) ;;;
          odbM (Transfer (ref_Address caller) address value) ;;;
          let contract := NewContract caller address (Some value) gas in
          let contract := SetCodeOptionalHash address code codeHash contract in
          let! ((rv, err), contract) := Run loop contract [] false ;;
          let! (err, contract) := deployCode address rv err contract ;;
          ret ((rv, address, Gas contract, err), jumpdests contract).

Definition Create (loop : VM execRes) (caller : ContractRef) (code : list Z) (gas value : Z)
  : M OVM (createRes * jdmap) :=
  nonce <- odbM (GetNonce (ref_Address caller)) ;;
  contractAddr <- liftO (CreateAddress (ref_Address caller) nonce) ;;
  create loop caller code 0 gas value contractAddr.

Definition Create2 (loop : VM execRes) (caller : ContractRef) (code : list Z)
  (gas endowment salt : Z) : M OVM (createRes * jdmap) :=
  let hash := Keccak256Hash code in
  contractAddr <- liftO (CreateAddress2 (ref_Address caller) (u_Bytes32 salt) (be_bytes 32 hash)) ;;
  create loop caller code hash gas endowment contractAddr.

(** ** Tying the knot *)
Definition subs_of (loop : VM execRes) : Subs := {|
  sub_Call := Call loop; sub_CallCode := CallCode loop; sub_DelegateCall := DelegateCall loop;
  sub_StaticCall := StaticCall loop; sub_Create := Create loop; sub_Create2 := Create2 loop |}.

Fixpoint runLoop (fuel : nat) : VM execRes :=
  match fuel with
  | O => fun _ => NoFuel
  | S f =>
      r <- step (subs_of (runLoop f)) ;;
      match r with
      | Some res => ret res
      | None => runLoop f
      end
  end.

(** The entry points, with the fuel of the loop. *)
Definition ovm_Run (fuel : nat) := Run (runLoop fuel).
Definition ovm_Call (fuel : nat) := Call (runLoop fuel).
Definition ovm_Create (fuel : nat) := Create (runLoop fuel).
Definition ovm_Create2 (fuel : nat) := Create2 (runLoop fuel).
End interpreter.
