(* ===== verification/VmInv.v ===== *)
(** * Invariant of the machine state

    What holds of a [Machine] at the head of the interpreter loop, and the
    symbolic-execution rules for the primitive operations on it. *)
From S2P Require Import Prelude Uint256 Params GoMath VmStack Analysis StateDB StateInv VmCore.
From S2P Require Import VmGas Instructions.

(** The largest memory size [memoryGasCost] accepts. *)
Definition memLimit : Z := 137438953440.

(** The total fee of a memory of [w] words. *)
Definition memFee (w : Z) : Z := w * MemoryGas + w * w / QuadCoeffDiv.

Definition wf_memory (me : Memory) : Prop :=
  wf_mem me /\ zlen (store me) <= memLimit /\ zlen (store me) mod 32 = 0 /\
  lastGasCost me = memFee (zlen (store me) / 32).

Definition wf_contract (c : Contract) : Prop :=
  bytes_ok (Code c) /\ bytes_ok (Input c) /\ is_u64 (Gas c) /\ is_Some (value c).

(** The part of the OVM an instruction does not change. *)
Definition env (o : OVM) :=
  (Context o, Origin o, GasPrice o, depth o, chainID o, chainRules o,
   EnablePreimageRecording o, abort o, readOnly o).

Definition wf_env (o : OVM) : Prop :=
  is_u64 (GasLimit (Context o)) /\ is_Some (BaseFee (Context o)) /\ is_Some (chainID o) /\
  (IsMerge (chainRules o) = true -> is_Some (Random (Context o))).

Definition wf_ovm (o : OVM) : Prop :=
  wf_db (Operationdb o) /\ bytes_ok (returnData o) /\ is_u64 (callGasTemp o) /\ wf_env o.

Definition wf_machine (m : Machine) : Prop :=
  is_u64 (pc m) /\ wf_ovm (ovm m) /\ wf_memory (mem m) /\ wf_stack (stack m) /\
  wf_contract (contract m).

Lemma wf_env_eq o o' : env o' = env o -> wf_env o -> wf_env o'.
Proof. unfold env, wf_env. by intros [= -> _ _ _ -> -> _ _ _]. Qed.

Lemma env_rules o o' : env o' = env o -> chainRules o' = chainRules o.
Proof. unfold env. by intros [= _ _ _ _ _ -> _ _ _]. Qed.

Lemma set_db_id o : set_db (Operationdb o) o = o.
Proof. by destruct o. Qed.

Lemma set_Gas_id c : set_Gas (Gas c) c = c.
Proof. by destruct c. Qed.

Lemma wf_set_Gas g c : wf_contract c -> is_u64 g -> wf_contract (set_Gas g c).
Proof. intros (? & ? & ? & ?) ?. unfold wf_contract. cbn. tauto. Qed.

Lemma wf_NewMemory : wf_memory NewMemory.
Proof. split; [constructor|]. unfold memLimit. cbn. done. Qed.

Lemma memFee_bound w : 0 <= w <= 4294967295 -> 0 <= memFee w <= 36028810000000000.
Proof.
  intros Hw. unfold memFee. params.
  assert (0 <= w * w <= 4294967295 * 4294967295) by nia. dlia.
Qed.

Lemma memFee_mono a b : 0 <= a <= b -> memFee a <= memFee b.
Proof.
  intros H. unfold memFee. params. assert (a * a / 512 <= b * b / 512); [|lia].
  apply Z.div_le_mono; nia.
Qed.

Lemma wf_memory_lt me : wf_memory me -> 0 <= zlen (store me) < two63.
Proof. intros (_ & H & _). pose proof (zlen_nonneg (store me)). unfold memLimit in H. lia. Qed.

(** ** Symbolic execution *)
Section rules.
Context {U : Uint256} {L : Uint256Laws U} {C : Crypto}.
Context {A : Type} (Q : A -> Machine -> Prop).

Lemma wp_db {X} (p : M OperationDB X) (R : X -> Prop) (k : X -> VM A) pc o me st c d :
  dsafe p R -> wf_db d ->
  (forall a d', wf_db d' -> R a -> wp ok_panic (k a) (mkMachine pc (set_db d' o) me st c) Q) ->
  wp ok_panic (bind (db p) k) (mkMachine pc (set_db d o) me st c) Q.
Proof.
  intros Hp Hd Hk. specialize (Hp d Hd). unfold wp, bind, db in *. cbn.
  destruct (p d) as [[a d']|e|]; [|done|done]. destruct Hp as (Hd' & _ & HR).
  by apply Hk.
Qed.

Lemma wp_BackM n (k : Z -> VM A) m :
  wf_stack (stack m) -> 0 <= n < zlen (stack m) ->
  (forall v, is_u256 v -> Back n (stack m) = Ret v -> wp ok_panic (k v) m Q) ->
  wp ok_panic (bind (BackM n) k) m Q.
Proof.
  intros Hw Hn Hk. destruct (Back_wf _ _ Hw Hn) as (v & Hv & Hr).
  unfold BackM, wp, bind, get, liftO. cbn beta iota. rewrite Hv. by apply Hk.
Qed.

Lemma wp_peekM_Back (k : Z -> VM A) m :
  wf_stack (stack m) -> 0 < zlen (stack m) ->
  (forall v, is_u256 v -> Back 0 (stack m) = Ret v -> wp ok_panic (k v) m Q) ->
  wp ok_panic (bind peekM k) m Q.
Proof.
  intros Hw Hn Hk. destruct (Back_wf _ 0 Hw) as (v & Hv & Hr); [lia|].
  assert (peek (stack m) = Ret v) as Hp.
  { rewrite <- Hv. unfold peek, Back. f_equal. lia. }
  unfold peekM, wp, bind, get, liftO. cbn beta iota. rewrite Hp. by apply Hk.
Qed.

Lemma wp_popM (k : Z -> VM A) pc o me st c x :
  wp ok_panic (k x) (mkMachine pc o me st c) Q ->
  wp ok_panic (bind popM k) (mkMachine pc o me (st ++ [x]) c) Q.
Proof.
  intros Hk. unfold popM, wp, bind, get, put, liftO, ret. cbn [stack].
  rewrite pop_snoc. exact Hk.
Qed.

Lemma wp_peekM (k : Z -> VM A) pc o me st c x :
  wp ok_panic (k x) (mkMachine pc o me (st ++ [x]) c) Q ->
  wp ok_panic (bind peekM k) (mkMachine pc o me (st ++ [x]) c) Q.
Proof.
  intros Hk. unfold peekM, wp, bind, get, liftO. cbn [stack]. rewrite peek_snoc. exact Hk.
Qed.

Lemma wp_setTop v (k : unit -> VM A) pc o me st c x :
  wp ok_panic (k tt) (mkMachine pc o me (st ++ [v]) c) Q ->
  wp ok_panic (bind (setTop v) k) (mkMachine pc o me (st ++ [x]) c) Q.
Proof.
  intros Hk. unfold setTop, wp, bind, get, put, liftO. cbn [stack].
  rewrite set_top_snoc. exact Hk.
Qed.

Lemma wp_pushM v (k : unit -> VM A) pc o me st c :
  wp ok_panic (k tt) (mkMachine pc o me (st ++ [v]) c) Q ->
  wp ok_panic (bind (pushM v) k) (mkMachine pc o me st c) Q.
Proof. done. Qed.

Lemma wp_getM (k : Machine -> VM A) m :
  wp ok_panic (k m) m Q -> wp ok_panic (bind get k) m Q.
Proof. done. Qed.

Lemma wp_getsM {X} (f : Machine -> X) (k : X -> VM A) m :
  wp ok_panic (k (f m)) m Q -> wp ok_panic (bind (gets f) k) m Q.
Proof. done. Qed.

Lemma wp_putM m0 (k : unit -> VM A) m :
  wp ok_panic (k tt) m0 Q -> wp ok_panic (bind (put m0) k) m Q.
Proof. done. Qed.

Lemma wp_modifyM f (k : unit -> VM A) m :
  wp ok_panic (k tt) (f m) Q -> wp ok_panic (bind (modify f) k) m Q.
Proof. done. Qed.

Lemma wp_retM {X} (x : X) (k : X -> VM A) m :
  wp ok_panic (k x) m Q -> wp ok_panic (bind (ret x) k) m Q.
Proof. done. Qed.

Lemma wp_liftOM {X} (o : outcome X) x (k : X -> VM A) m :
  o = Ret x -> wp ok_panic (k x) m Q -> wp ok_panic (bind (liftO o) k) m Q.
Proof. intros -> Hk. exact Hk. Qed.

Lemma wp_UseGasM g (k : bool -> VM A) pc o me st c :
  (Gas c < g -> wp ok_panic (k false) (mkMachine pc o me st c) Q) ->
  (g <= Gas c -> wp ok_panic (k true) (mkMachine pc o me st (set_Gas (Gas c - g) c)) Q) ->
  wp ok_panic (bind (UseGasM g) k) (mkMachine pc o me st c) Q.
Proof.
  intros Hf Ht. unfold UseGasM, wp, bind, get, put, ret, UseGas in *. cbn [contract].
  destruct (Z.ltb_spec (Gas c) g); [by apply Hf|by apply Ht].
Qed.

(** Association, so that the rules see the first operation. *)
Lemma wp_assoc {X Y} (p : VM X) (k1 : X -> VM Y) (k2 : Y -> VM A) m :
  wp ok_panic (bind p (fun x => bind (k1 x) k2)) m Q ->
  wp ok_panic (bind (bind p k1) k2) m Q.
Proof. unfold wp, bind. by destruct (p m) as [[x m']|e|]. Qed.
End rules.

(** A [bind] whose first part is a conditional. *)
Lemma wp_bind_if {A X} (Q : A -> Machine -> Prop) (b : bool) (p q : VM X) (k : X -> VM A) m :
  (b = true -> wp ok_panic (bind p k) m Q) -> (b = false -> wp ok_panic (bind q k) m Q) ->
  wp ok_panic (bind (if b then p else q) k) m Q.
Proof. destruct b; auto. Qed.

(** One rule of the symbolic execution; stops at calls into other components. *)
Ltac vm_step :=
  match goal with
  | |- wp _ (bind (bind _ _) _) _ _ => apply wp_assoc; cbn beta
  | |- wp _ (bind (ret _) _) _ _ => apply wp_retM; cbn beta
  | |- wp _ (bind get _) _ _ => apply wp_getM; cbn beta
  | |- wp _ (bind (gets _) _) _ _ => apply wp_getsM; cbn beta
  | |- wp _ (bind (put _) _) _ _ => apply wp_putM; cbn beta
  | |- wp _ (bind (modify _) _) _ _ => apply wp_modifyM; cbn beta
  | |- wp _ (bind popM _) _ _ => apply wp_popM; cbn beta
  | |- wp _ (bind peekM _) _ _ => apply wp_peekM; cbn beta
  | |- wp _ (bind (setTop _) _) _ _ => apply wp_setTop; cbn beta
  | |- wp _ (bind (pushM _) _) _ _ => apply wp_pushM; cbn beta
  | |- wp _ (ret _) _ _ => apply wp_ret
  end.

(** A database call whose safety lemma is in the hint database. *)
Ltac vm_db d Hd H :=
  match goal with
  | |- wp _ (bind (db _) _) _ _ =>
      eapply wp_db; [solve [auto with go]|eassumption|]; intros ? d Hd H; cbn beta
  end.
