(* ===== verification/GasProofs.v ===== *)
(** * Gas functions: safety, memory accounting and lower bounds

    [gas_ok]: from a well-formed machine with enough stack items, every gas
    function of the jump tables returns normally (or ends in one of the panics
    the source raises on purpose), changes only the database, the memory fee and
    [callGasTemp], and charges at least [gas_floor].  For the call instructions
    the floor is the gas handed to the callee plus the price of a value
    transfer, which is what makes nested calls terminate. *)
From S2P Require Import Prelude Uint256 Params GoMath VmStack Analysis StateDB StateInv VmCore.
From S2P Require Import VmGas Instructions JumpTable VmInv.

(** ** What each gas function needs *)
Definition gas_pops (g : gasFn) : Z :=
  match g with
  | g_gasCallDataCopy | g_gasCodeCopy | g_gasReturnDataCopy => 3
  | g_gasExtCodeCopy | g_gasExtCodeCopyEIP2929 => 4
  | g_gasSStore | g_gasSStoreEIP2200 | g_gasSStoreEIP2929 | g_gasSStoreEIP3529
  | g_makeGasLog _ | g_gasKeccak256 | g_gasExpFrontier | g_gasExpEIP158 => 2
  | g_gasCreate2 | g_gasCall | g_gasCallCode | g_gasCallEIP2929 | g_gasCallCodeEIP2929 => 3
  | g_gasDelegateCall | g_gasStaticCall | g_gasDelegateCallEIP2929 | g_gasStaticCallEIP2929 => 2
  | g_gasSelfdestruct | g_gasSLoadEIP2929 | g_gasEip2929AccountCheck
  | g_gasSelfdestructEIP2929 | g_gasSelfdestructEIP3529 => 1
  | g_gasReturn | g_gasRevert | g_gasMLoad | g_gasMStore8 | g_gasMStore | g_gasCreate => 0
  end.

(** The functions that charge for memory. *)
Definition gas_mem (g : gasFn) : bool :=
  match g with
  | g_gasSStore | g_gasSStoreEIP2200 | g_gasSStoreEIP2929 | g_gasSStoreEIP3529
  | g_gasExpFrontier | g_gasExpEIP158 | g_gasSelfdestruct | g_gasSLoadEIP2929
  | g_gasEip2929AccountCheck | g_gasSelfdestructEIP2929 | g_gasSelfdestructEIP3529 => false
  | _ => true
  end.

(** The access-list aware call variants are only safe with the rule of EIP-150. *)
Definition needs_eip150 (g : gasFn) : bool :=
  match g with
  | g_gasCallEIP2929 | g_gasDelegateCallEIP2929 | g_gasStaticCallEIP2929
  | g_gasCallCodeEIP2929 => true
  | _ => false
  end.

Definition value_cost (st : Stack) : Z :=
  match Back 2 st with
  | Ret v => if v =? 0 then 0 else CallValueTransferGas
  | _ => 0
  end.

Definition gas_floor (g : gasFn) (st : Stack) (temp : Z) : Z :=
  match g with
  | g_gasSStore | g_gasSStoreEIP2200 | g_gasSStoreEIP2929 | g_gasSStoreEIP3529
  | g_makeGasLog _ | g_gasExpFrontier | g_gasExpEIP158 | g_gasSLoadEIP2929 => 1
  | g_gasCall | g_gasCallCode | g_gasCallEIP2929 | g_gasCallCodeEIP2929 => temp + value_cost st
  | g_gasDelegateCall | g_gasStaticCall | g_gasDelegateCallEIP2929
  | g_gasStaticCallEIP2929 => temp
  | _ => 0
  end.

(** What a gas function establishes. *)
Definition gas_frame (m m' : Machine) : Prop :=
  pc m' = pc m /\ stack m' = stack m /\ store (mem m') = store (mem m) /\
  wf_ovm (ovm m') /\ env (ovm m') = env (ovm m).

Definition gas_charge (size cost : Z) (m m' : Machine) : Prop :=
  is_u64 cost /\ contract m' = contract m /\ size <= memLimit /\
  lastGasCost (mem m') = memFee (Z.max (size / 32) (zlen (store (mem m)) / 32)).

Definition gas_post (g : gasFn) (size : Z) (m : Machine) (r : gasRes) (m' : Machine) : Prop :=
  gas_frame m m' /\
  (exists gg, contract m' = set_Gas gg (contract m) /\ 0 <= gg <= Gas (contract m)) /\
  match r with
  | (_, Some _) => True
  | (cost, None) =>
      gas_charge size cost m m' /\ gas_floor g (stack m) (callGasTemp (ovm m')) <= cost
  end.

Section gas.
Context {U : Uint256} {L : Uint256Laws U} {C : Crypto}.

(** ** Introduction rules for the postcondition *)
Lemma wf_ovm_set_db d o : wf_ovm o -> wf_db d -> wf_ovm (set_db d o).
Proof. intros (_ & ? & ? & ?) Hd. split; [exact Hd|]. split; [done|]. by split. Qed.

Lemma gas_frame_intro pc o d me me' st c :
  wf_ovm o -> wf_db d -> store me' = store me ->
  gas_frame (mkMachine pc o me st c) (mkMachine pc (set_db d o) me' st c).
Proof.
  intros Ho Hd Hs. split; [done|]. split; [done|]. split; [done|].
  split; [by apply wf_ovm_set_db|done].
Qed.

Lemma gas_err g size pc o d me me' st c x e :
  wf_ovm o -> wf_db d -> wf_contract c -> store me' = store me ->
  gas_post g size (mkMachine pc o me st c) (x, Some e) (mkMachine pc (set_db d o) me' st c).
Proof.
  intros Ho Hd Hc Hs. split; [by apply gas_frame_intro|]. split; [|done].
  exists (Gas c). split; [by rewrite set_Gas_id|]. destruct Hc as (_ & _ & Hg & _).
  unfold is_u64 in Hg. cbn. lia.
Qed.

Lemma gas_ret g size pc o d me me' st c cost :
  wf_ovm o -> wf_db d -> wf_contract c -> store me' = store me ->
  is_u64 cost -> size <= memLimit ->
  lastGasCost me' = memFee (Z.max (size / 32) (zlen (store me) / 32)) ->
  gas_floor g st (callGasTemp o) <= cost ->
  gas_post g size (mkMachine pc o me st c) (cost, None) (mkMachine pc (set_db d o) me' st c).
Proof.
  intros Ho Hd Hc Hs Hcost Hsz Hl Hf. split; [by apply gas_frame_intro|]. split.
  - exists (Gas c). split; [by rewrite set_Gas_id|]. destruct Hc as (_ & _ & Hg & _).
    unfold is_u64 in Hg. cbn. lia.
  - split; [|exact Hf]. split; [done|]. split; [done|]. by split.
Qed.

(** ** Building blocks *)
Lemma fee_unchanged me : wf_memory me ->
  lastGasCost me = memFee (Z.max (0 / 32) (zlen (store me) / 32)).
Proof.
  intros Hme. pose proof (wf_memory_lt me Hme). destruct Hme as (_ & _ & _ & ->).
  f_equal. dlia.
Qed.

(** The memory fee: exact, never negative, and the new total is recorded. *)
Lemma memoryGasCost_run size m : wf_memory (mem m) -> 0 <= size -> size mod 32 = 0 ->
  let old := zlen (store (mem m)) / 32 in
  let new := Z.max (size / 32) old in
  memoryGasCost size m =
    if memLimit <? size then Ret ((0, Some ErrGasUintOverflow), m)
    else Ret ((memFee new - memFee old, None), set_mem (mkMemory (store (mem m)) (memFee new)) m).
Proof.
  intros Hme Hs0 Hs32 old new. pose proof (wf_memory_lt _ Hme) as Hlen.
  destruct Hme as (_ & Hlim & Hmod & Hfee). fold old in Hfee.
  assert (Hsame : new = old -> Ret ((0, None), m) =
    Ret ((memFee new - memFee old, @None vmerr), set_mem (mkMemory (store (mem m)) (memFee new)) m)).
  { intros ->. rewrite Z.sub_diag, <- Hfee. by destruct m as [? ? [? ?] ? ?]. }
  assert (Hold : 0 <= old <= 4294967295) by (unfold old, memLimit in *; dlia).
  unfold memoryGasCost, memLimit. destruct (Z.eqb_spec size 0) as [Hz|Hnz].
  { destruct (Z.ltb_spec 137438953440 size); [lia|]. unfold ret. apply Hsame. unfold new. dlia. }
  destruct (Z.ltb_spec 137438953440 size) as [|Hle]; [done|]. unfold bind, get.
  destruct (toWordSize_spec size) as (Hw & Hw' & _); [lia|].
  assert (Hsz : toWordSize size = size / 32 /\ 32 * (size / 32) = size) by (rewrite Hw; dlia).
  destruct Hsz as [-> Hsz]. set (w := size / 32) in *. assert (0 < w <= 4294967295) by lia.
  rewrite (wrap64_small (w * 32)) by (unfold is_u64; lia). rewrite (Z.mul_comm w 32), Hsz.
  destruct (Z.ltb_spec (zlen (store (mem m))) size) as [Hlt|Hge].
  - assert (Hmax : new = w) by (unfold new, old in *; dlia). rewrite Hmax.
    rewrite (wrap64_small (w * w)) by (unfold is_u64; nia).
    rewrite (wrap64_small (w * MemoryGas)) by (unfold is_u64; params; lia).
    change (w * MemoryGas + w * w / QuadCoeffDiv) with (memFee w).
    pose proof (memFee_bound w). rewrite (wrap64_small (memFee w)) by (unfold is_u64; lia).
    assert (memFee old <= memFee w) by (apply memFee_mono; lia). pose proof (memFee_bound old).
    rewrite Hfee, wrap64_small by (unfold is_u64; lia). done.
  - unfold ret. apply Hsame. unfold new, old in *. dlia.
Qed.

Lemma wp_memoryGasCost {A} (Q : A -> Machine -> Prop) size (k : gasRes -> VM A) pc o me st c :
  wf_memory me -> 0 <= size -> size mod 32 = 0 ->
  (forall e, wp ok_panic (k (0, Some e)) (mkMachine pc o me st c) Q) ->
  (forall fee me', size <= memLimit -> store me' = store me ->
     lastGasCost me' = memFee (Z.max (size / 32) (zlen (store me) / 32)) ->
     fee = lastGasCost me' - lastGasCost me -> 0 <= fee <= 36028810000000000 ->
     wp ok_panic (k (fee, None)) (mkMachine pc o me' st c) Q) ->
  wp ok_panic (bind (memoryGasCost size) k) (mkMachine pc o me st c) Q.
Proof.
  intros Hme Hs0 Hs32 Herr Hok. apply wp_bind. unfold wp at 1.
  rewrite (memoryGasCost_run size (mkMachine pc o me st c)) by done. cbn [VmCore.mem].
  destruct (Z.ltb_spec memLimit size) as [|Hle]; [apply Herr|].
  pose proof (wf_memory_lt _ Hme) as Hlen. destruct Hme as (_ & Hlim & _ & Hfee).
  set (old := zlen (store me) / 32) in *. set (new := Z.max (size / 32) old).
  assert (0 <= old <= new /\ new <= 4294967295) by (unfold new, old, memLimit in *; dlia).
  assert (memFee old <= memFee new) by (apply memFee_mono; lia).
  pose proof (memFee_bound new). pose proof (memFee_bound old).
  apply Hok; cbn [lastGasCost store]; rewrite ?Hfee; try done; lia.
Qed.

(** Checked arithmetic inside a gas function: overflow is an error return. *)
Lemma wp_ovf_add (Q : gasRes -> Machine -> Prop) a b (k : Z -> VM gasRes) m :
  is_u64 a -> is_u64 b -> Q (0, Some ErrGasUintOverflow) m ->
  (forall r, r = a + b -> is_u64 r -> wp ok_panic (k r) m Q) ->
  wp ok_panic (gas_ovf (SafeAdd a b) k) m Q.
Proof.
  intros Ha Hb He Hk. destruct (SafeAdd a b) as [r ov] eqn:E.
  destruct ov; [exact He|]. apply SafeAdd_ok in E as [? ?]; try done. by apply Hk.
Qed.

Lemma wp_ovf_mul (Q : gasRes -> Machine -> Prop) a b (k : Z -> VM gasRes) m :
  is_u64 a -> is_u64 b -> Q (0, Some ErrGasUintOverflow) m ->
  (forall r, r = a * b -> is_u64 r -> wp ok_panic (k r) m Q) ->
  wp ok_panic (gas_ovf (SafeMul a b) k) m Q.
Proof.
  intros Ha Hb He Hk. destruct (SafeMul a b) as [r ov] eqn:E.
  destruct ov; [exact He|]. apply SafeMul_ok in E as [? ?]; try done. by apply Hk.
Qed.

Lemma wp_ovf_u64 (Q : gasRes -> Machine -> Prop) x (k : Z -> VM gasRes) m :
  is_u256 x -> Q (0, Some ErrGasUintOverflow) m ->
  (is_u64 x -> wp ok_panic (k x) m Q) ->
  wp ok_panic (gas_ovf (Uint64WithOverflow x) k) m Q.
Proof.
  intros Hx He Hk. unfold Uint64WithOverflow. destruct (u_IsUint64 x) eqn:E; [|exact He].
  cbn. assert (Hx' : is_u64 x).
  { rewrite IsUint64_law in E by done. unfold is_u64, is_u256 in *. lia. }
  rewrite (Uint64_small x) by done. by apply Hk.
Qed.

Lemma toWordSize_u64 n : is_u64 n -> is_u64 (toWordSize n).
Proof. intros Hn. destruct (toWordSize_spec n Hn) as (_ & _ & ?). unfold is_u64. lia. Qed.

Lemma BitLen_bound x : is_u256 x -> 0 <= u_BitLen x <= 256.
Proof.
  intros Hx. rewrite BitLen_law by done. unfold is_u256 in Hx. zcase.
  pose proof (Z.log2_nonneg x). assert (Z.log2 x < 256); [|lia].
  apply Z.log2_lt_pow2; lia.
Qed.

(** The gas handed to a callee is a [uint64]; under EIP-150 it leaves a 64th. *)
Lemma callGas_ok isEip150 avail base req temp :
  is_u64 avail -> is_u256 req -> callGas isEip150 avail base req = (temp, None) ->
  is_u64 temp /\ (isEip150 = true -> temp <= two64 - two64 / 64).
Proof.
  intros Ha Hr. unfold callGas. pose proof (wrap64_range (avail - base)) as Hw.
  set (a := avail -64 base) in *. unfold is_u64 in *.
  pose proof (Uint64_range req Hr) as Hu. unfold is_u64 in Hu.
  destruct isEip150; destruct (u_IsUint64 req); cbn [negb orb].
  - destruct (Z.ltb_spec (a - a / 64) (u_Uint64 req)); intros [= <-]; split; try intros _; dlia.
  - intros [= <-]; split; try intros _; dlia.
  - intros [= <-]. by split.
  - done.
Qed.

Lemma callGas_err isEip150 avail base req temp e :
  callGas isEip150 avail base req = (temp, Some e) -> temp = 0.
Proof.
  unfold callGas. destruct isEip150, (u_IsUint64 req); cbn; try congruence.
  case_match; congruence.
Qed.

(** ** The gas functions *)
Section functions.
Context (pc : Z) (o : OVM) (me : Memory) (st : Stack) (c : Contract).
Context (Ho : wf_ovm o) (Hme : wf_memory me) (Hst : wf_stack st) (Hc : wf_contract c).

Let m0 := mkMachine pc o me st c.

Lemma gas_start (p : VM gasRes) (Q : gasRes -> Machine -> Prop) :
  (forall d, wf_db d -> wp ok_panic p (mkMachine pc (set_db d o) me st c) Q) ->
  wp ok_panic p m0 Q.
Proof.
  intros Hp. specialize (Hp (Operationdb o)). rewrite set_db_id in Hp. apply Hp. apply Ho.
Qed.

Ltac u64 := unfold is_u64; params; lia.

(** Symbolic execution of a gas function. *)
Ltac gas_tac1 :=
  match goal with
  | |- wp _ (bind (db _) _) _ _ =>
      eapply wp_db; [solve [eauto with go]|eassumption|]; intros ?a ?d ?Hd ?HR
  | |- wp _ (bind (BackM _) _) _ _ =>
      apply wp_BackM; [exact Hst|cbn [stack]; lia|]; cbn [stack]; intros ?v ?Hv ?Hb
  | |- wp _ (bind peekM _) _ _ =>
      apply wp_peekM_Back; [exact Hst|cbn [stack]; lia|]; cbn [stack]; intros ?v ?Hv ?Hb
  | |- wp _ (bind (memoryGasCost _) _) _ _ =>
      apply wp_memoryGasCost; [done|done|done|intros ?e|
        intros ?fee ?me' ?Hsz ?Hst' ?Hlast ?Hfee ?Hfb]
  | |- wp _ (gas_try (_, _) _) _ _ => cbn [gas_try]
  | |- wp _ (gas_ovf (Uint64WithOverflow _) _) _ _ => apply wp_ovf_u64; [done| |intros ?Hu]
  | |- wp _ (gas_ovf (SafeMul _ _) _) _ _ =>
      apply wp_ovf_mul; [auto using toWordSize_u64|u64| |intros ?r ?Hr ?Hru]
  | |- wp _ (bind (if _ then _ else _) _) _ _ => apply wp_bind_if; intros ?Hif
  | |- wp _ (if ?b then _ else _) _ _ => destruct b eqn:?Hif
  | |- gas_post _ _ _ (_, Some _) _ => apply gas_err; try done; apply Ho
  | |- _ => vm_step
  end; cbn beta iota.
Ltac gas_tac := repeat gas_tac1.

(** Closing rules: the cost is a [uint64], the fee is the recorded one. *)
Ltac gas_close :=
  apply gas_ret; try done; try (unfold memLimit; u64); try (by apply fee_unchanged).

Lemma gas_memory g size : 0 <= size -> size mod 32 = 0 ->
  (forall s t, gas_floor g s t = 0) ->
  wp ok_panic (memoryGasCost size) m0 (gas_post g size m0).
Proof.
  intros H0 H32 Hfl.
  assert (Heq : forall m, memoryGasCost size m = bind (memoryGasCost size) ret m).
  { intros m. unfold bind. by destruct (memoryGasCost size m) as [[? ?]|?|]. }
  apply gas_start. intros d Hd. unfold wp. rewrite Heq.
  change (wp ok_panic (bind (memoryGasCost size) ret) (mkMachine pc (set_db d o) me st c)
            (gas_post g size m0)).
  gas_tac. gas_close. by rewrite Hfl; lia.
Qed.

Lemma gas_copier g pos size : 0 <= size -> size mod 32 = 0 -> 0 <= pos < zlen st ->
  (forall s t, gas_floor g s t = 0) ->
  wp ok_panic (memoryCopierGas pos size) m0 (gas_post g size m0).
Proof.
  intros H0 H32 Hp Hfl. apply gas_start. intros d Hd. unfold memoryCopierGas.
  gas_tac. apply wp_ovf_add; [u64|done|gas_tac|]. intros r' Hr' Hru'. gas_tac.
  gas_close. rewrite Hfl. unfold is_u64 in Hru'. lia.
Qed.

Lemma gas_wordGas g pos size : 0 <= size -> size mod 32 = 0 -> 0 <= pos < zlen st ->
  (forall s t, gas_floor g s t = 0) ->
  wp ok_panic (wordGas pos size) m0 (gas_post g size m0).
Proof.
  intros H0 H32 Hp Hfl. apply gas_start. intros d Hd. unfold wordGas.
  gas_tac. apply wp_ovf_add; [u64|done|gas_tac|]. intros r' Hr' Hru'. gas_tac.
  gas_close. rewrite Hfl. unfold is_u64 in Hru'. lia.
Qed.

Lemma gas_log n size : 0 <= size -> size mod 32 = 0 -> 2 <= zlen st ->
  wp ok_panic (makeGasLog n size) m0 (gas_post (g_makeGasLog n) size m0).
Proof.
  intros H0 H32 Hp. apply gas_start. intros d Hd. unfold makeGasLog.
  gas_tac. apply wp_ovf_add; [u64|u64|gas_tac|]. intros r1 Hr1 Hu1.
  apply wp_ovf_add; [done|apply wrap64_range|gas_tac|]. intros r2 Hr2 Hu2. gas_tac.
  apply wp_ovf_add; [done|done|gas_tac|]. intros r3 Hr3 Hu3. gas_tac. gas_close.
  pose proof (wrap64_range (n * LogTopicGas)). unfold is_u64 in *. cbn. params. lia.
Qed.

Lemma gas_exp g perByte : 0 <= perByte <= 50 -> 2 <= zlen st ->
  (forall s t, gas_floor g s t = 1) ->
  wp ok_panic (gasExp perByte 0) m0 (gas_post g 0 m0).
Proof.
  intros Hb Hp Hfl. apply gas_start. intros d Hd. unfold gasExp. gas_tac.
  pose proof (BitLen_bound v Hv). assert (0 <= (u_BitLen v + 7) / 8 <= 40) by dlia.
  rewrite wrap64_small by (unfold is_u64; nia).
  apply wp_ovf_add; [unfold is_u64; nia|u64|gas_tac|]. intros r Hr Hru. gas_tac. gas_close.
  rewrite Hfl, Hr. params. nia.
Qed.

(** The net-metered refunds touch only the database. *)
Lemma wp_net_refunds a b v x y z (Q : gasRes -> Machine -> Prop) (k : unit -> VM gasRes) d :
  wf_db d -> (forall d', wf_db d' -> wp ok_panic (k tt) (mkMachine pc (set_db d' o) me st c) Q) ->
  wp ok_panic (bind (net_refunds a b v x y z) k) (mkMachine pc (set_db d o) me st c) Q.
Proof.
  intros Hd Hk. unfold net_refunds. gas_tac; try destruct a0; try destruct a1; by apply Hk.
Qed.

(** A storage write costs at least one unit of gas, whatever the metering. *)
Ltac sstore_close := gas_close; cbn; params; lia.

Lemma gas_sstore : 2 <= zlen st ->
  wp ok_panic (gasSStore 0) m0 (gas_post g_gasSStore 0 m0).
Proof.
  intros Hp. apply gas_start. intros d Hd. unfold gasSStore, contract_Address, rules.
  gas_tac; try (apply wp_net_refunds; [done|intros d' Hd']; gas_tac); sstore_close.
Qed.

Lemma gas_sstore2200 : 2 <= zlen st ->
  wp ok_panic (gasSStoreEIP2200 0) m0 (gas_post g_gasSStoreEIP2200 0 m0).
Proof.
  intros Hp. apply gas_start. intros d Hd. unfold gasSStoreEIP2200, contract_Address.
  gas_tac; try (apply wp_net_refunds; [done|intros d' Hd']; gas_tac); sstore_close.
Qed.

Lemma gas_sstore2929 g r : 2 <= zlen st -> (forall s t, gas_floor g s t = 1) ->
  wp ok_panic (makeGasSStoreFunc r 0) m0 (gas_post g 0 m0).
Proof.
  intros Hp Hfl. apply gas_start. intros d Hd. unfold makeGasSStoreFunc, contract_Address.
  gas_tac; try (apply wp_net_refunds; [done|intros d' Hd']; gas_tac);
    rewrite wrap64_small by u64; gas_close; rewrite Hfl; params; lia.
Qed.

Lemma gas_sload : 1 <= zlen st ->
  wp ok_panic (gasSLoadEIP2929 0) m0 (gas_post g_gasSLoadEIP2929 0 m0).
Proof.
  intros Hp. apply gas_start. intros d Hd. unfold gasSLoadEIP2929, contract_Address.
  gas_tac1. gas_tac1. gas_tac1. destruct a as [? ?]. gas_tac; sstore_close.
Qed.

Lemma gas_accountCheck : 1 <= zlen st ->
  wp ok_panic (gasEip2929AccountCheck 0) m0 (gas_post g_gasEip2929AccountCheck 0 m0).
Proof.
  intros Hp. apply gas_start. intros d Hd. unfold gasEip2929AccountCheck.
  gas_tac; sstore_close.
Qed.

Lemma gas_selfdestruct : 1 <= zlen st ->
  wp ok_panic (gasSelfdestruct 0) m0 (gas_post g_gasSelfdestruct 0 m0).
Proof.
  intros Hp. apply gas_start. intros d Hd. unfold gasSelfdestruct, contract_Address, rules.
  rewrite wrap64_small by u64.
  gas_tac; repeat case_match; sstore_close.
Qed.

Lemma gas_selfdestruct2929 g b : 1 <= zlen st -> (forall s t, gas_floor g s t = 0) ->
  wp ok_panic (makeSelfdestructGasFn b 0) m0 (gas_post g 0 m0).
Proof.
  intros Hp Hfl. apply gas_start. intros d Hd. unfold makeSelfdestructGasFn, contract_Address.
  gas_tac; repeat case_match; rewrite ?wrap64_small by u64; gas_close; rewrite ?Hfl; params; lia.
Qed.

(** Continue after another gas function: the machine differs from [m0] in
    the OVM and the memory fee only. *)
Lemma gas_then g g' size (p : VM gasRes) (k : Z -> VM gasRes) :
  wp ok_panic p m0 (gas_post g size m0) ->
  (forall cost d o' me', wf_ovm o' -> wf_db d -> env o' = env o -> store me' = store me ->
     gas_charge size cost m0 (mkMachine pc o' me' st c) ->
     gas_floor g st (callGasTemp o') <= cost ->
     wp ok_panic (k cost) (mkMachine pc (set_db d o') me' st c) (gas_post g' size m0)) ->
  wp ok_panic (bind p (fun r => gas_try r k)) m0 (gas_post g' size m0).
Proof.
  intros Hp Hk. apply wp_bind. eapply wp_mono; [exact Hp|].
  intros [cost [e|]] [pc' o' me' st' c']; intros ((Hpc & Hs & Hsto & Ho' & Henv) & Hg & Hr).
  - cbn [gas_try]. vm_step. split; [|done]. split; [done|]. split; [done|]. by split.
  - cbn in Hpc, Hs, Hsto, Henv. destruct Hr as [Hch Hfl]. pose proof Hch as (_ & Hcc & _).
    cbn in Hcc. subst pc' st' c'. specialize (Hk cost (Operationdb o') o' me').
    rewrite set_db_id in Hk. apply Hk; try done. apply Ho'.
Qed.

Lemma gas_ret_env g size o' d me' cost :
  wf_ovm o' -> wf_db d -> env o' = env o -> store me' = store me ->
  is_u64 cost -> size <= memLimit ->
  lastGasCost me' = memFee (Z.max (size / 32) (zlen (store me) / 32)) ->
  gas_floor g st (callGasTemp o') <= cost ->
  gas_post g size m0 (cost, None) (mkMachine pc (set_db d o') me' st c).
Proof.
  intros Ho' Hd Henv Hs Hcost Hsz Hl Hf.
  destruct (gas_ret g size pc o' d me me' st c cost) as ((? & ? & ? & ? & He) & ? & ?); done.
Qed.

Lemma gas_err_env g size o' d me' x e :
  wf_ovm o' -> wf_db d -> env o' = env o -> store me' = store me ->
  gas_post g size m0 (x, Some e) (mkMachine pc (set_db d o') me' st c).
Proof.
  intros Ho' Hd Henv Hs.
  destruct (gas_err g size pc o' d me me' st c x e) as ((? & ? & ? & ? & He) & ? & ?); done.
Qed.

Lemma gas_extcodecopy2929 size : 0 <= size -> size mod 32 = 0 -> 4 <= zlen st ->
  wp ok_panic (gasExtCodeCopyEIP2929 size) m0 (gas_post g_gasExtCodeCopyEIP2929 size m0).
Proof.
  intros H0 H32 Hp. unfold gasExtCodeCopyEIP2929, gasExtCodeCopy.
  eapply (gas_then g_gasExtCodeCopy); [apply gas_copier; [done|done|lia|done]|].
  intros cost d o' me' Ho' Hd Henv Hs (Hu & _ & Hsz & Hl) _. cbn in Hl.
  gas_tac.
  - apply wp_ovf_add; [done|u64|by apply gas_err_env|]. intros r Hr Hru. vm_step.
    apply gas_ret_env; try done. unfold is_u64 in *. cbn. lia.
  - apply gas_ret_env; try done. unfold is_u64 in *. cbn. lia.
Qed.

(** The common tail of the call gas functions. *)
Lemma wp_charge_callGas g gas size d me' :
  wf_db d -> store me' = store me -> 1 <= zlen st -> 0 <= gas <= 36028810000100000 ->
  size <= memLimit -> lastGasCost me' = memFee (Z.max (size / 32) (zlen (store me) / 32)) ->
  (forall t, gas_floor g st t <= gas + t) ->
  wp ok_panic (charge_callGas gas) (mkMachine pc (set_db d o) me' st c)
    (fun r m' => gas_post g size m0 r m' /\
       (IsEIP150 (chainRules o) = true -> r.1 < two64 - 1000000)).
Proof.
  intros Hd Hs Hp Hg Hsz Hl Hfl. unfold charge_callGas. gas_tac1. gas_tac1.
  cbn [ovm contract]. change (chainRules (set_db d o)) with (chainRules o).
  destruct (callGas _ _ _ _) as [temp [e|]] eqn:E.
  - apply callGas_err in E as ->. vm_step. vm_step. split; [|intros _; cbn; lia].
    apply (gas_err_env g size (set_callGasTemp 0 o)); try done.
    destruct Ho as (? & ? & ? & ?). split; [done|]. split; [done|]. split; [cbn; u64|done].
  - apply callGas_ok in E as [Ht Ht']; [|apply Hc|done]. vm_step.
    assert (Ho' : wf_ovm (set_callGasTemp temp o)).
    { destruct Ho as (? & ? & ? & ?). split; [done|]. split; [done|]. by split. }
    apply wp_ovf_add; [u64|done| |].
    + split; [|intros _; cbn; lia]. by apply (gas_err_env g size (set_callGasTemp temp o)).
    + intros r Hr Hru. vm_step. split.
      * apply (gas_ret_env g size (set_callGasTemp temp o)); try done. cbn. rewrite Hr. apply Hfl.
      * intros He. specialize (Ht' He). cbn. dlia.
Qed.

(** [gasCall] and its relatives: the callee's gas and the transfer are paid for. *)
Definition call_post (g : gasFn) (size : Z) (r : gasRes) (m' : Machine) : Prop :=
  gas_post g size m0 r m' /\
  (IsEIP150 (chainRules o) = true -> r.2 = None -> r.1 < two64 - 1000000).

Lemma value_cost_is v : is_u256 v -> Back 2 st = Ret v ->
  value_cost st = if negb (u_IsZero v) then CallValueTransferGas else 0.
Proof.
  intros Hv Hb. unfold value_cost. rewrite Hb, IsZero_law by done. by destruct (v =? 0).
Qed.

Lemma value_cost_sign v : is_u256 v -> Back 2 st = Ret v ->
  value_cost st = if negb (u_Sign v =? 0) then CallValueTransferGas else 0.
Proof.
  intros Hv Hb. unfold value_cost. rewrite Hb, Sign_law by done.
  assert (Hs : v = 0 <-> Z.sgn (signed256 v) = 0).
  { unfold signed256, is_u256 in *. rewrite Z.sgn_null_iff. zcase. }
  destruct (Z.eqb_spec v 0), (Z.eqb_spec (Z.sgn (signed256 v)) 0); try done; lia.
Qed.

(** The charge after the memory fee. *)
Lemma call_tail g base fee size d me' :
  wf_db d -> store me' = store me -> 1 <= zlen st ->
  0 <= base <= 90000 -> 0 <= fee <= 36028810000000000 ->
  size <= memLimit -> lastGasCost me' = memFee (Z.max (size / 32) (zlen (store me) / 32)) ->
  (forall t, gas_floor g st t <= base + t) ->
  wp ok_panic (gas_ovf (SafeAdd base fee) charge_callGas) (mkMachine pc (set_db d o) me' st c)
    (call_post g size).
Proof.
  intros Hd Hs Hp Hb Hf Hsz Hl Hfl. apply wp_ovf_add; [u64|u64| |].
  { split; [|done]. apply gas_err; try done; apply Ho. }
  intros r -> Hr. eapply wp_mono; [apply (wp_charge_callGas g _ size); try assumption; try lia|].
  - intros t. specialize (Hfl t). lia.
  - intros r' m' [? ?]. split; auto.
Qed.

Lemma gas_call_ok g size : 0 <= size -> size mod 32 = 0 -> 3 <= zlen st ->
  (forall t, gas_floor g st t = t + value_cost st) ->
  wp ok_panic (gasCall size) m0 (call_post g size).
Proof.
  intros H0 H32 Hp Hfl. apply gas_start. intros d Hd. unfold gasCall, rules.
  gas_tac1. gas_tac1. gas_tac1.
  pose proof (value_cost_is v Hv Hb) as Hvc.
  assert (Hnew : forall (k : Z -> VM gasRes) d, wf_db d ->
    (forall x d', wf_db d' -> 0 <= x <= 25000 ->
       wp ok_panic (k x) (mkMachine pc (set_db d' o) me st c) (call_post g size)) ->
    wp ok_panic (bind (if IsEIP158 (chainRules o)
      then if negb (u_IsZero v) then bind (db (Empty (u_Bytes20 v0)))
             (fun e => ret (if e : bool then CallNewAccountGas else 0)) else ret 0
      else bind (db (Exist (u_Bytes20 v0)))
             (fun e => ret (if e : bool then 0 else CallNewAccountGas))) k)
      (mkMachine pc (set_db d o) me st c) (call_post g size)).
  { intros k d1 Hd1 Hk. gas_tac; apply Hk; try done; try destruct a; params; lia. }
  apply Hnew; [done|]. intros x d' Hd' Hx.
  assert (Hbase : (if negb (u_IsZero v) then x +64 CallValueTransferGas else x) =
                  x + value_cost st).
  { rewrite Hvc. destruct (negb _); [|lia]. rewrite wrap64_small; [done|u64]. }
  rewrite Hbase. assert (0 <= value_cost st <= 9000).
  { rewrite Hvc. destruct (negb _); params; lia. }
  gas_tac; [split; [apply gas_err; try done; apply Ho|done]|].
  apply call_tail; try done; try lia. intros t. rewrite Hfl. lia.
Qed.

Lemma gas_callcode_ok g size : 0 <= size -> size mod 32 = 0 -> 3 <= zlen st ->
  (forall t, gas_floor g st t = t + value_cost st) ->
  wp ok_panic (gasCallCode size) m0 (call_post g size).
Proof.
  intros H0 H32 Hp Hfl. apply gas_start. intros d Hd. unfold gasCallCode.
  gas_tac; [split; [apply gas_err; try done; apply Ho|done]|].
  pose proof (value_cost_sign v Hv Hb) as Hvc. rewrite <- Hvc.
  assert (0 <= value_cost st <= 9000) by (rewrite Hvc; destruct (negb _); params; lia).
  apply call_tail; try done; try lia. intros t. rewrite Hfl. lia.
Qed.

Lemma gas_delegate_ok g size : 0 <= size -> size mod 32 = 0 -> 2 <= zlen st ->
  (forall t, gas_floor g st t = t) ->
  wp ok_panic (gasDelegateCall size) m0 (call_post g size).
Proof.
  intros H0 H32 Hp Hfl. apply gas_start. intros d Hd. unfold gasDelegateCall.
  gas_tac; [split; [apply gas_err; try done; apply Ho|done]|].
  assert (forall t, gas_floor g st t <= fee + t) by (intros t; rewrite Hfl; lia).
  eapply wp_mono; [apply (wp_charge_callGas g fee size)|].
  - exact Hd.
  - exact Hst'.
  - lia.
  - lia.
  - exact Hsz.
  - exact Hlast.
  - assumption.
  - intros r' m' [? ?]. split; auto.
Qed.
End functions.

(** The access-list aware wrapper: the cold surcharge is paid first, so that
    the 63/64 rule sees the remaining gas, then handed back and added to the
    cost.  The sum does not wrap, thanks to EIP-150. *)
Lemma gas_variant g gold old size pc o me st c :
  wf_ovm o -> wf_stack st -> wf_contract c -> 2 <= zlen st ->
  (forall s t, gas_floor g s t = gas_floor gold s t) ->
  IsEIP150 (chainRules o) = true ->
  (forall o' c', wf_ovm o' -> wf_contract c' -> chainRules o' = chainRules o ->
     wp ok_panic (old size) (mkMachine pc o' me st c') (call_post pc o' me st c' gold size)) ->
  wp ok_panic (makeCallVariantGasCallEIP2929 old size) (mkMachine pc o me st c)
    (gas_post g size (mkMachine pc o me st c)).
Proof.
  intros Ho Hst Hc Hp Hfl H150 Hold. apply gas_start; [done|]. intros d Hd.
  unfold makeCallVariantGasCallEIP2929, AddressInAccessList.
  apply wp_BackM; [done|cbn; lia|]. intros v Hv Hb. cbn [stack] in *.
  eapply wp_db; [apply dsafe_gets|done|]. intros warm d1 Hd1 _.
  assert (Hg : is_u64 (Gas c)) by apply Hc. unfold is_u64 in Hg.
  set (cold := ColdAccountAccessCostEIP2929 - WarmStorageReadCostEIP2929).
  assert (Hcold : cold = 2500) by done.
  destruct warm; cbn [negb].
  - vm_step. cbn [negb]. apply wp_bind.
    eapply wp_mono; [apply (Hold (set_db d1 o) c); [by apply wf_ovm_set_db|done|done]|].
    intros [cost e] m' [Hpost _]. vm_step.
    destruct Hpost as ((? & ? & ? & ? & ?) & ? & Hr). split; [done|]. split; [done|].
    destruct e; [done|]. by rewrite Hfl.
  - vm_step. eapply wp_db; [auto with go|done|]. intros _ d2 Hd2 _.
    apply wp_UseGasM; intros Hle.
    { cbn [negb]. vm_step. by apply gas_err. }
    cbn [negb]. apply wp_bind.
    assert (Hc' : wf_contract (set_Gas (Gas c - cold) c)).
    { apply wf_set_Gas; [done|]. unfold is_u64. lia. }
    eapply wp_mono; [apply (Hold (set_db d2 o) (set_Gas (Gas c - cold) c));
      [by apply wf_ovm_set_db|done|done]|].
    intros [cost [e|]] [pc' o' me' st' c'] [((? & ? & ? & ? & ?) & (gg & Hgg & Hgb) & Hr) Hbd];
      cbn in H, H0, H1, H2, H3, Hgg, Hgb; subst; vm_step.
    + split; [done|]. split; [|done]. exists gg. split; [done|]. cbn. lia.
    + destruct Hr as [(Hu & Hcc & Hsz & Hl) Hf]. cbn in Hcc, Hl, Hf. cbn [contract] in *.
      specialize (Hbd H150 eq_refl). cbn in Hbd. unfold is_u64 in Hu.
      rewrite Hcc. cbn [Gas set_Gas].
      rewrite !wrap64_small by (unfold is_u64; lia). rewrite Z.sub_add.
      vm_step.
      assert (Hid : set_Gas (Gas c) (set_Gas (Gas c - cold) c) = c) by (by destruct c).
      unfold set_contract. cbn [VmCore.pc ovm mem stack contract]. rewrite Hid.
      split; [done|]. split.
      * exists (Gas c). split; [by rewrite set_Gas_id|]. cbn. lia.
      * split; [split; [unfold is_u64; lia|done]|]. cbn. rewrite Hfl. lia.
Qed.

(** ** Every gas function *)
Lemma gas_ok g size m :
  wf_machine m -> gas_pops g <= zlen (stack m) ->
  0 <= size -> size mod 32 = 0 -> (gas_mem g = false -> size = 0) ->
  (needs_eip150 g = true -> IsEIP150 (chainRules (ovm m)) = true) ->
  wp ok_panic (gas_ g size) m (gas_post g size m).
Proof.
  destruct m as [pc o me st c]. intros (_ & Ho & Hme & Hst & Hc) Hp H0 H32 Hnm H150.
  cbn in Ho, Hme, Hst, Hc, Hp, H150.
  assert (Hcp : forall g', (forall r m', call_post pc o me st c g' size r m' ->
            gas_post g' size (mkMachine pc o me st c) r m')) by (by intros g' r m' [? _]).
  destruct g; cbn [gas_pops gas_mem needs_eip150] in *; cbn [gas_];
    try specialize (Hnm eq_refl); try specialize (H150 eq_refl); subst;
    try (by apply gas_memory); try (by apply gas_copier; try lia);
    try (by apply gas_wordGas; try lia).
  - by apply gas_sstore.
  - by apply gas_sstore2200.
  - by apply gas_log.
  - apply gas_exp; try done; params; lia.
  - apply gas_exp; try done; params; lia.
  - eapply wp_mono; [apply (gas_call_ok pc o me st c) with (g := g_gasCall)|apply Hcp]; done.
  - eapply wp_mono; [apply (gas_callcode_ok pc o me st c) with (g := g_gasCallCode)|apply Hcp]; done.
  - eapply wp_mono; [apply (gas_delegate_ok pc o me st c) with (g := g_gasDelegateCall)|apply Hcp]; done.
  - eapply wp_mono; [apply (gas_delegate_ok pc o me st c) with (g := g_gasStaticCall)|apply Hcp]; done.
  - by apply gas_selfdestruct.
  - by apply gas_sstore2929.
  - by apply gas_sstore2929.
  - by apply gas_sload.
  - by apply gas_extcodecopy2929.
  - by apply gas_accountCheck.
  - apply (gas_variant _ g_gasCall); try done; try lia. intros. by apply gas_call_ok.
  - apply (gas_variant _ g_gasDelegateCall); try done; try lia. intros. by apply gas_delegate_ok.
  - apply (gas_variant _ g_gasStaticCall); try done; try lia. intros. by apply gas_delegate_ok.
  - apply (gas_variant _ g_gasCallCode); try done; try lia. intros. by apply gas_callcode_ok.
  - by apply gas_selfdestruct2929.
  - by apply gas_selfdestruct2929.
Qed.
End gas.
