(* ===== verification/ExecProofs.v ===== *)
(** * Instructions: safety and stack effect

    [exec_ok]: from a well-formed machine whose stack has the items an
    instruction pops and whose memory covers the region its [memorySize]
    function computes, the instruction returns normally (or ends in a panic the
    source raises on purpose), keeps the machine well-formed, changes the stack
    height by pushes minus pops, and returns at most the gas that was handed to
    a callee. *)
From S2P Require Import Prelude Uint256 Params GoMath VmStack Analysis StateDB StateInv VmCore.
From S2P Require Import VmGas Instructions JumpTable VmInv GasProofs.

(** ** The contract of each instruction *)
Definition exec_pops (f : executionFunc) : Z :=
  match f with
  | f_opAdd | f_opSub | f_opMul | f_opDiv | f_opSdiv | f_opMod | f_opSmod | f_opExp
  | f_opSignExtend | f_opLt | f_opGt | f_opSlt | f_opSgt | f_opEq | f_opAnd | f_opOr | f_opXor
  | f_opByte | f_opSHL | f_opSHR | f_opSAR | f_opKeccak256 | f_opMstore | f_opMstore8
  | f_opSstore | f_opJumpi | f_opReturn | f_opRevert => 2
  | f_opNot | f_opIszero | f_opBalance | f_opCallDataLoad | f_opExtCodeSize | f_opExtCodeHash
  | f_opBlockhash | f_opPop | f_opMload | f_opSload | f_opJump | f_opSelfdestruct => 1
  | f_opAddmod | f_opMulmod | f_opCallDataCopy | f_opReturnDataCopy | f_opCodeCopy
  | f_opCreate => 3
  | f_opExtCodeCopy | f_opCreate2 => 4
  | f_opCall | f_opCallCode => 7
  | f_opDelegateCall | f_opStaticCall => 6
  | f_makeLog n => 2 + n
  | f_makeDup n => n
  | f_makeSwap n => n + 1
  | f_opAddress | f_opOrigin | f_opCaller | f_opCallValue | f_opCallDataSize | f_opReturnDataSize
  | f_opCodeSize | f_opGasprice | f_opCoinbase | f_opTimestamp | f_opNumber | f_opDifficulty
  | f_opRandom | f_opGasLimit | f_opJumpdest | f_opPc | f_opMsize | f_opGas | f_opUndefined
  | f_opStop | f_opPush1 | f_makePush _ _ | f_opSelfBalance | f_opChainID | f_opBaseFee
  | f_opPush0 => 0
  end.

Definition exec_pushes (f : executionFunc) : Z :=
  match f with
  | f_opCallDataCopy | f_opReturnDataCopy | f_opCodeCopy | f_opExtCodeCopy | f_opPop | f_opMstore
  | f_opMstore8 | f_opSstore | f_opJump | f_opJumpi | f_opJumpdest | f_opReturn | f_opRevert
  | f_opUndefined | f_opStop | f_opSelfdestruct | f_makeLog _ => 0
  | f_makeDup n | f_makeSwap n => n + 1
  | _ => 1
  end.

(** Instructions after which the loop never continues. *)
Definition halts (f : executionFunc) : bool :=
  match f with
  | f_opReturn | f_opRevert | f_opUndefined | f_opStop | f_opSelfdestruct => true
  | _ => false
  end.

Definition exec_memfn (f : executionFunc) : option memorySizeFunc :=
  match f with
  | f_opKeccak256 => Some m_memoryKeccak256
  | f_opCallDataCopy => Some m_memoryCallDataCopy
  | f_opReturnDataCopy => Some m_memoryReturnDataCopy
  | f_opCodeCopy => Some m_memoryCodeCopy
  | f_opExtCodeCopy => Some m_memoryExtCodeCopy
  | f_opMload => Some m_memoryMLoad
  | f_opMstore => Some m_memoryMStore
  | f_opMstore8 => Some m_memoryMStore8
  | f_opCreate => Some m_memoryCreate
  | f_opCreate2 => Some m_memoryCreate2
  | f_opCall | f_opCallCode => Some m_memoryCall
  | f_opDelegateCall => Some m_memoryDelegateCall
  | f_opStaticCall => Some m_memoryStaticCall
  | f_opReturn => Some m_memoryReturn
  | f_opRevert => Some m_memoryRevert
  | f_makeLog _ => Some m_memoryLog
  | _ => None
  end.

(** The operand ranges the tables use. *)
Definition exec_args (f : executionFunc) : bool :=
  match f with
  | f_makeLog n => (0 <=? n) && (n <=? 4)
  | f_makePush n k => (n =? k) && (1 <=? n) && (n <=? 32)
  | f_makeDup n => 1 <=? n
  | f_makeSwap n => 1 <=? n
  | _ => true
  end.

(** The free gas of a call that transfers value. *)
Definition stipend (st : Stack) : Z :=
  match Back 2 st with
  | Ret v => if v =? 0 then 0 else CallStipend
  | _ => 0
  end.

(** The gas a call instruction hands to its callee. *)
Definition bonus (f : executionFunc) (m : Machine) : Z :=
  match f with
  | f_opCall | f_opCallCode => callGasTemp (ovm m) + stipend (stack m)
  | f_opDelegateCall | f_opStaticCall => callGasTemp (ovm m)
  | _ => 0
  end.

(** ** What the OVM's methods promise to the instructions *)
Definition wf_ref (r : ContractRef) : Prop :=
  match r with RefContract c => wf_contract c | RefAccount _ => True end.

Definition sub_post (o : OVM) (gas : Z) (rv : list Z) (left : Z) (o' : OVM) : Prop :=
  wf_ovm o' /\ env o' = env o /\ bytes_ok rv /\ 0 <= left <= gas.

Definition call_ok (r : Rules) (B : Z) (p : ContractRef -> Z -> list Z -> Z -> M OVM (callRes * jdmap)) :=
  forall caller addr input gas o,
    wf_ref caller -> bytes_ok input -> is_u64 gas -> gas < B -> wf_ovm o -> chainRules o = r ->
    wp ok_panic (p caller addr input gas) o
      (fun r o' => sub_post o gas r.1.1.1 r.1.1.2 o').

Definition create_ok (r : Rules) (B : Z) (p : ContractRef -> list Z -> Z -> M OVM (createRes * jdmap)) :=
  forall caller code gas o,
    wf_ref caller -> bytes_ok code -> is_u64 gas -> gas < B -> wf_ovm o -> chainRules o = r ->
    wp ok_panic (p caller code gas) o
      (fun r o' => sub_post o gas r.1.1.1.1 r.1.1.2 o').

(** The interface between the instructions and the OVM: the chain rules are [r]
    and the callee's gas is below [B]. *)
Class SubsOk (r : Rules) (B : Z) (S : Subs) : Prop := {
  Call_ok value : call_ok r B (fun c a i g => sub_Call S c a i g value);
  CallCode_ok value : call_ok r B (fun c a i g => sub_CallCode S c a i g value);
  DelegateCall_ok : call_ok r B (sub_DelegateCall S);
  StaticCall_ok : call_ok r B (sub_StaticCall S);
  Create_ok value : create_ok r B (fun c i g => sub_Create S c i g value);
  Create2_ok value salt : is_u256 salt ->
    create_ok r B (fun c i g => sub_Create2 S c i g value salt) }.

(** ** Postcondition *)
Definition epost (pops pushes bonus : Z) (cont : bool) (m : Machine) (r : execRes) (m' : Machine) :=
  (is_u64 (pc m') /\ wf_ovm (ovm m') /\ wf_memory (mem m') /\ wf_stack (stack m') /\
   wf_contract (contract m')) /\
  env (ovm m') = env (ovm m) /\ bytes_ok r.1 /\
  Gas (contract m') <= Gas (contract m) + bonus /\
  (r.2 = None -> cont = true /\ zlen (stack m') = zlen (stack m) - pops + pushes).

Definition exec_post (f : executionFunc) (m : Machine) :=
  epost (exec_pops f) (exec_pushes f) (bonus f m) (negb (halts f)) m.

(** The memory covers what the instruction's [memorySize] function asks for. *)
Definition covers `{Uint256} (f : executionFunc) (m : Machine) : Prop :=
  match exec_memfn f with
  | None => True
  | Some mf => exists size, memsize_ mf (stack m) = Ret (size, false) /\
                            size <= zlen (store (mem m))
  end.

(** ** Stacks given as items on top of a rest *)
Lemma Back_0 (d : Stack) x : Back 0 (d ++ [x]) = Ret x.
Proof. unfold Back. rewrite Z.sub_0_r. apply index_last. Qed.

Lemma Back_S (d : Stack) x n : 0 < n -> Back n (d ++ [x]) = Back (n - 1) d.
Proof.
  intros Hn. unfold Back, index. rewrite zlen_snoc.
  replace (zlen d + 1 - n - 1) with (zlen d - (n - 1) - 1) by lia.
  destruct (Z.leb_spec 0 (zlen d - (n - 1) - 1)); [|done].
  rewrite lookup_app_l; [done|]. unfold zlen in *. lia.
Qed.

Section exec.
Context {U : Uint256} {L : Uint256Laws U} {C : Crypto} {CL : CryptoLaws C}.
Context {B : ByteUtils} {BL : ByteUtilsLaws B}.

(** ** Memory regions *)
Definition region (off len : Z) (me : Memory) : Prop :=
  u_Uint64 len = len /\ is_u64 len /\
  (0 < len -> u_Uint64 off = off /\ 0 <= off /\ off + len <= zlen (store me)).

Lemma region_of off len s me :
  is_u256 off -> is_u256 len -> calcMemSize64 off len = (s, false) ->
  s <= zlen (store me) -> region off len me.
Proof.
  intros Ho Hl (Hu & H64 & H)%calcMemSize64_ok Hs; try done.
  split; [done|]. split; [done|]. unfold is_u256 in Ho.
  intros Hpos. destruct H as [[? ?]|(? & ? & ? & ?)]; lia.
Qed.

Lemma region_of_uint off len s me :
  is_u256 off -> 0 < len <= 32 -> calcMemSize64WithUint off len = (s, false) ->
  s <= zlen (store me) ->
  u_Uint64 off = off /\ 0 <= off /\ off + len <= zlen (store me).
Proof.
  intros Ho Hl H Hs. apply calcMemSize64WithUint_ok in H; [|done|unfold is_u64; lia].
  unfold is_u256 in Ho. lia.
Qed.

Lemma region_int64 off len me : wf_memory me -> region off len me ->
  0 <= int64_of (u_Uint64 len) /\
  (0 < int64_of (u_Uint64 len) -> 0 <= int64_of (u_Uint64 off) /\
     int64_of (u_Uint64 off) + int64_of (u_Uint64 len) <= zlen (store me) < two63).
Proof.
  intros Hme (Hu & H64 & Hr). rewrite Hu. pose proof (wf_memory_lt me Hme).
  unfold is_u64 in H64. destruct (Z.eq_dec len 0) as [->|Hnz].
  { rewrite int64_of_small by lia. lia. }
  destruct Hr as (Ho & ? & ?); [lia|]. rewrite Ho, !int64_of_small by lia. lia.
Qed.

Lemma region_GetPtr off len me : wf_memory me -> region off len me ->
  exists bs, Memory_GetPtr (int64_of (u_Uint64 off)) (int64_of (u_Uint64 len)) me = Ret bs /\
             bytes_ok bs.
Proof.
  intros Hme Hr. destruct (region_int64 off len me Hme Hr) as [H0 Hb].
  destruct (Memory_GetPtr_ok (int64_of (u_Uint64 off)) (int64_of (u_Uint64 len)) me)
    as (bs & -> & Hbs & Hl); [apply Hme|done|done|].
  exists bs. split; [done|]. split; [done|]. rewrite Hl.
  destruct (Z.eq_dec (int64_of (u_Uint64 len)) 0); lia.
Qed.

Lemma region_GetCopy off len me : wf_memory me -> region off len me ->
  exists bs, Memory_GetCopy (int64_of (u_Uint64 off)) (int64_of (u_Uint64 len)) me = Ret bs /\
             bytes_ok bs.
Proof.
  intros Hme Hr. destruct (region_int64 off len me Hme Hr) as [H0 Hb].
  destruct (Memory_GetCopy_ok (int64_of (u_Uint64 off)) (int64_of (u_Uint64 len)) me)
    as (bs & -> & Hbs & Hl); [apply Hme|done|done|].
  exists bs. split; [done|]. split; [done|].
  destruct (Z.eq_dec (int64_of (u_Uint64 len)) 0); lia.
Qed.

Lemma region_Set off len v me : wf_memory me -> region off len me -> is_u256 off ->
  Forall is_byte v ->
  exists me', Memory_Set (u_Uint64 off) (u_Uint64 len) v me = Ret me' /\ wf_memory me' /\
              zlen (store me') = zlen (store me).
Proof.
  intros Hme (Hu & H64 & Hr) Ho Hv. rewrite Hu. pose proof (wf_memory_lt me Hme).
  pose proof (Uint64_range off Ho) as Ho64. unfold is_u64 in *.
  destruct (Memory_Set_ok (u_Uint64 off) len v me) as (me' & -> & Hw & Hl & Hg);
    [apply Hme|done|lia|lia|lia| |].
  { intros Hpos. destruct Hr as (-> & ? & ?); lia. }
  exists me'. split; [done|]. split; [|done]. destruct Hme as (_ & ? & ? & ?).
  unfold wf_memory. by rewrite Hl, Hg.
Qed.

(** ** Finishing an instruction *)
Lemma epost_ret pops pushes b cont m (r : execRes) pc' o' me' st' c' :
  is_u64 pc' -> wf_ovm o' -> env o' = env (ovm m) -> wf_memory me' -> wf_stack st' ->
  wf_contract c' -> bytes_ok r.1 -> Gas c' <= Gas (contract m) + b ->
  (r.2 = None -> cont = true /\ zlen st' = zlen (stack m) - pops + pushes) ->
  epost pops pushes b cont m r (mkMachine pc' o' me' st' c').
Proof. intros. unfold epost. cbn. tauto. Qed.

Lemma wf_stack_snoc (d : Stack) x : wf_stack d -> is_u256 x -> wf_stack (d ++ [x]).
Proof. intros. by apply wf_snoc. Qed.

Lemma u256_if (b : bool) x y : is_u256 x -> is_u256 y -> is_u256 (if b then x else y).
Proof. by destruct b. Qed.

Lemma u256_len {A} (l : list A) : zlen l < two63 -> is_u256 (zlen l).
Proof. intros. pose proof (zlen_nonneg l). unfold is_u256. lia. Qed.

Lemma u256_addr a : is_u256 (u_SetBytes (be_bytes 20 a)).
Proof. apply SetBytes_range, be_bytes_byte. Qed.
Lemma u256_hash a : is_u256 (u_SetBytes (be_bytes 32 a)).
Proof. apply SetBytes_range, be_bytes_byte. Qed.

Lemma exec_start {X} (p : VM X) (Q : X -> Machine -> Prop) pc o me st c :
  wf_ovm o ->
  (forall d, wf_db d -> wp ok_panic p (mkMachine pc (set_db d o) me st c) Q) ->
  wp ok_panic p (mkMachine pc o me st c) Q.
Proof.
  intros Ho Hp. specialize (Hp (Operationdb o)). rewrite set_db_id in Hp. apply Hp. apply Ho.
Qed.

Lemma wp_done_ (Q : execRes -> Machine -> Prop) m : Q ([], None) m -> wp ok_panic done_ m Q.
Proof. done. Qed.
Lemma wp_fail (Q : execRes -> Machine -> Prop) e m :
  Q ([], Some e) m -> wp ok_panic (fail e) m Q.
Proof. done. Qed.

Lemma wp_readMem {X A} (f : Memory -> outcome X) x (k : X -> VM A) (Q : A -> Machine -> Prop)
  pc o me st c :
  f me = Ret x -> wp ok_panic (k x) (mkMachine pc o me st c) Q ->
  wp ok_panic (bind (readMem f) k) (mkMachine pc o me st c) Q.
Proof. intros Hf Hk. unfold readMem, wp, bind, get, liftO. cbn [mem]. by rewrite Hf. Qed.

Lemma wp_memM {A} (f : Memory -> outcome Memory) x (k : unit -> VM A) (Q : A -> Machine -> Prop)
  pc o me st c :
  f me = Ret x -> wp ok_panic (k tt) (mkMachine pc o x st c) Q ->
  wp ok_panic (bind (memM f) k) (mkMachine pc o me st c) Q.
Proof. intros Hf Hk. unfold memM, wp, bind, get, put, liftO. cbn [mem]. by rewrite Hf. Qed.

(** The two 256-bit operand laws as resolvable facts. *)
Lemma binops_u256 x y : is_u256 x -> is_u256 y ->
  is_u256 (u_Add x y) /\ is_u256 (u_Sub x y) /\ is_u256 (u_Mul x y) /\ is_u256 (u_Div x y) /\
  is_u256 (u_SDiv x y) /\ is_u256 (u_Mod x y) /\ is_u256 (u_SMod x y) /\ is_u256 (u_Exp x y) /\
  is_u256 (u_And x y) /\ is_u256 (u_Or x y) /\ is_u256 (u_Xor x y) /\ is_u256 (u_Not x) /\
  is_u256 (u_Byte x y) /\ is_u256 (u_ExtendSign x y) /\ is_u256 (u_Lsh x (u_Uint64 y)) /\
  is_u256 (u_Rsh x (u_Uint64 y)) /\ is_u256 (u_SRsh x (u_Uint64 y)).
Proof.
  intros Hx Hy. pose proof (binop_range x y Hx Hy). pose proof (bitop_range x y Hx Hy).
  destruct (Uint64_range y Hy) as [Hu _]. pose proof (shift_range x _ Hx Hu). tauto.
Qed.

Lemma exec_binop f m :
  wf_machine m -> 2 <= zlen (stack m) ->
  (forall x y, is_u256 x -> is_u256 y -> is_u256 (f x y)) ->
  wp ok_panic (binop f) m (epost 2 1 0 true m).
Proof.
  destruct m as [pc o me st c]. intros (Hpc & Ho & Hme & Hst & Hc) Hn Hf. cbn in *.
  destruct (snoc_inv st) as (d & x & ->); [lia|]. rewrite zlen_snoc in Hn.
  destruct (snoc_inv d) as (d' & y & ->); [lia|].
  apply wf_snoc in Hst as [[Hd Hy]%wf_snoc Hx]. unfold binop. repeat vm_step.
  apply wp_done_. apply epost_ret; cbn; auto using wf_stack_snoc with go; [lia|].
  rewrite !zlen_snoc. intros _. split; [done|lia].
Qed.

(** Symbolic execution of an instruction whose operands are exposed. *)
Ltac peel :=
  match goal with
  | Hn : _ <= zlen ?st, Hw : wf_stack ?st |- _ =>
      let d := fresh "d" in let x := fresh "x" in let Hx := fresh "Hx" in
      destruct (snoc_inv st) as (d & x & ->); [lia|];
      apply wf_snoc in Hw as [Hw Hx]; rewrite zlen_snoc in Hn;
      apply Z.le_sub_le_add_r in Hn
  end.

Ltac exec_tac1 :=
  match goal with
  | |- wp _ (bind (db _) _) _ _ =>
      eapply wp_db; [solve [eauto with go]|eassumption|]; let H := fresh "HR" in intros ?a ?dd ?Hdd H; cbn beta in H
  | |- wp _ done_ _ _ => apply wp_done_
  | |- wp _ (fail _) _ _ => apply wp_fail
  | |- wp _ (push_ _) _ _ => unfold push_
  | |- wp _ (bind (if _ then _ else _) _) _ _ => apply wp_bind_if; intros ?Hif
  | |- wp _ (if ?b then _ else _) _ _ => destruct b eqn:?Hif
  | |- _ => vm_step
  end; cbn beta iota.

Ltac exec_fin :=
  apply epost_ret; cbn [fst snd ovm contract stack];
    auto using wf_stack_snoc, u256_if, u256_len, u256_addr, u256_hash, wf_ovm_set_db with go;
    try lia; try (intros ?; discriminate); try (rewrite ?zlen_snoc; intros ?; split; [done|lia]).
Ltac exec_tac := repeat exec_tac1; exec_fin.

Lemma wf_machine_at m : wf_machine m -> exists pc o me st c,
  m = mkMachine pc o me st c /\ is_u64 pc /\ wf_ovm o /\ wf_memory me /\ wf_stack st /\
  wf_contract c.
Proof. destruct m as [pc o me st c]. intros (? & ? & ? & ? & ?). by exists pc, o, me, st, c. Qed.

Ltac exec_open Hm Hn :=
  apply wf_machine_at in Hm as (pc & o & me & st & c & -> & Hpc & Ho & Hme & Hst & Hc);
  cbn [stack] in Hn; apply exec_start; [exact Ho|]; intros d0 Hd0.

Lemma exec_push v m : wf_machine m -> is_u256 v -> wp ok_panic (push_ v) m (epost 0 1 0 true m).
Proof.
  intros Hm Hv. assert (Hn : 0 <= zlen (stack m)) by apply zlen_nonneg.
  exec_open Hm Hn. exec_tac.
Qed.

(** Instructions that replace the top of the stack. *)
Lemma exec_unop f m :
  wf_machine m -> 1 <= zlen (stack m) -> (forall x, is_u256 x -> is_u256 (f x)) ->
  wp ok_panic (x <- peekM ;; setTop (f x) ;;; done_) m (epost 1 1 0 true m).
Proof. intros Hm Hn Hf. exec_open Hm Hn. peel. exec_tac. Qed.

Lemma exec_triop f m :
  wf_machine m -> 3 <= zlen (stack m) ->
  (forall x y z, is_u256 x -> is_u256 y -> is_u256 z -> is_u256 (f x y z)) ->
  wp ok_panic (x <- popM ;; y <- popM ;; z <- peekM ;; setTop (f x y z) ;;; done_) m
    (epost 3 1 0 true m).
Proof. intros Hm Hn Hf. exec_open Hm Hn. do 3 peel. exec_tac. Qed.

Lemma exec_balance m : wf_machine m -> 1 <= zlen (stack m) ->
  wp ok_panic opBalance m (epost 1 1 0 true m).
Proof. intros Hm Hn. exec_open Hm Hn. peel. unfold opBalance. exec_tac. Qed.

Lemma exec_extcodesize m : wf_machine m -> 1 <= zlen (stack m) ->
  wp ok_panic opExtCodeSize m (epost 1 1 0 true m).
Proof.
  intros Hm Hn. exec_open Hm Hn. peel. unfold opExtCodeSize. exec_tac.
  apply wf_stack_snoc; [done|]. unfold is_u256. lia.
Qed.

Lemma exec_extcodehash m : wf_machine m -> 1 <= zlen (stack m) ->
  wp ok_panic opExtCodeHash m (epost 1 1 0 true m).
Proof. intros Hm Hn. exec_open Hm Hn. peel. unfold opExtCodeHash. exec_tac. Qed.

Lemma exec_selfbalance m : wf_machine m -> wp ok_panic opSelfBalance m (epost 0 1 0 true m).
Proof.
  intros Hm. assert (Hn : 0 <= zlen (stack m)) by apply zlen_nonneg. exec_open Hm Hn.
  unfold opSelfBalance. exec_tac.
Qed.

Lemma exec_sload m : wf_machine m -> 1 <= zlen (stack m) ->
  wp ok_panic opSload m (epost 1 1 0 true m).
Proof. intros Hm Hn. exec_open Hm Hn. peel. unfold opSload. exec_tac. Qed.

Lemma exec_sstore m : wf_machine m -> 2 <= zlen (stack m) ->
  wp ok_panic opSstore m (epost 2 0 0 true m).
Proof. intros Hm Hn. exec_open Hm Hn. do 2 peel. unfold opSstore, writeProtected. exec_tac. Qed.

Lemma exec_selfdestruct m : wf_machine m -> 1 <= zlen (stack m) ->
  wp ok_panic opSelfdestruct m (epost 1 0 0 false m).
Proof. intros Hm Hn. exec_open Hm Hn. peel. unfold opSelfdestruct, writeProtected. exec_tac. Qed.

Lemma exec_pop m : wf_machine m -> 1 <= zlen (stack m) ->
  wp ok_panic opPop m (epost 1 0 0 true m).
Proof. intros Hm Hn. exec_open Hm Hn. peel. unfold opPop. exec_tac. Qed.

Lemma exec_blockhash m : wf_machine m -> 1 <= zlen (stack m) ->
  wp ok_panic opBlockhash m (epost 1 1 0 true m).
Proof.
  intros Hm Hn. exec_open Hm Hn. peel. unfold opBlockhash, Uint64WithOverflow. exec_tac.
Qed.

(** ** Regions computed from the stack *)
Lemma Back_0' (d : Stack) x n : n = 0 -> Back n (d ++ [x]) = Ret x.
Proof. intros ->. apply Back_0. Qed.

Lemma region_back a b st s me off len :
  memSizeBack a b st = Ret (s, false) -> s <= zlen (store me) ->
  Back a st = Ret off -> Back b st = Ret len -> is_u256 off -> is_u256 len -> region off len me.
Proof.
  unfold memSizeBack. intros H Hs Ha Hb Ho Hl. rewrite Ha, Hb in H. cbn in H.
  eapply region_of; [done|done| |exact Hs]. congruence.
Qed.

Lemma memSizeMax_inv a b a' b' st s :
  memSizeMax a b a' b' st = Ret (s, false) ->
  exists x y, memSizeBack a b st = Ret (x, false) /\ memSizeBack a' b' st = Ret (y, false) /\
              x <= s /\ y <= s.
Proof.
  unfold memSizeMax. destruct (memSizeBack a b st) as [[x [|]]|?|]; try done.
  destruct (memSizeBack a' b' st) as [[y [|]]|?|]; try done. cbn.
  destruct (Z.ltb_spec y x); intros [= <-]; exists x, y; repeat split; lia.
Qed.

(** Resolve [Back n] on an exposed stack. *)
Ltac backs := repeat first [rewrite Back_S by lia | rewrite Back_0' by lia]; reflexivity.
Ltac region_tac Hcov :=
  eapply region_back; [exact Hcov|eassumption|backs|backs|eassumption|eassumption].

Definition mem_at (f : memorySizeFunc) (m : Machine) : Prop :=
  exists size, memsize_ f (stack m) = Ret (size, false) /\ size <= zlen (store (mem m)).

Lemma exec_keccak m : wf_machine m -> 2 <= zlen (stack m) -> mem_at m_memoryKeccak256 m ->
  wp ok_panic opKeccak256 m (epost 2 1 0 true m).
Proof.
  intros Hm Hn (s & Hs & Hle). exec_open Hm Hn. cbn [stack mem] in Hs, Hle. do 2 peel.
  assert (Hr : region x x0 me) by region_tac Hs.
  destruct (region_GetPtr x x0 me Hme Hr) as (bs & Hbs & Hok).
  unfold opKeccak256. do 2 vm_step. eapply wp_readMem; [exact Hbs|]. cbn zeta.
  pose proof (SetBytes_range _ (keccak256_byte bs)). exec_tac.
Qed.

Lemma exec_mload m : wf_machine m -> 1 <= zlen (stack m) -> mem_at m_memoryMLoad m ->
  wp ok_panic opMload m (epost 1 1 0 true m).
Proof.
  intros Hm Hn (s & Hs & Hle). exec_open Hm Hn. cbn [stack mem] in Hs, Hle. peel.
  cbn [memsize_] in Hs. unfold memoryMLoad in Hs. rewrite Back_0 in Hs. cbn [obind] in Hs.
  injection Hs as Hs. pose proof (wf_memory_lt me Hme).
  destruct (region_of_uint x 32 s me) as (Hu & ? & ?); [done|lia|done|done|].
  destruct (Memory_GetPtr_ok (int64_of (u_Uint64 x)) 32 me) as (bs & Hbs & Hok & _);
    [apply Hme|lia|rewrite Hu, int64_of_small by lia; lia|].
  unfold opMload. vm_step. eapply wp_readMem; [exact Hbs|]. exec_tac.
Qed.

Lemma exec_mstore m : wf_machine m -> 2 <= zlen (stack m) -> mem_at m_memoryMStore m ->
  wp ok_panic opMstore m (epost 2 0 0 true m).
Proof.
  intros Hm Hn (s & Hs & Hle). exec_open Hm Hn. cbn [stack mem] in Hs, Hle. do 2 peel.
  cbn [memsize_] in Hs. unfold memoryMStore in Hs. rewrite Back_0 in Hs. cbn [obind] in Hs.
  injection Hs as Hs. pose proof (wf_memory_lt me Hme).
  destruct (region_of_uint x 32 s me) as (Hu & ? & ?); [done|lia|done|done|].
  destruct (Memory_Set32_ok (u_Uint64 x) x0 me) as (me' & Hset & Hw & Hl & Hg);
    [apply Hme|done|lia|lia|].
  assert (wf_memory me').
  { destruct Hme as (_ & ? & ? & ?). unfold wf_memory. by rewrite Hl, Hg. }
  unfold opMstore. do 2 vm_step. eapply wp_memM; [exact Hset|]. exec_tac.
Qed.

Lemma exec_mstore8 m : wf_machine m -> 2 <= zlen (stack m) -> mem_at m_memoryMStore8 m ->
  wp ok_panic opMstore8 m (epost 2 0 0 true m).
Proof.
  intros Hm Hn (s & Hs & Hle). exec_open Hm Hn. cbn [stack mem] in Hs, Hle. do 2 peel.
  cbn [memsize_] in Hs. unfold memoryMStore8 in Hs. rewrite Back_0 in Hs. cbn [obind] in Hs.
  injection Hs as Hs.
  destruct (region_of_uint x 1 s me) as (Hu & ? & ?); [done|lia|done|done|].
  unfold opMstore8. do 2 vm_step. eapply wp_memM.
  { unfold Memory_store8. rewrite Hu. destruct (Z.ltb_spec x (zlen (store me))); [done|lia]. }
  assert (wf_memory {| store := <[Z.to_nat x := u_Uint64 x0 mod 256]> (store me);
                       lastGasCost := lastGasCost me |}).
  { destruct Hme as (Hb & ? & ? & ?). unfold wf_memory, wf_mem, zlen in *. cbn.
    rewrite length_insert. split; [|done]. apply Forall_insert; [done|].
    unfold is_byte. apply Z.mod_pos_bound. lia. }
  exec_tac.
Qed.

Lemma exec_calldataload m : wf_machine m -> 1 <= zlen (stack m) ->
  wp ok_panic opCallDataLoad m (epost 1 1 0 true m).
Proof.
  intros Hm Hn. exec_open Hm Hn. peel. unfold opCallDataLoad, Uint64WithOverflow.
  vm_step. pose proof (Uint64_range x Hx) as [? ?].
  pose proof Hc as (_ & (Hib & Hil) & _).
  destruct (getData_ok (Input c) (u_Uint64 x) 32) as (bs & Hbs & Hok & _); try done; try lia.
  exec_tac1; [exec_tac|]. do 3 vm_step. eapply wp_liftOM; [exact Hbs|]. exec_tac.
Qed.

(** The copy instructions: the region is written with bytes of any source. *)
Lemma exec_copy src pops moff doff len pc o me st c m :
  bytes_ok src -> is_u256 moff -> is_u256 doff -> region moff len me ->
  is_u64 pc -> wf_ovm o -> env o = env (ovm m) -> wf_memory me -> wf_stack st -> wf_contract c ->
  contract m = c -> zlen st = zlen (stack m) - pops ->
  wp ok_panic (copy_to_memory src moff doff len) (mkMachine pc o me st c) (epost pops 0 0 true m).
Proof.
  intros [Hb Hl] Hmo Hdo Hr Hpc Ho He Hme Hst Hc Hcm Hlen. unfold copy_to_memory.
  pose proof (wf_memory_lt me Hme). pose proof Hr as (Hu & H64 & Hfit). unfold is_u64 in H64.
  assert (Hlb : 0 <= len < two63).
  { destruct (Z.eq_dec len 0); [lia|]. destruct Hfit as (_ & ? & ?); lia. }
  assert (Hoff : 0 <= clampOffset doff).
  { unfold clampOffset, Uint64WithOverflow. pose proof (Uint64_range doff Hdo) as [? ?].
    destruct (negb _); lia. }
  destruct (getData_ok src (clampOffset doff) len) as (bs & Hbs & Hok & _); try done; try lia.
  destruct (region_Set moff len bs me) as (me' & Hset & Hw & _); try done.
  rewrite Hu in *. eapply wp_liftOM; [exact Hbs|].
  eapply wp_memM; [exact Hset|]. apply wp_done_. apply epost_ret; cbn; auto with go.
  - rewrite Hcm. lia.
  - intros _. split; [done|lia].
Qed.


Lemma exec_calldatacopy m : wf_machine m -> 3 <= zlen (stack m) -> mem_at m_memoryCallDataCopy m ->
  wp ok_panic opCallDataCopy m (epost 3 0 0 true m).
Proof.
  intros Hm Hn (s & Hs & Hle). exec_open Hm Hn. cbn [stack mem] in Hs, Hle. do 3 peel.
  assert (Hr : region x x1 me) by region_tac Hs. unfold opCallDataCopy. do 4 vm_step.
  pose proof Hc as (_ & Hi & _).
  apply exec_copy; auto using wf_ovm_set_db. cbn. rewrite !zlen_snoc. lia.
Qed.

Lemma exec_codecopy m : wf_machine m -> 3 <= zlen (stack m) -> mem_at m_memoryCodeCopy m ->
  wp ok_panic opCodeCopy m (epost 3 0 0 true m).
Proof.
  intros Hm Hn (s & Hs & Hle). exec_open Hm Hn. cbn [stack mem] in Hs, Hle. do 3 peel.
  assert (Hr : region x x1 me) by region_tac Hs. unfold opCodeCopy. do 4 vm_step.
  pose proof Hc as (Hco & _).
  apply exec_copy; auto using wf_ovm_set_db. cbn. rewrite !zlen_snoc. lia.
Qed.

Lemma exec_extcodecopy m : wf_machine m -> 4 <= zlen (stack m) -> mem_at m_memoryExtCodeCopy m ->
  wp ok_panic opExtCodeCopy m (epost 4 0 0 true m).
Proof.
  intros Hm Hn (s & Hs & Hle). exec_open Hm Hn. cbn [stack mem] in Hs, Hle. do 4 peel.
  assert (Hr : region x0 x2 me) by region_tac Hs. unfold opExtCodeCopy. do 4 vm_step.
  exec_tac1. apply exec_copy; auto using wf_ovm_set_db. cbn. rewrite !zlen_snoc. lia.
Qed.

Lemma exec_returndatacopy m : wf_machine m -> 3 <= zlen (stack m) ->
  mem_at m_memoryReturnDataCopy m -> wp ok_panic opReturnDataCopy m (epost 3 0 0 true m).
Proof.
  intros Hm Hn (s & Hs & Hle). exec_open Hm Hn. cbn [stack mem] in Hs, Hle. do 3 peel.
  assert (Hr : region x x1 me) by region_tac Hs. unfold opReturnDataCopy, Uint64WithOverflow.
  do 3 vm_step. cbn beta iota zeta. exec_tac1; [exec_tac|]. vm_step. cbn [ovm].
  change (returnData (set_db d0 o)) with (returnData o).
  exec_tac1; [exec_tac|]. apply orb_false_iff in Hif0 as [He Hlt]. apply negb_false_iff in Hif, He.
  pose proof Hr as (Hu & H64 & _). pose proof Ho as (_ & [Hrb Hrl] & _).
  assert (Ha : is_u256 (u_Add x0 x1)) by (by apply binop_range).
  rewrite (Uint64_small (u_Add x0 x1)) in Hlt |- * by done.
  rewrite (Uint64_small x0) by done. rewrite Add_law in * by done.
  rewrite IsUint64_law in Hif by done. unfold is_u64, is_u256 in *.
  rewrite wrap256_small in * by (unfold is_u256; lia).
  eapply wp_liftOM; [apply slice_ok; lia|].
  destruct (region_Set x x1 (take (Z.to_nat (x0 + x1 - x0)) (drop (Z.to_nat x0) (returnData o))) me)
    as (me' & Hset & Hw & _); try done; [auto using Forall_take, Forall_drop|].
  eapply wp_memM; [exact Hset|]. exec_tac.
Qed.

Lemma wp_callArgs {A} (k : list Z -> VM A) (Q : A -> Machine -> Prop) off len pc o me st c :
  wf_memory me -> region off len me ->
  (forall bs, bytes_ok bs -> wp ok_panic (k bs) (mkMachine pc o me st c) Q) ->
  wp ok_panic (bind (callArgs off len) k) (mkMachine pc o me st c) Q.
Proof.
  intros Hme Hr Hk. destruct (region_GetPtr off len me Hme Hr) as (bs & Hbs & Hok).
  eapply wp_readMem; [exact Hbs|]. by apply Hk.
Qed.

Lemma exec_return m : wf_machine m -> 2 <= zlen (stack m) -> mem_at m_memoryReturn m ->
  wp ok_panic opReturn m (epost 2 0 0 false m).
Proof.
  intros Hm Hn (s & Hs & Hle). exec_open Hm Hn. cbn [stack mem] in Hs, Hle. do 2 peel.
  unfold opReturn. do 2 vm_step. apply wp_callArgs; [done|by region_tac Hs|].
  intros bs Hbs. exec_tac.
Qed.

Lemma wf_set_returnData r o : bytes_ok r -> wf_ovm o -> wf_ovm (set_returnData r o).
Proof. intros Hr (? & _ & ? & ?). split; [done|]. split; [done|]. by split. Qed.

Lemma exec_revert m : wf_machine m -> 2 <= zlen (stack m) -> mem_at m_memoryRevert m ->
  wp ok_panic opRevert m (epost 2 0 0 false m).
Proof.
  intros Hm Hn (s & Hs & Hle). exec_open Hm Hn. cbn [stack mem] in Hs, Hle. do 2 peel.
  unfold opRevert. do 2 vm_step. apply wp_callArgs; [done|by region_tac Hs|].
  intros bs Hbs. unfold setReturnData. do 2 vm_step.
  apply epost_ret; cbn; auto using wf_set_returnData, wf_ovm_set_db; [lia|done].
Qed.

Lemma exec_undefined m : wf_machine m -> pc m < zlen (Code (contract m)) ->
  wp ok_panic opUndefined m (epost 0 0 0 false m).
Proof.
  intros Hm Hlt. assert (Hn : 0 <= zlen (stack m)) by apply zlen_nonneg.
  exec_open Hm Hn. cbn in Hlt. unfold opUndefined. vm_step.
  destruct (index_ok (Code c) pc) as (b & Hb & _); [unfold is_u64 in Hpc; lia|].
  eapply wp_liftOM; [exact Hb|]. exec_tac.
Qed.

(** ** Jumps *)
Lemma isCode_ok u c : wf_contract c ->
  (exists b c', isCode u c = Ret (b, c') /\ wf_contract c' /\ Gas c' = Gas c) \/
  isCode u c = Panic PBitvec.
Proof.
  intros Hc. pose proof Hc as ((Hb & _) & _).
  assert (Hseg : forall a, (exists b, codeSegment a u = Ret b) \/ codeSegment a u = Panic PBitvec).
  { intros a. unfold codeSegment. destruct (a !! _); eauto. }
  unfold isCode. destruct (codeBitmap_spec (Code c) Hb) as (bits & Hbm & _).
  assert (Hset : forall j a, wf_contract (set_analysis j a c)) by done.
  destruct (analysis c) as [a|].
  { destruct (Hseg a) as [[b ->]| ->]; [left|by right]. by exists b, c. }
  destruct (negb (CodeHash c =? 0)).
  - destruct (jumpdests c !! CodeHash c) as [a|]; rewrite ?Hbm; cbn [obind];
      match goal with |- context [codeSegment ?a u] => destruct (Hseg a) as [[b ->]| ->] end;
      cbn [obind]; eauto 10.
  - rewrite Hbm. cbn [obind]. destruct (Hseg bits) as [[b ->]| ->]; cbn [obind]; eauto 10.
Qed.

Lemma validJumpdest_ok dest c : wf_contract c ->
  (exists b c', validJumpdest dest c = Ret (b, c') /\ wf_contract c' /\ Gas c' = Gas c) \/
  validJumpdest dest c = Panic PBitvec.
Proof.
  intros Hc. unfold validJumpdest, Uint64WithOverflow.
  destruct (_ || _); [left; eauto|]. destruct (negb _); [left; eauto|]. by apply isCode_ok.
Qed.

Lemma wp_jump pops pos pc o me st c m :
  is_u64 pc -> wf_ovm o -> env o = env (ovm m) -> wf_memory me -> wf_stack st -> wf_contract c ->
  contract m = c -> zlen st = zlen (stack m) - pops ->
  wp ok_panic (jump pos) (mkMachine pc o me st c) (epost pops 0 0 true m).
Proof.
  intros Hpc Ho He Hme Hst Hc Hcm Hlen. unfold jump. vm_step. cbn [contract].
  destruct (validJumpdest_ok pos c Hc) as [(b & c' & Hv & Hc' & Hg)|Hv].
  - eapply wp_liftOM; [exact Hv|]. cbn beta iota. vm_step.
    destruct b; [vm_step; apply wp_done_|apply wp_fail];
      apply epost_ret; cbn; auto using wrap64_range with go;
      try (rewrite Hcm, Hg; lia); intros ?; first [discriminate | split; [done|lia]].
  - unfold wp, bind, liftO. rewrite Hv. right. by right.
Qed.

Lemma exec_jump m : wf_machine m -> 1 <= zlen (stack m) ->
  wp ok_panic opJump m (epost 1 0 0 true m).
Proof.
  intros Hm Hn. exec_open Hm Hn. peel. unfold opJump. vm_step.
  exec_tac1; [exec_tac|]. vm_step. apply wp_jump; auto using wf_ovm_set_db.
  cbn. rewrite zlen_snoc. lia.
Qed.

Lemma exec_jumpi m : wf_machine m -> 2 <= zlen (stack m) ->
  wp ok_panic opJumpi m (epost 2 0 0 true m).
Proof.
  intros Hm Hn. exec_open Hm Hn. do 2 peel. unfold opJumpi. vm_step.
  exec_tac1; [exec_tac|]. do 2 vm_step. exec_tac1; [|exec_tac].
  apply wp_jump; auto using wf_ovm_set_db. cbn. rewrite !zlen_snoc. lia.
Qed.

(** ** Pushes, duplications and swaps *)
Lemma exec_push1 m : wf_machine m -> wp ok_panic opPush1 m (epost 0 1 0 true m).
Proof.
  intros Hm. assert (Hn : 0 <= zlen (stack m)) by apply zlen_nonneg. exec_open Hm Hn.
  unfold opPush1. do 2 vm_step. unfold set_pc. cbn [VmCore.pc contract Code].
  pose proof Hc as ((Hb & _) & _). pose proof (wrap64_range (pc + 1)) as Hr.
  exec_tac1; [|exec_tac].
  destruct (index_ok (Code c) (pc +64 1)) as (b & Hb' & Hin); [unfold is_u64 in Hr; lia|].
  eapply wp_liftOM; [exact Hb'|]. rewrite Forall_forall in Hb. apply Hb in Hin.
  assert (is_u256 b) by (unfold is_byte, is_u256 in *; lia). exec_tac.
Qed.

Lemma exec_makePush n m : wf_machine m -> 1 <= n <= 32 -> pc m < zlen (Code (contract m)) ->
  wp ok_panic (makePush n n) m (epost 0 1 0 true m).
Proof.
  intros Hm Hk Hlt. assert (Hn : 0 <= zlen (stack m)) by apply zlen_nonneg. exec_open Hm Hn.
  cbn in Hlt. pose proof Hc as ((Hb & Hl) & _). unfold is_u64 in Hpc.
  unfold makePush. vm_step. cbn [VmCore.pc contract]. rewrite int64_of_small by lia.
  set (lo := if pc + 1 <? zlen (Code c) then pc + 1 else zlen (Code c)).
  assert (Hlo : 0 <= lo <= zlen (Code c)) by (unfold lo; zcase).
  set (hi := if lo + n <? zlen (Code c) then lo + n else zlen (Code c)).
  assert (Hhi : lo <= hi <= zlen (Code c)) by (unfold hi; zcase).
  eapply wp_liftOM; [apply slice_ok; lia|]. repeat vm_step. apply wp_done_.
  unfold set_pc. cbn [VmCore.pc ovm mem stack contract].
  assert (is_u256 (u_SetBytes (RightPadBytes
    (take (Z.to_nat (hi - lo)) (drop (Z.to_nat lo) (Code c))) n))).
  { apply SetBytes_range, RightPadBytes_byte. auto using Forall_take, Forall_drop. }
  exec_fin.
Qed.

Lemma exec_dup n m : wf_machine m -> 1 <= n <= zlen (stack m) ->
  wp ok_panic (makeDup n) m (epost n (n + 1) 0 true m).
Proof.
  intros Hm Hn. exec_open Hm Hn. unfold makeDup. vm_step.
  destruct (dup_wf st n Hst Hn) as (st' & Hd & Hw & Hl). eapply wp_liftOM; [exact Hd|].
  vm_step. apply wp_done_. apply epost_ret; cbn; auto using wf_ovm_set_db with go; [lia|].
  intros _. split; [done|lia].
Qed.

Lemma exec_swap n m : wf_machine m -> 1 <= n -> n + 1 <= zlen (stack m) ->
  wp ok_panic (makeSwap n) m (epost (n + 1) (n + 1) 0 true m).
Proof.
  intros Hm H1 Hn. exec_open Hm Hn. unfold makeSwap. vm_step.
  destruct (swap_wf st (n + 1) Hst) as (st' & Hd & Hw & Hl); [lia|].
  eapply wp_liftOM; [exact Hd|].
  vm_step. apply wp_done_. apply epost_ret; cbn; auto using wf_ovm_set_db with go; [lia|].
  intros _. split; [done|lia].
Qed.

(** ** Logs *)
Lemma wp_popTopics {A} n (k : list Z -> VM A) (Q : A -> Machine -> Prop) pc o me st c :
  wf_stack st -> Z.of_nat n <= zlen st ->
  (forall ts st', wf_stack st' -> zlen st' = zlen st - Z.of_nat n ->
     wp ok_panic (k ts) (mkMachine pc o me st' c) Q) ->
  wp ok_panic (bind (popTopics n) k) (mkMachine pc o me st c) Q.
Proof.
  revert k st. induction n as [|n IH]; intros k st Hst Hn Hk; cbn [popTopics].
  { vm_step. apply Hk; [done|lia]. }
  peel. do 2 vm_step. vm_step. apply IH; [done|lia|]. intros ts st' Hst' Hl.
  vm_step. apply Hk; [done|]. rewrite zlen_snoc. lia.
Qed.

Lemma exec_log n m : wf_machine m -> 0 <= n -> 2 + n <= zlen (stack m) -> mem_at m_memoryLog m ->
  wp ok_panic (makeLog (Z.to_nat n)) m (epost (2 + n) 0 0 true m).
Proof.
  intros Hm H0 Hn (s & Hs & Hle). exec_open Hm Hn. cbn [stack mem] in Hs, Hle. do 2 peel.
  assert (Hr : region x x0 me) by region_tac Hs.
  destruct (region_GetCopy x x0 me Hme Hr) as (bs & Hbs & Hok).
  unfold makeLog, writeProtected. vm_step. exec_tac1; [exec_tac|]. do 2 vm_step.
  apply wp_popTopics; [done|lia|]. intros ts st' Hst' Hl.
  eapply wp_readMem; [exact Hbs|]. exec_tac.
Qed.

(** ** Calls and creations *)
Section subcalls.
Context (r : Rules) (Bd : Z) (S : Subs) {HS : SubsOk r Bd S}.

Lemma wp_subcall {X A} (p : ContractRef -> M OVM (X * jdmap)) (R : X -> OVM -> Prop)
  (k : X -> VM A) (Q : A -> Machine -> Prop) pc o me st c :
  wp ok_panic (p (RefContract c)) o (fun r o' => R r.1 o') ->
  (forall x o' c', R x o' -> Gas c' = Gas c -> (wf_contract c -> wf_contract c') ->
     wp ok_panic (k x) (mkMachine pc o' me st c') Q) ->
  wp ok_panic (bind (subcall p) k) (mkMachine pc o me st c) Q.
Proof.
  intros Hp Hk. unfold subcall, wp, bind, get, onOVM, modify, ret in *. cbn [contract ovm].
  destruct (p (RefContract c) o) as [[[x jd] o']|e|]; [|done|done].
  by apply (Hk x o' (set_analysis jd (analysis c) c)).
Qed.

Lemma wf_add_gas c g : wf_contract c -> 0 <= g -> Gas c + g < two64 ->
  wf_contract (set_Gas (Gas c +64 g) c) /\ Gas (set_Gas (Gas c +64 g) c) = Gas c + g.
Proof.
  intros Hc Hg Hlt. pose proof Hc as (_ & _ & Hu & _). unfold is_u64 in Hu.
  rewrite wrap64_small by (unfold is_u64; lia). split; [|done].
  apply wf_set_Gas; [done|]. unfold is_u64. lia.
Qed.

Lemma finish_call_ok pops b roff rlen rv left err pc o me st c m :
  bytes_ok rv -> is_u256 roff -> region roff rlen me -> 0 <= left <= b ->
  is_u64 pc -> wf_ovm o -> env o = env (ovm m) -> wf_memory me -> wf_stack st ->
  wf_contract c -> Gas c = Gas (contract m) -> Gas c + b < two64 ->
  zlen st = zlen (stack m) - pops ->
  wp ok_panic (finish_call roff rlen (rv, left, err)) (mkMachine pc o me st c)
    (epost pops 1 b true m).
Proof.
  intros Hrv Hro Hr Hleft Hpc Ho He Hme Hst Hc Hg Hlt Hlen. unfold finish_call, addGas, setReturnData.
  destruct (wf_add_gas c left Hc) as [Hc' Hg']; [lia|lia|].
  assert (Hfin : forall me', wf_memory me' ->
    epost pops 1 b true m (rv, None)
      (mkMachine pc (set_returnData rv o) me'
         (st ++ [match err with Some _ => 0 | None => 1 end]) (set_Gas (Gas c +64 left) c))).
  { intros me' Hme'. apply epost_ret; auto using wf_set_returnData.
    - apply wf_stack_snoc; [done|]. destruct err; auto with go.
    - rewrite Hg', Hg. lia.
    - rewrite zlen_snoc. intros _. split; [done|lia]. }
  vm_step. rewrite CopyBytes_law. destruct (decide _).
  - destruct (region_Set roff rlen rv me) as (me' & Hset & Hw & _); try done; [apply Hrv|].
    vm_step. eapply wp_memM; [exact Hset|]. repeat vm_step. by apply Hfin.
  - repeat vm_step. by apply Hfin.
Qed.

(** The gas of a value call: the callee gets the stipend on top. *)
Lemma withStipend_ok g v : is_u64 g -> is_u256 v ->
  g + (if v =? 0 then 0 else CallStipend) < two64 ->
  withStipend g v = g + (if v =? 0 then 0 else CallStipend).
Proof.
  intros Hg Hv Hlt. unfold withStipend. rewrite IsZero_law by done. unfold is_u64 in Hg.
  destruct (v =? 0); cbn [negb]; [lia|]. rewrite wrap64_small; [done|].
  unfold is_u64. params. lia.
Qed.

Lemma exec_call_like (sub : ContractRef -> Z -> list Z -> Z -> Z -> M OVM (callRes * jdmap))
  (ro : bool) m :
  (forall value, call_ok r Bd (fun c a i g => sub c a i g value)) ->
  wf_machine m -> 7 <= zlen (stack m) -> mem_at m_memoryCall m ->
  chainRules (ovm m) = r ->
  callGasTemp (ovm m) + stipend (stack m) < Bd ->
  Gas (contract m) + (callGasTemp (ovm m) + stipend (stack m)) < two64 ->
  wp ok_panic
    (_ <- popM ;;
     gas <- gets (fun m => callGasTemp (ovm m)) ;;
     addr <- popM ;; value <- popM ;; inOffset <- popM ;; inSize <- popM ;;
     retOffset <- popM ;; retSize <- popM ;;
     args <- callArgs inOffset inSize ;;
     m <- get ;;
     if ro && (readOnly (ovm m) && negb (u_IsZero value)) then fail ErrWriteProtection
     else
       r <- subcall (fun c => sub c (u_Bytes20 addr) args (withStipend gas value) value) ;;
       finish_call retOffset retSize r) m
    (epost 7 1 (callGasTemp (ovm m) + stipend (stack m)) true m).
Proof.
  intros Hsub Hm Hn (s & Hs & Hle) Hrr HB Hlt. exec_open Hm Hn.
  cbn [stack mem ovm contract] in Hs, Hle, Hrr, HB, Hlt |- *. do 7 peel.
  cbn [memsize_] in Hs. apply memSizeMax_inv in Hs as (y1 & y2 & Hy1 & Hy2 & ? & ?).
  assert (y1 <= zlen (store me)) by lia. assert (y2 <= zlen (store me)) by lia.
  assert (Hin : region x2 x3 me) by region_tac Hy2.
  assert (Hout : region x4 x5 me) by region_tac Hy1.
  assert (Hst2 : stipend ((((((((d ++ [x5]) ++ [x4]) ++ [x3]) ++ [x2]) ++ [x1]) ++ [x0]) ++ [x])) =
                 if x1 =? 0 then 0 else CallStipend).
  { unfold stipend. replace (Back 2 _) with (Ret x1); [done|]. symmetry. backs. }
  rewrite Hst2 in *. pose proof Ho as (_ & _ & Hcg & _).
  pose proof Hc as (_ & _ & Hgas & _). unfold is_u64 in Hgas.
  do 8 vm_step. cbn [ovm]. change (callGasTemp (set_db d0 o)) with (callGasTemp o).
  rewrite (withStipend_ok (callGasTemp o) x1) by (done || lia).
  apply wp_callArgs; [done|done|]. intros bs Hbs. vm_step.
  exec_tac1; [exec_tac; cbn; unfold is_u64 in Hcg; params; zcase|].
  unfold is_u64 in Hcg.
  set (g := callGasTemp o + (if x1 =? 0 then 0 else CallStipend)) in *.
  assert (Hg : is_u64 g) by (unfold is_u64, g; params; zcase).
  eapply (wp_subcall _ (fun r o' => sub_post (set_db d0 o) g r.1.1 r.1.2 o')).
  { apply (Hsub x1 (RefContract c) (u_Bytes20 x0) bs g (set_db d0 o)); try done.
    by apply wf_ovm_set_db. }
  intros [[rv left] err] o' c' (Ho' & He & Hrv & Hl) Hgc Hwc.
  apply finish_call_ok; try done; auto.
  - cbn. rewrite Hgc. lia.
  - cbn. rewrite !zlen_snoc. lia.
Qed.

Lemma exec_delegate_like (sub : ContractRef -> Z -> list Z -> Z -> M OVM (callRes * jdmap)) m mf :
  call_ok r Bd sub -> (mf = m_memoryDelegateCall \/ mf = m_memoryStaticCall) ->
  wf_machine m -> 6 <= zlen (stack m) -> mem_at mf m ->
  chainRules (ovm m) = r -> callGasTemp (ovm m) < Bd -> Gas (contract m) + callGasTemp (ovm m) < two64 ->
  wp ok_panic
    (_ <- popM ;;
     gas <- gets (fun m => callGasTemp (ovm m)) ;;
     addr <- popM ;; inOffset <- popM ;; inSize <- popM ;; retOffset <- popM ;; retSize <- popM ;;
     args <- callArgs inOffset inSize ;;
     r <- subcall (fun c => sub c (u_Bytes20 addr) args gas) ;;
     finish_call retOffset retSize r) m
    (epost 6 1 (callGasTemp (ovm m)) true m).
Proof.
  intros Hsub Hmf Hm Hn (s & Hs & Hle) Hrr HB Hlt.
  assert (Hs' : memSizeMax 4 5 2 3 (stack m) = Ret (s, false)) by (by destruct Hmf as [-> | ->]).
  clear Hs. exec_open Hm Hn.
  cbn [stack mem ovm contract] in Hs', Hle, Hrr, HB, Hlt |- *. do 6 peel.
  apply memSizeMax_inv in Hs' as (y1 & y2 & Hy1 & Hy2 & ? & ?).
  assert (y1 <= zlen (store me)) by lia. assert (y2 <= zlen (store me)) by lia.
  assert (Hin : region x1 x2 me) by region_tac Hy2.
  assert (Hout : region x3 x4 me) by region_tac Hy1.
  pose proof Ho as (_ & _ & Hcg & _). pose proof Hcg as Hcg'. unfold is_u64 in Hcg'.
  do 7 vm_step. cbn [ovm]. change (callGasTemp (set_db d0 o)) with (callGasTemp o).
  apply wp_callArgs; [done|done|]. intros bs Hbs.
  eapply (wp_subcall _ (fun r o' => sub_post (set_db d0 o) (callGasTemp o) r.1.1 r.1.2 o')).
  { apply (Hsub (RefContract c) (u_Bytes20 x0) bs (callGasTemp o) (set_db d0 o)); try done.
    by apply wf_ovm_set_db. }
  intros [[rv left] err] o' c' (Ho' & He & Hrv & Hl) Hgc Hwc.
  apply finish_call_ok; try done; auto.
  - cbn. rewrite Hgc. lia.
  - cbn. rewrite !zlen_snoc. lia.
Qed.

Lemma finish_create_ok pops v rv left err pc o me st c m :
  bytes_ok rv -> is_u256 v -> 0 <= left -> Gas c + left <= Gas (contract m) ->
  is_u64 (Gas (contract m)) ->
  is_u64 pc -> wf_ovm o -> env o = env (ovm m) -> wf_memory me -> wf_stack st ->
  wf_contract c -> zlen st = zlen (stack m) - pops ->
  wp ok_panic (finish_create v rv left err) (mkMachine pc o me st c) (epost pops 1 0 true m).
Proof.
  intros Hrv Hv Hleft Hg Hu Hpc Ho He Hme Hst Hc Hlen. unfold finish_create, addGas, setReturnData.
  unfold is_u64 in Hu.
  destruct (wf_add_gas c left Hc) as [Hc' Hg']; [lia|lia|]. do 2 vm_step.
  destruct (decide _); vm_step; [|apply wp_done_];
    apply epost_ret; cbn [set_contract set_ovm VmCore.pc ovm mem stack contract fst snd];
    auto using wf_set_returnData, wf_stack_snoc with go;
    try (rewrite Hg'; lia); rewrite ?zlen_snoc; intros _; (split; [done|lia]).
Qed.

Lemma exec_create m : wf_machine m -> 3 <= zlen (stack m) -> mem_at m_memoryCreate m ->
  chainRules (ovm m) = r -> Gas (contract m) < Bd -> wp ok_panic (opCreate S) m (epost 3 1 0 true m).
Proof.
  intros Hm Hn (s & Hs & Hle) Hrr HB. exec_open Hm Hn.
  cbn [stack mem ovm contract] in Hs, Hle, Hrr, HB.
  do 3 peel. assert (Hr : region x0 x1 me) by region_tac Hs.
  destruct (region_GetCopy x0 x1 me Hme Hr) as (bs & Hbs & Hok).
  unfold opCreate, writeProtected. vm_step. exec_tac1; [exec_tac|]. do 3 vm_step.
  eapply wp_readMem; [exact Hbs|]. vm_step. cbn [contract ovm].
  pose proof Hc as (_ & _ & Hgas & _). unfold is_u64 in Hgas.
  set (g := if IsEIP150 _ then _ else _).
  assert (Hg : 0 <= g <= Gas c) by (unfold g; destruct (IsEIP150 _); dlia).
  apply wp_UseGasM; [lia|]. intros _.
  assert (Hc' : wf_contract (set_Gas (Gas c - g) c)) by (apply wf_set_Gas; [done|unfold is_u64; lia]).
  eapply (wp_subcall _ (fun r o' => sub_post (set_db d0 o) g r.1.1.1 r.1.2 o')).
  { apply (Create_ok (S := S) x (RefContract (set_Gas (Gas c - g) c)) bs g (set_db d0 o)); try done.
    - unfold is_u64. lia.
    - lia.
    - by apply wf_ovm_set_db. }
  intros [[[rv addr] left] err] o' c' (Ho' & He & Hrv & Hl) Hgc Hwc. cbn beta iota zeta.
  vm_step. cbn [fst snd] in Hrv, Hl. apply finish_create_ok; try done; auto using u256_if, u256_addr with go.
  - lia.
  - rewrite Hgc. cbn. lia.
  - cbn. rewrite !zlen_snoc. lia.
Qed.

Lemma exec_create2 m : wf_machine m -> 4 <= zlen (stack m) -> mem_at m_memoryCreate2 m ->
  chainRules (ovm m) = r -> Gas (contract m) < Bd -> wp ok_panic (opCreate2 S) m (epost 4 1 0 true m).
Proof.
  intros Hm Hn (s & Hs & Hle) Hrr HB. exec_open Hm Hn.
  cbn [stack mem ovm contract] in Hs, Hle, Hrr, HB.
  do 4 peel. assert (Hr : region x0 x1 me) by region_tac Hs.
  destruct (region_GetCopy x0 x1 me Hme Hr) as (bs & Hbs & Hok).
  unfold opCreate2, writeProtected. vm_step. exec_tac1; [exec_tac|]. do 4 vm_step.
  eapply wp_readMem; [exact Hbs|]. vm_step. cbn [contract ovm].
  pose proof Hc as (_ & _ & Hgas & _). unfold is_u64 in Hgas.
  set (g := Gas c - Gas c / 64). assert (Hg : 0 <= g <= Gas c) by (unfold g; dlia).
  apply wp_UseGasM; [lia|]. intros _.
  assert (Hc' : wf_contract (set_Gas (Gas c - g) c)) by (apply wf_set_Gas; [done|unfold is_u64; lia]).
  eapply (wp_subcall _ (fun r o' => sub_post (set_db d0 o) g r.1.1.1 r.1.2 o')).
  { apply (Create2_ok (S := S) x x2) with (caller := RefContract (set_Gas (Gas c - g) c))
      (code := bs) (gas := g) (o := set_db d0 o); try done.
    - unfold is_u64. lia.
    - lia.
    - by apply wf_ovm_set_db. }
  intros [[[rv addr] left] err] o' c' (Ho' & He & Hrv & Hl) Hgc Hwc. cbn beta iota zeta.
  cbn [fst snd] in Hrv, Hl. apply finish_create_ok; try done; auto using u256_if, u256_addr with go.
  - lia.
  - rewrite Hgc. cbn. lia.
  - cbn. rewrite !zlen_snoc. lia.
Qed.
End subcalls.

(** ** Every instruction *)
Lemma exec_push_big m x : wf_machine m -> is_Some x ->
  wp ok_panic (push_big x) m (epost 0 1 0 true m).
Proof. intros Hm [v ->]. apply exec_push; auto with go. Qed.

(** Instructions that push a value of the environment. *)
Ltac env_push :=
  cbv beta delta [opAddress opOrigin opCaller opCallValue opCallDataSize opReturnDataSize
    opCodeSize opGasprice opCoinbase opTimestamp opNumber opDifficulty opGasLimit opPc opGas
    opChainID opBaseFee];
  apply wp_getM; cbn beta;
  first [apply exec_push; [done|]; auto using u256_addr, u256_hash, u256_len with go; fail
        |apply exec_push_big; done].

Lemma exec_ok r Bd S {HS : SubsOk r Bd S} f m :
  wf_machine m -> exec_args f = true -> exec_pops f <= zlen (stack m) -> covers f m ->
  (f = f_opStop \/ pc m < zlen (Code (contract m))) ->
  (f = f_opRandom -> is_Some (Random (Context (ovm m)))) ->
  chainRules (ovm m) = r -> (halts f = false -> Gas (contract m) + bonus f m < Bd) ->
  Gas (contract m) + bonus f m < two64 ->
  wp ok_panic (exec_ S f) m (exec_post f m).
Proof.
  intros Hm Ha Hp Hcov Hpc Hrnd Hrr HB Hlt. pose proof Hm as (Hpcu & Ho & Hme & Hst & Hc).
  pose proof Ho as (_ & [_ Hrl] & Hcg & (Hgl & Hbf & Hcid & _)).
  pose proof Hc as ((_ & Hcl) & (_ & Hil) & Hg & Hv).
  pose proof (wf_memory_lt _ Hme) as Hml.
  assert (HrB : is_u64 (callGasTemp (ovm m))) by done. unfold is_u64 in HrB.
  assert (Hg' : 0 <= Gas (contract m)) by apply Hg.
  unfold exec_post, covers in *.
  destruct f; cbn [exec_pops exec_pushes bonus halts negb exec_memfn exec_args exec_] in *;
    try specialize (HB eq_refl);
    try (apply exec_binop; [done|done|]; intros x y Hx Hy;
         pose proof (binops_u256 x y Hx Hy); pose proof (binops_u256 y x Hy Hx);
         auto using u256_if with go; tauto);
    try env_push.
  - (* opNot *) apply exec_unop; [done|done|]. intros x Hx. by apply (binops_u256 x x).
  - (* opIszero *) apply exec_unop; [done|done|]. auto using u256_if with go.
  - (* opAddmod *) apply exec_triop; [done|done|]. intros x y z Hx Hy Hz.
    apply u256_if; [auto with go|]. by apply modop_range.
  - (* opMulmod *) apply exec_triop; [done|done|]. intros x y z Hx Hy Hz. by apply modop_range.
  - apply exec_binop; [done|done|]. intros x y Hx Hy. pose proof (binops_u256 y x Hy Hx).
    apply u256_if; [tauto|auto with go].
  - apply exec_binop; [done|done|]. intros x y Hx Hy. pose proof (binops_u256 y x Hy Hx).
    apply u256_if; [tauto|auto with go].
  - apply exec_binop; [done|done|]. intros x y Hx Hy. pose proof (binops_u256 y x Hy Hx).
    apply u256_if; [apply u256_if|tauto]; unfold is_u256; lia.
  - by apply exec_keccak.
  - by apply exec_balance.
  - by apply exec_calldataload.
  - by apply exec_calldatacopy.
  - by apply exec_returndatacopy.
  - by apply exec_extcodesize.
  - by apply exec_codecopy.
  - by apply exec_extcodecopy.
  - by apply exec_extcodehash.
  - by apply exec_blockhash.
  - (* opRandom *) destruct (Hrnd eq_refl) as [h Hh]. unfold opRandom. vm_step. rewrite Hh.
    apply exec_push; auto using u256_hash.
  - by apply exec_pop.
  - by apply exec_mload.
  - by apply exec_mstore.
  - by apply exec_mstore8.
  - by apply exec_sload.
  - by apply exec_sstore.
  - by apply exec_jump.
  - by apply exec_jumpi.
  - (* opJumpdest *) apply wp_done_. unfold epost. cbn. unfold wf_machine in Hm.
    split; [done|]. split; [done|]. split; [auto with go|]. split; [lia|].
    intros _. split; [done|lia].
  - (* opMsize *) apply wp_getM. apply exec_push; [done|]. unfold is_u256. lia.
  - by apply (exec_create r Bd); try lia.
  - by apply (exec_create2 r Bd); try lia.
  - apply (exec_call_like r Bd (sub_Call S) true); try done; try lia. apply Call_ok.
  - apply (exec_call_like r Bd (sub_CallCode S) false); try done; try lia. apply CallCode_ok.
  - eapply (exec_delegate_like r Bd (sub_DelegateCall S)); try done; try lia;
      [apply DelegateCall_ok|by left].
  - eapply (exec_delegate_like r Bd (sub_StaticCall S)); try done; try lia;
      [apply StaticCall_ok|by right].
  - by apply exec_return.
  - by apply exec_revert.
  - apply exec_undefined; [done|]. by destruct Hpc.
  - (* opStop *) apply wp_fail. unfold epost. cbn. unfold wf_machine in Hm.
    split; [done|]. split; [done|]. split; [auto with go|]. split; [lia|done].
  - by apply exec_selfdestruct.
  - apply andb_true_iff in Ha as [Ha _]. apply exec_log; try done. lia.
  - by apply exec_push1.
  - apply andb_true_iff in Ha as [[He%Z.eqb_eq Ha]%andb_true_iff Hb']. subst.
    apply exec_makePush; [done|lia|by destruct Hpc].
  - apply exec_dup; [done|lia].
  - apply exec_swap; [done|lia|done].
  - by apply exec_selfbalance.
  - (* opPush0 *) apply exec_push; auto with go.
Qed.
End exec.
