(* ===== verification/RunProofs.v ===== *)
(** * The interpreter: every run terminates, stays in bounds and pays for itself

    The jump tables satisfy what the loop assumes ([op_wf], checked on all ten
    tables); with the contracts of the gas functions and of the instructions,
    one iteration keeps the machine well-formed and consumes gas
    ([step_ok]); by induction on the fuel, a loop whose fuel exceeds the gas of
    its contract never runs out of fuel ([runLoop_ok]), and the OVM's methods
    keep the promises of [SubsOk]. *)
From S2P Require Import Prelude Uint256 Params GoMath VmStack Analysis Rlp RlpProofs StateDB.
From S2P Require Import StateInv VmCore VmGas Instructions JumpTable Interpreter VmInv GasProofs.
From S2P Require Import ExecProofs.

(** ** What the loop needs of a table entry *)
Definition gas_positive (g : option gasFn) : bool :=
  match g with
  | Some (g_gasSStore | g_gasSStoreEIP2200 | g_gasSStoreEIP2929 | g_gasSStoreEIP3529
         | g_makeGasLog _ | g_gasExpFrontier | g_gasExpEIP158 | g_gasSLoadEIP2929) => true
  | _ => false
  end.

(** The gas function of a call instruction pays for the callee's gas. *)
Definition call_paired (f : executionFunc) (g : option gasFn) : bool :=
  match f, g with
  | f_opCall, Some (g_gasCall | g_gasCallEIP2929)
  | f_opCallCode, Some (g_gasCallCode | g_gasCallCodeEIP2929)
  | f_opDelegateCall, Some (g_gasDelegateCall | g_gasDelegateCallEIP2929)
  | f_opStaticCall, Some (g_gasStaticCall | g_gasStaticCallEIP2929) => true
  | (f_opCall | f_opCallCode | f_opDelegateCall | f_opStaticCall), _ => false
  | _, _ => true
  end.

Definition dynamic_wf (op : operation) : bool :=
  match dynamicGas op with
  | None => bool_decide (memorySize op = None)
  | Some g => (gas_pops g <=? op_minStack op) &&
              (gas_mem g || bool_decide (memorySize op = None))
  end.

Definition op_wf (op : operation) : bool :=
  exec_args (execute op) &&
  (exec_pops (execute op) <=? op_minStack op) &&
  (op_maxStack op - exec_pops (execute op) + exec_pushes (execute op) <=? StackLimit) &&
  bool_decide (exec_memfn (execute op) = memorySize op) &&
  dynamic_wf op &&
  (0 <=? constantGas op) && (constantGas op <? two64) &&
  (halts (execute op) || (1 <=? constantGas op) || gas_positive (dynamicGas op)) &&
  call_paired (execute op) (dynamicGas op).

(** The access-list aware call prices appear from Berlin on, RANDOM in the merge
    table. *)
Definition op_fork_ok (berlin merge : bool) (op : operation) : bool :=
  implb (match dynamicGas op with Some g => needs_eip150 g | None => false end) berlin &&
  implb (bool_decide (execute op = f_opRandom)) merge.

Definition table_wf (berlin merge : bool) (jt : JumpTable) : bool :=
  (length jt =? 256)%nat &&
  forallb (fun e => match e with
                    | Some op => op_wf op && op_fork_ok berlin merge op
                    | None => false
                    end) jt &&
  match jt with Some op :: _ => bool_decide (execute op = f_opStop) | _ => false end.

(** Whether the selected table has the prices of EIP-2929. *)
Definition has_berlin (r : Rules) : bool := IsMerge r || IsLondon r || IsBerlin r.

Definition built_wf (berlin merge : bool) (t : outcome JumpTable) : bool :=
  match t with Ret jt => table_wf berlin merge jt | _ => false end.

(** All ten tables are built without panicking and satisfy the check. *)
Lemma tables_wf :
  forallb (built_wf false false)
    [newFrontierInstructionSet; newHomesteadInstructionSet; newTangerineWhistleInstructionSet;
     newSpuriousDragonInstructionSet; newByzantiumInstructionSet; newConstantinopleInstructionSet;
     newIstanbulInstructionSet] = true /\
  forallb (built_wf true false) [newBerlinInstructionSet; newLondonInstructionSet] = true /\
  built_wf true true newMergeInstructionSet = true.
Proof. split; [vm_compute; reflexivity|]. split; vm_compute; reflexivity. Qed.

Lemma built_inv b m t : built_wf b m t = true -> exists jt, t = Ret jt /\ table_wf b m jt = true.
Proof. unfold built_wf. destruct t; [|done|done]. eauto. Qed.

Lemma select_table_wf r : exists jt,
  select_table r = Ret jt /\ table_wf (has_berlin r) (IsMerge r) jt = true.
Proof.
  destruct tables_wf as (H1 & H2 & H3). unfold select_table, has_berlin.
  cbn [forallb] in H1, H2. rewrite !andb_true_iff in H1, H2.
  apply built_inv. repeat case_match; cbn [orb]; tauto.
Qed.

(** ** Facts a checked entry gives *)
Definition floor1 (g : option gasFn) : Z := if gas_positive g then 1 else 0.

Lemma op_wf_facts op : op_wf op = true ->
  exec_args (execute op) = true /\ exec_pops (execute op) <= op_minStack op /\
  op_maxStack op - exec_pops (execute op) + exec_pushes (execute op) <= StackLimit /\
  exec_memfn (execute op) = memorySize op /\ dynamic_wf op = true /\
  0 <= constantGas op < two64 /\
  (halts (execute op) = false -> 1 <= constantGas op + floor1 (dynamicGas op)) /\
  call_paired (execute op) (dynamicGas op) = true.
Proof.
  unfold op_wf. rewrite !andb_true_iff, bool_decide_eq_true, !orb_true_iff.
  intros [[[[[[[[? ?] ?] ?] ?] ?] ?] Hc] ?]. unfold floor1.
  split_and!; try done; try lia. intros Hh. rewrite Hh in Hc.
  destruct (gas_positive _); [lia|]. destruct Hc as [[?|?]|?]; [done|lia|done].
Qed.

Definition mem_pops (f : memorySizeFunc) : Z :=
  match f with
  | m_memoryMLoad | m_memoryMStore8 | m_memoryMStore => 1
  | m_memoryKeccak256 | m_memoryReturn | m_memoryRevert | m_memoryLog => 2
  | m_memoryCallDataCopy | m_memoryReturnDataCopy | m_memoryCodeCopy | m_memoryCreate
  | m_memoryCreate2 => 3
  | m_memoryExtCodeCopy => 4
  | m_memoryCall => 7
  | m_memoryDelegateCall | m_memoryStaticCall => 6
  end.

Lemma exec_memfn_pops f mf : exec_args f = true -> exec_memfn f = Some mf ->
  mem_pops mf <= exec_pops f.
Proof. destruct f; cbn; intros Ha [= <-]; cbn; lia. Qed.

Section run.
Context {U : Uint256} {L : Uint256Laws U} {C : Crypto} {CL : CryptoLaws C}.
Context {B : ByteUtils} {BL : ByteUtilsLaws B}.

Lemma calcMemSize64WithUint_u64 x l : is_u64 (calcMemSize64WithUint x l).1.
Proof.
  unfold calcMemSize64WithUint. destruct (l =? 0); [unfold is_u64; cbn; lia|].
  unfold Uint64WithOverflow. destruct (negb _); [unfold is_u64; cbn; lia|]. apply wrap64_range.
Qed.

Lemma memSizeBack_ret a b st : wf_stack st -> 0 <= a < zlen st -> 0 <= b < zlen st ->
  exists s ov, memSizeBack a b st = Ret (s, ov) /\ is_u64 s.
Proof.
  intros Hst Ha Hb. unfold memSizeBack.
  destruct (Back_wf st a Hst Ha) as (x & -> & _). destruct (Back_wf st b Hst Hb) as (y & -> & _).
  cbn [obind]. do 2 eexists. split; [by rewrite <- surjective_pairing|].
  unfold calcMemSize64. destruct (negb _); [unfold is_u64; cbn; lia|].
  apply calcMemSize64WithUint_u64.
Qed.

Lemma memSizeMax_ret a b a' b' st : wf_stack st -> 0 <= a < zlen st -> 0 <= b < zlen st ->
  0 <= a' < zlen st -> 0 <= b' < zlen st ->
  exists s ov, memSizeMax a b a' b' st = Ret (s, ov) /\ is_u64 s.
Proof.
  intros Hst Ha Hb Ha' Hb'. unfold memSizeMax.
  assert (is_u64 0) by (unfold is_u64; lia).
  destruct (memSizeBack_ret a b st Hst Ha Hb) as (x & ov & -> & Hx). cbn [obind].
  destruct ov; [eauto|].
  destruct (memSizeBack_ret a' b' st Hst Ha' Hb') as (y & ov & -> & Hy). cbn [obind].
  destruct ov; [eauto|]. destruct (y <? x); eauto.
Qed.

Lemma memsize_ret f st : wf_stack st -> mem_pops f <= zlen st ->
  exists s ov, memsize_ f st = Ret (s, ov) /\ is_u64 s.
Proof.
  intros Hst Hp.
  assert (H1 : forall l, 1 <= zlen st ->
    exists s ov, (x <-o Back 0 st ;; Ret (calcMemSize64WithUint x l)) = Ret (s, ov) /\ is_u64 s).
  { intros l Hl. destruct (Back_wf st 0 Hst) as (x & -> & _); [lia|]. cbn [obind].
    do 2 eexists. split; [by rewrite <- surjective_pairing|]. apply calcMemSize64WithUint_u64. }
  destruct f; cbn [mem_pops memsize_] in *;
    first [by apply H1 | apply memSizeBack_ret; [done|lia|lia]
          | apply memSizeMax_ret; [done|lia|lia|lia|lia]].
Qed.

(** The size of the next instruction, in whole words. *)
Lemma nextMemorySize_ok {A} op (k : option Z -> VM A) (Q : A -> Machine -> Prop) m :
  wf_stack (stack m) -> exec_args (execute op) = true ->
  exec_memfn (execute op) = memorySize op -> exec_pops (execute op) <= zlen (stack m) ->
  wp ok_panic (k None) m Q ->
  (forall size, 0 <= size -> size mod 32 = 0 -> (memorySize op = None -> size = 0) ->
     (forall mf, memorySize op = Some mf ->
        exists s, memsize_ mf (stack m) = Ret (s, false) /\ s <= size) ->
     wp ok_panic (k (Some size)) m Q) ->
  wp ok_panic (bind (nextMemorySize op) k) m Q.
Proof.
  intros Hst Ha Hmf Hp Hnone Hsome. unfold nextMemorySize.
  destruct (memorySize op) as [f|] eqn:Ef.
  2: { vm_step. by apply Hsome. }
  pose proof (exec_memfn_pops _ _ Ha Hmf).
  destruct (memsize_ret f (stack m) Hst) as (s & ov & Hs & Hu); [lia|].
  vm_step. vm_step. vm_step. eapply wp_liftOM; [exact Hs|]. cbn beta iota.
  destruct ov; [by vm_step|]. destruct (toWordSize_spec s Hu) as (_ & Hw & Hw').
  destruct (SafeMul (toWordSize s) 32) as [size ov] eqn:E.
  destruct ov; [by vm_step|].
  apply SafeMul_ok in E as [-> _]; [|unfold is_u64; lia|unfold is_u64; lia].
  vm_step. apply Hsome; [lia|by rewrite Z.mod_mul|done|].
  intros mf [= <-]. exists s. split; [done|lia].
Qed.

(** What a call hands over is paid for by its gas function. *)
Lemma bonus_floor f g m : is_u64 (callGasTemp (ovm m)) -> call_paired f (Some g) = true ->
  bonus f m + floor1 (Some g) <= gas_floor g (stack m) (callGasTemp (ovm m)).
Proof.
  intros [Ht _] Hp.
  assert (Hv : 0 <= stipend (stack m) <= value_cost (stack m)).
  { unfold stipend, value_cost. destruct (Back 2 (stack m)); [|lia|lia]. params. zcase. }
  unfold floor1. destruct f; try discriminate Hp; destruct g; try discriminate Hp; cbn; lia.
Qed.

Definition fin (m m' : Machine) : Prop :=
  wf_ovm (ovm m') /\ env (ovm m') = env (ovm m) /\ wf_contract (contract m') /\
  Gas (contract m') <= Gas (contract m).

Definition charged (op : operation) (m : Machine) (e : option vmerr) (m' : Machine) : Prop :=
  fin m m' /\
  (e = None ->
     wf_machine m' /\ pc m' = pc m /\ stack m' = stack m /\
     Code (contract m') = Code (contract m) /\ covers (execute op) m' /\
     Gas (contract m') + bonus (execute op) m' + floor1 (dynamicGas op) <= Gas (contract m)).

Lemma fin_refl m : wf_machine m -> fin m m.
Proof. intros (_ & ? & _ & _ & ?). unfold fin. split; [done|]. split; [done|]. split; [done|lia]. Qed.

(** Memory after the fee has been recorded and the region allocated. *)
Lemma wf_memory_resize me me' size :
  wf_memory me -> store me' = store me -> 0 <= size <= memLimit -> size mod 32 = 0 ->
  lastGasCost me' = memFee (Z.max (size / 32) (zlen (store me) / 32)) ->
  let me'' := if 0 <? size then Memory_Resize size me' else me' in
  wf_memory me'' /\ size <= zlen (store me'').
Proof.
  intros Hme Hs Hsz H32 Hl me''. pose proof (wf_memory_lt me Hme). destruct Hme as (Hb & Hlim & Hm & _).
  assert (Hb' : wf_mem me') by (unfold wf_mem; by rewrite Hs).
  unfold me''. destruct (Z.ltb_spec 0 size).
  - destruct (Memory_Resize_ok size me' Hb') as (Hw & Hlen & Hg). rewrite Hs in Hlen.
    unfold wf_memory. rewrite Hlen, Hg, Hl. split; [|lia]. split; [done|]. split; [lia|].
    split; [dlia|]. f_equal. dlia.
  - assert (size = 0) as -> by lia. unfold wf_memory. rewrite Hs, Hl. split; [|lia].
    split; [done|]. split; [done|]. split; [done|]. f_equal. dlia.
Qed.

Lemma gas_frame_fin m m' gg : wf_machine m -> gas_frame m m' ->
  contract m' = set_Gas gg (contract m) -> 0 <= gg <= Gas (contract m) -> fin m m'.
Proof.
  intros (_ & _ & _ & _ & Hc) (_ & _ & _ & Ho & He) Hcc Hg.
  pose proof Hc as (_ & _ & Hu & _). unfold is_u64 in Hu.
  split; [done|]. split; [done|]. rewrite Hcc. split; [|cbn; lia].
  apply wf_set_Gas; [done|]. unfold is_u64. lia.
Qed.

(** The state after a successful dynamic charge. *)
Lemma charge_success op m m' size cost g :
  wf_machine m -> gas_frame m m' -> gas_charge size cost m m' ->
  gas_floor g (stack m) (callGasTemp (ovm m')) <= cost -> cost <= Gas (contract m) ->
  dynamicGas op = Some g -> call_paired (execute op) (Some g) = true ->
  exec_memfn (execute op) = memorySize op ->
  0 <= size -> size mod 32 = 0 ->
  (forall mf, memorySize op = Some mf ->
     exists s, memsize_ mf (stack m) = Ret (s, false) /\ s <= size) ->
  charged op m None
    (mkMachine (pc m') (ovm m') (if 0 <? size then Memory_Resize size (mem m') else mem m')
       (stack m') (set_Gas (Gas (contract m) - cost) (contract m))).
Proof.
  intros (Hpc & Ho & Hme & Hst & Hc) (Hpc' & Hst' & Hsto & Ho' & He) (Hu & _ & Hlim & Hl) Hfl Hle
    Hdg Hpair Hmf H0 H32 Hsz.
  pose proof Hc as (_ & _ & Hg & _). unfold is_u64 in Hu, Hg.
  destruct (wf_memory_resize (mem m) (mem m') size) as [Hw Hlen]; try done.
  assert (Hc' : wf_contract (set_Gas (Gas (contract m) - cost) (contract m))).
  { apply wf_set_Gas; [done|]. unfold is_u64. lia. }
  split; [split; [done|]; split; [done|]; split; [done|cbn; lia]|]. intros _.
  split; [|split; [done|]; split; [done|]; split; [done|]; split].
  - split; [cbn; by rewrite Hpc'|]. split; [done|]. split; [done|]. split; [|done].
    cbn. by rewrite Hst'.
  - unfold covers. rewrite Hmf. destruct (memorySize op) as [mf|]; [|done].
    destruct (Hsz mf eq_refl) as (s & Hs & ?). exists s. cbn. rewrite Hst'. split; [done|lia].
  - set (m2 := mkMachine _ _ _ _ _).
    pose proof (bonus_floor (execute op) g m2) as Hbf.
    assert (Ht : is_u64 (callGasTemp (ovm m2))) by apply Ho'.
    specialize (Hbf Ht Hpair). rewrite Hdg. cbn [stack ovm m2] in Hbf. rewrite Hst' in Hbf.
    cbn [contract m2 Gas set_Gas]. lia.
Qed.

Section loop.
Context (r : Rules) (jt : JumpTable).
Context (Hjt : table_wf (has_berlin r) (IsMerge r) jt = true).
Context (H150 : has_berlin r = true -> IsEIP150 r = true).

Lemma table_entry i : 0 <= i < 256 -> exists op,
  jt !! Z.to_nat i = Some (Some op) /\ op_wf op = true /\
  op_fork_ok (has_berlin r) (IsMerge r) op = true /\ (i = 0 -> execute op = f_opStop).
Proof.
  intros Hi. unfold table_wf in Hjt. rewrite !andb_true_iff, Nat.eqb_eq in Hjt.
  destruct Hjt as [[Hlen Hall] H0]. rewrite forallb_forall in Hall.
  destruct (lookup_lt_is_Some_2 jt (Z.to_nat i)) as [e He]; [lia|].
  pose proof (Hall e) as Hop. rewrite <- list_elem_of_In in Hop.
  specialize (Hop (list_elem_of_lookup_2 _ _ _ He)). destruct e as [op|]; [|done].
  apply andb_true_iff in Hop as [? ?]. exists op. repeat split; try done.
  intros ->. destruct jt as [|[op0|] t]; [done| |done]. cbn in He. injection He as ->.
  by apply bool_decide_eq_true in H0.
Qed.

Lemma chargeDynamic_ok op m :
  wf_machine m -> op_wf op = true -> op_fork_ok (has_berlin r) (IsMerge r) op = true ->
  chainRules (ovm m) = r -> op_minStack op <= zlen (stack m) ->
  wp ok_panic (chargeDynamic op) m (charged op m).
Proof.
  intros Hm Hop Hfork Hrr Hmin. apply op_wf_facts in Hop as (Ha & Hpops & _ & Hmf & Hdw & _ & _ & Hpair).
  unfold chargeDynamic. unfold dynamic_wf in Hdw. destruct (dynamicGas op) as [g|] eqn:Edg.
  2: { apply bool_decide_eq_true in Hdw. vm_step. split; [by apply fin_refl|]. intros _.
       split; [done|]. split; [done|]. split; [done|]. split; [done|]. unfold covers.
       rewrite Hmf, Hdw, Edg. split; [done|]. cbn.
       destruct (execute op); try discriminate Hpair; cbn; lia. }
  apply andb_true_iff in Hdw as [Hgp Hgm]. apply orb_true_iff in Hgm.
  unfold op_fork_ok in Hfork. rewrite Edg in Hfork. apply andb_true_iff in Hfork as [Hfork _].
  apply nextMemorySize_ok; [apply Hm|done|done|lia| |].
  { vm_step. split; [by apply fin_refl|done]. }
  intros size H0 H32 Hnone Hsz. cbn beta iota. apply wp_bind.
  eapply wp_mono; [apply gas_ok; try done; try lia|].
  - destruct Hgm as [->|Hgm]; [done|]. apply bool_decide_eq_true in Hgm. auto.
  - intros Hn. rewrite Hrr. apply H150. by rewrite Hn in Hfork.
  - intros [cost [e|]] m' (Hfr & (gg & Hgg & Hgb) & Hch); cbn beta iota.
    { vm_step. split; [by eapply gas_frame_fin|done]. }
    destruct Hch as [Hch Hfl].
    destruct m' as [pc' o' me' st' c']. pose proof Hch as (_ & Hcc & _). cbn in Hcc. subst c'.
    apply wp_UseGasM; intros Hle; cbn [negb].
    { vm_step. split; [by eapply gas_frame_fin|done]. }
    assert (Hok := charge_success op m _ size cost g Hm Hfr Hch Hfl Hle Edg Hpair Hmf H0 H32 Hsz).
    cbn [VmCore.pc ovm mem stack] in Hok.
    destruct (0 <? size); repeat vm_step; exact Hok.
Qed.

(** One iteration of the loop. *)
Definition step_post (m : Machine) (res : option execRes) (m' : Machine) : Prop :=
  fin m m' /\
  match res with
  | Some r => bytes_ok r.1
  | None => wf_machine m' /\ zlen (stack m') <= StackLimit /\
            Gas (contract m') < Gas (contract m)
  end.

Lemma GetOp_range p c : wf_contract c -> 0 <= p -> 0 <= GetOp p c < 256 /\
  (GetOp p c = 0 \/ p < zlen (Code c)).
Proof.
  intros ((Hb & _) & _) Hp. unfold GetOp. destruct (Z.ltb_spec p (zlen (Code c))) as [Hlt|].
  - split; [|by right].
    assert (Hin : In (nth (Z.to_nat p) (Code c) 0) (Code c)) by (apply nth_In; unfold zlen in Hlt; lia).
    rewrite Forall_forall in Hb. rewrite <- list_elem_of_In in Hin. by apply Hb in Hin.
  - split; [unfold STOP; lia|by left].
Qed.

(** After the charges: run the instruction and move on. *)
Lemma step_exec Bd S {HS : SubsOk r Bd S} op m m1 :
  op_wf op = true -> op_fork_ok (has_berlin r) (IsMerge r) op = true ->
  wf_machine m1 -> fin m m1 -> chainRules (ovm m1) = r ->
  op_minStack op <= zlen (stack m1) <= op_maxStack op -> covers (execute op) m1 ->
  (execute op = f_opStop \/ pc m1 < zlen (Code (contract m1))) ->
  Gas (contract m1) + bonus (execute op) m1 + floor1 (dynamicGas op) + constantGas op
    <= Gas (contract m) ->
  Gas (contract m) <= Bd -> Gas (contract m) < two64 ->
  wp ok_panic
    (let! (res, err) := exec_ S (execute op) ;;
     match err with
     | Some _ => ret (Some (res, err))
     | None => modify (fun m => set_pc (pc m +64 1) m) ;;; ret None
     end) m1 (step_post m).
Proof.
  intros Hop Hfork Hm1 Hfin Hrr Hst Hcov Hpc Hgas HB H64.
  apply op_wf_facts in Hop as (Ha & Hpops & Hmax & Hmf & _ & Hcg & Hpos & _).
  assert (Hf0 : 0 <= floor1 (dynamicGas op)) by (unfold floor1; destruct (gas_positive _); lia).
  destruct Hfin as (_ & He & _ & _). apply wp_bind.
  eapply wp_mono; [apply (exec_ok r Bd S (execute op) m1); try done; try lia|].
  - intros Hr. unfold op_fork_ok in Hfork. apply andb_true_iff in Hfork as [_ Hfork].
    rewrite Hr in Hfork. destruct Hm1 as (_ & (_ & _ & _ & (_ & _ & _ & Hrnd)) & _).
    apply Hrnd. rewrite Hrr. rewrite bool_decide_eq_true_2 in Hfork by done. done.
  - intros [res err] m2 ((Hpc2 & Ho2 & Hme2 & Hst2 & Hc2) & He2 & Hb & Hg & Hcont).
    cbn [fst snd] in *.
    assert (Hfin2 : fin m m2).
    { split; [done|]. split; [by rewrite He2|]. split; [done|]. lia. }
    destruct err as [e|]; cbn beta iota; [by vm_step|].
    destruct (Hcont eq_refl) as [Hh Hlen]. apply negb_true_iff in Hh. specialize (Hpos Hh).
    repeat vm_step. split; [done|]. split; [|split; [cbn; lia|cbn; lia]].
    split; [apply wrap64_range|]. done.
Qed.

Lemma step_ok Bd S {HS : SubsOk r Bd S} m :
  wf_machine m -> chainRules (ovm m) = r -> Gas (contract m) <= Bd ->
  wp ok_panic (step jt S) m (step_post m).
Proof.
  intros Hm Hrr HB. unfold step. apply wp_getM. cbn beta zeta.
  pose proof Hm as (Hpcu & Ho & Hme & Hst & Hc). pose proof Hc as (_ & _ & Hg64 & _).
  unfold is_u64 in Hpcu, Hg64.
  destruct (GetOp_range (pc m) (contract m)) as [Hop Hor]; [done|lia|].
  destruct (table_entry _ Hop) as (op & -> & Hwf & Hfork & Hstop).
  assert (Herr : forall e, step_post m (Some ([], Some e)) m)
    by (intros e; split; [by apply fin_refl|cbn; auto with go]).
  destruct (Z.ltb_spec (zlen (stack m)) (op_minStack op)); [by vm_step|].
  destruct (Z.ltb_spec (op_maxStack op) (zlen (stack m))); [by vm_step|].
  pose proof (op_wf_facts op Hwf) as (_ & _ & _ & _ & _ & Hcg & _).
  destruct m as [p o me st c]. cbn [VmCore.pc ovm mem stack contract] in *.
  apply wp_UseGasM; intros Hle; cbn [negb]; [by vm_step|].
  set (m1 := mkMachine p o me st (set_Gas (Gas c - constantGas op) c)).
  assert (Hm1 : wf_machine m1).
  { split; [done|]. split; [done|]. split; [done|]. split; [done|].
    apply wf_set_Gas; [done|]. unfold is_u64. lia. }
  apply wp_bind. eapply wp_mono; [apply chargeDynamic_ok; try done|].
  intros e m2 [Hfin Hok].
  assert (Hfin' : fin (mkMachine p o me st c) m2).
  { destruct Hfin as (? & ? & ? & Hg2). cbn in Hg2.
    split; [done|]. split; [done|]. split; [done|]. cbn. lia. }
  destruct e as [e|]; [vm_step; split; [done|cbn; auto with go]|].
  destruct (Hok eq_refl) as (Hm2 & Hpc2 & Hst2 & Hcode & Hcov & Hg2). cbn in Hpc2, Hst2, Hcode, Hg2.
  apply (step_exec Bd S op); try done.
  - destruct Hfin as (_ & He & _). rewrite (env_rules _ _ He). done.
  - rewrite Hst2. lia.
  - rewrite Hpc2, Hcode. destruct Hor as [Hz|]; [left; auto|by right].
  - cbn. lia.
  - cbn. lia.
Qed.

(** ** Precompiled contracts and addresses *)
Lemma perWordGas_u64 a b i : is_u64 (perWordGas a b i).
Proof. apply wrap64_range. Qed.

Lemma RequiredGas_nonneg p input : 0 <= RequiredGas p input.
Proof. destruct p; cbn; try apply perWordGas_u64. params. lia. Qed.

Lemma slice_bytes l lo hi : Forall is_byte l -> 0 <= lo -> lo <= hi -> hi <= zlen l ->
  exists d, slice l lo hi = Ret d /\ Forall is_byte d /\ zlen d = hi - lo.
Proof.
  intros Hb ? ? ?. rewrite slice_ok by done. eexists. split; [done|].
  split; [auto using Forall_take, Forall_drop|]. unfold zlen in *. rewrite length_take, length_drop. lia.
Qed.

Lemma LeftPad_ok bs : Forall is_byte bs -> zlen bs <= 32 -> bytes_ok (LeftPadBytes bs 32).
Proof.
  intros Hb Hl. unfold LeftPadBytes. pose proof (zlen_nonneg bs).
  destruct (Z.leb_spec 32 (zlen bs)); [split; [done|lia]|].
  split; [apply Forall_app; split; auto using zeros_byte|].
  rewrite zlen_app, zlen_zeros by lia. lia.
Qed.

Lemma ecrecover_ok input : bytes_ok input ->
  exists rv, ecrecover_Run input = Ret rv /\ bytes_ok rv.
Proof.
  intros [Hb Hl]. unfold ecrecover_Run. set (i := RightPadBytes input 128).
  assert (Hi : Forall is_byte i) by (by apply RightPadBytes_byte).
  assert (Hil : 128 <= zlen i).
  { unfold i, RightPadBytes. pose proof (zlen_nonneg input).
    destruct (Z.leb_spec 128 (zlen input)); [done|]. rewrite zlen_app, zlen_zeros; lia. }
  destruct (slice_bytes i 64 96) as (rb & -> & _); [done|lia..|]. cbn [obind].
  destruct (slice_bytes i 96 128) as (sb & -> & _); [done|lia..|]. cbn [obind].
  destruct (index_ok i 63) as (v & -> & _); [lia|]. cbn [obind].
  destruct (slice_bytes i 32 63) as (pad & -> & _); [done|lia..|]. cbn [obind].
  destruct (_ || _); [eauto with go|].
  destruct (slice_bytes i 64 128) as (rs & -> & _); [done|lia..|]. cbn [obind].
  destruct (slice_bytes i 0 32) as (h & -> & _); [done|lia..|]. cbn [obind].
  destruct (ecrecover_pub _ _) as [pk|] eqn:E; [|eauto with go].
  apply ecrecover_length in E. rewrite slice_ok by (unfold zlen; lia). cbn [obind].
  destruct (slice_bytes (keccak256 (take (Z.to_nat (zlen pk - 1)) (drop (Z.to_nat 1) pk))) 12 32)
    as (d & -> & Hd & Hdl); [apply keccak256_byte|lia|lia|unfold zlen; rewrite keccak256_length; lia|].
  cbn [obind]. eexists. split; [done|]. apply LeftPad_ok; [done|lia].
Qed.

Lemma precompile_ok p input gas : bytes_ok input -> 0 <= gas ->
  exists rv left e, RunPrecompiledContract p input gas = Ret (rv, left, e) /\
    bytes_ok rv /\ 0 <= left <= gas.
Proof.
  intros Hb Hg. unfold RunPrecompiledContract. pose proof (RequiredGas_nonneg p input).
  destruct (Z.ltb_spec gas (RequiredGas p input)).
  { do 3 eexists. split; [done|]. split; [auto with go|lia]. }
  assert (Hrun : exists rv, precompile_Run p input = Ret rv /\ bytes_ok rv).
  { destruct p; cbn [precompile_Run].
    - by apply ecrecover_ok.
    - eexists. split; [done|]. split; [apply sha256_byte|]. unfold zlen. rewrite sha256_length. lia.
    - eexists. split; [done|]. apply LeftPad_ok; [apply ripemd160_byte|].
      unfold zlen. rewrite ripemd160_length. lia.
    - eauto. }
  destruct Hrun as (rv & -> & Hrv). cbn [obind]. do 3 eexists. split; [done|]. split; [done|lia].
Qed.

Lemma address_of_hash_ok data : exists a, address_of_hash data = Ret a.
Proof.
  unfold address_of_hash. destruct (slice_bytes (keccak256 data) 12 32) as (d & -> & _);
    [apply keccak256_byte|lia|lia|unfold zlen; rewrite keccak256_length; lia|]. cbn. eauto.
Qed.

Lemma CreateAddress_ok b nonce : is_u64 nonce -> exists a, CreateAddress b nonce = Ret a.
Proof.
  intros Hn. unfold CreateAddress. rewrite EncodeToBytes_ok; [apply address_of_hash_ok|].
  assert (Hb : zlen (rlp_enc (RBytes (be_bytes 20 b))) <= 29).
  { cbn [rlp_enc]. pose proof (enc_bytes_length (be_bytes 20 b)) as He.
    unfold zlen in *. rewrite length_be_bytes in He. lia. }
  pose proof (enc_uint_length nonce Hn) as Hu.
  assert (Hl : zlen (rlp_enc (RList [RBytes (be_bytes 20 b); RUint nonce])) <= 55).
  { remember (RBytes (be_bytes 20 b)) as vb. remember (RUint nonce) as vn.
    cbn [rlp_enc map concat]. rewrite app_nil_r, !zlen_app.
    pose proof (zlen_nonneg (rlp_enc vb)). pose proof (zlen_nonneg (rlp_enc vn)).
    destruct (puthead_facts 192 247 (zlen (rlp_enc vb) + zlen (rlp_enc vn))); lia. }
  unfold is_u64 in Hn. cbn [all_fit]. unfold fits, is_u64. repeat split; try done; lia.
Qed.

(** ** [Run], for a loop that is safe below [Bd] units of gas *)
Definition loop_ok (Bd : Z) (loop : VM execRes) : Prop := forall m,
  wf_machine m -> chainRules (ovm m) = r -> Gas (contract m) < Bd ->
  wp ok_panic loop m (fun res m' => fin m m' /\ bytes_ok res.1).

Definition run_post (o : OVM) (c : Contract) (res : execRes * Contract) (o' : OVM) : Prop :=
  wf_ovm o' /\ env o' = env o /\ bytes_ok res.1.1 /\ wf_contract res.2 /\
  Gas res.2 <= Gas c.

Lemma wf_ovm_depth d o : wf_ovm o -> wf_ovm (set_depth d o).
Proof. intros (? & ? & ? & ?). split; [done|]. split; [done|]. by split. Qed.
Lemma wf_ovm_ro b o : wf_ovm o -> wf_ovm (set_readOnly b o).
Proof. intros (? & ? & ? & ?). split; [done|]. split; [done|]. by split. Qed.

(** The prologue and the epilogue of [Run] cancel out. *)
Definition entered (ro : bool) (o : OVM) : OVM :=
  set_returnData [] (if ro && negb (readOnly o)
    then set_readOnly true (set_depth (depth o + 1) o) else set_depth (depth o + 1) o).

Lemma wf_entered ro o : wf_ovm o -> wf_ovm (entered ro o).
Proof.
  intros Ho. apply wf_set_returnData; [auto with go|].
  destruct (_ && _); auto using wf_ovm_depth, wf_ovm_ro.
Qed.

Lemma leave_env ro o o' : env o' = env (entered ro o) ->
  env (set_depth (depth o' - 1) (if ro && negb (readOnly o) then set_readOnly false o' else o')) =
  env o.
Proof.
  unfold env, entered. destruct ro, (readOnly o) eqn:E; cbn;
    intros [= -> -> -> -> -> -> -> -> Hr]; rewrite ?Hr, ?E, Z.add_simpl_r; done.
Qed.

Lemma Run_ok Bd loop c input ro o :
  loop_ok Bd loop -> wf_contract c -> bytes_ok input -> Gas c < Bd -> wf_ovm o ->
  chainRules o = r ->
  wp ok_panic (Run loop c input ro) o (run_post o c).
Proof.
  intros Hloop Hc Hi Hg Ho Hrr.
  assert (Hfin : forall res c' o', wf_ovm o' -> env o' = env (entered ro o) ->
    bytes_ok res.1 -> wf_contract c' -> Gas c' <= Gas c ->
    run_post o c (res, c') (set_depth (depth o' - 1)
      (if ro && negb (readOnly o) then set_readOnly false o' else o'))).
  { intros res c' o' Ho' He Hb Hc' Hgc. split; [|split; [by apply leave_env|done]].
    apply wf_ovm_depth. destruct (_ && _); auto using wf_ovm_ro. }
  set (m := mkMachine 0 (entered ro o) NewMemory [] (set_Input input c)).
  assert (Hm : wf_machine m).
  { split; [unfold is_u64; cbn; lia|]. split; [by apply wf_entered|]. split; [apply wf_NewMemory|].
    split; [constructor|]. destruct Hc as (? & _ & ? & ?). by split. }
  specialize (Hloop m Hm). unfold wp in Hloop |- *. unfold Run, bind, modify, get, ret.
  change (readOnly (set_depth (depth o + 1) o)) with (readOnly o).
  destruct (zlen (Code c) =? 0).
  - specialize (Hfin ([], None) c (entered ro o)). unfold entered in *.
    destruct (ro && negb (readOnly o)); apply Hfin; try done; try lia;
      try (apply (wf_entered true o)); auto using wf_ovm_depth, wf_ovm_ro, wf_set_returnData with go.
  - unfold m, entered in Hloop.
    assert (Hcr : chainRules (entered ro o) = r).
    { unfold entered. by destruct (_ && _). }
    unfold entered in Hcr, Hfin.
    destruct (ro && negb (readOnly o));
      (destruct (loop _) as [[[res err] m']|p|]; [|by apply Hloop|by apply Hloop]);
      destruct (Hloop Hcr Hg) as [(Ho' & He & Hc' & Hgl) Hb];
      apply (Hfin (res, if decide (err = Some errStopToken) then None else err)
               (contract m') (ovm m')); done.
Qed.

(** ** The OVM's methods keep their promises *)
Lemma wp_odb {X A} (p : M OperationDB X) (R : X -> Prop) (k : X -> M OVM A)
  (Q : A -> OVM -> Prop) o d :
  dsafe p R -> wf_db d ->
  (forall a d', wf_db d' -> R a -> wp ok_panic (k a) (set_db d' o) Q) ->
  wp ok_panic (bind (odbM p) k) (set_db d o) Q.
Proof.
  intros Hp Hd Hk. specialize (Hp d Hd). unfold wp, bind, odbM in *. cbn.
  destruct (p d) as [[a d']|e|]; [|done|done]. destruct Hp as (Hd' & _ & HR). by apply Hk.
Qed.

Lemma odb_start {A} (p : M OVM A) (Q : A -> OVM -> Prop) o :
  wf_ovm o -> (forall d, wf_db d -> wp ok_panic p (set_db d o) Q) -> wp ok_panic p o Q.
Proof. intros Ho Hp. specialize (Hp (Operationdb o)). rewrite set_db_id in Hp. apply Hp, Ho. Qed.

Lemma wp_bind_if' {A X} (Q : A -> OVM -> Prop) (b : bool) (p q : M OVM X) (k : X -> M OVM A) o :
  (b = true -> wp ok_panic (bind p k) o Q) -> (b = false -> wp ok_panic (bind q k) o Q) ->
  wp ok_panic (bind (if b then p else q) k) o Q.
Proof. destruct b; auto. Qed.

Ltac odb_step :=
  match goal with
  | |- wp _ (bind (odbM Snapshot) _) _ _ =>
      eapply (wp_odb _ (fun _ => False)); [apply dsafe_Snapshot|eassumption|by intros]
  | |- wp _ (bind (odbM _) _) _ _ =>
      eapply wp_odb; [solve [eauto with go]|eassumption|];
      let H := fresh "HR" in intros ?a ?d ?Hd H; cbn beta in H
  | |- wp _ (bind get _) _ _ => apply wp_bind, wp_get
  | |- wp _ (bind (ret _) _) _ _ => apply wp_bind, wp_ret
  | |- wp _ (bind (if _ then _ else _) _) _ _ => apply wp_bind_if'; intros ?Hif
  | |- wp _ (if ?b then _ else _) _ _ => destruct b eqn:?Hif
  | |- wp _ (ret _) _ _ => apply wp_ret
  end; cbn beta iota zeta.

Lemma sub_post_intro o d gas rv left : wf_ovm o -> wf_db d -> bytes_ok rv -> 0 <= left <= gas ->
  sub_post o gas rv left (set_db d o).
Proof. intros Ho Hd Hb Hl. split; [by apply wf_ovm_set_db|]. by split. Qed.

Lemma wf_NewContract caller a v gas code h addr : is_u64 gas -> bytes_ok code ->
  wf_contract (SetCallCode addr h code (NewContract caller a (Some v) gas)).
Proof. intros Hg Hc. split; [done|]. split; [auto with go|]. split; [done|by eexists]. Qed.

Section methods.
Context (Bd : Z) (loop : VM execRes) (Hloop : loop_ok Bd loop).

Lemma Call_meets value : call_ok r Bd (fun c a i g => Call loop c a i g value).
Proof.
  intros caller addr input gas o Hcal Hi Hg HB Ho Hrr. apply odb_start; [done|]. intros d Hd.
  pose proof Hg as Hg'. unfold is_u64 in Hg'.
  assert (Hnil : forall d', wf_db d' -> sub_post o gas [] gas (set_db d' o)).
  { intros d' Hd'. apply sub_post_intro; auto with go; cbn; lia. }
  unfold Call. odb_step. odb_step; [odb_step; cbn; by apply Hnil|].
  odb_step. odb_step. destruct (precompile addr) as [p|].
  - destruct (precompile_ok p input gas) as (rv & left & e & -> & Hrv & Hl); [done|lia|].
    apply wp_bind, (wp_liftO _ _ _ (rv, left, e)); [done|]. odb_step. by apply sub_post_intro.
  - odb_step. odb_step; [odb_step; cbn; by apply Hnil|]. odb_step. apply wp_bind.
    eapply wp_mono; [apply (Run_ok Bd); auto using wf_ovm_set_db, wf_NewContract|].
    intros [[rv e] c'] o' (Ho' & He & Hb & Hc' & Hgl). odb_step. cbn in *.
    split; [done|]. split; [done|]. split; [done|].
    destruct Hc' as (_ & _ & Hu & _). unfold is_u64 in Hu. lia.
Qed.

Lemma CallCode_meets value : call_ok r Bd (fun c a i g => CallCode loop c a i g value).
Proof.
  intros caller addr input gas o Hcal Hi Hg HB Ho Hrr. apply odb_start; [done|]. intros d Hd.
  unfold is_u64 in Hg. unfold CallCode. odb_step. odb_step.
  { odb_step. apply sub_post_intro; auto with go; cbn; lia. }
  odb_step. odb_step; [|odb_step].
  odb_step. apply sub_post_intro; auto with go; cbn; lia.
Qed.

Lemma DelegateCall_meets : call_ok r Bd (DelegateCall loop).
Proof.
  intros caller addr input gas o Hcal Hi Hg HB Ho Hrr. apply odb_start; [done|]. intros d Hd.
  unfold is_u64 in Hg. unfold DelegateCall. odb_step. odb_step; [|odb_step].
  odb_step. apply sub_post_intro; auto with go; cbn; lia.
Qed.

Lemma StaticCall_meets : call_ok r Bd (StaticCall loop).
Proof.
  intros caller addr input gas o Hcal Hi Hg HB Ho Hrr. apply odb_start; [done|]. intros d Hd.
  unfold is_u64 in Hg. unfold StaticCall. odb_step. odb_step; [|odb_step].
  odb_step. apply sub_post_intro; auto with go; cbn; lia.
Qed.

(** The code deposit only spends gas. *)
Definition deploy_post (o0 : OVM) (c : Contract) (x : option vmerr * Contract) (o' : OVM) :=
  wf_ovm o' /\ env o' = env o0 /\ wf_contract x.2 /\ Gas x.2 <= Gas c.

Lemma deployCode_ok a rv err c o0 o : bytes_ok rv -> wf_contract c -> wf_ovm o ->
  env o = env o0 ->
  wp ok_panic (deployCode a rv err c) o (deploy_post o0 c).
Proof.
  intros Hrv Hc Ho He. pose proof Hc as (_ & _ & Hu & _). unfold is_u64 in Hu.
  pose proof (wrap64_range (zlen rv * CreateDataGas)) as Hcost. unfold is_u64 in Hcost.
  apply odb_start; [done|]. intros d Hd. unfold deployCode. odb_step.
  assert (Hret : forall e d', wf_db d' -> wp ok_panic (ret (e, c)) (set_db d' o) (deploy_post o0 c)).
  { intros e d' Hd'. odb_step. split; [by apply wf_ovm_set_db|]. split; [done|]. split; [done|]. cbn. lia. }
  set (e1 := if negb (isSome err) && _ && _ then _ else err).
  set (e2 := if negb (isSome e1) && _ && _ && _ then _ else e1).
  destruct e2; [by apply Hret|]. unfold UseGas.
  destruct (Z.ltb_spec (Gas c) (zlen rv *64 CreateDataGas)); [by apply Hret|].
  odb_step. odb_step. split; [by apply wf_ovm_set_db|]. split; [done|].
  split; [apply wf_set_Gas; [done|unfold is_u64; lia]|]. cbn. lia.
Qed.

Lemma create_meets h v a : create_ok r Bd (fun c code gas => create loop c code h gas v a).
Proof.
  intros caller code gas o Hcal Hi Hg HB Ho Hrr. apply odb_start; [done|]. intros d Hd.
  pose proof Hg as Hg'. unfold is_u64 in Hg'.
  assert (Hnil : forall d' l, wf_db d' -> 0 <= l <= gas -> sub_post o gas [] l (set_db d' o)).
  { intros d' l Hd' Hl. apply sub_post_intro; auto with go. }
  assert (Hrest : forall d', wf_db d' ->
    wp ok_panic (
      let contract := SetCodeOptionalHash a code h (NewContract caller a (Some v) gas) in
      let! ((rv, err), contract) := Run loop contract [] false ;;
      let! (err, contract) := deployCode a rv err contract ;;
      ret ((rv, a, Gas contract, err), jumpdests contract)) (set_db d' o)
      (fun r o' => sub_post o gas r.1.1.1.1 r.1.1.2 o')).
  { intros d' Hd'. apply wp_bind.
    eapply wp_mono; [apply (Run_ok Bd); [done|by apply wf_NewContract|auto with go|done
      |by apply wf_ovm_set_db|done]|].
    intros [[rv e] c'] o' (Ho' & He & Hb & Hc' & Hgl). cbn in Hb, Hc', Hgl. cbn beta iota.
    apply wp_bind. eapply wp_mono; [apply (deployCode_ok a rv e c' o); try done|].
    intros [e' c''] o'' (Ho'' & He'' & Hc'' & Hg''). cbn in Hc'', Hg''. cbn beta iota. odb_step.
    split; [done|]. split; [done|]. split; [done|]. cbn.
    destruct Hc'' as (_ & _ & Hu & _). unfold is_u64 in Hu. lia. }
  assert (Hu1 : is_u64 1) by (unfold is_u64; lia).
  unfold create. odb_step. odb_step; [odb_step; apply Hnil; [done|cbn; lia]|].
  odb_step. odb_step; [odb_step; apply Hnil; [done|cbn; lia]|].
  odb_step. odb_step; [odb_step; apply Hnil; [done|cbn; lia]|].
  eapply wp_odb; [apply dsafe_SetNonce, wrap64_range|done|]. intros _ d3 Hd3 _.
  odb_step; repeat odb_step; try (apply Hnil; [done|cbn; lia]); by apply Hrest.
Qed.

Lemma Create_meets v : create_ok r Bd (fun c code gas => Create loop c code gas v).
Proof.
  intros caller code gas o Hcal Hi Hg HB Ho Hrr. apply odb_start; [done|]. intros d Hd.
  unfold Create. odb_step. destruct (CreateAddress_ok (ref_Address caller) a) as [ad Had]; [done|].
  apply wp_bind. eapply wp_liftO; [exact Had|].
  eapply wp_mono; [apply create_meets; auto using wf_ovm_set_db|]. done.
Qed.

Lemma Create2_meets v salt : is_u256 salt ->
  create_ok r Bd (fun c code gas => Create2 loop c code gas v salt).
Proof.
  intros Hs caller code gas o Hcal Hi Hg HB Ho Hrr. unfold Create2, CreateAddress2.
  destruct (address_of_hash_ok ([255] ++ be_bytes 20 (ref_Address caller) ++ u_Bytes32 salt ++
    be_bytes 32 (Keccak256Hash code))) as [ad Had].
  apply wp_bind. eapply wp_liftO; [exact Had|]. by apply create_meets.
Qed.

Lemma subs_of_ok : SubsOk r Bd (subs_of loop).
Proof.
  constructor; intros; cbn; auto using Call_meets, CallCode_meets, DelegateCall_meets,
    StaticCall_meets, Create_meets, Create2_meets.
Qed.
End methods.

(** ** The loop terminates within its gas *)
Lemma runLoop_ok fuel : loop_ok (Z.of_nat fuel) (runLoop jt fuel).
Proof.
  induction fuel as [|f IH]; intros m Hm Hrr Hg.
  { destruct Hm as (_ & _ & _ & _ & (_ & _ & [? ?] & _)). lia. }
  cbn [runLoop]. pose proof (subs_of_ok (Z.of_nat f) (runLoop jt f) IH) as HS.
  apply wp_bind. eapply wp_mono; [apply (step_ok (Z.of_nat f)); try done; lia|].
  intros [res|] m' [Hfin Hpost]; [by apply wp_ret|].
  destruct Hpost as (Hm' & _ & Hlt). destruct Hfin as (Ho' & He & Hc' & Hgl).
  eapply wp_mono; [apply IH; [done|by rewrite (env_rules _ _ He)|lia]|].
  intros res m'' [(Ho'' & He'' & Hc'' & Hg'') Hb]. split; [|done].
  split; [done|]. split; [by rewrite He''|]. split; [done|lia].
Qed.
End loop.
End run.
