(* ===== verification/Fuel.v ===== *)
(** * The fuel of the interpreter does not matter

    [mle p q]: wherever [p] has a result, [q] has the same.  More fuel gives a
    larger computation in this order, so that a result reached with some fuel is
    the result with any larger fuel. *)
From S2P Require Import Prelude Uint256 Params GoMath VmStack Analysis Rlp StateDB VmCore VmGas.
From S2P Require Import Instructions JumpTable Interpreter.

Definition mle {S A} (p q : M S A) : Prop := forall s, p s = NoFuel \/ q s = p s.

Lemma mle_refl {S A} (p : M S A) : mle p p.
Proof. intros s. by right. Qed.

Lemma mle_trans {S A} (p q r : M S A) : mle p q -> mle q r -> mle p r.
Proof.
  intros H1 H2 s. destruct (H1 s) as [|Hq]; [by left|].
  destruct (H2 s) as [Hn|Hr]; [left; congruence|right; congruence].
Qed.

Lemma mle_bind {S A B} (p q : M S A) (k h : A -> M S B) :
  mle p q -> (forall a, mle (k a) (h a)) -> mle (bind p k) (bind q h).
Proof.
  intros H1 H2 s. unfold bind. destruct (H1 s) as [-> | ->]; [by left|].
  destruct (p s) as [[a s']|e|]; [apply H2|by right|by right].
Qed.

Lemma mle_onOVM {A} (p q : M OVM A) : mle p q -> mle (onOVM p) (onOVM q).
Proof. intros H m. unfold onOVM. destruct (H (ovm m)) as [-> | ->]; [by left|by right]. Qed.

(** Descend through a computation down to the parts that differ. *)
Ltac mono_with tac :=
  repeat first
    [ assumption
    | match goal with |- mle ?p ?p => apply mle_refl end
    | tac
    | match goal with |- mle (bind _ _) (bind _ _) => apply mle_bind; [|intros ?] end
    | progress cbn beta iota zeta
    | match goal with |- mle (match ?x with _ => _ end) _ => destruct x end ].

Section fuel.
Context `{U : Uint256} `{C : Crypto} `{B : ByteUtils}.

Record subs_le (S T : Subs) : Prop := {
  le_Call c a i g v : mle (sub_Call S c a i g v) (sub_Call T c a i g v);
  le_CallCode c a i g v : mle (sub_CallCode S c a i g v) (sub_CallCode T c a i g v);
  le_DelegateCall c a i g : mle (sub_DelegateCall S c a i g) (sub_DelegateCall T c a i g);
  le_StaticCall c a i g : mle (sub_StaticCall S c a i g) (sub_StaticCall T c a i g);
  le_Create c i g v : mle (sub_Create S c i g v) (sub_Create T c i g v);
  le_Create2 c i g v s : mle (sub_Create2 S c i g v s) (sub_Create2 T c i g v s) }.

Lemma exec_mono S T f : subs_le S T -> mle (exec_ S f) (exec_ T f).
Proof.
  intros H. destruct f; cbn [exec_]; try apply mle_refl;
    unfold opCreate, opCreate2, opCall, opCallCode, opDelegateCall, opStaticCall, writeProtected, subcall;
    mono_with ltac:(apply mle_onOVM; apply H).
Qed.

Lemma step_mono jt S T : subs_le S T -> mle (step jt S) (step jt T).
Proof. intros H. unfold step. mono_with ltac:(by apply exec_mono). Qed.

Section loops.
Context (p q : VM execRes) (Hpq : mle p q).

Lemma Run_mono c i ro : mle (Run p c i ro) (Run q c i ro).
Proof using Hpq.
  unfold Run. mono_with fail. intros o. destruct (Hpq (mkMachine 0 o NewMemory [] (set_Input i c))) as [-> | ->];
    [by left|by right].
Qed.

Lemma subs_mono : subs_le (subs_of p) (subs_of q).
Proof using Hpq.
  constructor; intros; cbn [subs_of sub_Call sub_CallCode sub_DelegateCall sub_StaticCall
    sub_Create sub_Create2];
  unfold Call, CallCode, DelegateCall, StaticCall, Create, Create2, create; mono_with ltac:(apply Run_mono).
Qed.
End loops.

Lemma runLoop_S jt n : mle (runLoop jt n) (runLoop jt (S n)).
Proof.
  induction n as [|n IH]; [intros m; by left|]. cbn [runLoop]. fold (runLoop jt n).
  apply mle_bind; [by apply step_mono, subs_mono|]. intros [res|]; [apply mle_refl|exact IH].
Qed.

Lemma runLoop_mono jt n n' : (n <= n')%nat -> mle (runLoop jt n) (runLoop jt n').
Proof.
  induction 1 as [|n' _ IH]; [apply mle_refl|]. eapply mle_trans; [exact IH|apply runLoop_S].
Qed.
End fuel.
