(* ===== verification/VmProps.v ===== *)
(** * The virtual machine: properties of whole runs

    Termination within the gas, gas accounting, bounds, and the behaviour of the
    OVM's entry points. *)
From S2P Require Import Prelude Uint256 Params GoMath VmStack Analysis Rlp StateDB StateInv.
From S2P Require Import StateSpec StateUndo StateProps VmCore VmGas Instructions JumpTable.
From S2P Require Import Interpreter VmInv GasProofs ExecProofs RunProofs Fuel.

(** The fork schedule is consistent when a chain with the access-list prices also
    has the gas rule of EIP-150. *)
Definition rules_ok (r : Rules) : Prop := has_berlin r = true -> IsEIP150 r = true.

(** ** Closed instances *)
Definition demo_rules : Rules := config_Rules AllOctellProtocolChanges (Some 5) false.
Definition demo_ctx : BlockContext := {|
  Coinbase := 9; GasLimit := 30000000; BlockNumber := 5; Time := 1; Difficulty := 1;
  BaseFee := Some 7; Random := None; GetHash _ := 0 |}.
Definition demo_ovm : OVM :=
  mkOVM demo_ctx 5 1 demo_db 0 (Some 1337) demo_rules false false 0 false [].
Definition demo_table : JumpTable :=
  match select_table demo_rules with Ret jt => jt | _ => [] end.
Definition demo_contract (code : list Z) (gas : Z) : Contract :=
  SetCallCode 99 0 code (NewContract (RefAccount 5) 99 (Some 0) gas).
(** PUSH1 2; PUSH1 3; ADD; PUSH1 0; MSTORE; PUSH1 32; PUSH1 0; RETURN *)
Definition demo_code : list Z := [96; 2; 96; 3; 1; 96; 0; 82; 96; 32; 96; 0; 243].

Lemma demo_select : select_table demo_rules = Ret demo_table.
Proof. vm_compute. reflexivity. Qed.

Lemma demo_rules_ok : rules_ok demo_rules.
Proof. done. Qed.

Lemma demo_wf_db : wf_db demo_db.
Proof.
  split; [split|split].
  - intros a sa. cbn. destruct (a =? 5); [intros [= <-]; unfold is_u64; cbn; lia|].
    destruct (a =? 6); [intros [= <-]; unfold is_u64; cbn; lia|done].
  - done.
  - intros a o. cbn. by rewrite lookup_empty.
  - apply wf_newAccessList.
Qed.

Lemma demo_wf_ovm : wf_ovm demo_ovm.
Proof.
  split; [apply demo_wf_db|]. split; [auto with go|]. split; [unfold is_u64; cbn; lia|].
  split; [unfold is_u64; cbn; lia|]. split; [by eexists|]. split; [by eexists|]. done.
Qed.

Lemma demo_wf_contract gas : is_u64 gas -> wf_contract (demo_contract demo_code gas).
Proof.
  intros Hg. apply wf_NewContract; [done|]. split; [|vm_compute; reflexivity].
  repeat constructor; unfold is_byte; lia.
Qed.

(** ** Results of safe computations *)
Section run.
Context {U : Uint256} {L : Uint256Laws U} {C : Crypto} {CL : CryptoLaws C}.
Context {B : ByteUtils} {BL : ByteUtilsLaws B}.

(** A run that is safe with one fuel has the same result with more. *)
Lemma mle_safe {S A} (E : panic -> Prop) (p q : M S A) s (Q : A -> S -> Prop) :
  mle p q -> wp E p s Q -> q s = p s.
Proof.
  intros Hle Hp. destruct (Hle s) as [Hn|]; [|done]. unfold wp in Hp. by rewrite Hn in Hp.
Qed.

Lemma selected_loop r jt fuel : select_table r = Ret jt -> rules_ok r ->
  loop_ok r (Z.of_nat fuel) (runLoop jt fuel).
Proof.
  intros Hsel Hr. destruct (select_table_wf r) as (jt' & Hsel' & Hwf).
  rewrite Hsel in Hsel'. injection Hsel' as <-. by apply runLoop_ok.
Qed.
End run.

(** ** The properties *)






Definition demo_machine : Machine :=
  mkMachine 0 demo_ovm NewMemory [] (demo_contract demo_code 100).

Lemma demo_wf_machine : wf_machine demo_machine.
Proof.
  split; [unfold is_u64; cbn; lia|]. split; [apply demo_wf_ovm|]. split; [apply wf_NewMemory|].
  split; [constructor|]. apply demo_wf_contract. unfold is_u64. lia.
Qed.






(** C38: every instruction set the interpreter can select (frontier to merge) is
    built without panicking, passes [validate], has 256 entries, and each entry
    agrees with the instruction it runs: the minimum stack covers what the
    instruction and its gas function read, the maximum stack keeps the height at
    or below 1024 afterwards, the memory-size function is the instruction's, and
    instructions that do not end the run cost gas. *)
Theorem jump_tables_valid (r : Rules) : exists jt,
  select_table r = Ret jt /\ validate jt = Ret jt /\ length jt = 256%nat /\
  forall i, (i < 256)%nat -> exists op, jt !! i = Some (Some op) /\
    exec_pops (execute op) <= op_minStack op /\
    op_maxStack op - exec_pops (execute op) + exec_pushes (execute op) <= 1024 /\
    memorySize op = exec_memfn (execute op) /\
    (forall g, dynamicGas op = Some g -> gas_pops g <= op_minStack op) /\
    (halts (execute op) = false -> 1 <= constantGas op \/ gas_positive (dynamicGas op) = true).
Proof.
  destruct (select_table_wf r) as (jt & Hsel & Hwf). exists jt. split; [done|].
  pose proof Hwf as Hwf'. unfold table_wf in Hwf'. rewrite !andb_true_iff, Nat.eqb_eq in Hwf'.
  destruct Hwf' as [[Hlen Hall] _]. split; [|split; [done|]].
  { unfold validate. rewrite (proj2 (forallb_forall valid_op jt)); [done|]. intros e He.
    rewrite forallb_forall in Hall. specialize (Hall e He). destruct e as [op|]; [|done].
    apply andb_true_iff in Hall as [Hop _]. apply op_wf_facts in Hop as (_ & _ & _ & _ & Hd & _).
    unfold dynamic_wf in Hd. cbn [valid_op]. destruct (dynamicGas op) as [g|].
    - by rewrite andb_false_r.
    - apply bool_decide_eq_true in Hd. by rewrite Hd. }
  intros i Hi. destruct (table_entry r jt Hwf (Z.of_nat i)) as (op & Hop & Hwfo & _); [lia|].
  rewrite Nat2Z.id in Hop. exists op. split; [done|].
  apply op_wf_facts in Hwfo as (_ & Hp & Hm & Hf & Hd & _ & Hc & _).
  split; [done|]. split; [done|]. split; [done|]. split.
  - intros g Hg. unfold dynamic_wf in Hd. rewrite Hg in Hd. apply andb_true_iff in Hd as [Hd _]. lia.
  - intros Hh. specialize (Hc Hh). unfold floor1 in Hc. destruct (gas_positive _); [by right|left; lia].
Qed.
