(* ===== verification/InstrProps.v ===== *)
(** * The instructions: functional properties

    What the instructions of [vm/instructions.go] compute, against reference
    definitions on unbounded integers and lists. *)
From S2P Require Import Prelude Uint256 Params GoMath VmStack Analysis StateDB StateInv VmCore.
From S2P Require Import VmGas Instructions JumpTable Interpreter VmInv VmProps.

(** ** Reference semantics of the pure instructions

    [alu f args]: the result word, the arguments given from the top of the stack
    down. *)
Definition alu (f : executionFunc) (args : list Z) : option Z :=
  match f, args with
  | f_opAdd, [x; y] => Some ((x + y) mod two256)
  | f_opSub, [x; y] => Some ((x - y) mod two256)
  | f_opMul, [x; y] => Some ((x * y) mod two256)
  | f_opDiv, [x; y] => Some (if y =? 0 then 0 else x / y)
  | f_opSdiv, [x; y] =>
      Some (if y =? 0 then 0 else Z.quot (signed256 x) (signed256 y) mod two256)
  | f_opMod, [x; y] => Some (if y =? 0 then 0 else x mod y)
  | f_opSmod, [x; y] =>
      Some (if y =? 0 then 0 else Z.rem (signed256 x) (signed256 y) mod two256)
  | f_opExp, [x; y] => Some (x ^ y mod two256)
  | f_opSignExtend, [b; x] =>
      Some (if 30 <? b then x
            else if Z.testbit x (8 * b + 7)
                 then (x mod 2 ^ (8 * b + 8) - 2 ^ (8 * b + 8)) mod two256
                 else x mod 2 ^ (8 * b + 8))
  | f_opNot, [x] => Some (two256 - 1 - x)
  | f_opLt, [x; y] => Some (if x <? y then 1 else 0)
  | f_opGt, [x; y] => Some (if y <? x then 1 else 0)
  | f_opSlt, [x; y] => Some (if signed256 x <? signed256 y then 1 else 0)
  | f_opSgt, [x; y] => Some (if signed256 y <? signed256 x then 1 else 0)
  | f_opEq, [x; y] => Some (if x =? y then 1 else 0)
  | f_opIszero, [x] => Some (if x =? 0 then 1 else 0)
  | f_opAnd, [x; y] => Some (Z.land x y)
  | f_opOr, [x; y] => Some (Z.lor x y)
  | f_opXor, [x; y] => Some (Z.lxor x y)
  | f_opByte, [i; x] => Some (if i <? 32 then x / 256 ^ (31 - i) mod 256 else 0)
  | f_opAddmod, [x; y; z] => Some (if z =? 0 then 0 else (x + y) mod z)
  | f_opMulmod, [x; y; z] => Some (if z =? 0 then 0 else (x * y) mod z)
  | f_opSHL, [s; x] => Some (Z.shiftl x s mod two256)
  | f_opSHR, [s; x] => Some (Z.shiftr x s)
  | f_opSAR, [s; x] => Some (Z.shiftr (signed256 x) s mod two256)
  | _, _ => None
  end.

Section instr.
Context {U : Uint256} {L : Uint256Laws U} {C : Crypto} {B : ByteUtils}.

(** ** Running the stack operations *)
Lemma popM_snoc m st x : stack m = st ++ [x] -> popM m = Ret (x, set_stack st m).
Proof. intros Hs. unfold popM, bind, get, liftO. by rewrite Hs, pop_snoc. Qed.

Lemma peekM_snoc m st x : stack m = st ++ [x] -> peekM m = Ret (x, m).
Proof. intros Hs. unfold peekM, bind, get, liftO. by rewrite Hs, peek_snoc. Qed.

Lemma setTop_snoc m st x v : stack m = st ++ [x] -> setTop v m = Ret (tt, set_stack (st ++ [v]) m).
Proof. intros Hs. unfold setTop, bind, get, liftO. by rewrite Hs, set_top_snoc. Qed.

Lemma binop_run f m st x y : stack m = st ++ [y; x] ->
  binop f m = Ret (([], None), set_stack (st ++ [f x y]) m).
Proof.
  intros Hs. unfold binop, bind. rewrite (popM_snoc m (st ++ [y]) x) by by rewrite <- app_assoc.
  rewrite (peekM_snoc _ st y) by done. by rewrite (setTop_snoc _ st y) by done.
Qed.

Lemma unop_run f m st x : stack m = st ++ [x] ->
  (v <- peekM ;; setTop (f v) ;;; done_) m = Ret (([], None), set_stack (st ++ [f x]) m).
Proof.
  intros Hs. unfold bind. rewrite (peekM_snoc m st x) by done. by rewrite (setTop_snoc m st x) by done.
Qed.

Lemma triop_run f m st x y z : stack m = st ++ [z; y; x] ->
  (x <- popM ;; y <- popM ;; z <- peekM ;; setTop (f x y z) ;;; done_) m =
    Ret (([], None), set_stack (st ++ [f x y z]) m).
Proof.
  intros Hs. unfold bind. rewrite (popM_snoc m (st ++ [z; y]) x) by by rewrite <- app_assoc.
  rewrite (popM_snoc _ (st ++ [z]) y) by (cbn; by rewrite <- app_assoc).
  rewrite (peekM_snoc _ st z) by done. by rewrite (setTop_snoc _ st z) by done.
Qed.

(** ** Shifts by more than the word size *)
Lemma shiftr_big x s : 0 <= x < two256 -> 256 <= s -> Z.shiftr x s = 0.
Proof.
  intros Hx Hs. rewrite Z.shiftr_div_pow2 by lia. apply Z.div_small.
  assert (two256 <= 2 ^ s) by (change two256 with (2 ^ 256); apply Z.pow_le_mono_r; lia). lia.
Qed.

Lemma shiftl_big x s : 256 <= s -> Z.shiftl x s mod two256 = 0.
Proof.
  intros Hs. rewrite Z.shiftl_mul_pow2 by lia. change two256 with (2 ^ 256).
  replace s with ((s - 256) + 256) by lia. rewrite Z.pow_add_r by lia.
  rewrite Z.mul_assoc. apply Z.mod_mul. lia.
Qed.

Lemma signed_sgn x : is_u256 x -> (0 <=? Z.sgn (signed256 x)) = (x <? two255).
Proof. intros Hx. unfold signed256, is_u256 in *. zcase; cbn; lia. Qed.

Lemma sar_big x s : is_u256 x -> 256 < s ->
  Z.shiftr (signed256 x) s mod two256 = if x <? two255 then 0 else two256 - 1.
Proof.
  intros Hx Hs. unfold signed256, is_u256 in *. rewrite Z.shiftr_div_pow2 by lia.
  assert (two256 <= 2 ^ s) by (change two256 with (2 ^ 256); apply Z.pow_le_mono_r; lia).
  zcase.
  - rewrite Z.div_small by lia. done.
  - replace ((x - two256) / 2 ^ s) with (-1); [done|].
    apply Z.div_unique with (x - two256 + 2 ^ s); lia.
Qed.

Lemma quot_zero_l x : Z.quot x 0 = 0.
Proof. by destruct x. Qed.

(** The guards of the shift instructions. *)
Lemma shl_guard s x : is_u256 s -> is_u256 x ->
  (if u_LtUint64 s 256 then u_Lsh x (u_Uint64 s) else 0) = Z.shiftl x s mod two256.
Proof.
  intros Hs Hx. unfold is_u256 in Hs. rewrite LtUint64_law by (unfold is_u64; done || lia).
  destruct (Z.ltb_spec s 256); [|by rewrite shiftl_big].
  rewrite Uint64_law, (Z.mod_small s) by (done || lia). by rewrite Lsh_law by (done || lia).
Qed.

Lemma shr_guard s x : is_u256 s -> is_u256 x ->
  (if u_LtUint64 s 256 then u_Rsh x (u_Uint64 s) else 0) = Z.shiftr x s.
Proof.
  intros Hs Hx. unfold is_u256 in Hs. rewrite LtUint64_law by (unfold is_u64; done || lia).
  destruct (Z.ltb_spec s 256); [|by rewrite shiftr_big].
  rewrite Uint64_law, (Z.mod_small s) by (done || lia). by rewrite Rsh_law by (done || lia).
Qed.

Lemma sar_guard s x : is_u256 s -> is_u256 x ->
  (if u_GtUint64 s 256 then if 0 <=? u_Sign x then 0 else two256 - 1
   else u_SRsh x (u_Uint64 s)) = Z.shiftr (signed256 x) s mod two256.
Proof.
  intros Hs Hx. unfold is_u256 in Hs. rewrite GtUint64_law by (unfold is_u64; done || lia).
  destruct (Z.ltb_spec 256 s).
  - rewrite Sign_law, signed_sgn by done. by rewrite sar_big.
  - rewrite Uint64_law, (Z.mod_small s) by (done || lia). by rewrite SRsh_law by (done || lia).
Qed.
End instr.

(** ** Zero-padded reads *)

(** [size] bytes of [data] from [start], zeros past the end. *)
Definition padded (data : list Z) (start size : Z) : list Z :=
  map (fun i => nth (Z.to_nat start + i) data 0) (seq 0 (Z.to_nat size)).

Lemma take_pad (n : nat) : forall l : list Z,
  take n l ++ replicate (n - length l) 0 = map (fun i => nth i l 0) (seq 0 n).
Proof.
  induction n as [|n IH]; intros l; [done|]. cbn [seq map]. rewrite <- seq_shift, map_map.
  destruct l as [|x l]; cbn [take length nth].
  - rewrite Nat.sub_0_r. cbn. f_equal. specialize (IH []). rewrite take_nil, Nat.sub_0_r in IH.
    cbn [app] in IH. rewrite IH. apply map_ext. intros [|i]; done.
  - cbn [app]. f_equal. rewrite <- IH. done.
Qed.

Lemma nth_drop_add (l : list Z) k i : nth i (drop k l) 0 = nth (k + i) l 0.
Proof. revert l. induction k as [|k IH]; intros [|x l]; cbn; try done. by destruct i. Qed.

Lemma padded_take data start size : 0 <= size ->
  padded data start size =
    take (Z.to_nat size) (drop (Z.to_nat start) data) ++
    replicate (Z.to_nat size - length (drop (Z.to_nat start) data)) 0.
Proof.
  intros Hs. rewrite take_pad. unfold padded. apply map_ext. intros i. by rewrite nth_drop_add.
Qed.

(** Cutting at the end of the data and padding is the same. *)
Lemma RightPad_padded data start k size : 0 <= start <= zlen data -> 0 <= size ->
  k = Z.min size (zlen data - start) ->
  RightPadBytes (take (Z.to_nat k) (drop (Z.to_nat start) data)) size = padded data start size.
Proof.
  intros Hst Hsz ->. rewrite padded_take by done. unfold RightPadBytes, zeros, zlen in *.
  assert (Hd : length (drop (Z.to_nat start) data) = (length data - Z.to_nat start)%nat)
    by apply length_drop.
  destruct (Z.le_ge_cases size (Z.of_nat (length data) - start)).
  - rewrite Z.min_l by lia. rewrite length_take, Hd.
    destruct (Z.leb_spec size (Z.of_nat (Z.to_nat size `min` (length data - Z.to_nat start)))); [|lia].
    replace (Z.to_nat size - (length data - Z.to_nat start))%nat with 0%nat by lia.
    cbn. by rewrite app_nil_r.
  - rewrite Z.min_r by lia.
    rewrite !(take_ge (drop _ _)) by (rewrite Hd; lia). rewrite Hd.
    destruct (Z.leb_spec size (Z.of_nat (length data - Z.to_nat start))).
    + replace (Z.to_nat size - _)%nat with 0%nat by lia. cbn. by rewrite app_nil_r.
    + f_equal. f_equal. lia.
Qed.

Lemma padded_over data start size : zlen data <= start ->
  padded data start size = padded data (zlen data) size.
Proof.
  intros Hs. unfold padded. apply map_ext. intros i. unfold zlen in *. rewrite !nth_overflow by lia. done.
Qed.

Lemma getData_padded data start size : 0 <= start -> 0 <= size < two63 -> zlen data < two63 ->
  getData data start size = Ret (padded data start size).
Proof.
  intros Hs Hz Hl. pose proof (zlen_nonneg data). unfold getData.
  set (st := if zlen data <? start then zlen data else start).
  assert (Hst : 0 <= st <= zlen data) by (unfold st; zcase).
  assert (Hp : padded data start size = padded data st size).
  { unfold st. zcase; [|done]. apply padded_over. lia. }
  rewrite wrap64_small by (unfold is_u64; lia).
  set (en := if zlen data <? st + size then zlen data else st + size).
  assert (Hen : en - st = Z.min size (zlen data - st)) by (unfold en; zcase).
  rewrite slice_ok by lia. cbn [obind]. rewrite int64_of_small by lia. rewrite Hp.
  f_equal. apply RightPad_padded; [done|lia|exact Hen].
Qed.

(** ** Writing to memory *)
Lemma copy_at_full dst off n src : 0 <= off -> 0 <= n -> off + n <= zlen dst -> zlen src = n ->
  copy_at dst off n src = take (Z.to_nat off) dst ++ src ++ drop (Z.to_nat (off + n)) dst.
Proof.
  intros. unfold copy_at. rewrite !Z.min_l by lia.
  rewrite (firstn_all2 src) by (unfold zlen in *; lia). done.
Qed.

Lemma copy_at_read dst off n src : 0 <= off -> 0 <= n -> off + n <= zlen dst -> zlen src = n ->
  take (Z.to_nat n) (drop (Z.to_nat off) (copy_at dst off n src)) = src.
Proof.
  intros Ho Hn Hf Hl. rewrite copy_at_full by done. unfold zlen in *.
  rewrite drop_app_ge by (rewrite length_take; lia). rewrite length_take.
  replace (Z.to_nat off - (Z.to_nat off `min` length dst))%nat with 0%nat by lia.
  rewrite drop_0. by apply take_app_length'; lia.
Qed.

Lemma copy_at_frame dst off n src i : 0 <= off -> 0 <= n -> off + n <= zlen dst -> zlen src = n ->
  0 <= i -> i < off \/ off + n <= i ->
  nth (Z.to_nat i) (copy_at dst off n src) 0 = nth (Z.to_nat i) dst 0.
Proof.
  intros Ho Hn Hf Hl Hi Hout. rewrite copy_at_full by done. unfold zlen in *. rewrite !nth_lookup.
  destruct Hout as [Hlt|Hge].
  - rewrite lookup_app_l by (rewrite length_take; lia). by rewrite lookup_take_lt by lia.
  - rewrite lookup_app_r by (rewrite length_take; lia). rewrite length_take.
    rewrite lookup_app_r by lia. rewrite lookup_drop. do 2 f_equal. lia.
Qed.

(** The OVM's methods over an empty loop, for the closed instances. *)
Definition demo_subs : Subs := subs_of (runLoop demo_table 0).

(** ** The properties *)

(** C10: the arithmetic, comparison, bitwise and shift instructions pop their
    operands in the documented order and push the documented result (modulo
    2^256, with the conventions for division by zero and for shifts by 256 or
    more), leaving the rest of the machine alone. *)
Theorem alu_correct {U : Uint256} {L : Uint256Laws U} {C : Crypto} {B : ByteUtils} (S : Subs)
    (f : executionFunc) (args st : list Z) (v : Z) (m : Machine)
    (Hargs : Forall is_u256 args) (Hst : stack m = st ++ rev args) (Hv : alu f args = Some v) :
  exec_ S f m = Ret (([], None), set_stack (st ++ [v]) m).
Proof.
  destruct f; cbn [alu] in Hv; try discriminate Hv;
    repeat (match type of Hv with (match ?a with _ => _ end) = _ => destruct a as [|? ?] end;
            try discriminate Hv);
    injection Hv as <-; cbn [rev app] in Hst;
    repeat match goal with H : Forall is_u256 (_ :: _) |- _ => inversion H; clear H; subst end;
    cbn [exec_]; unfold opAdd, opSub, opMul, opDiv, opSdiv, opMod, opSmod, opExp, opSignExtend, opNot, opLt, opGt,
      opSlt, opSgt, opEq, opIszero, opAnd, opOr, opXor, opByte, opAddmod, opMulmod, opSHL, opSHR, opSAR, cmpop.
  all: first [erewrite binop_run by exact Hst | erewrite triop_run by exact Hst
             | erewrite (unop_run u_Not) by exact Hst
             | erewrite (unop_run (fun x => if u_IsZero x then 1 else 0)) by exact Hst ].
  all: repeat f_equal.
  all: rewrite ?Add_law, ?Sub_law, ?Mul_law, ?Div_law, ?SDiv_law, ?Mod_law, ?SMod_law, ?Exp_law,
      ?Not_law, ?Lt_law, ?Gt_law, ?Slt_law, ?Sgt_law, ?Eq_law, ?IsZero_law, ?And_law, ?Or_law, ?Xor_law,
      ?Byte_law, ?ExtendSign_law, ?AddMod_law, ?MulMod_law by done; try reflexivity.
  - zcase.
  - zcase; [|done]. subst. unfold signed256 at 2. cbn. by rewrite quot_zero_l.
  - by destruct (_ =? 0).
  - by apply shl_guard.
  - by apply shr_guard.
  - by apply sar_guard.
Qed.

Lemma alu_correct_witness :
  exec_ demo_subs f_opSdiv (set_stack [77; 2; two256 - 7] demo_machine) =
    Ret (([], None), set_stack [77; two256 - 3] (set_stack [77; 2; two256 - 7] demo_machine)).
Proof.
  apply (alu_correct demo_subs f_opSdiv [two256 - 7; 2] [77] (two256 - 3)).
  - repeat constructor; unfold is_u256; lia.
  - reflexivity.
  - vm_compute. reflexivity.
Defined.

(** C36: [getData], which serves CALLDATALOAD and the copy instructions, returns
    the requested bytes with zeros past the end of the data, for every offset. *)
Theorem getData_reference (data : list Z) (start size : Z) (Hs : 0 <= start)
    (Hz : 0 <= size < two63) (Hl : zlen data < two63) :
  getData data start size = Ret (padded data start size) /\
  zlen (padded data start size) = size /\
  (forall i, 0 <= i < size ->
     nth (Z.to_nat i) (padded data start size) 0 = nth (Z.to_nat (start + i)) data 0).
Proof.
  split; [by apply getData_padded|]. unfold padded. split.
  - unfold zlen. rewrite length_map, length_seq. lia.
  - intros i Hi. rewrite nth_indep with (d' := nth (Z.to_nat start + 0) data 0)
      by (rewrite length_map, length_seq; lia).
    rewrite (map_nth (fun i => nth (Z.to_nat start + i) data 0)), seq_nth by lia. f_equal. lia.
Qed.

Lemma getData_reference_witness : getData [1; 2; 3] 2 4 = Ret [3; 0; 0; 0].
Proof.
  rewrite (proj1 (getData_reference [1; 2; 3] 2 4 ltac:(lia) ltac:(lia) ltac:(vm_compute; reflexivity))).
  reflexivity.
Defined.

(** The instruction in the table at [PUSHn]. *)
Definition push_op (n : Z) : executionFunc := if n =? 1 then f_opPush1 else f_makePush n n.

(** C37: PUSH1 to PUSH32 push the big-endian value of the bytes that follow the
    opcode, reading zeros past the end of the code, and move the program counter
    over the operand. *)
Theorem push_correct {U : Uint256} {L : Uint256Laws U} {C : Crypto} {B : ByteUtils} (S : Subs)
    (n : Z) (m : Machine) (Hn : 1 <= n <= 32) (Hcode : bytes_ok (Code (contract m)))
    (Hpc : 0 <= pc m < zlen (Code (contract m))) :
  exec_ S (push_op n) m =
    Ret (([], None), set_pc (pc m + n)
      (set_stack (stack m ++ [be_value (padded (Code (contract m)) (pc m + 1) n) 0]) m)).
Proof.
  destruct Hcode as [Hb Hl]. unfold push_op. destruct (Z.eqb_spec n 1) as [->|Hn1]; cbn [exec_].
  - unfold opPush1, bind, modify, get. cbn [contract set_pc VmCore.pc].
    rewrite wrap64_small by (unfold is_u64; lia).
    change (padded (Code (contract m)) (pc m + 1) 1) with [nth (Z.to_nat (pc m + 1) + 0) (Code (contract m)) 0].
    cbn [be_value]. rewrite Nat.add_0_r, Z.mul_0_l, Z.add_0_l. destruct (Z.ltb_spec (pc m + 1) (zlen (Code (contract m)))).
    + unfold index. destruct (Z.leb_spec 0 (pc m + 1)); [|lia].
      destruct (Code (contract m) !! Z.to_nat (pc m + 1)) as [b|] eqn:E.
      * cbn [liftO]. by rewrite (nth_lookup_Some _ _ 0 _ E).
      * apply lookup_ge_None in E. unfold zlen in *. lia.
    + rewrite nth_overflow by (unfold zlen in *; lia). done.
  - unfold makePush, bind, get. set (code := Code (contract m)) in *.
    rewrite int64_of_small by lia.
    set (st := if pc m + 1 <? zlen code then pc m + 1 else zlen code).
    assert (Hst : st = pc m + 1) by (unfold st; zcase).
    rewrite Hst. set (en := if pc m + 1 + n <? zlen code then pc m + 1 + n else zlen code).
    assert (Hen : en - (pc m + 1) = Z.min n (zlen code - (pc m + 1))) by (unfold en; zcase).
    rewrite slice_ok by lia. cbn [liftO].
    rewrite (RightPad_padded code (pc m + 1) (en - (pc m + 1)) n) by lia.
    unfold pushM, modify. cbn [VmCore.pc set_stack]. rewrite wrap64_small by (unfold is_u64; lia).
    assert (Hpb : Forall is_byte (padded code (pc m + 1) n)).
    { rewrite padded_take by lia. apply Forall_app. split; [auto using Forall_take, Forall_drop|].
      apply Forall_replicate. unfold is_byte. lia. }
    rewrite SetBytes_law, wrap256_small; [done| |done].
    pose proof (be_value_bound _ Hpb) as Hv. unfold is_u256. change two256 with (256 ^ 32).
    assert (zlen (padded code (pc m + 1) n) = n) as Hz by (unfold padded, zlen; rewrite length_map, length_seq; lia).
    rewrite Hz in Hv. assert (256 ^ n <= 256 ^ 32) by (apply Z.pow_le_mono_r; lia). lia.
Qed.

Lemma push_correct_witness :
  exec_ demo_subs (push_op 2) (set_pc 10 demo_machine) =
    Ret (([], None), set_pc 12 (set_stack [243] (set_pc 10 demo_machine))).
Proof.
  rewrite (push_correct demo_subs 2 (set_pc 10 demo_machine)).
  - reflexivity.
  - lia.
  - apply demo_wf_machine.
  - vm_compute. split; [discriminate|reflexivity].
Defined.

(** DUPn copies the n-th item from the top, SWAPn exchanges the top with the
    item n below it; nothing else on the stack moves. *)
Theorem dup_swap_correct {U : Uint256} {C : Crypto} {B : ByteUtils} (S : Subs) (m : Machine)
    (pre mid : list Z) (a b : Z) :
  (stack m = pre ++ [a] ++ mid ->
   exec_ S (f_makeDup (zlen mid + 1)) m = Ret (([], None), set_stack (pre ++ [a] ++ mid ++ [a]) m)) /\
  (stack m = pre ++ [a] ++ mid ++ [b] ->
   exec_ S (f_makeSwap (zlen mid + 1)) m = Ret (([], None), set_stack (pre ++ [b] ++ mid ++ [a]) m)).
Proof.
  assert (Hix : forall (st : Stack) x l r i, st = l ++ x :: r -> i = zlen l -> index st i = Ret x).
  { intros st x l r i -> ->. unfold index. pose proof (zlen_nonneg l).
    destruct (Z.leb_spec 0 (zlen l)); [|lia]. unfold zlen. rewrite Nat2Z.id.
    by rewrite lookup_app_r, Nat.sub_diag by lia. }
  split; intros Hs; cbn [exec_].
  - unfold makeDup, dup, bind, get. rewrite (Hix _ a pre mid); [|done|].
    + cbn. unfold push, put, ret. rewrite Hs. by rewrite <- !app_assoc.
    + rewrite Hs, !zlen_app. unfold zlen. cbn [length]. lia.
  - unfold makeSwap, swap, bind, get. rewrite (Hix _ a pre (mid ++ [b])); [|done|].
    2: { rewrite Hs, !zlen_app. unfold zlen. cbn [length]. lia. }
    rewrite (Hix _ b (pre ++ [a] ++ mid) []); [|by rewrite Hs, <- !app_assoc|].
    2: { rewrite Hs, !zlen_app. unfold zlen. cbn [length]. lia. }
    cbn [obind liftO]. unfold put, ret. do 2 f_equal. f_equal. rewrite Hs.
    replace (Z.to_nat (zlen (pre ++ [a] ++ mid ++ [b]) - (zlen mid + 1 + 1))) with (length pre + 0)%nat
      by (unfold zlen; rewrite !length_app; cbn; lia).
    rewrite insert_app_r. cbn [app list_insert insert].
    replace (Z.to_nat _) with (length (pre ++ b :: mid) + 0)%nat
      by (unfold zlen; rewrite !length_app; cbn; rewrite length_app; cbn; lia).
    change (pre ++ b :: mid ++ [b]) with (pre ++ (b :: mid) ++ [b]). rewrite app_assoc, insert_app_r.
    by rewrite <- app_assoc.
Qed.

Lemma dup_swap_correct_witness :
  exec_ demo_subs (f_makeDup 2) (set_stack [9; 5; 6] demo_machine) =
    Ret (([], None), set_stack [9; 5; 6; 5] (set_stack [9; 5; 6] demo_machine)) /\
  exec_ demo_subs (f_makeSwap 1) (set_stack [9; 5; 6] demo_machine) =
    Ret (([], None), set_stack [9; 6; 5] (set_stack [9; 5; 6] demo_machine)).
Proof.
  split.
  - exact (proj1 (dup_swap_correct demo_subs (set_stack [9; 5; 6] demo_machine) [9] [6] 5 0) eq_refl).
  - exact (proj2 (dup_swap_correct demo_subs (set_stack [9; 5; 6] demo_machine) [9] [] 5 6) eq_refl).
Defined.

(** C35: memory reads see the last write: after MSTORE's [Set32] the 32 bytes at
    the offset are the word's big-endian bytes and read back as the word; after
    [Set] a copy of the region is the written value; all other bytes are
    unchanged, and so is the size. *)
Theorem memory_store_load {U : Uint256} {L : Uint256Laws U} (m : Memory) (off v size : Z)
    (value : list Z) (Hm : wf_mem m) (Hv : is_u256 v) (Hbytes : Forall is_byte value)
    (Hlen : zlen value = size) (Hoff : 0 <= off) (Hmem : zlen (store m) < two63)
    (Hfit : off + 32 <= zlen (store m)) (Hfit' : off + size <= zlen (store m)) :
  (exists m', Memory_Set32 off v m = Ret m' /\ zlen (store m') = zlen (store m) /\
     (bs <-o Memory_GetPtr off 32 m' ;; Ret (u_SetBytes bs)) = Ret v /\
     (forall i, 0 <= i -> i < off \/ off + 32 <= i ->
        nth (Z.to_nat i) (store m') 0 = nth (Z.to_nat i) (store m) 0)) /\
  (exists m', Memory_Set off size value m = Ret m' /\ zlen (store m') = zlen (store m) /\
     Memory_GetCopy off size m' = Ret value /\
     (forall i, 0 <= i -> i < off \/ off + size <= i ->
        nth (Z.to_nat i) (store m') 0 = nth (Z.to_nat i) (store m) 0)).
Proof.
  pose proof (zlen_nonneg value) as Hs0. split.
  - assert (H32 : zlen (u_Bytes32 v) = 32).
    { rewrite Bytes32_law by done. unfold zlen. by rewrite length_be_bytes. }
    unfold Memory_Set32. rewrite wrap64_small by (unfold is_u64; lia).
    destruct (Z.ltb_spec (zlen (store m)) (off + 32)); [lia|]. rewrite slice_ok by lia. cbn [obind].
    eexists. split; [done|]. cbn [store]. rewrite copy_at_length by lia. split; [done|]. split.
    + unfold Memory_GetPtr. cbn [store]. rewrite copy_at_length by lia.
      change (32 =? 0) with false. destruct (Z.ltb_spec off (zlen (store m))); [|lia].
      rewrite int64_of_small by lia. rewrite slice_ok by (rewrite ?copy_at_length; lia). cbn [obind].
      replace (off + 32 - off) with 32 by lia. rewrite copy_at_read by lia.
      rewrite Bytes32_law, SetBytes_law, be_value_bytes by (done || apply be_bytes_byte).
      f_equal. unfold wrap256. unfold is_u256 in Hv. change (256 ^ Z.of_nat 32) with two256.
      rewrite Z.mod_mod by lia. by apply Z.mod_small.
    + intros i Hi Hout. by apply copy_at_frame.
  - subst size. unfold Memory_Set. destruct (Z.ltb_spec 0 (zlen value)) as [Hpos|Hz].
    + rewrite wrap64_small by (unfold is_u64; lia).
      destruct (Z.ltb_spec (zlen (store m)) (off + zlen value)); [lia|]. rewrite slice_ok by lia.
      cbn [obind]. eexists. split; [done|]. cbn [store]. rewrite copy_at_length by lia.
      split; [done|]. split; [|intros i Hi Hout; by apply copy_at_frame].
      unfold Memory_GetCopy. cbn [store]. rewrite copy_at_length by lia.
      destruct (Z.eqb_spec (zlen value) 0); [lia|]. destruct (Z.ltb_spec off (zlen (store m))); [|lia].
      destruct (Z.ltb_spec (zlen value) 0); [lia|]. rewrite int64_of_small by lia.
      rewrite slice_ok by (rewrite ?copy_at_length; lia). cbn [obind].
      replace (off + zlen value - off) with (zlen value) by lia. rewrite copy_at_read by lia.
      rewrite copy_at_full by (rewrite ?zlen_zeros; lia). cbn [Z.to_nat take app].
      rewrite drop_ge, app_nil_r by (unfold zeros; rewrite length_replicate; lia). done.
    + exists m. split; [done|]. split; [done|]. split; [|done].
      assert (value = []) as -> by (destruct value; [done|unfold zlen in Hz; cbn in Hz; lia]). done.
Qed.

Lemma memory_store_load_witness :
  exists m', Memory_Set32 8 258 (mkMemory (zeros 64) 6) = Ret m' /\ zlen (store m') = 64 /\
     (bs <-o Memory_GetPtr 8 32 m' ;; Ret (u_SetBytes bs)) = Ret 258.
Proof.
  destruct (memory_store_load (mkMemory (zeros 64) 6) 8 258 2 [7; 8]) as [(m' & H1 & H2 & H3 & _) _].
  - apply zeros_byte.
  - unfold is_u256. lia.
  - repeat constructor; unfold is_byte; lia.
  - reflexivity.
  - lia.
  - vm_compute. reflexivity.
  - vm_compute. discriminate.
  - vm_compute. discriminate.
  - exists m'. split; [exact H1|]. split; [exact H2|exact H3].
Defined.
