(* ===== verification/JumpProps.v ===== *)
(** * Jump destinations

    The bit vector of [vm/octopus_analysis.go] marks exactly the operand
    bytes of PUSH instructions, and [validJumpdest] with its two caches accepts
    exactly the JUMPDEST opcodes that are not operands. *)
From S2P Require Import Prelude Uint256 Params GoMath VmStack Analysis StateDB StateInv VmCore.
From S2P Require Import VmGas Instructions JumpTable VmInv VmProps InstrProps.

(** A cached analysis is the analysis of the contract's own code. *)
Definition coherent (c : Contract) : Prop :=
  (forall a, analysis c = Some a -> codeBitmap (Code c) = Ret a) /\
  (CodeHash c <> 0 -> forall a, jumpdests c !! CodeHash c = Some a -> codeBitmap (Code c) = Ret a).

(** Position [d] holds a JUMPDEST that is an instruction. *)
Definition is_jumpdest (code : list Z) (d : Z) : bool :=
  (d <? zlen code) && (nth (Z.to_nat d) code 0 =? JUMPDEST) && negb (is_data code (Z.to_nat d)).

(** The same contract but for its caches. *)
Definition same_but_caches (c c' : Contract) : Prop :=
  c' = set_analysis (jumpdests c') (analysis c') c.

Lemma same_refl c : same_but_caches c c.
Proof. by destruct c. Qed.

(** Caching the contract's own analysis. *)
Lemma coherent_set c j a : coherent c -> codeBitmap (Code c) = Ret a ->
  (j = jumpdests c \/ j = <[CodeHash c := a]> (jumpdests c)) ->
  coherent (set_analysis j (Some a) c).
Proof.
  intros [H1 H2] Ha Hj. split; cbn; [by intros a' [= <-]|]. intros Hh a'.
  destruct Hj as [-> | ->]; [by apply H2|]. rewrite lookup_insert_eq. by intros [= <-].
Qed.

Lemma isCode_exact c p : Forall is_byte (Code c) -> coherent c -> (p < length (Code c))%nat ->
  exists c', isCode p c = Ret (negb (is_data (Code c) p), c') /\ coherent c' /\ same_but_caches c c'.
Proof.
  intros Hb Hco Hp. destruct (codeBitmap_spec (Code c) Hb) as (a & Ha & Hseg).
  specialize (Hseg p Hp). pose proof Hco as [H1 H2]. unfold isCode.
  destruct (analysis c) as [a'|] eqn:Ea.
  { specialize (H1 a' eq_refl). rewrite Ha in H1. injection H1 as <-. rewrite Hseg. cbn [obind].
    exists c. split; [done|]. split; [done|apply same_refl]. }
  destruct (Z.eqb_spec (CodeHash c) 0) as [Hz|Hh]; cbn [negb].
  { rewrite Ha. cbn [obind]. rewrite Hseg. cbn [obind]. eexists. split; [done|].
    split; [apply coherent_set; auto|done]. }
  destruct (jumpdests c !! CodeHash c) as [a'|] eqn:Ej.
  - specialize (H2 Hh a' eq_refl). rewrite Ha in H2. injection H2 as <-. cbn [obind]. rewrite Hseg.
    eexists. split; [done|]. split; [apply coherent_set; auto|done].
  - rewrite Ha. cbn [obind]. rewrite Hseg. cbn [obind]. eexists. split; [done|].
    split; [|done]. apply (coherent_set c (<[CodeHash c := a]> (jumpdests c)) a); auto.
Qed.

Lemma validJumpdest_exact {U : Uint256} {L : Uint256Laws U} c d :
  Forall is_byte (Code c) -> zlen (Code c) < two63 -> is_u256 d -> coherent c ->
  exists c', validJumpdest d c = Ret (is_jumpdest (Code c) d, c') /\ coherent c' /\ same_but_caches c c'.
Proof.
  intros Hb Hl Hd Hco. unfold is_u256 in Hd. unfold validJumpdest, Uint64WithOverflow, is_jumpdest.
  rewrite IsUint64_law, Uint64_law by done.
  assert (Hno : forall b : bool, b = false ->
    exists c', Ret (false, c) = Ret (b, c') /\ coherent c' /\ same_but_caches c c').
  { intros b ->. exists c. split; [done|]. split; [done|apply same_refl]. }
  destruct (Z.ltb_spec d two64) as [H64|H64]; cbn [negb orb].
  2: { apply Hno. destruct (Z.ltb_spec d (zlen (Code c))); [lia|done]. }
  rewrite Z.mod_small by lia. destruct (Z.leb_spec (zlen (Code c)) d) as [Hge|Hlt].
  { apply Hno. destruct (Z.ltb_spec d (zlen (Code c))); [lia|done]. }
  destruct (Z.ltb_spec d (zlen (Code c))); [|lia]. cbn [andb].
  destruct (nth (Z.to_nat d) (Code c) 0 =? JUMPDEST); cbn [negb andb]; [|by apply Hno].
  apply isCode_exact; [done|done|]. unfold zlen in Hlt. lia.
Qed.

(** ** The properties *)




Definition jump_machine : Machine :=
  mkMachine 0 demo_ovm NewMemory [3]
    (SetCallCode 99 0 [96; 91; 86; 91] (NewContract (RefAccount 5) 99 (Some 0) 100)).

