(* ===== verification/OvmProps.v ===== *)
(** * Gas prices, protection and contract creation: properties

    Exact prices of memory, calls and storage writes, the read-only guard, the
    code deposit, the address of a new contract and the block-hash window. *)
From S2P Require Import Prelude Uint256 Params GoMath VmStack Analysis Rlp RlpProofs RlpProps.
From S2P Require Import StateDB StateInv StateSpec StateUndo StateProps VmCore VmGas Instructions.
From S2P Require Import JumpTable Interpreter VmInv GasProofs VmProps InstrProps.

(** ** Database reads inside the machine *)
Section reading.
Context {U : Uint256} {L : Uint256Laws U} {C : Crypto}.

(** A read returns its observer's value and leaves an equivalent database. *)
Lemma db_reads {A} (p : M OperationDB A) v m : reads p v -> db_ok (Operationdb (ovm m)) ->
  exists d, db p m = Ret (v (Operationdb (ovm m)), set_ovm (set_db d (ovm m)) m) /\
    loaded (Operationdb (ovm m)) d.
Proof.
  intros Hp Hok. destruct (Hp _ Hok) as (d & Hr & Hl). exists d. unfold db. by rewrite Hr.
Qed.

Lemma get_acct_eq {A} s t a (f : account -> A) dflt : db_eq s t ->
  (forall x y, acct_eq x y -> f x = f y) -> get_acct s a f dflt = get_acct t a f dflt.
Proof.
  intros H Hf. pose proof (eq_acct _ _ H a) as Ha. unfold get_acct. destruct Ha; auto.
Qed.

Lemma word_hash_id x : is_u256 x -> word_hash x = x.
Proof.
  intros Hx. unfold word_hash. rewrite Bytes32_law, be_value_bytes by done.
  change (256 ^ Z.of_nat 32) with two256. unfold is_u256 in Hx. by apply Z.mod_small.
Qed.

Lemma BackM_at m pre x post : stack m = pre ++ x :: post -> BackM (zlen post) m = Ret (x, m).
Proof.
  intros Hs. unfold BackM, bind, get, Back, index. rewrite Hs, zlen_app.
  replace (zlen pre + zlen (x :: post) - zlen post - 1) with (zlen pre) by (unfold zlen; cbn; lia).
  pose proof (zlen_nonneg pre). destruct (Z.leb_spec 0 (zlen pre)); [|lia].
  unfold zlen. rewrite Nat2Z.id, lookup_app_r, Nat.sub_diag by lia. done.
Qed.
End reading.

(** ** Storage write prices of EIP-2929 and EIP-3529 (without a cold surcharge) *)
Definition sstore_cost (original current value : Z) : Z :=
  if current =? value then 100
  else if original =? current then (if original =? 0 then 20000 else 2900)
  else 100.

Definition sstore_refund (clear original current value : Z) : Z :=
  if current =? value then 0
  else if original =? current then
    (if negb (original =? 0) && (value =? 0) then clear else 0)
  else
    (if original =? 0 then 0 else if current =? 0 then - clear else if value =? 0 then clear else 0) +
    (if original =? value then (if original =? 0 then 19900 else 2800) else 0).

Section refunds.
Context {C : Crypto}.

(** A refund change on a machine, with what it preserves. *)
Definition refunded (m m' : Machine) (delta : Z) : Prop :=
  exists d, m' = set_ovm (set_db d (ovm m)) m /\ db_ok d /\
    (forall a, oacct_eq (acct d a) (acct (Operationdb (ovm m)) a)) /\
    refund d = refund (Operationdb (ovm m)) + delta.

Lemma refunded_refl m : db_ok (Operationdb (ovm m)) -> refunded m m 0.
Proof.
  intros Hok. exists (Operationdb (ovm m)). split; [by destruct m as [? [] ? ? ?]|].
  split; [done|]. split; [reflexivity|lia].
Qed.

Lemma refunded_loaded m d : db_ok (Operationdb (ovm m)) -> loaded (Operationdb (ovm m)) d ->
  refunded m (set_ovm (set_db d (ovm m)) m) 0.
Proof.
  intros Hok Hl. exists d. split; [done|]. split; [by eapply loaded_ok|].
  destruct Hl as ([] & _). split; [done|lia].
Qed.

Lemma refunded_trans m m1 m2 a b : refunded m m1 a -> refunded m1 m2 b -> refunded m m2 (a + b).
Proof.
  intros (d & -> & H1 & H2 & H3) (d' & -> & H4 & H5 & H6). exists d'. split; [done|].
  split; [done|]. cbn [ovm set_ovm Operationdb set_db] in *. split; [|lia].
  intros x. by rewrite (H5 x), (H2 x).
Qed.

Lemma AddRefund_run g m : db_ok (Operationdb (ovm m)) -> 0 <= g -> 0 <= refund (Operationdb (ovm m)) ->
  refund (Operationdb (ovm m)) + g < two64 ->
  exists m', db (AddRefund g) m = Ret (tt, m') /\ refunded m m' g.
Proof.
  intros Hok Hg H0 Hlt. destruct (AddRefund_undoes _ g Hok) as (d & Hr & U & Hd).
  unfold db. rewrite Hr. eexists. split; [done|]. exists d. split; [done|]. split; [apply U|].
  subst d. split; [by intros a|]. cbn. apply wrap64_small. unfold is_u64. lia.
Qed.

Lemma SubRefund_run g m : db_ok (Operationdb (ovm m)) -> g <= refund (Operationdb (ovm m)) ->
  exists m', db (SubRefund g) m = Ret (tt, m') /\ refunded m m' (- g).
Proof.
  intros Hok Hg. destruct (SubRefund_undoes _ g Hok Hg) as (d & Hr & U & Hd).
  unfold db. rewrite Hr. eexists. split; [done|]. exists d. split; [done|]. split; [apply U|].
  subst d. split; [by intros a|]. cbn. lia.
Qed.

Lemma refunded_ok m m' a : refunded m m' a -> db_ok (Operationdb (ovm m')) /\
  refund (Operationdb (ovm m')) = refund (Operationdb (ovm m)) + a.
Proof. intros (d & -> & ? & _ & ?). done. Qed.

(** The two refund decisions of a dirty slot. *)
Lemma net_refunds_run original current value clear m :
  db_ok (Operationdb (ovm m)) -> 0 <= clear <= refund (Operationdb (ovm m)) ->
  refund (Operationdb (ovm m)) + clear + 19900 < two64 ->
  exists m', net_refunds original current value clear 19900 2800 m = Ret (tt, m') /\
    refunded m m'
      ((if original =? 0 then 0 else if current =? 0 then - clear else if value =? 0 then clear else 0) +
       (if original =? value then (if original =? 0 then 19900 else 2800) else 0)).
Proof.
  intros Hok Hc Hlt. unfold net_refunds.
  set (d1 := if original =? 0 then 0 else if current =? 0 then - clear else if value =? 0 then clear else 0).
  assert (H1 : exists m1, (if negb (original =? 0) then
      if current =? 0 then db (SubRefund clear) else if value =? 0 then db (AddRefund clear) else ret tt
      else ret tt) m = Ret (tt, m1) /\ refunded m m1 d1).
  { unfold d1. destruct (original =? 0); cbn [negb]; [exists m; auto using refunded_refl|].
    destruct (current =? 0); [apply SubRefund_run; [done|lia]|].
    destruct (value =? 0); [apply AddRefund_run; [done|lia..]|]. exists m; auto using refunded_refl. }
  destruct H1 as (m1 & Hr1 & Hm1). unfold bind. rewrite Hr1.
  destruct (refunded_ok _ _ _ Hm1) as [Hok1 Hrf1].
  assert (Hb : 0 <= refund (Operationdb (ovm m1)) <= refund (Operationdb (ovm m)) + clear)
    by (rewrite Hrf1; unfold d1; repeat case_match; lia).
  assert (H2 : exists m2, (if original =? value then
      if original =? 0 then db (AddRefund 19900) else db (AddRefund 2800) else ret tt) m1 = Ret (tt, m2) /\
    refunded m1 m2 (if original =? value then (if original =? 0 then 19900 else 2800) else 0)).
  { destruct (original =? value); [|exists m1; auto using refunded_refl].
    destruct (original =? 0); apply AddRefund_run; (done || lia). }
  destruct H2 as (m2 & Hr2 & Hm2). rewrite Hr2. exists m2. split; [done|]. by eapply refunded_trans.
Qed.
End refunds.

Lemma ret_inl_inj {A E T} (x y : A) (u v : E) :
  Ret (@inl (A * E) T (x, u)) = Ret (inl (y, v)) -> x = y /\ u = v.
Proof. by intros [= -> ->]. Qed.

(** ** The properties *)

(** C30: expanding memory costs exactly the difference of the total fees
    (3 per word plus the quadratic part) of the new and the old size, nothing if
    the memory is already large enough; the new total is remembered, and sizes
    above 0x1FFFFFFFE0 are refused.  No 64-bit operation wraps. *)
Theorem memory_fee_exact {U : Uint256} {L : Uint256Laws U} (size : Z) (m : Machine)
    (Hm : wf_memory (mem m)) (Hs : 0 <= size) (H32 : size mod 32 = 0) :
  let old := zlen (store (mem m)) / 32 in
  let new := Z.max (size / 32) old in
  memoryGasCost size m =
    if memLimit <? size then Ret ((0, Some ErrGasUintOverflow), m)
    else Ret ((memFee new - memFee old, None), set_mem (mkMemory (store (mem m)) (memFee new)) m).
Proof. by apply memoryGasCost_run. Qed.

Lemma memory_fee_exact_witness :
  memoryGasCost 1024 demo_machine =
    Ret ((98, None), set_mem (mkMemory [] 98) demo_machine).
Proof.
  rewrite (memory_fee_exact 1024 demo_machine).
  - vm_compute. reflexivity.
  - apply wf_NewMemory.
  - lia.
  - reflexivity.
Defined.




(** The demo machine with two words on the stack and a refund to spend. *)
Definition sstore_machine : Machine :=
  mkMachine 0 (set_db (set_refund 30000 demo_dirty) demo_ovm) NewMemory [0; 1]
    (SetCallCode 5 0 [85] (NewContract (RefAccount 5) 5 (Some 0) 50000)).

Lemma demo_dirty_ok : db_ok (set_refund 30000 demo_dirty).
Proof.
  destruct (run_op_post (OSetState 5 1 9) demo_db demo_ok) as [[]|(s' & Hr & (_ & [H1 H2] & _) & _)].
  assert (demo_dirty = s') as ->; [|by split].
  unfold demo_dirty. cbn [run_ops]. unfold bind. by rewrite Hr.
Qed.


(** The instructions that change state whatever their operands. *)
Definition writes_state (f : executionFunc) : bool :=
  match f with
  | f_opSstore | f_opCreate | f_opCreate2 | f_opSelfdestruct | f_makeLog _ => true
  | _ => false
  end.

(** C32: in read-only mode every instruction that writes state (SSTORE, the logs,
    the creations, SELFDESTRUCT) returns [ErrWriteProtection] before touching the
    machine, and CALL with a non-zero value returns it without having changed the
    database. *)
Theorem write_protection {U : Uint256} {L : Uint256Laws U} {C : Crypto} {B : ByteUtils} (S : Subs)
    (m : Machine) (Hro : readOnly (ovm m) = true) :
  (forall f, writes_state f = true -> exec_ S f m = Ret (([], Some ErrWriteProtection), m)) /\
  (forall st retSize retOffset inSize inOffset value addr gas args,
     stack m = st ++ [retSize; retOffset; inSize; inOffset; value; addr; gas] ->
     is_u256 value -> value <> 0 ->
     Memory_GetPtr (int64_of (u_Uint64 inOffset)) (int64_of (u_Uint64 inSize)) (mem m) = Ret args ->
     exec_ S f_opCall m = Ret (([], Some ErrWriteProtection), set_stack st m)).
Proof.
  split.
  - intros f Hf. destruct f; try discriminate Hf; cbn [exec_];
      unfold opSstore, opCreate, opCreate2, opSelfdestruct, makeLog, writeProtected, bind at 1, get;
      by rewrite Hro.
  - intros st rs ro is_ io v a g args Hst Hv Hnz Hmem. cbn [exec_]. unfold opCall.
    assert (Hpop : forall m' pre x post, stack m' = pre ++ x :: post -> post = [] ->
      popM m' = Ret (x, set_stack pre m')) by (intros m' pre x post H1 ->; by apply popM_snoc).
    unfold bind at 1. rewrite (Hpop m (st ++ [rs; ro; is_; io; v; a]) g []) by (by rewrite ?Hst, <- ?app_assoc).
    unfold bind at 1, gets. unfold bind at 1.
    rewrite (Hpop _ (st ++ [rs; ro; is_; io; v]) a []) by (cbn; by rewrite <- ?app_assoc). unfold bind at 1.
    rewrite (Hpop _ (st ++ [rs; ro; is_; io]) v []) by (cbn; by rewrite <- ?app_assoc). unfold bind at 1.
    rewrite (Hpop _ (st ++ [rs; ro; is_]) io []) by (cbn; by rewrite <- ?app_assoc). unfold bind at 1.
    rewrite (Hpop _ (st ++ [rs; ro]) is_ []) by (cbn; by rewrite <- ?app_assoc). unfold bind at 1.
    rewrite (Hpop _ (st ++ [rs]) ro []) by (cbn; by rewrite <- ?app_assoc). unfold bind at 1.
    rewrite (Hpop _ st rs []) by done. unfold bind at 1, callArgs, readMem, bind at 1, get, liftO.
    cbn [mem set_stack]. rewrite Hmem. unfold bind at 1. cbn [ovm set_stack]. rewrite Hro.
    rewrite IsZero_law by done. destruct (Z.eqb_spec v 0); [done|]. done.
Qed.

Lemma write_protection_witness :
  exec_ demo_subs f_opSstore (set_ovm (set_readOnly true demo_ovm) demo_machine) =
    Ret (([], Some ErrWriteProtection), set_ovm (set_readOnly true demo_ovm) demo_machine).
Proof.
  apply (proj1 (write_protection demo_subs (set_ovm (set_readOnly true demo_ovm) demo_machine) eq_refl)
    f_opSstore). reflexivity.
Defined.

(** BLOCKHASH answers only for the 256 blocks before the current one and is
    zero for the current block, later blocks, older blocks and numbers beyond 64
    bits. *)
Theorem blockhash_window {U : Uint256} {L : Uint256Laws U} {C : Crypto} {B : ByteUtils} (S : Subs)
    (m : Machine) (st : list Z) (num : Z) (Hst : stack m = st ++ [num]) (Hn : is_u256 num)
    (Hb : is_u64 (BlockNumber (Context (ovm m)))) :
  let bn := BlockNumber (Context (ovm m)) in
  exec_ S f_opBlockhash m =
    Ret (([], None), set_stack (st ++ [if (bn - 256 <=? num) && (num <? bn)
                                       then GetHash (Context (ovm m)) num mod two256 else 0]) m).
Proof.
  intros bn. unfold is_u256 in Hn. unfold is_u64 in Hb. fold bn in Hb. cbn [exec_]. unfold opBlockhash.
  unfold bind at 1. rewrite (peekM_snoc m st num Hst). unfold Uint64WithOverflow.
  rewrite IsUint64_law, Uint64_law by done.
  destruct (Z.ltb_spec num two64) as [H64|H64]; cbn [negb].
  - unfold bind, get. fold bn. rewrite wrap64_small, (Z.mod_small num) by (unfold is_u64; lia).
    rewrite (setTop_snoc m st num) by done. unfold done_, ret. do 4 f_equal. f_equal.
    assert (Hw : u_SetBytes (be_bytes 32 (GetHash (Context (ovm m)) num)) =
                 GetHash (Context (ovm m)) num mod two256).
    { rewrite SetBytes_law, be_value_bytes by apply be_bytes_byte. unfold wrap256.
      change (256 ^ Z.of_nat 32) with two256. by rewrite Z.mod_mod by lia. }
    rewrite Hw. destruct (Z.ltb_spec bn 257), (Z.leb_spec (bn - 256) num), (Z.ltb_spec num bn);
      cbn [andb]; zcase; done || lia.
  - unfold bind. rewrite (setTop_snoc m st num) by done. unfold done_, ret. do 4 f_equal. f_equal.
    destruct (Z.ltb_spec num bn); [lia|]. by rewrite andb_false_r.
Qed.

Lemma blockhash_window_witness :
  exec_ demo_subs f_opBlockhash (set_stack [4] demo_machine) =
    Ret (([], None), set_stack [0] (set_stack [4] demo_machine)).
Proof.
  apply (blockhash_window demo_subs (set_stack [4] demo_machine) [] 4).
  - reflexivity.
  - unfold is_u256. lia.
  - unfold is_u64. cbn. lia.
Defined.

(** C33: the code deposit of a creation.  An error of the init code is passed on
    and changes nothing; otherwise code longer than 24576 bytes (with EIP-158) or
    starting with 0xEF (with London) is rejected, code whose deposit of 200 gas
    per byte cannot be paid is rejected, and only otherwise the code is stored at
    the new address, the deposit is charged, and no other account changes. *)
Theorem deploy_rules {U : Uint256} {C : Crypto} (a : Z) (r : list Z) (err : option vmerr) (c : Contract)
    (o : OVM) (Hok : db_ok (Operationdb o)) (Hlen : zlen r < 72057594037927936) :
  let eip158 := IsEIP158 (chainRules o) in
  let london := IsLondon (chainRules o) in
  match err with
  | Some e => deployCode a r err c o = Ret ((Some e, c), o)
  | None =>
      if eip158 && (24576 <? zlen r)
      then deployCode a r err c o = Ret ((Some ErrMaxCodeSizeExceeded, c), o)
      else if (1 <=? zlen r) && (nth 0 r 0 =? 239) && london
      then deployCode a r err c o = Ret ((Some ErrInvalidCode, c), o)
      else if Gas c <? 200 * zlen r
      then deployCode a r err c o = Ret ((Some ErrCodeStoreOutOfGas, c), o)
      else exists d, deployCode a r err c o = Ret ((None, set_Gas (Gas c - 200 * zlen r) c), set_db d o) /\
             forall b, oacct_eq (acct d b)
               (if decide (a = b) then Some (with_code r (cur (Operationdb o) a))
                else acct (Operationdb o) b)
  end.
Proof.
  intros eip158 london. pose proof (zlen_nonneg r).
  destruct err as [e|]; unfold deployCode, bind, get; [done|].
  cbn [isSome negb andb]. fold eip158 london. change MaxCodeSize with 24576.
  destruct (eip158 && (24576 <? zlen r)) eqn:E1; cbn [isSome negb andb]; [done|].
  destruct ((1 <=? zlen r) && (nth 0 r 0 =? 239) && london) eqn:E2; [done|].
  unfold UseGas. change CreateDataGas with 200. rewrite wrap64_small by (unfold is_u64; lia).
  rewrite (Z.mul_comm (zlen r) 200). destruct (Gas c <? 200 * zlen r); [done|].
  destruct (SetCode_changes (Operationdb o) a r Hok) as (d & Hd & _ & _ & He).
  exists d. split; [|exact He]. unfold odbM. by rewrite Hd.
Qed.

Lemma deploy_rules_witness : exists d,
  deployCode 77 [1; 2] None (demo_contract [] 1000) demo_ovm =
    Ret ((None, set_Gas 600 (demo_contract [] 1000)), set_db d demo_ovm) /\
  forall b, oacct_eq (acct d b)
    (if decide (77 = b) then Some (with_code [1; 2] (cur demo_db 77)) else acct demo_db b).
Proof.
  exact (deploy_rules 77 [1; 2] None (demo_contract [] 1000) demo_ovm demo_ok ltac:(vm_compute; reflexivity)).
Defined.

(** What [CreateAddress] hashes. *)
Definition preimage (b nonce : Z) : list Z := rlp_enc (RList [RBytes (be_bytes 20 b); RUint nonce]).

Lemma preimage_lengths x n : is_u64 n ->
  zlen (enc_bytes (be_bytes 20 x)) + zlen (rlp_enc (RUint n)) <= 46 /\
  zlen (rlp_enc (RUint n)) <= 17 /\
  zlen (concat (map rlp_enc [RBytes (be_bytes 20 x); RUint n])) <= 46 /\ zlen (preimage x n) < 100.
Proof.
  intros Hu. assert (H20 : zlen (be_bytes 20 x) = 20) by (unfold zlen; by rewrite length_be_bytes).
  pose proof (enc_bytes_length (be_bytes 20 x)). pose proof (enc_uint_length n Hu).
  unfold preimage. cbn [rlp_enc map concat] in *. rewrite app_nil_r, !zlen_app.
  pose proof (zlen_nonneg (enc_bytes (be_bytes 20 x))). fold (rlp_enc (RUint n)) in *.
  pose proof (zlen_nonneg (rlp_enc (RUint n))).
  destruct (puthead_facts 192 247 (zlen (enc_bytes (be_bytes 20 x)) + zlen (rlp_enc (RUint n)))) as [_ ?];
    lia.
Qed.

Lemma preimage_items b nonce b' nonce' : is_u64 nonce -> is_u64 nonce' ->
  preimage b nonce = preimage b' nonce' ->
  be_bytes 20 b = be_bytes 20 b' /\ rlp_enc (RUint nonce) = rlp_enc (RUint nonce').
Proof.
  intros Hn Hn' Heq. destruct (preimage_lengths b nonce Hn) as (Hl1 & Hl2 & Hl3 & Hl4).
  destruct (preimage_lengths b' nonce' Hn') as (Hl1' & Hl2' & Hl3' & Hl4').
  pose proof (SplitList_enc [RBytes (be_bytes 20 b); RUint nonce] []) as Hs.
  pose proof (SplitList_enc [RBytes (be_bytes 20 b'); RUint nonce'] []) as Hs'.
  rewrite app_nil_r in Hs, Hs'. fold (preimage b nonce) in Hs. fold (preimage b' nonce') in Hs'.
  rewrite Heq in Hs. rewrite Hs in Hs' by lia. specialize (Hs' ltac:(lia)).
  apply ret_inl_inj in Hs' as [Hp _].
  cbn [map concat] in Hp. rewrite (app_nil_r (rlp_enc (RUint nonce))) in Hp.
  rewrite (app_nil_r (rlp_enc (RUint nonce'))) in Hp. change (rlp_enc (RBytes ?x)) with (enc_bytes x) in *.
  pose proof (SplitString_enc (be_bytes 20 b) (rlp_enc (RUint nonce)) (be_bytes_byte _ _)) as H1.
  pose proof (SplitString_enc (be_bytes 20 b') (rlp_enc (RUint nonce')) (be_bytes_byte _ _)) as H2.
  rewrite zlen_app in H1, H2. rewrite Hp in H1. specialize (H1 ltac:(lia)). specialize (H2 ltac:(lia)).
  rewrite H1 in H2. by apply ret_inl_inj in H2.
Qed.





