(* ===== verification/Transition.v ===== *)
(** * Applying a message: the gas pool and the state transition

    [transition/octopus_block_transition.go].  The transition object owns a
    pointer to the gas pool and one to the OVM; its field [state] is the OVM's
    database, so the model keeps one database, that of [st_ovm].  Fields of type
    [*big.Int] are optional, and using an absent one is a nil dereference. *)
From S2P Require Import Prelude Uint256 Params GoMath VmStack Analysis Rlp StateDB VmCore VmGas.
From S2P Require Import Instructions JumpTable Interpreter.

(** ** The gas pool *)
Abbreviation GasPool := Z.

(** The errors a message can be rejected with. *)
Inductive txerr : Set :=
| errGasLimitReached
| errTxGasOverflow
| errIntrinsicGas (have want : Z)
| ErrInsufficientFunds (have want : Z)
| ErrInsufficientFundsForTransfer.

Definition AddGas (amount : Z) (gp : GasPool) : outcome GasPool :=
  if (two64 - 1) -64 amount <? gp then Panic PGasPool else Ret (gp +64 amount).

Definition SubGas (amount : Z) (gp : GasPool) : option txerr * GasPool :=
  if gp <? amount then (Some errGasLimitReached, gp) else (None, gp - amount).

(** ** Messages and transitions *)
Record Message := mkMessage {
  m_to : option Z; m_from : Z; m_nonce : Z; m_amount : option Z; m_gasLimit : Z;
  m_gasPrice : option Z; m_gasFeeCap : option Z; m_gasTipCap : option Z;
  m_data : list Z; m_isFake : bool }.

Record StateTransition := mkST {
  gp : GasPool; msg : Message; st_gas : Z;
  st_gasPrice : option Z; st_gasFeeCap : option Z; st_gasTipCap : option Z;
  initialGas : Z; st_value : option Z; st_data : list Z; st_ovm : OVM }.

Definition set_gp (g : GasPool) (s : StateTransition) : StateTransition :=
  mkST g (msg s) (st_gas s) (st_gasPrice s) (st_gasFeeCap s) (st_gasTipCap s) (initialGas s)
    (st_value s) (st_data s) (st_ovm s).
Definition set_gas (g : Z) (s : StateTransition) : StateTransition :=
  mkST (gp s) (msg s) g (st_gasPrice s) (st_gasFeeCap s) (st_gasTipCap s) (initialGas s)
    (st_value s) (st_data s) (st_ovm s).
Definition set_initialGas (g : Z) (s : StateTransition) : StateTransition :=
  mkST (gp s) (msg s) (st_gas s) (st_gasPrice s) (st_gasFeeCap s) (st_gasTipCap s) g
    (st_value s) (st_data s) (st_ovm s).
Definition set_st_ovm (o : OVM) (s : StateTransition) : StateTransition :=
  mkST (gp s) (msg s) (st_gas s) (st_gasPrice s) (st_gasFeeCap s) (st_gasTipCap s) (initialGas s)
    (st_value s) (st_data s) o.

Record ExecutionResult := mkResult {
  UsedGas : Z; ExecErr : option vmerr; ReturnData : list Z }.

Definition NewTransition (o : OVM) (m : Message) (g : GasPool) : StateTransition :=
  mkST g m 0 (m_gasPrice m) (m_gasFeeCap m) (m_gasTipCap m) 0 (m_amount m) (m_data m) o.

(** ** Intrinsic gas *)
Fixpoint countNonZero (data : list Z) (nz : Z) : Z :=
  match data with
  | [] => nz
  | byt :: r => countNonZero r (if negb (byt =? 0) then nz +64 1 else nz)
  end.

Definition IntrinsicGas (data : list Z) : txerr + Z :=
  let gas := TxGas in
  if 0 <? zlen data then
    let nz := countNonZero data 0 in
    let nonZeroGas := TxDataNonZeroGasFrontier in
    if ((two64 - 1) -64 gas) / nonZeroGas <? nz then inl errTxGasOverflow
    else
      let gas := gas +64 (nz *64 nonZeroGas) in
      let z := wrap64 (zlen data) -64 nz in
      if ((two64 - 1) -64 gas) / TxDataZeroGas <? z then inl errTxGasOverflow
      else inr (gas +64 (z *64 TxDataZeroGas))
  else inr gas.

Definition gasUsed (s : StateTransition) : Z := initialGas s -64 st_gas s.

Definition to (s : StateTransition) : Z :=
  match m_to (msg s) with None => 0 | Some a => a end.

Section transition.
Context `{U : Uint256} `{C : Crypto} `{B : ByteUtils}.
Variable jt : JumpTable.
Variable fuel : nat.

Abbreviation ST := (M StateTransition).

(** A method of the OVM (or of its database) run on the transition's OVM. *)
Definition ovmM {A} (p : M OVM A) : ST A := fun s =>
  match p (st_ovm s) with
  | Ret (a, o) => Ret (a, set_st_ovm o s)
  | Panic e => Panic e
  | NoFuel => NoFuel
  end.
Definition stateM {A} (p : M OperationDB A) : ST A := ovmM (odbM p).

Definition deref (x : option Z) : ST Z :=
  match x with Some v => ret v | None => panicM PNil end.

Definition buyGas : ST (option txerr) :=
  s <- get ;;
  price <- deref (st_gasPrice s) ;;
  let mgval := m_gasLimit (msg s) * price in
  want <- match st_gasFeeCap s with
          | None => ret mgval
          | Some cap => v <- deref (st_value s) ;; ret (m_gasLimit (msg s) * cap + v)
          end ;;
  have <- stateM (GetBalance (m_from (msg s))) ;;
  if have <? want then ret (Some (ErrInsufficientFunds have want))
  else
    let '(err, g) := SubGas (m_gasLimit (msg s)) (gp s) in
    modify (set_gp g) ;;;
    match err with
    | Some e => ret (Some e)
    | None =>
        modify (fun s => set_gas (st_gas s +64 m_gasLimit (msg s)) s) ;;;
        modify (fun s => set_initialGas (m_gasLimit (msg s)) s) ;;;
        stateM (SubBalance (m_from (msg s)) mgval) ;;;
        ret None
    end.

Definition preCheck : ST (option txerr) := buyGas.

(** The dispatch at the end of [TransitionDb]: a creation, or a call after the
    sender's nonce has been advanced. *)
Definition execute_message (value : Z) : ST (list Z * option vmerr) :=
  s <- get ;;
  let from := m_from (msg s) in
  match m_to (msg s) with
  | None =>
      let! ((rv, _, leftOver, err), _) :=
        ovmM (ovm_Create jt fuel (RefAccount from) (st_data s) (st_gas s) value) ;;
      modify (set_gas leftOver) ;;; ret (rv, err)
  | Some _ =>
      nonce <- stateM (GetNonce from) ;;
      stateM (SetNonce from (nonce +64 1)) ;;;
      let! ((rv, leftOver, err), _) :=
        ovmM (ovm_Call jt fuel (RefAccount from) (to s) (st_data s) (st_gas s) value) ;;
      modify (set_gas leftOver) ;;; ret (rv, err)
  end.

Definition TransitionDb : ST (txerr + ExecutionResult) :=
  err <- preCheck ;;
  match err with
  | Some e => ret (inl e)
  | None =>
      s <- get ;;
      match IntrinsicGas (st_data s) with
      | inl e => ret (inl e)
      | inr gas =>
          if st_gas s <? gas then ret (inl (errIntrinsicGas (st_gas s) gas))
          else
            modify (set_gas (st_gas s - gas)) ;;;
            value <- deref (m_amount (msg s)) ;;
            can <- (if 0 <? value then stateM (CanTransfer (m_from (msg s)) value) else ret true) ;;
            if negb can then ret (inl ErrInsufficientFundsForTransfer)
            else
              let! (rv, err) := execute_message value ;;
              s <- get ;;
              ret (inr (mkResult (gasUsed s) err rv))
      end
  end.

Definition ApplyMessage (o : OVM) (m : Message) (g : GasPool)
  : outcome ((txerr + ExecutionResult) * StateTransition) :=
  TransitionDb (NewTransition o m g).

(** ** The result *)
Definition Failed (r : ExecutionResult) : bool := isSome (ExecErr r).
Definition Revert (r : ExecutionResult) : list Z :=
  if decide (ExecErr r = Some ErrExecutionReverted) then CopyBytes (ReturnData r) else [].
Definition Return (r : ExecutionResult) : list Z :=
  match ExecErr r with Some _ => [] | None => CopyBytes (ReturnData r) end.
End transition.
