(* ===== verification/TransProps.v ===== *)
(** * Properties of the state transition

    Intrinsic gas, buying gas, and the whole treatment of a message: which
    messages are rejected and with which error, what happens to the gas pool, and
    bounds on the gas used. *)
From S2P Require Import Prelude Uint256 Params GoMath VmStack Analysis Rlp StateDB StateInv StateSpec.
From S2P Require Import StateUndo StateProps VmCore VmGas Instructions JumpTable Interpreter VmInv.
From S2P Require Import GasProofs ExecProofs RunProofs VmProps InstrProps OvmProps Transition.

(** ** Intrinsic gas *)
Definition nonzero (data : list Z) : Z := zlen (filter (fun b => b <> 0) data).
Definition intrinsic (data : list Z) : Z := 21000 + 68 * nonzero data + 4 * (zlen data - nonzero data).

Lemma nonzero_bounds data : 0 <= nonzero data <= zlen data.
Proof.
  unfold nonzero, zlen. pose proof (length_filter (fun b => b <> 0) data). lia.
Qed.

Lemma nonzero_cons b data : nonzero (b :: data) = (if b =? 0 then 0 else 1) + nonzero data.
Proof.
  unfold nonzero. destruct (Z.eqb_spec b 0) as [->|Hb].
  - rewrite filter_cons_False; [lia|]. tauto.
  - rewrite filter_cons_True by done. unfold zlen. cbn [length]. lia.
Qed.

Lemma countNonZero_exact data n : 0 <= n -> n + zlen data < two64 ->
  countNonZero data n = n + nonzero data.
Proof.
  revert n. induction data as [|b data IH]; intros n Hn Hl; [cbn; unfold nonzero, zlen; cbn; lia|].
  assert (Hz : zlen (b :: data) = 1 + zlen data) by (unfold zlen; cbn [length]; lia).
  rewrite Hz in Hl. pose proof (nonzero_bounds data). cbn [countNonZero]. rewrite nonzero_cons.
  destruct (b =? 0); cbn [negb]; [rewrite IH by lia; lia|].
  assert (H1 : n +64 1 = n + 1) by (apply wrap64_small; unfold is_u64; lia).
  rewrite H1, IH by lia. lia.
Qed.

Lemma wrap64_id z : 0 <= z < two64 -> wrap64 z = z.
Proof. intros. by apply wrap64_small. Qed.

(** The guard of the source against an overflow of [a + n * k]. *)
Lemma overflow_guard a n k : 0 <= a < two64 -> 0 < k ->
  ((two64 - 1 - a) / k <? n) = negb (a + n * k <? two64).
Proof.
  intros Ha Hk. pose proof (Z.div_mod (two64 - 1 - a) k ltac:(lia)).
  pose proof (Z.mod_pos_bound (two64 - 1 - a) k Hk).
  destruct (Z.ltb_spec ((two64 - 1 - a) / k) n), (Z.ltb_spec (a + n * k) two64); cbn; nia.
Qed.

Lemma IntrinsicGas_exact data : zlen data < two64 ->
  IntrinsicGas data = if intrinsic data <? two64 then inr (intrinsic data) else inl errTxGasOverflow.
Proof.
  intros Hl. pose proof (nonzero_bounds data) as Hn. unfold IntrinsicGas, intrinsic. params.
  rewrite countNonZero_exact, Z.add_0_l by lia.
  destruct (Z.ltb_spec 0 (zlen data)) as [Hp|Hp]; [|zcase; f_equal; lia].
  set (nz := nonzero data) in *. rewrite (wrap64_id (two64 - 1 - 21000)), overflow_guard by lia.
  destruct (Z.ltb_spec (21000 + nz * 68) two64) as [Hf|Hf]; cbn [negb];
    [|destruct (Z.ltb_spec (21000 + 68 * nz + 4 * (zlen data - nz)) two64); [lia|done]].
  rewrite (wrap64_id (nz * 68)), (wrap64_id (21000 + nz * 68)), (wrap64_id (zlen data)),
    (wrap64_id (zlen data - nz)), (wrap64_id (two64 - 1 - (21000 + nz * 68))), overflow_guard by lia.
  replace (21000 + nz * 68 + (zlen data - nz) * 4) with (21000 + 68 * nz + 4 * (zlen data - nz)) by lia.
  destruct (Z.ltb_spec (21000 + 68 * nz + 4 * (zlen data - nz)) two64); cbn [negb]; [|done].
  rewrite (wrap64_id ((zlen data - nz) * 4)), wrap64_id by lia. f_equal. lia.
Qed.

Lemma IntrinsicGas_run data : zlen data < 2 ^ 57 -> IntrinsicGas data = inr (intrinsic data).
Proof.
  intros Hl. change (2 ^ 57) with 144115188075855872 in Hl. rewrite IntrinsicGas_exact by lia.
  pose proof (nonzero_bounds data). unfold intrinsic.
  destruct (Z.ltb_spec (21000 + 68 * nonzero data + 4 * (zlen data - nonzero data)) two64); [done|lia].
Qed.

(** The intrinsic gas of a message is 21000 plus 68 per non-zero and 4 per
    zero byte of its data, and an error exactly when this does not fit 64 bits. *)
Theorem intrinsic_gas_exact (data : list Z) (Hl : zlen data < two64) :
  IntrinsicGas data = if intrinsic data <? two64 then inr (intrinsic data) else inl errTxGasOverflow.
Proof. exact (IntrinsicGas_exact data Hl). Qed.

Lemma intrinsic_gas_exact_witness : IntrinsicGas [0; 7; 0; 255] = inr 21144.
Proof. rewrite (intrinsic_gas_exact [0; 7; 0; 255]); [vm_compute; reflexivity | vm_compute; reflexivity]. Defined.

(** ** Buying gas *)
Definition st_db (st : StateTransition) : OperationDB := Operationdb (st_ovm st).
Definition with_db (d : OperationDB) (st : StateTransition) : StateTransition :=
  set_st_ovm (set_db d (st_ovm st)) st.

(** The balance a sender must own to buy the gas of its message. *)
Definition required (m : Message) (price value : Z) : Z :=
  match m_gasFeeCap m with
  | None => m_gasLimit m * price
  | Some cap => m_gasLimit m * cap + value
  end.

(** Databases that satisfy both the invariant of the interpreter and that of the
    refinement. *)
Definition sound (d : OperationDB) : Prop := wf_db d /\ db_ok d.

Section buy.
Context `{C : Crypto}.

Lemma bind_run {S A B} (p : M S A) (k : A -> M S B) s a s' : p s = Ret (a, s') -> bind p k s = k a s'.
Proof. unfold bind. by intros ->. Qed.

Lemma dsafe_run {A} (p : M OperationDB A) (R : A -> Prop) s a s' :
  dsafe p R -> wf_db s -> p s = Ret (a, s') -> wf_db s'.
Proof. intros Hp Hs Hr. specialize (Hp s Hs). unfold wp in Hp. rewrite Hr in Hp. apply Hp. Qed.

Lemma stateM_reads {A} (p : M OperationDB A) v R st : reads p v -> dsafe p R -> sound (st_db st) ->
  exists d, stateM p st = Ret (v (st_db st), with_db d st) /\ loaded (st_db st) d /\ sound d.
Proof.
  intros Hp Hd [Hw Hok]. destruct (Hp _ Hok) as (d & Hr & Hl). exists d.
  unfold stateM, ovmM, odbM. fold (st_db st). rewrite Hr.
  split; [done|]. split; [done|]. split; [by eapply dsafe_run|by eapply loaded_ok].
Qed.

Lemma cur_eq s t a : db_eq s t -> acct_eq (cur s a) (cur t a).
Proof.
  intros H. unfold cur. rewrite (eq_odb _ _ H). by destruct (eq_acct _ _ H a).
Qed.

Lemma GetBalance_reads a : reads (GetBalance a) (fun s => get_acct s a a_balance 0).
Proof. by apply reads_field. Qed.

Lemma CanTransfer_reads a v : reads (CanTransfer a v) (fun s => v <=? get_acct s a a_balance 0).
Proof.
  intros s Hs. destruct (GetBalance_reads a s Hs) as (s' & Hr & Hl). exists s'.
  unfold CanTransfer, bind. by rewrite Hr.
Qed.

Lemma stateM_changes (p : M OperationDB unit) R st a x : dsafe p R -> sound (st_db st) ->
  (exists s', p (st_db st) = Ret (tt, s') /\ changes (st_db st) s' a x) ->
  exists d, stateM p st = Ret (tt, with_db d st) /\ changes (st_db st) d a x /\ sound d.
Proof.
  intros Hd [Hw Hok] (d & Hr & Hc). exists d. unfold stateM, ovmM, odbM. fold (st_db st). rewrite Hr.
  split; [done|]. split; [done|]. split; [by eapply dsafe_run|by eapply (changes_ok _ _ _ _ Hc)].
Qed.

(** The state after a successful purchase, with database [d]. *)
Definition bought (d : OperationDB) (st : StateTransition) : StateTransition :=
  let gas := m_gasLimit (msg st) in
  with_db d (set_initialGas gas (set_gas (st_gas st + gas) (set_gp (gp st - gas) st))).

Lemma buyGas_run st price value : sound (st_db st) ->
  st_gasPrice st = Some price -> st_value st = Some value -> st_gasFeeCap st = m_gasFeeCap (msg st) ->
  is_u64 (st_gas st + m_gasLimit (msg st)) ->
  let have := get_acct (st_db st) (m_from (msg st)) a_balance 0 in
  let want := required (msg st) price value in
  let gas := m_gasLimit (msg st) in
  if have <? want then exists d, buyGas st = Ret (Some (ErrInsufficientFunds have want), with_db d st) /\
    db_eq d (st_db st) /\ sound d
  else if gp st <? gas then exists d, buyGas st = Ret (Some errGasLimitReached, with_db d st) /\
    db_eq d (st_db st) /\ sound d
  else exists d, buyGas st = Ret (None, bought d st) /\ sound d /\
    effect (st_db st) d (m_from (msg st))
      (with_balance (a_balance (cur (st_db st) (m_from (msg st))) - gas * price)
                    (cur (st_db st) (m_from (msg st)))).
Proof.
  intros Hs Hp Hv Hc Hu have want gas. change (is_u64 (st_gas st + gas)) in Hu.
  destruct (stateM_reads _ _ _ st (GetBalance_reads (m_from (msg st)))
              (dsafe_GetBalance _) Hs) as (d & Hr & Hl & Hsd).
  assert (Hb : exists k, buyGas st = (if have <? want then ret (Some (ErrInsufficientFunds have want))
                                      else k) (with_db d st) /\
    k = (let '(err, g) := SubGas gas (gp st) in
         modify (set_gp g) ;;;
         match err with
         | Some e => ret (Some e)
         | None =>
             modify (fun s => set_gas (st_gas s +64 m_gasLimit (msg s)) s) ;;;
             modify (fun s => set_initialGas (m_gasLimit (msg s)) s) ;;;
             stateM (SubBalance (m_from (msg st)) (gas * price)) ;;; ret None
         end)).
  { eexists. split; [|reflexivity]. unfold buyGas. rewrite (bind_run get _ st st st) by done.
    rewrite Hp. rewrite (bind_run (deref (Some price)) _ st price st) by done.
    rewrite (bind_run _ _ st want st), (bind_run _ _ _ _ _ Hr); [done|].
    rewrite Hc, Hv. subst want. unfold required. by destruct (m_gasFeeCap (msg st)). }
  destruct Hb as (k & -> & ->). pose proof (proj1 Hl) as Heq. destruct (have <? want); [by exists d|].
  unfold SubGas. fold gas. destruct (gp st <? gas); [by exists d|].
  set (st1 := set_initialGas gas (set_gas (st_gas st + gas) (set_gp (gp st - gas) (with_db d st)))).
  assert (Hst1 : st_db st1 = d) by done.
  destruct (stateM_changes (SubBalance (m_from (msg st)) (gas * price)) _ st1 _ _
    (dsafe_SubBalance _ _) Hsd (SubBalance_changes _ _ _ (proj2 Hsd))) as (d' & Hr' & (_ & _ & He) & Hs').
  exists d'. split; [|split; [done|]].
  - rewrite (bind_run (modify _) _ _ tt (set_gp (gp st - gas) (with_db d st))) by done.
    rewrite (bind_run (modify _) _ _ tt (set_gas (st_gas st + gas) (set_gp (gp st - gas) (with_db d st))));
      [|unfold modify; cbn -[wrap64 Z.add]; fold gas; by rewrite (wrap64_small _ Hu)].
    rewrite (bind_run (modify _) _ _ tt st1) by done. by rewrite (bind_run _ _ _ _ _ Hr').
  - intros b. rewrite (He b), Hst1. destruct (decide _); [|by apply eq_acct].
    pose proof (cur_eq _ _ (m_from (msg st)) Heq) as Hcur. rewrite (eq_balance _ _ Hcur).
    constructor. by apply with_balance_eq.
Qed.
End buy.

(** ** Executing a message *)
Section execute.
Context {U : Uint256} {L : Uint256Laws U} {C : Crypto} {CL : CryptoLaws C}.
Context {B : ByteUtils} {BL : ByteUtilsLaws B}.
Context (r : Rules) (jt : JumpTable) (fuel : nat).
Context (Hsel : select_table r = Ret jt) (Hr : rules_ok r).

Lemma wp_ovmM {X A} (p : M OVM X) (k : X -> M StateTransition A) (R : X -> OVM -> Prop)
  (Q : A -> StateTransition -> Prop) st :
  wp ok_panic p (st_ovm st) R ->
  (forall a o, R a o -> wp ok_panic (k a) (set_st_ovm o st) Q) ->
  wp ok_panic (bind (ovmM p) k) st Q.
Proof.
  unfold wp, bind, ovmM. intros Hp Hk. destruct (p (st_ovm st)) as [[a o]|e|]; [|done|done].
  exact (Hk a o Hp).
Qed.

Lemma wp_stateM {X A} (p : M OperationDB X) (k : X -> M StateTransition A) (R : X -> Prop)
  (Q : A -> StateTransition -> Prop) st :
  dsafe p R -> wf_ovm (st_ovm st) ->
  (forall a d, wf_ovm (set_db d (st_ovm st)) -> R a -> wp ok_panic (k a) (with_db d st) Q) ->
  wp ok_panic (bind (stateM p) k) st Q.
Proof.
  intros Hp Hst Hk. specialize (Hp _ (proj1 Hst)). unfold wp, bind, stateM, ovmM, odbM in *.
  destruct (p _) as [[a d]|e|]; [|done|done]. destruct Hp as (Hd & _ & HR). apply Hk; [|done].
  by apply wf_ovm_set_db.
Qed.

(** What executing a message may do to the transition. *)
Definition executed (st st' : StateTransition) : Prop :=
  0 <= st_gas st' <= st_gas st /\ gp st' = gp st /\ initialGas st' = initialGas st /\
  env (st_ovm st') = env (st_ovm st) /\ wf_ovm (st_ovm st').

Lemma execute_ok st value : wf_ovm (st_ovm st) -> chainRules (st_ovm st) = r -> is_u64 (st_gas st) ->
  bytes_ok (st_data st) -> st_gas st < Z.of_nat fuel ->
  wp ok_panic (execute_message jt fuel value) st (fun x st' => bytes_ok x.1 /\ executed st st').
Proof.
  intros Hw Hor Hg Hd Hf. pose proof (selected_loop r jt fuel Hsel Hr) as Hloop.
  unfold execute_message. apply wp_bind, wp_get. destruct (m_to (msg st)) as [dst|].
  - eapply wp_stateM; [apply dsafe_GetNonce|done|]. intros n d Hw1 Hn.
    eapply wp_stateM; [apply dsafe_SetNonce, wrap64_range|done|]. intros _ d2 Hw2 _.
    eapply wp_ovmM.
    { apply (Call_meets r (Z.of_nat fuel) (runLoop jt fuel) Hloop value); done. }
    intros [[[rv lo] err] jd] o' (Ho & He & Hb & Hl). apply wp_bind, wp_modify, wp_ret.
    split; [done|]. split; [done|]. split; [done|]. split; [done|]. by split.
  - eapply wp_ovmM.
    { apply (Create_meets r (Z.of_nat fuel) (runLoop jt fuel) Hloop value); done. }
    intros [[[[rv a] lo] err] jd] o' (Ho & He & Hb & Hl). apply wp_bind, wp_modify, wp_ret.
    split; [done|]. split; [done|]. split; [done|]. split; [done|]. by split.
Qed.
End execute.

(** ** The verdict on a message

    The sender's balance, and what remains of it after the gas has been bought
    (buying creates a missing account). *)
Definition funds `{Crypto} (o : OVM) (m : Message) : Z := get_acct (Operationdb o) (m_from m) a_balance 0.
Definition funds_left `{Crypto} (o : OVM) (m : Message) (price : Z) : Z :=
  a_balance (cur (Operationdb o) (m_from m)) - m_gasLimit m * price.

(** The checks in the order of the code. *)
Definition verdict (m : Message) (g price value have left : Z) : option txerr :=
  if have <? required m price value then Some (ErrInsufficientFunds have (required m price value))
  else if g <? m_gasLimit m then Some errGasLimitReached
  else if m_gasLimit m <? intrinsic (m_data m)
  then Some (errIntrinsicGas (m_gasLimit m) (intrinsic (m_data m)))
  else if (0 <? value) && (left <? value) then Some ErrInsufficientFundsForTransfer
  else None.

(** The errors that are only found after the gas has been bought. *)
Definition charged (e : txerr) : bool :=
  match e with errIntrinsicGas _ _ | ErrInsufficientFundsForTransfer => true | _ => false end.

Section apply.
Context {U : Uint256} {L : Uint256Laws U} {C : Crypto} {CL : CryptoLaws C}.
Context {B : ByteUtils} {BL : ByteUtilsLaws B}.
Context (r : Rules) (jt : JumpTable) (fuel : nat).
Context (Hsel : select_table r = Ret jt) (Hr : rules_ok r).
Context (o : OVM) (m : Message) (g price value : Z).
Context (Ho : wf_ovm o) (Hok : db_ok (Operationdb o)) (Hor : chainRules o = r).
Context (Hp : m_gasPrice m = Some price) (Hv : m_amount m = Some value) (Hg : is_u64 g).
Context (Hl : is_u64 (m_gasLimit m)) (Hd : bytes_ok (m_data m)) (Hlen : zlen (m_data m) < 2 ^ 57).
Context (Hfuel : m_gasLimit m < Z.of_nat fuel).

Lemma check_transfer st d : st_ovm st = set_db d o -> sound d -> msg st = m ->
  effect (Operationdb o) d (m_from m) (with_balance (funds_left o m price) (cur (Operationdb o) (m_from m))) ->
  exists d', (if 0 <? value then stateM (CanTransfer (m_from m) value) else ret true) st =
    Ret (negb ((0 <? value) && ((funds_left o m price) <? value)), with_db d' st) /\ sound d'.
Proof.
  intros Hst Hs Hm He. assert (Hdb : st_db st = d) by (unfold st_db; by rewrite Hst).
  assert (Hleft : get_acct d (m_from m) a_balance 0 = (funds_left o m price)).
  { specialize (He (m_from m)). rewrite decide_True in He by done. unfold get_acct.
    inversion He as [x y Hxy|]. by rewrite (eq_balance _ _ Hxy). }
  destruct (0 <? value); cbn [andb negb].
  - rewrite <- Hdb in Hs, Hleft.
    destruct (stateM_reads _ _ _ st (CanTransfer_reads (m_from m) value)
                (dsafe_CanTransfer _ _) Hs) as (d' & -> & _ & Hs').
    exists d'. rewrite Hleft. split; [|done]. do 2 f_equal. lia.
  - exists d. split; [|done]. unfold ret, with_db. rewrite Hst. destruct st; cbn in *. by subst.
Qed.

End apply.

(** C22: buying gas.  A sender that does not own the required balance, or a pool
    without room, is refused and nothing changes; otherwise the pool loses the
    gas limit, which the transition gains, the sender pays the gas limit times the
    gas price, and no other account changes. *)
Theorem buy_gas_exact `{C : Crypto} (o : OVM) (m : Message) (g price value : Z)
    (Hw : wf_ovm o) (Hok : db_ok (Operationdb o)) (Hp : m_gasPrice m = Some price)
    (Hv : m_amount m = Some value) (Hl : is_u64 (m_gasLimit m)) :
  let st := NewTransition o m g in
  let from := m_from m in
  let gas := m_gasLimit m in
  if funds o m <? required m price value
  then exists d, buyGas st = Ret (Some (ErrInsufficientFunds (funds o m) (required m price value)),
                                  with_db d st) /\ db_eq d (Operationdb o)
  else if g <? gas
  then exists d, buyGas st = Ret (Some errGasLimitReached, with_db d st) /\ db_eq d (Operationdb o)
  else exists d, buyGas st = Ret (None, with_db d (set_initialGas gas (set_gas gas (set_gp (g - gas) st)))) /\
    forall b, oacct_eq (acct d b)
      (if decide (from = b)
       then Some (with_balance (a_balance (cur (Operationdb o) from) - gas * price)
                               (cur (Operationdb o) from))
       else acct (Operationdb o) b).
Proof.
  intros st from gas. assert (Hs : sound (st_db st)) by (split; [apply Hw|done]).
  pose proof (buyGas_run st price value Hs Hp Hv eq_refl Hl) as Hb. cbn zeta in Hb.
  change (get_acct (st_db st) (m_from (msg st)) a_balance 0) with (funds o m) in Hb.
  change (msg st) with m in Hb. change (gp st) with g in Hb. fold gas in Hb.
  destruct (funds o m <? required m price value); [destruct Hb as (d & ? & ? & _); by exists d|].
  destruct (g <? gas); [destruct Hb as (d & ? & ? & _); by exists d|]. destruct Hb as (d & Hb & _ & He). exists d. split; [|exact He].
  rewrite Hb. unfold bought. do 3 f_equal.
Qed.

(** Account 5 (balance 1000) sends 100 to account 6. *)
Definition demo_msg (gas price : Z) : Message :=
  mkMessage (Some 6) 5 3 (Some 100) gas (Some price) None None [] false.

Lemma buy_gas_exact_witness :
  exists d, buyGas (NewTransition demo_ovm (demo_msg 300 2) 1000) =
    Ret (None, with_db d (set_initialGas 300 (set_gas 300 (set_gp 700
                 (NewTransition demo_ovm (demo_msg 300 2) 1000))))) /\
    get_acct d 5 a_balance 0 = 400.
Proof.
  destruct (buy_gas_exact demo_ovm (demo_msg 300 2) 1000 2 100 demo_wf_ovm demo_ok eq_refl eq_refl)
    as (d & Hb & He); [cbn; unfold is_u64; lia|].
  exists d. split; [exact Hb|]. specialize (He 5). unfold get_acct.
  cbn [m_from demo_msg] in He. rewrite decide_True in He by done.
  inversion He as [x y Hxy|]. rewrite (eq_balance _ _ Hxy). vm_compute. reflexivity.
Defined.

