(* ===== verification/Consensus.v ===== *)
(** * Header rules

    [consensus/octell/octopus_octell_consensus.go] (difficulty, header
    verification), [consensus/misc] (gas limit, base fee, DAO range) and
    [CalcGasLimit] of [blockchain/octopus_validator.go].  The [*big.Int] fields
    [Number] and [Difficulty] of a header are always set (a header decoded from
    RLP has them); [BaseFee] may be absent.  The proof-of-work seal, the hash of a
    header and the chain's header store are arguments of the definitions that use
    them. *)
From S2P Require Import Prelude Uint256 Params Rlp.

Record Header := mkHeader {
  ParentHash : Z; UncleHash : Z; h_Coinbase : Z; Root : Z; TxHash : Z; ReceiptHash : Z;
  h_Difficulty : Z; h_Number : Z; h_GasLimit : Z; h_GasUsed : Z; h_Time : Z;
  Extra : list Z; MixDigest : Z; h_Nonce : Z; h_BaseFee : option Z }.

Inductive herr : Set :=
| ErrFutureBlock | ErrInvalidNumber | ErrUnknownAncestor
| errOlderBlockTime
| errDifficulty (have want : Z)
| errMaxGasLimit (have max : Z)
| errGasUsed (have limit : Z)
| errBaseFeeBeforeFork (have : Z)
| errGasLimitStep (have want bound : Z)
| errGasLimitLow
| errMissingBaseFee
| errBaseFee (have want : Z)
| errSeal.

(** ** Gas limit *)

(** The subtraction and the negation are on [int64]. *)
Definition VerifyGaslimit (parentGasLimit headerGasLimit : Z) : option herr :=
  let diff := int64_of (int64_of parentGasLimit - int64_of headerGasLimit) in
  let diff := if diff <? 0 then int64_of (- diff) else diff in
  let limit := parentGasLimit / GasLimitBoundDivisor in
  if limit <=? wrap64 diff
  then Some (errGasLimitStep headerGasLimit parentGasLimit (limit -64 1))
  else if headerGasLimit <? MinGasLimit then Some errGasLimitLow
  else None.

Definition CalcGasLimit (parentGasLimit desiredLimit : Z) : Z :=
  let delta := parentGasLimit / GasLimitBoundDivisor -64 1 in
  let limit := parentGasLimit in
  let desiredLimit := if desiredLimit <? MinGasLimit then MinGasLimit else desiredLimit in
  if limit <? desiredLimit then
    let limit := parentGasLimit +64 delta in
    if desiredLimit <? limit then desiredLimit else limit
  else if desiredLimit <? limit then
    let limit := parentGasLimit -64 delta in
    if limit <? desiredLimit then desiredLimit else limit
  else limit.

(** ** Base fee *)
Definition BigMax (x y : Z) : Z := if x <? y then y else x.

(** [big.Int.Div], which panics on a zero divisor; divisors are not negative here. *)
Definition big_Div (x y : Z) : outcome Z := if y =? 0 then Panic PDivZero else Ret (x / y).
Definition big_deref (x : option Z) : outcome Z :=
  match x with Some v => Ret v | None => Panic PNil end.

Definition CalcBaseFee (config : ChainConfig) (parent : Header) : outcome Z :=
  if negb (IsLondon_cfg config (Some (h_Number parent))) then Ret InitialBaseFee
  else
    let parentGasTarget := h_GasLimit parent / ElasticityMultiplier in
    if h_GasUsed parent =? parentGasTarget then big_deref (h_BaseFee parent)
    else if parentGasTarget <? h_GasUsed parent then
      fee <-o big_deref (h_BaseFee parent) ;;
      num <-o big_Div ((h_GasUsed parent - parentGasTarget) * fee) parentGasTarget ;;
      num <-o big_Div num BaseFeeChangeDenominator ;;
      let baseFeeDelta := BigMax num 1 in
      Ret (fee + baseFeeDelta)
    else
      fee <-o big_deref (h_BaseFee parent) ;;
      num <-o big_Div ((parentGasTarget - h_GasUsed parent) * fee) parentGasTarget ;;
      num <-o big_Div num BaseFeeChangeDenominator ;;
      Ret (BigMax (fee - num) 0).

Definition VerifyEip1559Header (config : ChainConfig) (parent header : Header)
  : outcome (option herr) :=
  let parentGasLimit :=
    if negb (IsLondon_cfg config (Some (h_Number parent)))
    then h_GasLimit parent *64 ElasticityMultiplier else h_GasLimit parent in
  match VerifyGaslimit parentGasLimit (h_GasLimit header) with
  | Some e => Ret (Some e)
  | None =>
      match h_BaseFee header with
      | None => Ret (Some errMissingBaseFee)
      | Some have =>
          expectedBaseFee <-o CalcBaseFee config parent ;;
          if negb (have =? expectedBaseFee) then Ret (Some (errBaseFee have expectedBaseFee))
          else Ret None
      end
  end.

(** The checks of the extra data are commented out: the result is always [nil]. *)
Definition DAOForkExtraRange : Z := 10.
Definition VerifyDAOHeaderExtraData (config : ChainConfig) (header : Header) : option herr :=
  match DAOForkBlock config with
  | None => None
  | Some fork =>
      let limit := fork + DAOForkExtraRange in
      if (h_Number header <? fork) || (limit <=? h_Number header) then None else None
  end.

(** ** Difficulty *)
Definition DifficultyBoundDivisor : Z := 2048.
Definition MinimumDifficulty : Z := 131072.
Definition DurationLimit : Z := 13.
Definition ExpDiffPeriod : Z := 100000.

Section difficulty.
Context `{C : Crypto}.

(** [RlpHash] of an empty list of headers. *)
Definition EmptyUncleHash : Z :=
  match EncodeToBytes (RList []) with Ret e => Keccak256Hash e | _ => 0 end.

(** The exponential factor added to a difficulty [x]. *)
Definition addBomb (x periodCount : Z) : Z :=
  if 1 <? periodCount then x + 2 ^ (periodCount - 2) else x.

Definition makeDifficultyCalculator (bombDelay : Z) (time : Z) (parent : Header) : Z :=
  let bombDelayFromParent := bombDelay - 1 in
  let x := (time - h_Time parent) / 9 in
  let x := if UncleHash parent =? EmptyUncleHash then 1 - x else 2 - x in
  let x := if x <? -99 then -99 else x in
  let y := h_Difficulty parent / DifficultyBoundDivisor in
  let x := h_Difficulty parent + y * x in
  let x := if x <? MinimumDifficulty then MinimumDifficulty else x in
  let fakeBlockNumber :=
    if bombDelayFromParent <=? h_Number parent then h_Number parent - bombDelayFromParent else 0 in
  addBomb x (fakeBlockNumber / ExpDiffPeriod).

Definition calcDifficultyEip4345 : Z -> Header -> Z := makeDifficultyCalculator 10700000.
Definition calcDifficultyEip3554 : Z -> Header -> Z := makeDifficultyCalculator 9700000.
Definition calcDifficultyEip2384 : Z -> Header -> Z := makeDifficultyCalculator 9000000.
Definition calcDifficultyConstantinople : Z -> Header -> Z := makeDifficultyCalculator 5000000.
Definition calcDifficultyByzantium : Z -> Header -> Z := makeDifficultyCalculator 3000000.

Definition calcDifficultyHomestead (time : Z) (parent : Header) : Z :=
  let x := 1 - (time - h_Time parent) / 10 in
  let x := if x <? -99 then -99 else x in
  let y := h_Difficulty parent / DifficultyBoundDivisor in
  let x := h_Difficulty parent + y * x in
  let x := if x <? MinimumDifficulty then MinimumDifficulty else x in
  addBomb x ((h_Number parent + 1) / ExpDiffPeriod).

Definition calcDifficultyFrontier (time : Z) (parent : Header) : Z :=
  let adjust := h_Difficulty parent / DifficultyBoundDivisor in
  let diff := if time - h_Time parent <? DurationLimit then h_Difficulty parent + adjust
              else h_Difficulty parent - adjust in
  let diff := if diff <? MinimumDifficulty then MinimumDifficulty else diff in
  let periodCount := (h_Number parent + 1) / ExpDiffPeriod in
  if 1 <? periodCount then BigMax (diff + 2 ^ (periodCount - 2)) MinimumDifficulty else diff.

Definition CalcDifficulty (config : ChainConfig) (time : Z) (parent : Header) : Z :=
  let next := Some (h_Number parent + 1) in
  if isForked (ArrowGlacierBlock config) next then calcDifficultyEip4345 time parent
  else if isForked (LondonBlock config) next then calcDifficultyEip3554 time parent
  else if isForked (MuirGlacierBlock config) next then calcDifficultyEip2384 time parent
  else if isForked (ConstantinopleBlock config) next then calcDifficultyConstantinople time parent
  else if isForked (ByzantiumBlock config) next then calcDifficultyByzantium time parent
  else if isForked (HomesteadBlock config) next then calcDifficultyHomestead time parent
  else calcDifficultyFrontier time parent.

(** ** Header verification *)
Definition allowedFutureBlockTimeSeconds : Z := 15.

Context (config : ChainConfig) (verifySeal : Header -> option herr).

Definition verifyHeader (header parent : Header) (uncle seal : bool) (unixNow : Z)
  : outcome (option herr) :=
  if negb uncle && (wrap64 (unixNow + allowedFutureBlockTimeSeconds) <? h_Time header)
  then Ret (Some ErrFutureBlock)
  else if h_Time header <=? h_Time parent then Ret (Some errOlderBlockTime)
  else
    let expected := CalcDifficulty config (h_Time header) parent in
    if negb (expected =? h_Difficulty header)
    then Ret (Some (errDifficulty (h_Difficulty header) expected))
    else if MaxGasLimit <? h_GasLimit header
    then Ret (Some (errMaxGasLimit (h_GasLimit header) MaxGasLimit))
    else if h_GasLimit header <? h_GasUsed header
    then Ret (Some (errGasUsed (h_GasUsed header) (h_GasLimit header)))
    else
      err <-o (if negb (IsLondon_cfg config (Some (h_Number header))) then
                 match h_BaseFee header with
                 | Some f => Ret (Some (errBaseFeeBeforeFork f))
                 | None => Ret (VerifyGaslimit (h_GasLimit parent) (h_GasLimit header))
                 end
               else VerifyEip1559Header config parent header) ;;
      match err with
      | Some e => Ret (Some e)
      | None =>
          if negb (h_Number header - h_Number parent =? 1) then Ret (Some ErrInvalidNumber)
          else
            match (if seal then verifySeal header else None) with
            | Some e => Ret (Some e)
            | None => Ret (VerifyDAOHeaderExtraData config header)
            end
      end.

(** The chain's header store and the hash of a header. *)
Context (GetHeader : Z -> Z -> option Header) (header_hash : Header -> Z).

Definition VerifyHeader (fullFake : bool) (header : Header) (seal : bool) (unixNow : Z)
  : outcome (option herr) :=
  if fullFake then Ret None
  else
    let number := wrap64 (h_Number header) in
    match GetHeader (header_hash header) number with
    | Some _ => Ret None
    | None =>
        match GetHeader (ParentHash header) (number -64 1) with
        | None => Ret (Some ErrUnknownAncestor)
        | Some parent => verifyHeader header parent false seal unixNow
        end
    end.

Definition verifyHeaderWorker (headers : list Header) (seals : list bool) (index : nat)
  (unixNow : Z) : outcome (option herr) :=
  match headers !! index with
  | None => Panic PIndex
  | Some header =>
      parent <-o match index with
                 | O => Ret (GetHeader (ParentHash header) (wrap64 (h_Number header) -64 1))
                 | S i => match headers !! i with
                          | None => Panic PIndex
                          | Some prev =>
                              Ret (if header_hash prev =? ParentHash header then Some prev else None)
                          end
                 end ;;
      match parent with
      | None => Ret (Some ErrUnknownAncestor)
      | Some parent =>
          match seals !! index with
          | None => Panic PIndex
          | Some seal => verifyHeader header parent false seal unixNow
          end
      end
  end.

(** [Octell.Prepare] sets the difficulty of a header to be sealed. *)
Definition PrepareHeader (header : Header) : option herr * Header :=
  match GetHeader (ParentHash header) (wrap64 (h_Number header) -64 1) with
  | None => (Some ErrUnknownAncestor, header)
  | Some parent =>
      (None, mkHeader (ParentHash header) (UncleHash header) (h_Coinbase header) (Root header)
               (TxHash header) (ReceiptHash header)
               (CalcDifficulty config (h_Time header) parent)
               (h_Number header) (h_GasLimit header) (h_GasUsed header) (h_Time header)
               (Extra header) (MixDigest header) (h_Nonce header) (h_BaseFee header))
  end.
End difficulty.
