(* ===== verification/ConsensusProps.v ===== *)
(** * Properties of the header rules

    The gas-limit window with its 64-bit behaviour, the base-fee and difficulty
    rules, and header verification: what an accepted chain of headers satisfies,
    and that a header built by the rules is accepted. *)
From S2P Require Import Prelude Uint256 Params Rlp Consensus.

(** ** Gas limit *)

(** Distance of two [uint64] values modulo 2^64. *)
Definition ring_dist (x y : Z) : Z := Z.min (Z.abs (x - y)) (two64 - Z.abs (x - y)).

(** The absolute value as the source computes it. *)
Lemma diff_dist p h : is_u64 p -> is_u64 h ->
  wrap64 (if int64_of (int64_of p - int64_of h) <? 0
          then int64_of (- int64_of (int64_of p - int64_of h))
          else int64_of (int64_of p - int64_of h)) = ring_dist p h.
Proof.
  unfold is_u64, ring_dist. intros Hp Hh.
  assert (Hc : wrap64 (int64_of p - int64_of h) = if h <=? p then p - h else p - h + two64).
  { assert (Hq : exists k, int64_of p - int64_of h = p - h + k * two64).
    { unfold int64_of. rewrite !wrap64_small by done. zcase; [exists 0|exists 1|exists (-1)|exists 0]; lia. }
    destruct Hq as [k ->]. unfold wrap64. rewrite Z.mod_add by lia.
    destruct (Z.leb_spec h p); [apply Z.mod_small; lia|].
    rewrite <- (Z.mod_add _ 1) by lia. rewrite Z.mod_small; lia. }
  set (w := if h <=? p then p - h else p - h + two64) in Hc.
  assert (Hw : 0 <= w < two64) by (subst w; destruct (Z.leb_spec h p); lia).
  assert (Hi : int64_of (int64_of p - int64_of h) = if w <? two63 then w else w - two64)
    by (unfold int64_of at 1; by rewrite Hc).
  rewrite Hi. assert (Hr : Z.min (Z.abs (p - h)) (two64 - Z.abs (p - h)) = Z.min w (two64 - w))
    by (subst w; destruct (Z.leb_spec h p); lia).
  rewrite Hr. destruct (Z.ltb_spec w two63) as [Hs|Hs].
  - destruct (Z.ltb_spec w 0); [lia|]. rewrite wrap64_small; unfold is_u64; lia.
  - destruct (Z.ltb_spec (w - two64) 0); [|lia]. unfold int64_of.
    rewrite (wrap64_small (- (w - two64))) by (unfold is_u64; lia).
    destruct (Z.ltb_spec (- (w - two64)) two63); unfold wrap64.
    + rewrite Z.mod_small; lia.
    + assert (w = two63) by lia. subst w. rewrite H1. vm_compute. reflexivity.
Qed.

Lemma VerifyGaslimit_exact p h : is_u64 p -> is_u64 h ->
  VerifyGaslimit p h = if p / 1024 <=? ring_dist p h then Some (errGasLimitStep h p (p / 1024 -64 1))
                       else if h <? 5000 then Some errGasLimitLow else None.
Proof. intros Hp Hh. unfold VerifyGaslimit. cbv zeta. by rewrite (diff_dist p h Hp Hh). Qed.

Lemma CalcGasLimit_accepted p desired : 5000 <= p < two63 -> is_u64 desired ->
  let l := CalcGasLimit p desired in VerifyGaslimit p l = None /\ 0 <= l <= p + p / 1024.
Proof.
  unfold is_u64. intros Hp Hd. cbn zeta.
  pose proof (Z.div_mod p 1024 ltac:(lia)) as Hdm. pose proof (Z.mod_pos_bound p 1024 ltac:(lia)).
  assert (Hl : exists l, CalcGasLimit p desired = l /\ Z.abs (p - l) <= p / 1024 - 1 /\ 5000 <= l).
  { eexists. split; [reflexivity|]. unfold CalcGasLimit. params. cbv zeta.
    set (d := if desired <? 5000 then 5000 else desired).
    assert (Hd5 : 5000 <= d) by (subst d; destruct (Z.ltb_spec desired 5000); lia). clearbody d.
    rewrite !(wrap64_small (p / 1024 - 1)) by (unfold is_u64; lia).
    rewrite (wrap64_small (p + _)), (wrap64_small (p - _)) by (unfold is_u64; lia).
    repeat match goal with |- context [?a <? ?b] => destruct (Z.ltb_spec a b) end; lia. }
  destruct Hl as (l & -> & Hl & H5). split; [|lia].
  rewrite VerifyGaslimit_exact by (unfold is_u64; lia). unfold ring_dist.
  destruct (Z.leb_spec (p / 1024) (Z.min (Z.abs (p - l)) (two64 - Z.abs (p - l)))); [lia|].
  destruct (Z.ltb_spec l 5000); [lia|done].
Qed.

(** ** Base fee *)
Definition target (parent : Header) : Z := h_GasLimit parent / 2.

Definition next_fee (fee target used : Z) : Z :=
  if used =? target then fee
  else if target <? used then fee + Z.max 1 ((used - target) * fee / target / 8)
  else Z.max 0 (fee - (target - used) * fee / target / 8).

Definition with_used (used : Z) (h : Header) : Header :=
  mkHeader (ParentHash h) (UncleHash h) (h_Coinbase h) (Root h) (TxHash h) (ReceiptHash h)
    (h_Difficulty h) (h_Number h) (h_GasLimit h) used (h_Time h) (Extra h) (MixDigest h)
    (h_Nonce h) (h_BaseFee h).

Lemma CalcBaseFee_run config parent fee : IsLondon_cfg config (Some (h_Number parent)) = true ->
  h_BaseFee parent = Some fee -> 2 <= h_GasLimit parent ->
  CalcBaseFee config parent = Ret (next_fee fee (target parent) (h_GasUsed parent)).
Proof.
  intros Hl Hf Hg. unfold CalcBaseFee, next_fee, target. params. rewrite Hl, Hf. cbn [negb big_deref].
  assert (Ht : 0 < h_GasLimit parent / 2) by (apply Z.div_str_pos; lia).
  destruct (h_GasUsed parent =? _); [done|]. unfold obind, big_Div, BigMax.
  destruct (Z.eqb_spec (h_GasLimit parent / 2) 0); [lia|]. cbn [Z.eqb].
  destruct (_ <? h_GasUsed parent); f_equal; zcase.
Qed.

Lemma div8_mono a b : a <= b -> a / 8 <= b / 8.
Proof. intros. apply Z.div_le_mono; lia. Qed.

(** The adjustment is monotone in the distance from the target, and at most an
    eighth of the fee up to twice the target. *)
Lemma delta_mono fee t d d' : 0 <= fee -> 0 < t -> d <= d' -> d * fee / t / 8 <= d' * fee / t / 8.
Proof. intros. apply div8_mono, Z.div_le_mono; [lia|]. nia. Qed.

Lemma delta_bound fee t d : 0 <= fee -> 0 < t -> 0 <= d <= t -> 0 <= d * fee / t / 8 <= fee / 8.
Proof.
  intros Hf Ht Hd. split.
  - apply Z.div_pos; [apply Z.div_pos; nia|lia].
  - rewrite <- (Z.div_mul fee t) at 2 by lia. rewrite (Z.mul_comm fee t). apply delta_mono; lia.
Qed.

Lemma next_fee_mono fee t u u' : 0 <= fee -> 0 < t -> 0 <= u -> u <= u' -> next_fee fee t u <= next_fee fee t u'.
Proof.
  intros Hf Ht Hu Huu. unfold next_fee.
  pose proof (delta_mono fee t (u - t) (u' - t) Hf Ht ltac:(lia)).
  pose proof (delta_mono fee t (t - u') (t - u) Hf Ht ltac:(lia)).
  assert (u < t -> 0 <= (t - u) * fee / t / 8) by (intros; apply (delta_bound fee t (t - u)); lia).
  assert (u' < t -> 0 <= (t - u') * fee / t / 8) by (intros; apply (delta_bound fee t (t - u')); lia).
  zcase.
Qed.


Definition demo_header : Header :=
  mkHeader 0 0 0 0 0 0 131072 4 20000 15000 100 [] 0 0 (Some 800).


(** ** Difficulty *)

(** The parent's difficulty changed by [c] steps of 1/2048, floored, plus the
    exponential term of period [k]. *)
Definition retarget (parent : Header) (c k : Z) : Z :=
  addBomb (Z.max 131072 (h_Difficulty parent + h_Difficulty parent / 2048 * c)) k.

(** A difficulty rule is given by the number of steps it takes for a block time
    and by a period that depends on the parent only. *)
Record steps (f : Z -> Z) (parent : Header) (c : Z -> Z) (k : Z) : Prop := {
  steps_eq t : f t = retarget parent (c t) k;
  steps_low t : -99 <= c t;
  steps_high t : h_Time parent <= t -> c t <= 2;
  steps_anti t t' : t <= t' -> c t' <= c t;
  steps_period : 0 <= h_Number parent -> k <= (h_Number parent + 1) / 100000 }.

Section difficulty.
Context `{C : Crypto}.

Lemma floor_max (x lo : Z) : (if x <? lo then lo else x) = Z.max lo x.
Proof. zcase. Qed.

(** The step count of the later rules: [base] minus the periods of [n] seconds. *)
Lemma steps_linear (f : Z -> Z) parent base n k : 1 <= base <= 2 -> 0 < n ->
  (forall t, f t = retarget parent (Z.max (-99) (base - (t - h_Time parent) / n)) k) ->
  (0 <= h_Number parent -> k <= (h_Number parent + 1) / 100000) ->
  steps f parent (fun t => Z.max (-99) (base - (t - h_Time parent) / n)) k.
Proof.
  intros Hb Hn Hf Hk. split; [done| | | |done].
  - intros t. lia.
  - intros t Ht. assert (0 <= (t - h_Time parent) / n) by (apply Z.div_pos; lia). lia.
  - intros t t' Ht. assert ((t - h_Time parent) / n <= (t' - h_Time parent) / n)
      by (apply Z.div_le_mono; lia). lia.
Qed.

Lemma steps_calculator delay parent : 1 <= delay ->
  exists c k, steps (fun t => makeDifficultyCalculator delay t parent) parent c k.
Proof.
  intros Hd. set (base := if UncleHash parent =? EmptyUncleHash then 1 else 2).
  set (fake := if delay - 1 <=? h_Number parent then h_Number parent - (delay - 1) else 0).
  exists (fun t => Z.max (-99) (base - (t - h_Time parent) / 9)), (fake / 100000).
  apply steps_linear; [subst base; destruct (_ =? _); lia|lia| |].
  - intros t. unfold makeDifficultyCalculator, retarget. fold fake.
    change ExpDiffPeriod with 100000. change MinimumDifficulty with 131072.
    change DifficultyBoundDivisor with 2048. cbv zeta. rewrite !floor_max. do 4 f_equal.
    subst base. destruct (UncleHash parent =? EmptyUncleHash); lia.
  - intros Hn. apply Z.div_le_mono; [lia|]. subst fake. zcase.
Qed.

Lemma steps_homestead parent :
  exists c k, steps (fun t => calcDifficultyHomestead t parent) parent c k.
Proof.
  exists (fun t => Z.max (-99) (1 - (t - h_Time parent) / 10)), ((h_Number parent + 1) / 100000).
  apply steps_linear; [lia|lia| |done]. intros t. unfold calcDifficultyHomestead, retarget.
  change ExpDiffPeriod with 100000. change MinimumDifficulty with 131072.
  change DifficultyBoundDivisor with 2048. cbv zeta. by rewrite !floor_max.
Qed.

Lemma steps_frontier parent : exists c k, steps (fun t => calcDifficultyFrontier t parent) parent c k.
Proof.
  exists (fun t => if t - h_Time parent <? 13 then 1 else -1), ((h_Number parent + 1) / 100000).
  split; [|intros; zcase|intros; zcase|intros; zcase|done]. intros t.
  unfold calcDifficultyFrontier, retarget, addBomb, BigMax.
  change ExpDiffPeriod with 100000. change MinimumDifficulty with 131072.
  change DifficultyBoundDivisor with 2048. change DurationLimit with 13. cbv zeta. rewrite !floor_max.
  set (k := (h_Number parent + 1) / 100000). pose proof (Z.pow_nonneg 2 (k - 2) ltac:(lia)).
  zcase.
Qed.

Lemma CalcDifficulty_steps config parent :
  exists c k, steps (fun t => CalcDifficulty config t parent) parent c k.
Proof.
  unfold CalcDifficulty. cbv zeta.
  do 5 (destruct (isForked _ _); [apply steps_calculator; lia|]).
  destruct (isForked _ _); [apply steps_homestead|apply steps_frontier].
Qed.

Lemma addBomb_grows x k : x <= addBomb x k.
Proof. unfold addBomb. pose proof (Z.pow_nonneg 2 (k - 2) ltac:(lia)). zcase. Qed.

Lemma addBomb_mono x y k : x <= y -> addBomb x k <= addBomb y k.
Proof. unfold addBomb. zcase. Qed.

Lemma retarget_mono parent c c' k : 0 <= h_Difficulty parent -> c <= c' ->
  retarget parent c k <= retarget parent c' k.
Proof.
  intros Hd Hc. apply addBomb_mono. assert (0 <= h_Difficulty parent / 2048) by (apply Z.div_pos; lia). nia.
Qed.

Lemma CalcDifficulty_min config time parent : 131072 <= CalcDifficulty config time parent.
Proof.
  destruct (CalcDifficulty_steps config parent) as (c & k & Hs). rewrite (steps_eq _ _ _ _ Hs).
  unfold retarget. pose proof (addBomb_grows (Z.max 131072 (h_Difficulty parent +
    h_Difficulty parent / 2048 * c time)) k). lia.
Qed.

(** C24: the difficulty rules of all forks.  A later block time never gives a
    higher difficulty; the difficulty is at least 131072; and up to the
    exponential term, which is not negative and absent before block 200000, it
    stays between the parent's less 99/2048 and the parent's plus 2/2048. *)
Theorem difficulty_rule (config : ChainConfig) (time time' : Z) (parent : Header)
    (Ht : h_Time parent <= time) (Ht' : time <= time') (Hn : 0 <= h_Number parent)
    (Hd : 131072 <= h_Difficulty parent) :
  CalcDifficulty config time' parent <= CalcDifficulty config time parent /\
  131072 <= CalcDifficulty config time' parent /\
  exists bomb, 0 <= bomb /\ (h_Number parent + 1 < 200000 -> bomb = 0) /\
    h_Difficulty parent - 99 * (h_Difficulty parent / 2048)
      <= CalcDifficulty config time parent - bomb
      <= h_Difficulty parent + 2 * (h_Difficulty parent / 2048).
Proof.
  split; [|split; [apply CalcDifficulty_min|]];
    destruct (CalcDifficulty_steps config parent) as (c & k & Hs); rewrite !(steps_eq _ _ _ _ Hs).
  - apply retarget_mono; [lia|]. by apply (steps_anti _ _ _ _ Hs).
  - set (y := h_Difficulty parent / 2048).
    assert (Hy : 0 <= y /\ 2048 * y <= h_Difficulty parent)
      by (split; [apply Z.div_pos; lia|apply Z.mul_div_le; lia]).
    pose proof (steps_low _ _ _ _ Hs time). pose proof (steps_high _ _ _ _ Hs time Ht).
    exists (if 1 <? k then 2 ^ (k - 2) else 0). split; [destruct (1 <? k); [apply Z.pow_nonneg|]; lia|].
    split.
    + intros Hs2. pose proof (steps_period _ _ _ _ Hs Hn).
      assert ((h_Number parent + 1) / 100000 < 2) by (apply Z.div_lt_upper_bound; lia).
      destruct (Z.ltb_spec 1 k); lia.
    + assert (y * -99 <= y * c time <= y * 2) by nia. unfold retarget, addBomb. fold y. zcase.
Qed.
End difficulty.

Lemma difficulty_rule_witness :
  131072 <= CalcDifficulty AllOctellProtocolChanges 130 demo_header.
Proof. apply (difficulty_rule AllOctellProtocolChanges 110 130 demo_header); cbn; lia. Defined.

(** ** Header verification *)
Definition u64_header (h : Header) : Prop := is_u64 (h_GasLimit h) /\ is_u64 (h_GasUsed h).

(** The parent's gas limit the step is measured from: doubled by the London
    transition. *)
Definition reference_limit (config : ChainConfig) (parent : Header) (number : Z) : Z :=
  if IsLondon_cfg config (Some number) && negb (IsLondon_cfg config (Some (h_Number parent)))
  then wrap64 (h_GasLimit parent * 2) else h_GasLimit parent.

(** What the rules require of a header, given its parent. *)
Record follows `{Crypto} (config : ChainConfig) (parent header : Header) : Prop := {
  f_time : h_Time parent < h_Time header;
  f_difficulty : h_Difficulty header = CalcDifficulty config (h_Time header) parent;
  f_used : h_GasUsed header <= h_GasLimit header <= 9223372036854775807;
  f_limit : VerifyGaslimit (reference_limit config parent (h_Number header)) (h_GasLimit header) = None;
  f_number : h_Number header = h_Number parent + 1;
  f_fee : if IsLondon_cfg config (Some (h_Number header))
          then exists fee, h_BaseFee header = Some fee /\ CalcBaseFee config parent = Ret fee
          else h_BaseFee header = None }.

Section verify.
Context `{C : Crypto} (config : ChainConfig) (verifySeal : Header -> option herr).

Lemma dao_none h : VerifyDAOHeaderExtraData config h = None.
Proof. unfold VerifyDAOHeaderExtraData. destruct (DAOForkBlock config); [|done]. by destruct (_ || _). Qed.

Lemma london_mono (n m : Z) : n <= m -> IsLondon_cfg config (Some n) = true -> IsLondon_cfg config (Some m) = true.
Proof. unfold IsLondon_cfg, isForked. destruct (LondonBlock config); [|done]. lia. Qed.

(** The fork-dependent part: gas limit step and base fee. *)
Definition fork_checks (parent header : Header) : outcome (option herr) :=
  if negb (IsLondon_cfg config (Some (h_Number header))) then
    match h_BaseFee header with
    | Some f => Ret (Some (errBaseFeeBeforeFork f))
    | None => Ret (VerifyGaslimit (h_GasLimit parent) (h_GasLimit header))
    end
  else VerifyEip1559Header config parent header.

Lemma fork_checks_exact parent header :
  fork_checks parent header = Ret None <->
  VerifyGaslimit (reference_limit config parent (h_Number header)) (h_GasLimit header) = None /\
  if IsLondon_cfg config (Some (h_Number header))
  then exists fee, h_BaseFee header = Some fee /\ CalcBaseFee config parent = Ret fee
  else h_BaseFee header = None.
Proof.
  unfold fork_checks, VerifyEip1559Header, reference_limit. change ElasticityMultiplier with 2.
  destruct (IsLondon_cfg config (Some (h_Number header))); cbn [negb andb].
  - destruct (VerifyGaslimit _ _); [by split; [|intros [? _]]|].
    destruct (h_BaseFee header) as [f|]; [|by split; [|intros (_ & f & ? & _)]].
    unfold obind. destruct (CalcBaseFee config parent) as [v|p|];
      [|by split; [|intros (_ & ? & _ & ?)]|by split; [|intros (_ & ? & _ & ?)]].
    destruct (Z.eqb_spec f v) as [->|Hne]; cbn [negb]; split; [by eauto|done|done|].
    intros (_ & fee & [= <-] & [= <-]). done.
  - destruct (h_BaseFee header); [by split; [|intros [_ ?]]|]. split; [by intros [= ->]|by intros [-> _]].
Qed.

Lemma verifyHeader_exact header parent uncle seal now :
  verifyHeader config verifySeal header parent uncle seal now = Ret None <->
  (uncle = true \/ h_Time header <= wrap64 (now + 15)) /\ follows config parent header /\
  (seal = true -> verifySeal header = None).
Proof.
  unfold verifyHeader. fold (fork_checks parent header). change MaxGasLimit with 9223372036854775807.
  change allowedFutureBlockTimeSeconds with 15. split.
  - destruct (negb uncle && _) eqn:Hu; [done|].
    destruct (Z.leb_spec (h_Time header) (h_Time parent)); [done|].
    destruct (Z.eqb_spec (CalcDifficulty config (h_Time header) parent) (h_Difficulty header)); [|done].
    cbn [negb]. destruct (Z.ltb_spec 9223372036854775807 (h_GasLimit header)); [done|].
    destruct (Z.ltb_spec (h_GasLimit header) (h_GasUsed header)); [done|]. unfold obind.
    destruct (fork_checks parent header) as [[er|]|pn|] eqn:Hf; [done| |done|done].
    apply fork_checks_exact in Hf as [Hl Hb].
    destruct (Z.eqb_spec (h_Number header - h_Number parent) 1); cbn [negb]; [|done].
    intros Hs. split; [destruct uncle; [by left|right]; cbn in Hu; lia|]. split; [by split; try lia|].
    intros ->. by destruct (verifySeal header).
  - intros (Hu & [H1 H2 H3 H4 H5 H6] & Hs).
    assert (negb uncle && (wrap64 (now + 15) <? h_Time header) = false) as ->
      by (destruct Hu as [->|]; [done|]; destruct uncle; cbn; lia).
    destruct (Z.leb_spec (h_Time header) (h_Time parent)); [lia|]. rewrite <- H2, Z.eqb_refl. cbn [negb].
    destruct (Z.ltb_spec 9223372036854775807 (h_GasLimit header)); [lia|].
    destruct (Z.ltb_spec (h_GasLimit header) (h_GasUsed header)); [lia|].
    unfold obind. rewrite (proj2 (fork_checks_exact parent header) (conj H4 H6)).
    destruct (Z.eqb_spec (h_Number header - h_Number parent) 1); [|lia]. cbn [negb]. rewrite dao_none.
    destruct seal; [by rewrite Hs|done].
Qed.
(** C14: header verification accepts a header exactly when its time is after the
    parent's and (for non-uncles) not more than 15 seconds ahead, its difficulty
    is the calculated one, its gas used is within a gas limit that respects the
    step rule, its number is the parent's plus one, its base fee is the calculated
    one from London on and absent before, and its seal, if asked for, is valid. *)
Theorem verify_header_exact (header parent : Header) (uncle seal : bool) (now : Z) :
  verifyHeader config verifySeal header parent uncle seal now = Ret None <->
  (uncle = true \/ h_Time header <= wrap64 (now + 15)) /\ follows config parent header /\
  (seal = true -> verifySeal header = None).
Proof. apply verifyHeader_exact. Qed.

(** ** Chains of accepted headers *)
Inductive accepted : Header -> list Header -> Prop :=
| accepted_nil p : accepted p []
| accepted_cons p h hs uncle seal now :
    verifyHeader config verifySeal h p uncle seal now = Ret None -> accepted h hs ->
    accepted p (h :: hs).

Definition fee_ok (h : Header) : Prop := forall fee, h_BaseFee h = Some fee -> 0 <= fee.

Lemma CalcBaseFee_nonneg p f : fee_ok p -> is_u64 (h_GasLimit p) -> CalcBaseFee config p = Ret f -> 0 <= f.
Proof.
  unfold fee_ok, is_u64, CalcBaseFee. params. intros Hp Hl.
  destruct (negb _); [intros [= <-]; lia|].
  assert (Ht : 0 <= h_GasLimit p / 2) by (apply Z.div_pos; lia).
  destruct (h_BaseFee p) as [fee|]; cbn [big_deref obind]; unfold obind, big_Div.
  2: by destruct (h_GasUsed p =? h_GasLimit p / 2), (h_GasLimit p / 2 <? h_GasUsed p).
  specialize (Hp fee eq_refl). destruct (_ =? _); [by intros [= <-]|].
  destruct (Z.ltb_spec (h_GasLimit p / 2) (h_GasUsed p)), (Z.eqb_spec (h_GasLimit p / 2) 0);
    try done; intros [= <-]; unfold BigMax; zcase.
Qed.

Lemma follows_bounds p h : is_u64 (h_GasLimit p) -> is_u64 (h_GasLimit h) -> fee_ok p ->
  follows config p h -> fee_ok h /\ 5000 <= h_GasLimit h /\ 131072 <= h_Difficulty h.
Proof.
  intros Hp Hh Hf [_ Hd _ Hl _ Hb]. split; [|split].
  - intros fee Hfee. destruct (IsLondon_cfg _ _); [|congruence]. destruct Hb as (f & Hf' & Hc).
    assert (f = fee) as -> by congruence. by apply (CalcBaseFee_nonneg p fee).
  - rewrite VerifyGaslimit_exact in Hl; [|unfold reference_limit; destruct (_ && _);
      [apply wrap64_range|done]|done].
    destruct (_ <=? _); [done|]. destruct (Z.ltb_spec (h_GasLimit h) 5000); [done|lia].
  - rewrite Hd. apply CalcDifficulty_min.
Qed.

(** C12: along any chain of accepted headers the numbers are consecutive, the time
    strictly increases from the first parent, the difficulty never falls below
    131072, the gas used stays within the gas limit, the gas limit stays between
    5000 and 2^63 - 1, and the base fee is never negative. *)
Theorem header_chain_invariant (g : Header) (hs : list Header) (Hacc : accepted g hs)
    (Hu : Forall u64_header (g :: hs)) (Hg : fee_ok g) (i : nat) (h : Header) (Hi : hs !! i = Some h) :
  h_Number h = h_Number g + 1 + Z.of_nat i /\ h_Time g < h_Time h /\
  131072 <= h_Difficulty h /\ h_GasUsed h <= h_GasLimit h /\
  5000 <= h_GasLimit h <= 9223372036854775807 /\ fee_ok h.
Proof.
  revert Hu Hg i Hi. induction Hacc as [|p x hs uncle seal now Hv Hacc IH]; intros Hu Hg i Hi; [done|].
  apply verifyHeader_exact in Hv as (_ & Hf & _).
  apply Forall_cons in Hu as [[Hup _] Hu]. pose proof Hu as [[Hux _] _]%Forall_cons.
  destruct (follows_bounds p x Hup Hux Hg Hf) as (Hx & H5 & Hd).
  destruct i as [|i].
  - injection Hi as <-. destruct Hf as [Ht _ Hused _ Hn _].
    split; [lia|]. split; [done|]. split; [done|]. split; [lia|]. split; [lia|done].
  - destruct (IH Hu Hx i Hi) as (Hn & Ht & H). pose proof (f_number _ _ _ Hf). pose proof (f_time _ _ _ Hf).
    split; [lia|]. split; [lia|]. exact H.
Qed.

(** ** Building a header by the rules *)
Definition child (parent : Header) (time used desired : Z) : outcome Header :=
  let number := h_Number parent + 1 in
  fee <-o (if IsLondon_cfg config (Some number)
           then f <-o CalcBaseFee config parent ;; Ret (Some f) else Ret None) ;;
  Ret (mkHeader 0 0 0 0 0 0 (CalcDifficulty config time parent) number
         (CalcGasLimit (reference_limit config parent number) desired) used time [] 0 0 fee).

(** C13: a header built by the rules is accepted: number, time and gas used as the
    producer chooses them, difficulty from [CalcDifficulty], gas limit from
    [CalcGasLimit] towards any desired value, base fee from [CalcBaseFee], for any
    parent with a gas limit between 5000 and 2^61 (and a base fee if it is a
    London block). *)
Theorem honest_header_accepted (parent : Header) (time used desired now : Z) (uncle : bool)
    (Hl : 5000 <= h_GasLimit parent < 2305843009213693952) (Hd : is_u64 desired)
    (Hfee : IsLondon_cfg config (Some (h_Number parent)) = true -> h_BaseFee parent <> None)
    (Ht : h_Time parent < time <= wrap64 (now + 15))
    (Hused : used <= CalcGasLimit (reference_limit config parent (h_Number parent + 1)) desired) :
  exists h, child parent time used desired = Ret h /\
            verifyHeader config verifySeal h parent uncle false now = Ret None.
Proof.
  assert (Hr : 5000 <= reference_limit config parent (h_Number parent + 1) < 4611686018427387904).
  { unfold reference_limit. destruct (_ && _); [rewrite wrap64_small; unfold is_u64|]; lia. }
  destruct (CalcGasLimit_accepted (reference_limit config parent (h_Number parent + 1)) desired
              ltac:(lia) Hd) as [Hok [Hlo Hhi]].
  assert (Hmax : reference_limit config parent (h_Number parent + 1) / 1024 <= 4611686018427387904)
    by (apply Z.div_le_upper_bound; lia).
  assert (Hc : exists f, CalcBaseFee config parent = Ret f).
  { destruct (IsLondon_cfg config (Some (h_Number parent))) eqn:E.
    - destruct (h_BaseFee parent) as [fee|] eqn:Ef; [|by specialize (Hfee eq_refl)].
      eexists. apply (CalcBaseFee_run config parent fee E Ef). lia.
    - unfold CalcBaseFee. rewrite E. by eexists. }
  destruct Hc as (f & Hf). unfold child. rewrite Hf. unfold obind.
  destruct (IsLondon_cfg config (Some (h_Number parent + 1))) eqn:E; eexists; (split; [reflexivity|]);
    apply verifyHeader_exact; (split; [right; cbn; lia|split; [|done]]); split; cbn; rewrite ?E; eauto; lia.
Qed.
End verify.

(** C25: [VerifyGaslimit] accepts exactly a header limit of at least 5000 whose
    distance from the parent's, modulo 2^64, is below 1/1024 of the parent's;
    below 2^63 this is the plain distance. *)
Theorem gas_limit_window (p h : Z) (Hp : is_u64 p) (Hh : is_u64 h) :
  (VerifyGaslimit p h = None <-> ring_dist p h < p / 1024 /\ 5000 <= h) /\
  (p < two63 -> h < two63 -> ring_dist p h = Z.abs (p - h)).
Proof.
  split; [|unfold is_u64, ring_dist in *; lia]. rewrite VerifyGaslimit_exact by done.
  destruct (Z.leb_spec (p / 1024) (ring_dist p h)); [split; [done|lia]|].
  destruct (Z.ltb_spec h 5000); split; try done; lia.
Qed.

Lemma gas_limit_window_witness : VerifyGaslimit 10240000 10249999 = None /\ ring_dist 10240000 10249999 = 9999.
Proof.
  destruct (gas_limit_window 10240000 10249999) as [[_ Ha] Hb]; [unfold is_u64; lia|unfold is_u64; lia|].
  split; [apply Ha; vm_compute; split; [reflexivity|congruence]|].
  rewrite Hb by lia. vm_compute. reflexivity.
Defined.

Definition demo_child : Header :=
  match child AllOctellProtocolChanges demo_header 110 5000 30000 with Ret h => h | _ => demo_header end.

Lemma honest_header_accepted_witness :
  exists h, child AllOctellProtocolChanges demo_header 110 5000 30000 = Ret h /\
    verifyHeader AllOctellProtocolChanges (fun _ => None) h demo_header false false 100 = Ret None.
Proof.
  apply (honest_header_accepted AllOctellProtocolChanges (fun _ => None) demo_header 110 5000 30000 100 false).
  - cbn. lia.
  - unfold is_u64. lia.
  - discriminate.
  - vm_compute. split; congruence.
  - vm_compute. congruence.
Defined.

Lemma header_chain_invariant_witness :
  h_Number demo_child = 5 /\ 131072 <= h_Difficulty demo_child /\ 5000 <= h_GasLimit demo_child.
Proof.
  destruct (header_chain_invariant AllOctellProtocolChanges (fun _ => None) demo_header [demo_child])
    with (i := 0%nat) (h := demo_child) as (Hn & _ & Hd & _ & Hl & _).
  - apply accepted_cons with (uncle := false) (seal := false) (now := 100); [vm_compute; reflexivity|].
    constructor.
  - repeat apply Forall_cons_2; [| |constructor]; vm_compute; (split; split; congruence).
  - intros fee [= <-]. lia.
  - reflexivity.
  - split; [exact Hn|]. split; [exact Hd|]. apply Hl.
Defined.
